(* ===== verification/_CoqProject ===== *)
-Q . S2P
Prelude.v
JsObject.v
DataGrid.v
JsNum.v
JsString.v
JsValue.v
Types.v
Effects.v
AlertMappers.v
CaseStore.v
UseTriage.v
Session.v
AlertsWs.v
JsDate.v
LoadStore.v
TraceWs.v
RateLimit.v
Scenarios.v
DemoRun.v
ProxyRoutes.v
SimulateRoute.v
Auth.v
Waitlist.v
TestVectors.v
CaseRepository.v
DbSchema.v
TraceRoutes.v
TracePanels.v
TraceLoads.v
TraceTable.v
Citations.v
Stepper.v
CaseClient.v
SimulatePage.v
SimulateView.v
LoadPage.v
LoadView.v
QueuePage.v
AlertTable.v
CasePage.v
WorkbenchPages.v
PublicPages.v
Marketing.v
Markup.v
FlowDiagram.v
Telemetry.v
Catalog.v
SiteState.v
SiteSections.v
Site.v
AppShell.v
CaseView.v
CaseInvestigation.v
PageViews.v
FormViews.v
EndToEnd.v
Env.v
Dashboard.v
ChartUi.v
DashboardTable.v
DashboardPage.v
TriageFeatures.v
TriageRoute.v
TriageProofs.v
TriageTheorems.v
Outage.v
Flows.v
TriageDurable.v
