(* ===== verification/Prelude.v ===== *)
(** * Attest workbench: verification development (root file)

    The program is the workbench of Attest, a Next.js application under
    [src/apps/workbench/src] (paths below are relative to it). Analysts use
    it to watch fired detections, open cases, have them triaged by the
    orchestrator and inspect the signed trace; visitors use a public demo and
    a waitlist. The services behind it (control plane, orchestrator,
    collector, load generator, MCP gateway, Arroyo) are separate programs and
    appear here only through their answers.

    ** Parts of the program and their models

    Language and platform:
    - [Prelude]: deduplication and stable sorting loops, reachability
      ([star]), list and string lemmas, tactics, the hint database [attest];
    - [JsObject], [JsNum], [JsString], [JsValue], [JsDate]: the parts of
      JavaScript the code uses: ordered objects, binary64 numbers, byte
      strings, JSON values with truthiness and coercions, dates;
    - [Effects]: exceptions and the monad [M] of route handlers, whose
      requests, clock readings and logs are answered by an arbitrary
      environment; weakest-precondition rules and the predicates [sends],
      [silent], [answered] about what a handler sent and was told.

    Data and pure components:
    - [Types]: [lib/mock-data.ts], [types/db.ts];
    - [AlertMappers]: [lib/ocsf-to-alert.ts], [lib/detection-to-alert.ts],
      [lib/server/enrich-alert.ts];
    - [Scenarios]: [lib/scenarios.ts];
    - [TriageFeatures]: the enrichment in
      [app/api/cases/[caseId]/triage/route.ts].

    Browser state:
    - [CaseStore]: [lib/stores/case-store.ts], one function per action, with
      an abstract bounded-map specification ([spec_action]);
    - [LoadStore]: [lib/stores/load-store.ts];
    - [UseTriage]: [hooks/use-triage.ts] over [CaseStore], as events of one
      page ([fire]) with React's effect rules; [Session]: sequences of
      those events and of reloads of the page;
    - [DataGrid]: what the tables use of the table library, as a class of
      operations ([TableLib]) with laws ([TableLaws]) and an instance
      ([RefTable]); [AlertTable], [TraceTable], [DashboardTable]: the tables
      of [alert-queue.tsx] (with its live queue),
      [attestation-trace-panel.tsx] and [components/data-table.tsx] over it;
    - [AlertsWs], [TraceWs]: [hooks/use-alerts-ws.ts] and
      [hooks/use-case-trace-ws.ts], as step relations over sockets, timers
      and (for the trace) token requests and [CaseStore];
    - [TracePanels]: the logic of [components/workbench/]
      [investigator-trace-stepper.tsx], [reasoning-trace-viewer.tsx] and
      [attestation-trace-panel.tsx];
    - [TraceLoads]: the requests for the stored trace of
      [attestation-trace-panel.tsx] and [case-workbench.tsx], over one model
      of overlapping requests ([Loader]);
    - [Citations]: evidence citations of [reasoning-trace-viewer.tsx];
    - [Stepper]: [components/reui/stepper.tsx], the widget's state, keyboard
      and items, and the items the two steppers show with it;
    - [CaseClient]: the client part of a case, [case-workbench.tsx],
      [case-investigation-client.tsx], [classifier-evidence-panel.tsx];
    - [SimulatePage]: [app/workbench/simulate/page.tsx] with its store, as
      events of one page over requests and intervals ([page_handle]);
      [SimulateView]: what the page renders in each of its states;
    - [LoadPage]: [app/workbench/load/page.tsx] over [LoadStore], as events
      over requests, sockets and timers ([lp_handle]);
    - [CaseView]: what a case page shows: [case-workbench.tsx] with its
      dialog, [investigator-trace-stepper.tsx] with the clock of a triage,
      [reasoning-trace-viewer.tsx], [status-badge.tsx]; [LoadView]: what the
      load page shows;
    - [CaseInvestigation]: the component of [case-investigation-client.tsx],
      which puts [CaseStore], [UseTriage], [TraceWs] and [CaseClient]
      together, as events over one store ([client_step]);
    - [PublicPages]: the login and waitlist forms, the data of the demo
      section, the command palette and the sign-out button; [FormViews]: the two forms as
      they are filled in, with the browser's checks, the settings page and
      the frame of the workbench;
    - [Marketing]: [components/marketing/stack-data.ts], [lib/llms.ts] and
      its routes, the deployment section, the attack carousel's timers;
    - [FlowDiagram]: [components/marketing/flow-diagram.tsx], the cycled
      index and what the diagrams highlight;
    - [Markup]: what a visitor reads and follows of a rendered tree: ids,
      links, buttons, texts; [SiteState]: the widgets with state on the
      public pages (the verification animation, the access gate, the copy
      button); [SiteSections]: the sections of [components/marketing] that
      the pages use, as trees; [Site]: the home page and the stack page,
      with the machine of the home page ([home_handle]);
    - [Telemetry]: what [lib/sentry.ts], [lib/analytics.ts] and
      [components/shared/posthog-pageview.tsx] give to their clients;
    - [Catalog]: the rule files [src/detections/*.heliql] and the marketing
      table of rules, next to the rules page;
    - [AppShell]: the sidebar ([components/ui/sidebar.tsx],
      [hooks/use-mobile.tsx], [components/workbench/attest-sidebar.tsx]), the
      case-state store and the clock;
    - [Env]: [lib/env.ts] and [lib/db.ts];
    - [Dashboard], [DashboardPage]: the example dashboard: the chart's filter
      and labels and the table's reordering; its page with the sidebar, the
      menus, the cards and the chart's ranges;
    - [ChartUi]: [components/ui/chart.tsx], colours, tooltip and legend;
    - [TestVectors], [EndToEnd]: the repository's unit tests of the modelled
      code, evaluated on the model, and its browser tests with their fixture
      page [app/workbench/e2e-fixtures/hybrid/page.tsx].

    Server:
    - [CaseRepository]: [lib/server/case-repository.ts] against the class
      [CaseTables] of SQL statements with the laws [CaseTablesLaws] of the
      two tables; [MemTables] is an instance, used by the witnesses;
    - [DbSchema]: [ensureCaseSchema] of the repository, [types/db.ts], the
      migrations [infra/db/sql/0001_auth.sql] and [0004_workbench_cases.sql],
      and the configuration of the session library in [lib/auth.ts];
    - [TriageRoute], [TriageProofs], [TriageTheorems]: the triage route as a
      state machine of any number of concurrent requests, its invariants and
      its properties; [Outage]: the schema check of [DbSchema] as it fails
      for one server process, over all its requests; [TriageDurable]: the
      verdicts the route stores, read back by the pages and the hook;
    - [TraceRoutes]: [app/api/cases/[caseId]/trace/route.ts];
    - [QueuePage]: [app/workbench/queue/page.tsx],
      [app/workbench/cases/page.tsx] and the logic of
      [components/workbench/alert-queue.tsx];
    - [CasePage]: [app/workbench/cases/[id]/page.tsx];
    - [WorkbenchPages]: the rules, agents, administration and hunt pages;
      [PageViews]: what they, the queue and the case list show;
    - [RateLimit], [DemoRun], [Waitlist]: the public routes
      [app/api/demo/*] and [app/api/waitlist/route.ts] with [lib/waitlist.ts];
    - [SimulateRoute]: [app/api/simulate/*];
    - [ProxyRoutes]: the routes that forward to one service;
    - [Auth]: [lib/auth.ts], [proxy.ts], [app/api/auth/*].

    Interactions:
    - [Flows]: pages whose requests are answered by the modelled routes
      ([Effects.arrives] relates a response to what the browser receives):
      simulation and verification and that the page renders in all its
      states, the demo and its card, live steps and
      their storage, triage and the shown verdict, overrides, the hunt page,
      the socket of a live trace.

    How they interact. Detections arrive through [QueuePage] (and live
    through [AlertsWs]), are merged with stored cases ([AlertMappers],
    [CaseRepository]); [CasePage] stores a snapshot; [UseTriage] asks
    [TriageRoute] for a verdict, which writes [CaseRepository]; trace steps
    come through [TraceWs] into [CaseStore] and through [TraceRoutes] into
    [CaseRepository].

    ** What the theorems show

    - Triage: a verdict returned or stored comes from the database or from
      an ok answer of the orchestrator to a request for the same case; every
      request is answered; the in-flight map does not leak; one job per case
      when the requests do not overlap before registration, and a schedule
      with two jobs when they do; a stored verdict is what a later page load
      shows, and the verdict of a request that joined another one's job is
      not stored.
    - Enrichment: what the whole of it keeps, the baseline step included
      (a reported deviation of zero is replaced), that only enriched alerts
      are triaged ([triage_alert_enriched]), bounds of the severity score and
      of the region deviation, the hour of midnight.
    - Case store: refinement of the bounded map, the invariant of every
      sequence of actions, idempotent replay of traces.
    - Hooks: at most one triage request of a page per five minutes, one live
      connection while the feed is mounted, what reaches the trace of a case;
      and the defects: the error that is never shown, the connection that
      survives the unmount; reloading the page does not repeat a triage that
      is being waited for; the feed's alerts are those of the detections
      delivered, each once. A case page as a whole is never idle without a
      reason when its case was not marked as running, and its trace is what
      was delivered, whatever else happens; a page that finds a fresh mark
      and is told nothing waits for nothing.
    - Tables, over any library with the laws: every live alert of a tab that
      passes the filters is on exactly one page, rows are never lost by
      reordering or by changing the page.
    - Pages: polling of a simulation ends when its answers are readable and
      prompt, at most one interval is alive when runs do not overlap, and an
      interval that nothing can clear when they do; the statistics of a
      batch; one load request at a time and one live metrics socket; an
      override sent at most once; every live step sent for storage once; the
      progress shown by the stepper only advances; what a settled trace panel
      shows is the last answer for its case when answers come in order; the
      text of a step is shown whole with all its citations.
    - Rules, administration, queue and case pages: what each shows for every
      answer, failures included, and the pipeline name that makes two of them
      fail; every step of a case is on its timeline exactly once; the dialog
      of a case page refines the client; the start of a triage is kept across
      unmounts; the totals and charts of the load page.
    - Interactions ([Flows]): what a page shows or stores when the routes
      answer it comes from the services: stages shown as passed, the demo's
      envelope (row by row) and report, the verdict of a case, the outcome of
      an override; live steps are sent once and read back, and the panels show
      one row for each stored action and kind; a trace socket carries a
      token for the signed-in user and the case.
    - Forms: the page asked for is returned to after the sign-in, the
      waitlist form claims success when a mail was accepted and, for a filled
      hidden field, without any, and the browser and the route agree on what
      can be submitted.
    - Tables: the types, the migrations and the repository's statements
      agree; the statements are sent once, and a failure of them is for good;
      the flag of the seed opens the sign-up.
    - Outages: after one failed statement of the schema check no alert reaches
      the orchestrator and nothing is written for the life of the server
      process, triage and trace requests are answered with that error, and
      the queue goes on showing the detections without their stored cases.
    - Public pages: on the home page and the stack page every link to a
      section leads to one that is there, calls to action lead to routes of
      the program, and the demo's animation claims a verification only after
      its steps; the numbers of the pages agree with the rule catalogue.
    - Repository and its routes: inserted trace rows, keys that determine
      their columns, read-back of posted steps, revisits of a case page,
      rows and counters of the queue.
    - Public and forwarding routes: attested success of the demo, bounds of
      the rate limiter between and across the clears of its map, no SQL injection by the event id, provenance of every
      reported stage, authorised overrides, the session secret, the forced
      logout, trace tokens, mails of the waitlist.

    ** Modelling decisions

    - Code between two awaits is atomic; interleavings are explicit where
      state is shared by requests ([TriageRoute], the hooks). A route with no
      shared state is a sequential program of [M]; requests of one
      [Promise.all] whose results are independent are performed in order in
      an environment that answers arbitrarily.
    - Strings are UTF-8 bytes; case mapping and character classes act on
      ASCII. Lengths and slices agree with UTF-16 on ASCII text.
    - Numbers that carry data are binary64 values; counters and epoch
      milliseconds below 2^53 are integers.
    - Bodies of the declared TypeScript types are assumed where the code
      asserts them; a conversion that meets another type yields [None]. So
      [AlertsWs.onmessage] gets typed detections, and the texts that
      [PublicPages.TryDemo.envelope_rows] shows are texts: React would throw
      on an object there. Properties an object inherits ([constructor] among
      the keys of [DETECTION_TITLES]) are not looked up.
    - A [jsonb] value is read back as it was stored: the order of its keys,
      repeated keys and the sign of zero are not normalised.
    - The alert a page gives to [useTriage] is the same object for the life of
      a mount; a new one would run the effect again, which its ref stops.
    - [QueuePage.qp_alerts] is the list the page gives to the live queue;
      [live_rows] is what the queue makes of it.
    - Fuel occurs only in [JsNum] for printing digits, where it is the
      logarithm of the number and cannot run out.
    - Parameters: locale and time-zone formatting, date parsing, the email
      pattern, the session and JWT libraries, environment variables.

    ** Not modelled

    - Styles, icons, animation and the order of boxes on the screen; the
      texts that the public pages show are modelled, the others where they
      depend on the state.
    - The vendored parts: the shadcn and ReUI kits ([components/ui],
      [components/reui]; the state of the sidebar, the stepper and the chart
      is modelled): they hold no logic of the program.
    - Nine marketing sections that no page uses, the coverage page, the loading
      placeholders, the image for link previews: fixed content.
    - The libraries: what Better Auth does with its configuration, the clients
      for analytics and error reporting beyond what they are given, the
      implementation of TanStack Table (its contract is the class of
      [DataGrid]), React beyond its effect rules, PostgreSQL beyond the laws
      of the statements that are sent.
    - The services of the repository in Rust and Python, its detection
      language and its models: other languages, met here by their answers. *)
From stdpp Require Export base option list strings gmap sorting.
From Stdlib Require Export ZArith Lia Bool.
From Stdlib Require Import Sorted.

#[global] Open Scope Z_scope.

Declare Scope js_scope.
Delimit Scope js_scope with js.

(** The hint and rewrite databases of the development: [attest] for
    goals closed by [eauto], [attest_simp] for rewriting. *)
Create HintDb attest.

(** ** Tactics *)

(** Case analysis on every [match]/[if] scrutinee of the goal or of a
    hypothesis, clearing the impossible branches. *)
Ltac break :=
  repeat (case_match; simplify_eq/=; try done).

(** Split a goal that is a chain of conjunctions and try the cheap closers. *)
Ltac splits :=
  repeat match goal with |- _ /\ _ => split end.

(** Turn boolean (in)equations in the context into propositions. *)
Ltac bool_to_prop :=
  repeat match goal with
  | H : _ && _ = true |- _ => apply andb_true_iff in H; destruct H
  | H : _ || _ = false |- _ => apply orb_false_iff in H; destruct H
  | H : negb _ = true |- _ => apply negb_true_iff in H
  | H : negb _ = false |- _ => apply negb_false_iff in H
  | H : (_ <? _) = true |- _ => apply Z.ltb_lt in H
  | H : (_ <? _) = false |- _ => apply Z.ltb_ge in H
  | H : (_ <=? _) = true |- _ => apply Z.leb_le in H
  | H : (_ <=? _) = false |- _ => apply Z.leb_gt in H
  | H : (_ =? _) = true |- _ => apply Z.eqb_eq in H
  | H : (_ =? _) = false |- _ => apply Z.eqb_neq in H
  | H : String.eqb _ _ = true |- _ => apply String.eqb_eq in H
  | H : String.eqb _ _ = false |- _ => apply String.eqb_neq in H
  end.

(** ** Equality of JavaScript strings ([===] on strings) *)
Notation "x =?s y" := (String.eqb x y) (at level 70) : js_scope.

(** ** Removing duplicates while keeping first occurrences

    The idiom [const seen = new Set(); xs.filter(x => { const k = key(x);
    if (seen.has(k)) return false; seen.add(k); return true; })] occurs in
    several components; [dedup_by] is that loop, with the set it starts from. *)
Section Dedup.
Context {A K : Type} `{Countable K}.
Variable key : A → K.

Fixpoint dedup_by (seen : gset K) (l : list A) : list A :=
  match l with
  | [] => []
  | x :: l' =>
      if decide (key x ∈ seen) then dedup_by seen l'
      else x :: dedup_by ({[key x]} ∪ seen) l'
  end.

(** The set after the loop. *)
Fixpoint dedup_seen (seen : gset K) (l : list A) : gset K :=
  match l with
  | [] => seen
  | x :: l' => dedup_seen ({[key x]} ∪ seen) l'
  end.

Lemma dedup_seen_elem seen l k :
  k ∈ dedup_seen seen l ↔ k ∈ seen ∨ k ∈ key <$> l.
Proof.
  revert seen; induction l as [|x l IH]; intros seen; simpl.
  - rewrite elem_of_nil. naive_solver.
  - rewrite IH, elem_of_union, elem_of_singleton; csimpl. rewrite elem_of_cons. naive_solver.
Qed.

Lemma dedup_by_fresh seen l x : x ∈ dedup_by seen l → key x ∉ seen.
Proof.
  revert seen; induction l as [|y l IH]; intros seen; simpl.
  - by intros ?%elem_of_nil.
  - case_decide as D; [apply IH|]. intros [->|Hx]%elem_of_cons; [done|].
    apply IH in Hx. set_solver.
Qed.

(** No two kept elements share a key. *)
Lemma dedup_by_NoDup seen l : NoDup (key <$> dedup_by seen l).
Proof.
  revert seen; induction l as [|x l IH]; intros seen; simpl; [constructor|].
  case_decide as D; [apply IH|]. csimpl. constructor; [|apply IH].
  intros (y & E & Hy)%list_elem_of_fmap. apply dedup_by_fresh in Hy. set_solver.
Qed.

Lemma dedup_by_sublist seen l : dedup_by seen l `sublist_of` l.
Proof.
  revert seen; induction l as [|x l IH]; intros seen; simpl; [constructor|].
  case_decide; by constructor.
Qed.

Lemma dedup_by_subset seen l x : x ∈ dedup_by seen l → x ∈ l.
Proof. intros Hx. eapply elem_of_submseteq; [done|]. apply sublist_submseteq, dedup_by_sublist. Qed.

(** Every key that occurs, and was not seen before, is kept once. *)
Lemma dedup_by_keys seen l k :
  k ∈ key <$> dedup_by seen l ↔ k ∈ key <$> l ∧ k ∉ seen.
Proof.
  revert seen; induction l as [|x l IH]; intros seen; simpl.
  - rewrite !elem_of_nil. naive_solver.
  - case_decide as D; csimpl; rewrite !elem_of_cons.
    + rewrite IH. naive_solver.
    + rewrite IH, not_elem_of_union, not_elem_of_singleton.
      destruct (decide (k = key x)); naive_solver.
Qed.

(** The kept element for a key is its first occurrence. *)
Lemma dedup_by_first seen l1 x l2 :
  key x ∉ seen → key x ∉ key <$> l1 → x ∈ dedup_by seen (l1 ++ x :: l2).
Proof.
  revert seen; induction l1 as [|y l1 IH]; intros seen Hs Hl; simpl.
  - case_decide; [done|]. left.
  - csimpl in Hl. rewrite not_elem_of_cons in Hl. destruct Hl as [Hy Hl].
    case_decide; [by apply IH|]. right. apply IH; set_solver.
Qed.

Lemma dedup_by_app seen l1 l2 :
  dedup_by seen (l1 ++ l2) = dedup_by seen l1 ++ dedup_by (dedup_seen seen l1) l2.
Proof.
  revert seen; induction l1 as [|x l1 IH]; intros seen; simpl; [done|].
  case_decide as D; [|simpl; by rewrite IH].
  rewrite IH. do 3 f_equal. set_solver.
Qed.

Lemma dedup_seen_app seen l1 l2 : dedup_seen seen (l1 ++ l2) = dedup_seen (dedup_seen seen l1) l2.
Proof. revert seen; induction l1 as [|x l1 IH]; intros seen; simpl; [done|]. apply IH. Qed.

Lemma dedup_by_id seen l :
  NoDup (key <$> l) → (∀ x, x ∈ l → key x ∉ seen) → dedup_by seen l = l.
Proof.
  revert seen; induction l as [|x l IH]; intros seen Hn Hs; simpl; [done|].
  csimpl in Hn. apply NoDup_cons in Hn as [Hx Hn].
  case_decide as D; [by specialize (Hs x (list_elem_of_here _ _))|].
  f_equal. apply IH; [done|]. intros y Hy.
  assert (key y ≠ key x) by (intros E; apply Hx; rewrite <- E; by apply list_elem_of_fmap_2).
  specialize (Hs y (list_elem_of_further _ _ _ Hy)). set_solver.
Qed.

Lemma dedup_by_idemp seen l : dedup_by seen (dedup_by seen l) = dedup_by seen l.
Proof. apply dedup_by_id; [apply dedup_by_NoDup|apply dedup_by_fresh]. Qed.
End Dedup.

(** When no key occurs twice in a concatenation, no two parts share one. *)
Lemma NoDup_concat_batches {A K} (key : A → K) (ls : list (list A)) :
  NoDup (key <$> concat ls) →
  ∀ i j b1 b2 x1 x2, ls !! i = Some b1 → ls !! j = Some b2 → x1 ∈ b1 → x2 ∈ b2 → key x1 = key x2 → i = j.
Proof.
  induction ls as [|l ls IH]; intros Hn i j b1 b2 x1 x2 Hi Hj H1 H2 E; [done|].
  simpl in Hn. rewrite fmap_app in Hn. apply NoDup_app in Hn as (_ & Hd & Hn).
  assert (Hrest : ∀ k b x, ls !! k = Some b → x ∈ b → key x ∈ key <$> concat ls).
  { intros k b x Hk Hx. apply list_elem_of_fmap_2. apply list_elem_of_In, in_concat. exists b.
    split; apply list_elem_of_In; [by eapply list_elem_of_lookup_2|done]. }
  destruct i as [|i], j as [|j]; simpl in *; simplify_eq.
  - done.
  - exfalso. apply (Hd (key x1)); [by apply list_elem_of_fmap_2|]. rewrite E. by eapply Hrest.
  - exfalso. apply (Hd (key x2)); [by apply list_elem_of_fmap_2|]. rewrite <- E. by eapply Hrest.
  - f_equal. by eapply IH.
Qed.

(** ** Stable sorting ([Array.prototype.sort] with a comparator)

    ECMAScript requires the sort to be stable; with a comparator that is a
    total preorder the result is unique, and insertion sort computes it.
    [leb x y] is [compare(x, y) <= 0]. *)
Section StableSort.
Context {A : Type}.
Variable leb : A → A → bool.

Fixpoint sort_insert (x : A) (l : list A) : list A :=
  match l with
  | [] => [x]
  | y :: l' => if leb x y then x :: l else y :: sort_insert x l'
  end.

Fixpoint sort_by (l : list A) : list A :=
  match l with
  | [] => []
  | x :: l' => sort_insert x (sort_by l')
  end.

Lemma sort_insert_perm x l : sort_insert x l ≡ₚ x :: l.
Proof.
  induction l as [|y l IH]; simpl; [done|]. case_match; [done|].
  rewrite IH. constructor.
Qed.

Lemma sort_by_perm l : sort_by l ≡ₚ l.
Proof. induction l as [|x l IH]; simpl; [done|]. by rewrite sort_insert_perm, IH. Qed.

Lemma sort_by_length l : length (sort_by l) = length l.
Proof. by rewrite sort_by_perm. Qed.

Hypothesis leb_total : ∀ x y, leb x y = true ∨ leb y x = true.
Hypothesis leb_trans : ∀ x y z, leb x y = true → leb y z = true → leb x z = true.

Lemma sort_insert_sorted x l :
  StronglySorted (λ a b, leb a b = true) l →
  StronglySorted (λ a b, leb a b = true) (sort_insert x l).
Proof.
  induction 1 as [|y l Hs IH Hy]; simpl; [repeat constructor|].
  case_match eqn:E.
  - constructor; [by constructor|]. constructor; [done|].
    eapply Forall_impl; [exact Hy|]. simpl. eauto.
  - constructor; [done|]. rewrite sort_insert_perm. constructor; [|done].
    destruct (leb_total x y); congruence.
Qed.

Lemma sort_by_sorted l : StronglySorted (λ a b, leb a b = true) (sort_by l).
Proof. induction l; simpl; [constructor|]. by apply sort_insert_sorted. Qed.

(** The head of a sorted list is a minimum. *)
Lemma sort_by_head_min l x l' :
  sort_by l = x :: l' → ∀ y, y ∈ l → leb x y = true.
Proof.
  intros E y Hy. pose proof (sort_by_sorted l) as S. rewrite E in S.
  rewrite <- (sort_by_perm l), E in Hy.
  apply StronglySorted_inv in S as [_ S]. rewrite Forall_forall in S.
  apply elem_of_cons in Hy as [->|Hy]; [|by apply S].
  by destruct (leb_total x x).
Qed.
End StableSort.

(** The sort only depends on the comparisons of the list's elements. *)
Lemma sort_by_ext {A} (leb leb' : A → A → bool) l :
  (∀ x y, x ∈ l → y ∈ l → leb x y = leb' x y) → sort_by leb l = sort_by leb' l.
Proof.
  assert (Hi : ∀ x l, (∀ y, y ∈ l → leb x y = leb' x y) → sort_insert leb x l = sort_insert leb' x l).
  { intros x k. induction k as [|y k IH]; intros H; simpl; [done|].
    rewrite H by left. case_match; [done|]. f_equal. apply IH. intros z Hz. apply H. by right. }
  induction l as [|x l IH]; intros H; simpl; [done|].
  rewrite IH by (intros; apply H; by right). apply Hi. intros y. rewrite sort_by_perm. intros Hy.
  apply H; [left|by right].
Qed.

(** ** [Array.prototype.slice] with a negative start: the last [n] elements *)
Definition take_last {A} (n : nat) (l : list A) : list A := drop (length l - n) l.

Lemma take_last_length {A} n (l : list A) : length (take_last n l) = (n `min` length l)%nat.
Proof. unfold take_last. rewrite length_drop. lia. Qed.

Lemma take_last_all {A} n (l : list A) : (length l ≤ n)%nat → take_last n l = l.
Proof. intros. unfold take_last. by replace (length l - n)%nat with 0%nat by lia. Qed.

Lemma take_last_snoc {A} n (l : list A) x : take_last (S n) (l ++ [x]) = take_last n l ++ [x].
Proof.
  unfold take_last. rewrite length_app. simpl.
  replace (length l + 1 - S n)%nat with (length l - n)%nat by lia.
  rewrite drop_app_le; [done|lia].
Qed.

Lemma take_last_take_last {A} n m (l : list A) :
  (n ≤ m)%nat → take_last n (take_last m l) = take_last n l.
Proof.
  intros. unfold take_last. rewrite length_drop, drop_drop. f_equal. lia.
Qed.

(** ** Reachability of a step relation *)
Section Reach.
Context {S : Type}.
Variable step : S → S → Prop.

Inductive star : S → S → Prop :=
| star_refl s : star s s
| star_snoc s1 s2 s3 : star s1 s2 → step s2 s3 → star s1 s3.

Lemma star_invariant (P : S → Prop) s s' :
  P s → (∀ a b, P a → step a b → P b) → star s s' → P s'.
Proof. intros H0 Hs. induction 1; eauto. Qed.

Lemma star_trans s1 s2 s3 : star s1 s2 → star s2 s3 → star s1 s3.
Proof. intros H1. induction 1; eauto using star. Qed.
End Reach.
#[export] Hint Constructors star : attest.

(** ** Strings *)
Lemma string_app_length (s1 s2 : string) :
  String.length (s1 +:+ s2) = (String.length s1 + String.length s2)%nat.
Proof. induction s1 as [|c s1 IH]; simpl; [done|]. by rewrite IH. Qed.

Lemma string_app_inj_l (s1 s2 t1 t2 : string) :
  String.length s1 = String.length s2 → s1 +:+ t1 = s2 +:+ t2 → s1 = s2 ∧ t1 = t2.
Proof.
  revert s2; induction s1 as [|c s1 IH]; intros [|d s2]; simpl; intros Hl E; try done.
  injection Hl as Hl. injection E as -> E. by destruct (IH s2 Hl E) as [-> ->].
Qed.

Lemma string_app_inj_r (s1 s2 t1 t2 : string) :
  String.length t1 = String.length t2 → s1 +:+ t1 = s2 +:+ t2 → s1 = s2 ∧ t1 = t2.
Proof.
  intros Hl E. apply string_app_inj_l; [|done].
  apply (f_equal String.length) in E. rewrite !string_app_length in E. lia.
Qed.

Lemma string_app_empty_r (s : string) : s +:+ EmptyString = s.
Proof. induction s as [|c s IH]; [done|]. exact (f_equal (String c) IH). Qed.

Lemma string_app_assoc (s1 s2 s3 : string) : (s1 +:+ s2) +:+ s3 = s1 +:+ (s2 +:+ s3).
Proof. induction s1 as [|c s1 IH]; [done|]. exact (f_equal (String c) IH). Qed.

(** ** Lists *)
Lemma filter_length_split {A} (P : A → Prop) `{!∀ x, Decision (P x)} (l : list A) :
  (length (filter P l) + length (filter (λ x, ¬ P x) l))%nat = length l.
Proof.
  induction l as [|x l IH]; [done|]. rewrite !filter_cons.
  repeat case_decide; simpl; try lia; tauto.
Qed.

Lemma filter_length_impl {A} (P Q : A → Prop) `{!∀ x, Decision (P x)} `{!∀ x, Decision (Q x)} (l : list A) :
  (∀ x, x ∈ l → P x → Q x) → (length (filter P l) ≤ length (filter Q l))%nat.
Proof.
  induction l as [|x l IH]; intros HPQ; [done|]. rewrite !filter_cons.
  assert (IH' : (length (filter P l) ≤ length (filter Q l))%nat)
    by (apply IH; intros y Hy; apply HPQ; by right).
  pose proof (HPQ x (list_elem_of_here _ _)).
  repeat case_decide; simpl; try lia; tauto.
Qed.

Lemma filter_id {A} (P : A → Prop) `{!∀ x, Decision (P x)} (l : list A) :
  (∀ x, x ∈ l → P x) → filter P l = l.
Proof.
  induction l as [|x l IH]; intros HPQ; [done|]. rewrite filter_cons_True by (apply HPQ; left).
  f_equal. apply IH. intros y Hy. apply HPQ. by right.
Qed.

Lemma filter_nil {A} (P : A → Prop) `{!∀ x, Decision (P x)} (l : list A) :
  (∀ x, x ∈ l → ¬ P x) → filter P l = [].
Proof.
  induction l as [|x l IH]; intros HPQ; [done|]. rewrite filter_cons_False by (apply HPQ; left).
  apply IH. intros y Hy. apply HPQ. by right.
Qed.
