(* ===== verification/JsObject.v ===== *)
(** * JavaScript objects used as maps

    An object is an association list in property-creation order: assigning
    an existing property keeps its position, a new one goes to the end
    ([{...o, [k]: v}] behaves the same way).  [obj_entries] is the order of
    [Object.entries]: array-index keys first, in ascending order, then the
    others in creation order. *)
From Stdlib Require Import Ascii.
From S2P Require Import Prelude.

Notation jsobj A := (list (string * A)).

Section Obj.
Context {A : Type}.
Implicit Types (o : jsobj A) (k : string) (v : A).

(** [o[k]]: [None] is [undefined]. *)
Fixpoint obj_get k o : option A :=
  match o with
  | [] => None
  | (k', v) :: o' => if String.eqb k k' then Some v else obj_get k o'
  end.

(** [k in o] for an own property. *)
Definition obj_has k o : bool := bool_decide (is_Some (obj_get k o)).

(** [o[k] = v], and [{...o, [k]: v}]. *)
Fixpoint obj_set k v o : jsobj A :=
  match o with
  | [] => [(k, v)]
  | (k', v') :: o' =>
      if String.eqb k k' then (k, v) :: o' else (k', v') :: obj_set k v o'
  end.

(** [delete o[k]]. *)
Definition obj_delete k o : jsobj A := filter (λ kv, kv.1 ≠ k) o.

Definition obj_keys o : list string := o.*1.

(** The map an object stands for. *)
Definition obj_map o : gmap string A := list_to_map o.

(** Objects have no duplicate property. *)
Definition obj_wf o : Prop := NoDup o.*1.

Lemma obj_get_map k o : obj_map o !! k = obj_get k o.
Proof.
  unfold obj_map. induction o as [|[k' v] o IH]; simpl; [by rewrite lookup_empty|].
  destruct (String.eqb_spec k k') as [->|Hne]; [by rewrite lookup_insert_eq|].
  by rewrite lookup_insert_ne.
Qed.

Lemma obj_get_set_eq k v o : obj_get k (obj_set k v o) = Some v.
Proof.
  induction o as [|[k' v'] o IH]; simpl; [by rewrite String.eqb_refl|].
  destruct (String.eqb k k') eqn:E; simpl; [by rewrite String.eqb_refl|]. by rewrite E.
Qed.

Lemma obj_get_set_ne k k' v o : k ≠ k' → obj_get k (obj_set k' v o) = obj_get k o.
Proof.
  intros Hne. induction o as [|[k1 v1] o IH]; simpl.
  - by apply String.eqb_neq in Hne as ->.
  - destruct (String.eqb_spec k' k1) as [->|]; simpl.
    + by apply String.eqb_neq in Hne as ->.
    + by rewrite IH.
Qed.

Lemma obj_map_set k v o : obj_map (obj_set k v o) = <[k:=v]> (obj_map o).
Proof.
  apply map_eq; intros j. rewrite obj_get_map.
  destruct (decide (j = k)) as [->|Hne].
  - by rewrite obj_get_set_eq, lookup_insert_eq.
  - by rewrite obj_get_set_ne, lookup_insert_ne, obj_get_map.
Qed.

Lemma obj_get_delete_eq k o : obj_get k (obj_delete k o) = None.
Proof.
  unfold obj_delete. induction o as [|[k' v] o IH]; [done|].
  rewrite filter_cons; simpl. case_decide as D; simpl; [|done].
  destruct (String.eqb_spec k k'); [congruence|done].
Qed.

Lemma obj_get_delete_ne k k' o : k ≠ k' → obj_get k (obj_delete k' o) = obj_get k o.
Proof.
  intros Hne. unfold obj_delete. induction o as [|[k1 v] o IH]; [done|].
  rewrite filter_cons; simpl. case_decide as D; simpl; [by rewrite IH|].
  assert (k1 = k') as -> by (destruct (decide (k1 = k')); tauto).
  by apply String.eqb_neq in Hne as ->.
Qed.

Lemma obj_map_delete k o : obj_map (obj_delete k o) = delete k (obj_map o).
Proof.
  apply map_eq; intros j. rewrite obj_get_map.
  destruct (decide (j = k)) as [->|Hne].
  - by rewrite obj_get_delete_eq, lookup_delete_eq.
  - by rewrite obj_get_delete_ne, lookup_delete_ne, obj_get_map.
Qed.

Lemma obj_get_elem k v o : obj_get k o = Some v → (k, v) ∈ o.
Proof.
  induction o as [|[k' v'] o IH]; simpl; [done|].
  destruct (String.eqb_spec k k') as [->|]; intros E; simplify_eq; [left|right; auto].
Qed.

Lemma obj_elem_get k v o : obj_wf o → (k, v) ∈ o → obj_get k o = Some v.
Proof.
  intros W Hin. rewrite <- obj_get_map. by apply elem_of_list_to_map_1.
Qed.

Lemma obj_get_keys k o : is_Some (obj_get k o) ↔ k ∈ o.*1.
Proof.
  rewrite <- obj_get_map. unfold obj_map. split.
  - intros [v Hv]. apply elem_of_list_to_map_2 in Hv.
    apply list_elem_of_fmap. by exists (k, v).
  - intros Hk. destruct (list_to_map o !! k) eqn:E; [done|].
    by apply not_elem_of_list_to_map in E.
Qed.

Lemma obj_has_spec k o : obj_has k o = true ↔ is_Some (obj_get k o).
Proof. unfold obj_has. by rewrite bool_decide_eq_true. Qed.

Lemma obj_set_keys k v o :
  (obj_set k v o).*1 = if obj_has k o then o.*1 else o.*1 ++ [k].
Proof.
  unfold obj_has. induction o as [|[k' v'] o IH]; simpl; [done|].
  destruct (String.eqb_spec k k') as [->|Hne]; csimpl; [done|].
  rewrite IH. by case_bool_decide.
Qed.

Lemma obj_set_wf k v o : obj_wf o → obj_wf (obj_set k v o).
Proof.
  unfold obj_wf. intros W. rewrite obj_set_keys. destruct (obj_has k o) eqn:E; [done|].
  apply NoDup_app; split_and!; [done| |by apply NoDup_singleton].
  intros x Hx ->%list_elem_of_singleton. apply obj_get_keys, obj_has_spec in Hx. congruence.
Qed.

Lemma obj_delete_wf k o : obj_wf o → obj_wf (obj_delete k o).
Proof.
  unfold obj_wf, obj_delete. intros W. eapply sublist_NoDup; [exact W|].
  apply fmap_sublist, sublist_filter.
Qed.

Lemma obj_set_length k v o :
  length (obj_set k v o) = if obj_has k o then length o else S (length o).
Proof.
  transitivity (length (obj_set k v o).*1); [by rewrite length_fmap|].
  rewrite obj_set_keys. case_match; [by rewrite length_fmap|].
  rewrite length_app, length_fmap. simpl. lia.
Qed.

Lemma obj_delete_length_le k o : (length (obj_delete k o) ≤ length o)%nat.
Proof. apply length_filter. Qed.

Lemma obj_delete_length k o :
  obj_wf o → is_Some (obj_get k o) → S (length (obj_delete k o)) = length o.
Proof.
  unfold obj_wf, obj_delete. induction o as [|[k' v] o IH]; simpl; [by intros _ [? ?]|].
  intros [Hk W]%NoDup_cons Hs. rewrite filter_cons; simpl. case_decide as D; simpl.
  - rewrite IH; [done..|]. apply String.eqb_neq in D. rewrite String.eqb_sym in D. by rewrite D in Hs.
  - assert (k' = k) as -> by (destruct (decide (k' = k)); tauto).
    f_equal. clear IH Hs W D. induction o as [|[k1 v1] o IH]; [done|].
    csimpl in Hk. apply not_elem_of_cons in Hk as [Hk1 Hk].
    rewrite filter_cons; simpl. case_decide; [|congruence]. simpl. by rewrite IH.
Qed.

Lemma obj_delete_elem k o kv : kv ∈ obj_delete k o ↔ kv ∈ o ∧ kv.1 ≠ k.
Proof. unfold obj_delete. rewrite list_elem_of_filter. tauto. Qed.
End Obj.

#[export] Hint Resolve obj_set_wf obj_delete_wf : attest.
#[export] Hint Rewrite @obj_get_set_eq @obj_get_delete_eq @obj_map_set @obj_map_delete : attest_simp.

(** ** Property enumeration order *)

Definition digit_of (c : Ascii.ascii) : option N :=
  let n := Ascii.N_of_ascii c in
  if ((48 <=? n) && (n <=? 57))%N then Some (n - 48)%N else None.

Fixpoint digits_value (acc : N) (s : string) : option N :=
  match s with
  | EmptyString => Some acc
  | String c s' =>
      match digit_of c with
      | Some d => digits_value (10 * acc + d)%N s'
      | None => None
      end
  end.

(** Canonical array indices: ["0"] or a decimal without leading zero, below 2^32 - 1. *)
Definition array_index (k : string) : option N :=
  match k with
  | EmptyString => None
  | String "0"%char EmptyString => Some 0%N
  | String "0"%char _ => None
  | _ => match digits_value 0 k with
         | Some n => if (n <? 4294967295)%N then Some n else None
         | None => None
         end
  end.

Definition index_leb {A} (x y : string * A) : bool :=
  match array_index x.1, array_index y.1 with
  | Some a, Some b => (a <=? b)%N
  | _, _ => true
  end.

(** [Object.entries(o)]. *)
Definition obj_entries {A} (o : jsobj A) : jsobj A :=
  sort_by index_leb (filter (λ kv, is_Some (array_index kv.1)) o)
  ++ filter (λ kv, ¬ is_Some (array_index kv.1)) o.

Lemma obj_entries_perm {A} (o : jsobj A) : obj_entries o ≡ₚ o.
Proof.
  unfold obj_entries. rewrite sort_by_perm.
  induction o as [|kv o IH]; [done|]. rewrite !filter_cons.
  repeat case_decide; try tauto; simpl; [by rewrite IH|]. rewrite <- Permutation_middle. by rewrite IH.
Qed.

Lemma obj_entries_length {A} (o : jsobj A) : length (obj_entries o) = length o.
Proof. by rewrite obj_entries_perm. Qed.
