(* ===== verification/DataGrid.v ===== *)
(** * The table library, as the tables of the program rely on it

    [@tanstack/react-table] is a package; here it is a class of operations
    ([TableLib]) with the documented laws ([TableLaws]) that the tables of
    [components/workbench/alert-queue.tsx],
    [components/workbench/attestation-trace-panel.tsx] and
    [components/data-table.tsx] use. The tables' own code (columns, filters,
    comparison, what each control calls) is in [AlertTable], [TraceTable] and
    [Dashboard]. [RefTable] is an instance, for the witnesses; the lemmas
    about pages use the laws only. *)
From S2P Require Import Prelude JsObject.

(** A column as the code gives it: its id ([id] or [accessorKey]), size,
    options and functions. [None] stands for a missing function. *)
Record ColumnDef (Row : Type) := mkColumn {
  col_id : string;
  col_size : Z;
  col_enableSorting : bool;
  col_enableHiding : bool;
  col_filterFn : option (string → Row → bool);
  col_sortingFn : option (Row → Row → Z)
}.
Arguments mkColumn {Row} _ _ _ _ _ _.
Arguments col_id {Row} _.
Arguments col_size {Row} _.
Arguments col_enableSorting {Row} _.
Arguments col_enableHiding {Row} _.
Arguments col_filterFn {Row} _.
Arguments col_sortingFn {Row} _.

(** The pieces of state the code keeps with [useState] and gives to the
    library: [sorting] holds column ids with [desc]. *)
Record TableState := mkTable {
  sorting : list (string * bool);
  columnFilters : list (string * string);
  columnVisibility : list (string * bool);
  globalFilter : string;
  pageIndex : Z;
  pageSize : Z
}.

Definition set_globalFilter (v : string) (st : TableState) : TableState :=
  mkTable (sorting st) (columnFilters st) (columnVisibility st) v (pageIndex st) (pageSize st).
Definition set_sorting (s : list (string * bool)) (st : TableState) : TableState :=
  mkTable s (columnFilters st) (columnVisibility st) (globalFilter st) (pageIndex st) (pageSize st).
Definition set_columnFilters (f : list (string * string)) (st : TableState) : TableState :=
  mkTable (sorting st) f (columnVisibility st) (globalFilter st) (pageIndex st) (pageSize st).
Definition set_columnVisibility (v : list (string * bool)) (st : TableState) : TableState :=
  mkTable (sorting st) (columnFilters st) v (globalFilter st) (pageIndex st) (pageSize st).
Definition set_pageIndex (i : Z) (st : TableState) : TableState :=
  mkTable (sorting st) (columnFilters st) (columnVisibility st) (globalFilter st) i (pageSize st).
Definition set_pageSize (n : Z) (st : TableState) : TableState :=
  mkTable (sorting st) (columnFilters st) (columnVisibility st) (globalFilter st) (pageIndex st) n.

(** A row of the library: its position in [data] ([row.index]) and the datum
    ([row.original]). *)
Notation GridRow Row := (nat * Row)%type.

(** ** The interface *)
Class TableLib := {
  getIsSorted : string → TableState → option bool;     (** [Some desc]; [None] is false *)
  toggleSorting : string → bool → TableState → TableState;
  getFilterValue : string → TableState → option string;
  setFilterValue : string → string → TableState → TableState;
  getIsVisible : string → TableState → bool;
  toggleVisibility : string → bool → TableState → TableState;
  setPageIndex : Z → TableState → TableState;
  setPageSize : Z → TableState → TableState;
  (** [autoResetPageIndex], after a change of the data, filters or order *)
  autoReset : TableState → TableState;
  getFilteredRows {Row} : list (ColumnDef Row) → (string → Row → bool) → TableState → list Row → list (GridRow Row);
  getSortedRows {Row} : list (ColumnDef Row) → TableState → list (GridRow Row) → list (GridRow Row);
  getPageRows {Row} : TableState → list (GridRow Row) → list (GridRow Row)
}.

Section Derived.
Context `{TableLib}.

(** [?? EmptyString] on a filter value, as the inputs show it. *)
Definition filter_text (id : string) (st : TableState) : string := default EmptyString (getFilterValue id st).

(** Pages of [n] rows; a page after the last one has no rows. *)
Definition getPageCount (st : TableState) (n : nat) : Z := (Z.of_nat n + pageSize st - 1) / pageSize st.
Definition getCanPreviousPage (st : TableState) : bool := 0 <? pageIndex st.
Definition getCanNextPage (st : TableState) (n : nat) : bool := pageIndex st <? getPageCount st n - 1.

(** The rows of [data], with their positions. *)
Definition core_rows {Row} (data : list Row) : list (GridRow Row) := imap pair data.

Definition passes_column {Row} (st : TableState) (r : Row) (c : ColumnDef Row) : bool :=
  match col_filterFn c with
  | Some f => String.eqb (filter_text (col_id c) st) EmptyString || f (filter_text (col_id c) st) r
  | None => true
  end.

Definition passes {Row} (cols : list (ColumnDef Row)) (g : string → Row → bool) (st : TableState) (r : Row) : bool :=
  (String.eqb (globalFilter st) EmptyString || g (globalFilter st) r) && forallb (passes_column st r) cols.

(** Only columns with a filter function have a filter value. *)
Definition filters_known {Row} (cols : list (ColumnDef Row)) (st : TableState) : Prop :=
  ∀ c, c ∈ cols → col_filterFn c = None → filter_text (col_id c) st = EmptyString.

(** [compare] in the direction of [desc]: [a] may stand before [b]. *)
Definition in_order {Row} (cmp : Row → Row → Z) (desc : bool) (a b : GridRow Row) : Prop :=
  if desc then 0 <= cmp a.2 b.2 else cmp a.2 b.2 <= 0.

(** The comparison is that of a total preorder. *)
Definition consistent {Row} (cmp : Row → Row → Z) : Prop :=
  (∀ a b, Z.sgn (cmp a b) = - Z.sgn (cmp b a)) ∧ (∀ a b c, cmp a b <= 0 → cmp b c <= 0 → cmp a c <= 0).
End Derived.

(** ** What the library promises *)
Class TableLaws `{TableLib} := {
  getIsSorted_spec id st : getIsSorted id st = obj_get id (sorting st);
  toggleSorting_spec id desc st : (length (sorting st) ≤ 1)%nat → toggleSorting id desc st = set_sorting [(id, desc)] st;
  getFilterValue_spec id st : getFilterValue id st = obj_get id (columnFilters st);
  (** an empty text removes the filter *)
  setFilterValue_spec id v st :
    setFilterValue id v st =
    set_columnFilters (if String.eqb v EmptyString then obj_delete id (columnFilters st) else obj_set id v (columnFilters st)) st;
  getIsVisible_spec id st : getIsVisible id st = default true (obj_get id (columnVisibility st));
  toggleVisibility_spec id v st : toggleVisibility id v st = set_columnVisibility (obj_set id v (columnVisibility st)) st;
  setPageIndex_spec i st : setPageIndex i st = set_pageIndex (Z.max 0 i) st;
  (** the first row shown stays on the page *)
  setPageSize_spec n st : 0 < n → setPageSize n st = set_pageSize n (set_pageIndex (pageSize st * pageIndex st / n) st);
  autoReset_spec st : autoReset st = set_pageIndex 0 st;
  getFilteredRows_spec {Row} (cols : list (ColumnDef Row)) g st data : filters_known cols st →
    getFilteredRows cols g st data = List.filter (λ r, passes cols g st r.2) (core_rows data);
  getSortedRows_perm {Row} (cols : list (ColumnDef Row)) st rows : getSortedRows cols st rows ≡ₚ rows;
  getSortedRows_frame {Row} (cols : list (ColumnDef Row)) st st' rows :
    sorting st = sorting st' → getSortedRows cols st rows = getSortedRows cols st' rows;
  getSortedRows_none {Row} (cols : list (ColumnDef Row)) st rows : sorting st = [] → getSortedRows cols st rows = rows;
  getSortedRows_order {Row} (cols : list (ColumnDef Row)) st rows c cmp desc :
    NoDup (col_id <$> cols) → c ∈ cols → col_sortingFn c = Some cmp → consistent cmp → sorting st = [(col_id c, desc)] →
    StronglySorted (in_order cmp desc) (getSortedRows cols st rows);
  getPageRows_spec {Row} st (rows : list (GridRow Row)) : 0 <= pageIndex st → 0 < pageSize st →
    getPageRows st rows = take (Z.to_nat (pageSize st)) (drop (Z.to_nat (pageIndex st * pageSize st)) rows)
}.

(** ** Pages *)

(** The rows of page [k], by [n]. *)
Definition page_at {A} (n k : nat) (l : list A) : list A := take n (drop (k * n) l).

Lemma page_at_concat {A} (n m : nat) (l : list A) :
  (length l ≤ m * n)%nat → concat ((λ k, page_at n k l) <$> seq 0 m) = l.
Proof.
  assert (G : ∀ m s, concat ((λ k, page_at n k l) <$> seq s m) = take (m * n) (drop (s * n) l)).
  { clear. intros m. induction m as [|m IH]; intros s; [done|]. cbn [seq fmap list_fmap concat]. rewrite IH. unfold page_at.
    replace (S s * n)%nat with (s * n + n)%nat by lia. replace (S m * n)%nat with (n + m * n)%nat by lia.
    by rewrite <- drop_drop, take_take_drop. }
  intros L. rewrite G. simpl. rewrite drop_0. by apply take_ge.
Qed.

Lemma page_count_bound (n size : Z) : 0 <= n → 0 < size →
  let c := (n + size - 1) / size in 0 <= c ∧ n <= c * size ∧ (0 < n → (c - 1) * size < n) ∧ (n = 0 → c = 0).
Proof.
  intros Hn Hs c. subst c. pose proof (Z.div_mod (n + size - 1) size ltac:(lia)) as E.
  pose proof (Z.mod_pos_bound (n + size - 1) size Hs). pose proof (Z.div_pos (n + size - 1) size ltac:(lia) Hs).
  splits; [done|nia|nia|intros ->; rewrite Z.div_small; lia].
Qed.

(** ** Facts about every lawful table *)
Section Facts.
Context `{TableLaws}.

Lemma filter_text_set id v st : filter_text id (setFilterValue id v st) = v.
Proof.
  unfold filter_text. rewrite getFilterValue_spec, setFilterValue_spec. simpl.
  destruct (String.eqb_spec v EmptyString) as [->|N]; [by rewrite obj_get_delete_eq|by rewrite obj_get_set_eq].
Qed.

Lemma filter_text_other id id' v st : id' ≠ id → filter_text id' (setFilterValue id v st) = filter_text id' st.
Proof.
  intros N. unfold filter_text. rewrite !getFilterValue_spec, setFilterValue_spec. simpl.
  destruct (String.eqb_spec v EmptyString); [by rewrite obj_get_delete_ne|by rewrite obj_get_set_ne].
Qed.

Lemma filter_text_frame id st st' : columnFilters st = columnFilters st' → filter_text id st = filter_text id st'.
Proof. intros E. unfold filter_text. by rewrite !getFilterValue_spec, E. Qed.

Lemma passes_frame {Row} (cols : list (ColumnDef Row)) g st st' r :
  columnFilters st = columnFilters st' → globalFilter st = globalFilter st' → passes cols g st r = passes cols g st' r.
Proof.
  intros E1 E2. unfold passes. rewrite E2. f_equal.
  induction cols as [|c cols IH]; [done|]. simpl. rewrite IH. f_equal. unfold passes_column.
  by rewrite (filter_text_frame _ _ _ E1).
Qed.

Lemma filters_known_set {Row} (cols : list (ColumnDef Row)) id v st :
  filters_known cols st → (∀ c, c ∈ cols → col_id c = id → col_filterFn c ≠ None) → filters_known cols (setFilterValue id v st).
Proof.
  intros K Hc c Hin Hn. destruct (decide (col_id c = id)) as [E|N]; [by destruct (Hc c)|].
  rewrite filter_text_other by done. by apply K.
Qed.

Lemma filters_known_frame {Row} (cols : list (ColumnDef Row)) st st' :
  columnFilters st = columnFilters st' → filters_known cols st → filters_known cols st'.
Proof. intros E K c Hin Hn. rewrite <- (filter_text_frame _ _ _ E). by apply K. Qed.

(** *** The rows a table shows *)

Definition matching {Row} (cols : list (ColumnDef Row)) g (st : TableState) (data : list Row) : list (GridRow Row) :=
  getFilteredRows cols g st data.

Definition shown_rows {Row} (cols : list (ColumnDef Row)) g (st : TableState) (data : list Row) : list (GridRow Row) :=
  getPageRows st (getSortedRows cols st (getFilteredRows cols g st data)).

(** A table without a pagination model. *)
Definition all_rows {Row} (cols : list (ColumnDef Row)) g (st : TableState) (data : list Row) : list (GridRow Row) :=
  getSortedRows cols st (matching cols g st data).

(** The page exists, or it is the first one. *)
Definition page_ok (st : TableState) (n : nat) : Prop :=
  0 < pageSize st ∧ 0 <= pageIndex st ∧ (pageIndex st = 0 ∨ pageIndex st < getPageCount st n).

Lemma page_ok_size st n m :
  page_ok st m → 0 < n → page_ok (set_pageSize n (set_pageIndex (pageSize st * pageIndex st / n) st)) m.
Proof.
  intros (Hs & Hi & Hp) Hn. pose proof (Z.div_pos (pageSize st * pageIndex st) n ltac:(nia) Hn) as Hq.
  split; simpl; [done|]. split; [done|]. destruct Hp as [Hp|Hp]; [left; by rewrite Hp, Z.mul_0_r|].
  destruct (decide (m = 0%nat)) as [->|Hm].
  { pose proof (page_count_bound 0 (pageSize st) ltac:(lia) Hs) as (_ & _ & _ & Hz). unfold getPageCount in Hp. simpl in Hp. lia. }
  pose proof (page_count_bound (Z.of_nat m) (pageSize st) ltac:(lia) Hs) as (_ & _ & Hlt & _). fold (getPageCount st m) in Hlt.
  specialize (Hlt ltac:(lia)). right. unfold getPageCount. simpl.
  pose proof (page_count_bound (Z.of_nat m) n ltac:(lia) Hn) as (_ & Hle & _). cbv zeta in Hle.
  set (c := (Z.of_nat m + n - 1) / n) in *. apply Z.div_lt_upper_bound; [done|]. nia.
Qed.

Lemma core_rows_lookup {Row} (data : list Row) i r : (i, r) ∈ core_rows data ↔ data !! i = Some r.
Proof.
  unfold core_rows. rewrite elem_of_lookup_imap. split; [intros (j & y & [= -> ->] & E); exact E|intros E; eauto].
Qed.

Lemma matching_elem {Row} (cols : list (ColumnDef Row)) g st (data : list Row) i r :
  filters_known cols st → (i, r) ∈ matching cols g st data ↔ data !! i = Some r ∧ passes cols g st r = true.
Proof.
  intros K. unfold matching. rewrite getFilteredRows_spec by done. rewrite list_elem_of_In, filter_In, <- list_elem_of_In, core_rows_lookup.
  done.
Qed.

Lemma core_rows_NoDup {Row} (data : list Row) : NoDup (core_rows data).
Proof.
  unfold core_rows. apply NoDup_fmap_1 with (f := fst). rewrite fmap_imap.
  replace (imap _ data) with (seq 0 (length data)); [apply NoDup_seq|].
  apply list_eq. intros i. rewrite list_lookup_imap. destruct (data !! i) eqn:E; simpl.
  - apply lookup_seq. apply lookup_lt_Some in E. lia.
  - apply lookup_seq_ge. apply lookup_ge_None in E. lia.
Qed.

Lemma core_rows_data {Row} (data : list Row) : snd <$> core_rows data = data.
Proof.
  unfold core_rows. rewrite fmap_imap. apply list_eq. intros i. rewrite list_lookup_imap. by destruct (data !! i).
Qed.

Lemma matching_sublist {Row} (cols : list (ColumnDef Row)) g st (data : list Row) :
  filters_known cols st → snd <$> matching cols g st data `sublist_of` data.
Proof.
  intros K. rewrite <- (core_rows_data data) at 2. apply fmap_sublist. unfold matching. rewrite getFilteredRows_spec by done.
  generalize (core_rows data). intros l. induction l as [|x l IH]; [done|]. simpl. destruct (passes _ _ _ _); by constructor.
Qed.

Lemma matching_NoDup {Row} (cols : list (ColumnDef Row)) g st (data : list Row) :
  filters_known cols st → NoDup (matching cols g st data).
Proof.
  intros K. unfold matching. rewrite getFilteredRows_spec by done. apply NoDup_ListNoDup, List.NoDup_filter, NoDup_ListNoDup, core_rows_NoDup.
Qed.

(** Without filters every row matches. *)
Lemma passes_all {Row} (cols : list (ColumnDef Row)) g st r :
  columnFilters st = [] → globalFilter st = EmptyString → passes cols g st r = true.
Proof.
  intros E1 E2. unfold passes. rewrite E2. simpl. apply forallb_forall. intros c _. unfold passes_column.
  destruct (col_filterFn c); [|done]. unfold filter_text. by rewrite getFilterValue_spec, E1.
Qed.

Lemma shown_rows_page {Row} (cols : list (ColumnDef Row)) g st (data : list Row) :
  0 < pageSize st → 0 <= pageIndex st →
  shown_rows cols g st data =
  page_at (Z.to_nat (pageSize st)) (Z.to_nat (pageIndex st)) (getSortedRows cols st (matching cols g st data)).
Proof.
  intros Hs Hi. unfold shown_rows, page_at. rewrite getPageRows_spec by done. f_equal. f_equal. lia.
Qed.

Lemma shown_rows_matching {Row} (cols : list (ColumnDef Row)) g st (data : list Row) x :
  0 < pageSize st → 0 <= pageIndex st → x ∈ shown_rows cols g st data → x ∈ matching cols g st data.
Proof.
  intros Hs Hi. rewrite shown_rows_page by done. unfold page_at. rewrite <- (getSortedRows_perm cols st (matching cols g st data)) at 2.
  intros Hx. eapply elem_of_sublist in Hx; [|apply sublist_take]. eapply elem_of_sublist in Hx; [exact Hx|apply sublist_drop].
Qed.

Lemma all_rows_elem {Row} (cols : list (ColumnDef Row)) g st (data : list Row) i r :
  filters_known cols st → (i, r) ∈ all_rows cols g st data ↔ data !! i = Some r ∧ passes cols g st r = true.
Proof. intros K. unfold all_rows. rewrite (getSortedRows_perm cols st _). by apply matching_elem. Qed.

Lemma all_rows_NoDup {Row} (cols : list (ColumnDef Row)) g st (data : list Row) :
  filters_known cols st → NoDup (all_rows cols g st data).
Proof. intros K. unfold all_rows. rewrite (getSortedRows_perm cols st _). by apply matching_NoDup. Qed.

Lemma all_rows_length {Row} (cols : list (ColumnDef Row)) g st (data : list Row) :
  filters_known cols st → (length (all_rows cols g st data) ≤ length data)%nat.
Proof.
  intros K. unfold all_rows. rewrite (getSortedRows_perm cols st _). rewrite <- (length_fmap snd).
  by apply sublist_length, matching_sublist.
Qed.

(** How many rows a page that exists shows; it is empty only when nothing
    matches. *)
Lemma shown_rows_length {Row} (cols : list (ColumnDef Row)) g st (data : list Row) :
  let n := length (matching cols g st data) in
  page_ok st n →
  Z.of_nat (length (shown_rows cols g st data)) = Z.min (pageSize st) (Z.of_nat n - pageIndex st * pageSize st) ∧
  (shown_rows cols g st data = [] ↔ n = 0%nat).
Proof.
  intros n (Hs & Hi & Hp). rewrite shown_rows_page by done. unfold page_at.
  pose proof (page_count_bound (Z.of_nat n) (pageSize st) ltac:(lia) Hs) as (Hc & _ & Hc1 & Hc0). fold (getPageCount st n) in Hc, Hc1, Hc0.
  assert (Hlt : pageIndex st = 0 ∨ pageIndex st * pageSize st < Z.of_nat n).
  { destruct Hp as [Hp|Hp]; [by left|right]. destruct (Nat.eq_0_gt_0_cases n) as [->|Hn]; [rewrite Hc0 in Hp by done; lia|].
    specialize (Hc1 ltac:(lia)). nia. }
  pose proof (Z.mul_nonneg_nonneg _ _ Hi (Z.lt_le_incl _ _ Hs)) as Hm.
  assert (L : length (getSortedRows cols st (matching cols g st data)) = n) by (by rewrite (getSortedRows_perm cols st _)).
  assert (E : Z.of_nat (length (take (Z.to_nat (pageSize st)) (drop (Z.to_nat (pageIndex st) * Z.to_nat (pageSize st))
                (getSortedRows cols st (matching cols g st data))))) = Z.min (pageSize st) (Z.of_nat n - pageIndex st * pageSize st)).
  { rewrite length_take, length_drop, L, <- Z2Nat.inj_mul by lia. destruct Hlt as [E|E]; [rewrite E|]; lia. }
  split; [exact E|]. rewrite <- length_zero_iff_nil.
  destruct Hlt as [E1|E1]; [rewrite E1 in E |- *|]; lia.
Qed.

Lemma matching_frame {Row} (cols : list (ColumnDef Row)) g st st' (data : list Row) :
  columnFilters st = columnFilters st' → globalFilter st = globalFilter st' → filters_known cols st →
  matching cols g st data = matching cols g st' data.
Proof.
  intros E1 E2 K. unfold matching. rewrite (getFilteredRows_spec cols g st data) by eauto; rewrite (getFilteredRows_spec cols g st' data) by eauto using filters_known_frame.
  apply List.filter_ext. intros [i r]. by apply passes_frame.
Qed.

(** The pages put together are the matching rows in their order. *)
Lemma pages_matching {Row} (cols : list (ColumnDef Row)) g st (data : list Row) :
  0 < pageSize st → filters_known cols st →
  let n := length (matching cols g st data) in
  concat ((λ k, shown_rows cols g (set_pageIndex (Z.of_nat k) st) data) <$> seq 0 (Z.to_nat (getPageCount st n))) =
  getSortedRows cols st (matching cols g st data).
Proof.
  intros Hs K n. pose proof (page_count_bound (Z.of_nat n) (pageSize st) ltac:(lia) Hs) as (Hc & Hc1 & _).
  fold (getPageCount st n) in Hc, Hc1.
  rewrite (list_fmap_ext _ (λ k, page_at (Z.to_nat (pageSize st)) k (getSortedRows cols st (matching cols g st data)))).
  - apply page_at_concat. rewrite (getSortedRows_perm cols st _). fold n. nia.
  - intros i k _. rewrite shown_rows_page by (simpl; lia). simpl. rewrite Nat2Z.id. f_equal.
    rewrite (getSortedRows_frame cols _ st) by done. f_equal.
    apply matching_frame; [done..|]. by apply (filters_known_frame cols st).
Qed.
End Facts.

(** ** A lawful table *)
Section Reference.

Lemma StronglySorted_weaken {A} (R S : A → A → Prop) l : (∀ a b, R a b → S a b) → StronglySorted R l → StronglySorted S l.
Proof. intros H. induction 1 as [|x l _ IH Hx]; constructor; [done|]. eapply Forall_impl; [exact Hx|]. apply H. Qed.

Definition ref_direction {Row} (cmp : Row → Row → Z) (desc : bool) (a b : GridRow Row) : bool :=
  if desc then 0 <=? cmp a.2 b.2 else cmp a.2 b.2 <=? 0.

Definition ref_sorted {Row} (cols : list (ColumnDef Row)) (st : TableState) (rows : list (GridRow Row)) : list (GridRow Row) :=
  match sorting st with
  | (id, desc) :: _ =>
      match List.find (λ c, String.eqb (col_id c) id) cols with
      | Some c => match col_sortingFn c with Some cmp => sort_by (ref_direction cmp desc) rows | None => rows end
      | None => rows
      end
  | [] => rows
  end.

#[export] Instance RefTable : TableLib := {|
  getIsSorted id st := obj_get id (sorting st);
  toggleSorting id desc st := set_sorting [(id, desc)] st;
  getFilterValue id st := obj_get id (columnFilters st);
  setFilterValue id v st :=
    set_columnFilters (if String.eqb v EmptyString then obj_delete id (columnFilters st) else obj_set id v (columnFilters st)) st;
  getIsVisible id st := default true (obj_get id (columnVisibility st));
  toggleVisibility id v st := set_columnVisibility (obj_set id v (columnVisibility st)) st;
  setPageIndex i st := set_pageIndex (Z.max 0 i) st;
  setPageSize n st := set_pageSize n (set_pageIndex (pageSize st * pageIndex st / n) st);
  autoReset st := set_pageIndex 0 st;
  getFilteredRows Row cols g st data :=
    List.filter (λ r, (String.eqb (globalFilter st) EmptyString || g (globalFilter st) r.2) &&
      forallb (λ c, match col_filterFn c with
                    | Some f => let v := default EmptyString (obj_get (col_id c) (columnFilters st)) in String.eqb v EmptyString || f v r.2
                    | None => true
                    end) cols) (core_rows data);
  getSortedRows Row := ref_sorted;
  getPageRows Row st rows := take (Z.to_nat (pageSize st)) (drop (Z.to_nat (pageIndex st * pageSize st)) rows)
|}.

Lemma ref_direction_total {Row} (cmp : Row → Row → Z) desc :
  consistent cmp → ∀ a b, ref_direction cmp desc a b = true ∨ ref_direction cmp desc b a = true.
Proof. intros [A _] [i a] [j b]. specialize (A a b). unfold ref_direction. simpl. destruct desc; rewrite !Z.leb_le; lia. Qed.

Lemma ref_direction_trans {Row} (cmp : Row → Row → Z) desc :
  consistent cmp → ∀ a b c, ref_direction cmp desc a b = true → ref_direction cmp desc b c = true → ref_direction cmp desc a c = true.
Proof.
  intros [A T] [i a] [j b] [k c]. unfold ref_direction. simpl. destruct desc; rewrite !Z.leb_le.
  - intros H1 H2. pose proof (A a b). pose proof (A b c). pose proof (A a c). specialize (T c b a). lia.
  - apply T.
Qed.

#[export] Instance RefTable_laws : TableLaws.
Proof.
  split; try reflexivity.
  - intros Row cols st rows. simpl. unfold ref_sorted. repeat case_match; [done|apply sort_by_perm|done..].
  - intros Row cols st st' rows E. simpl. unfold ref_sorted. by rewrite E.
  - intros Row cols st rows E. simpl. unfold ref_sorted. by rewrite E.
  - intros Row cols st rows c cmp desc N Hc Hs Hcmp E. simpl. unfold ref_sorted. rewrite E.
    destruct (List.find _ cols) as [c'|] eqn:F.
    + apply find_some in F as [Hc' Eq]. apply String.eqb_eq in Eq. apply list_elem_of_In in Hc'.
      assert (c' = c) as ->.
      { apply list_elem_of_lookup in Hc as [i Hi], Hc' as [j Hj]. assert (i = j) as ->; [|congruence].
        apply (NoDup_lookup (col_id <$> cols) i j (col_id c)); [exact N|..]; rewrite list_lookup_fmap; [by rewrite Hi|rewrite Hj; simpl; by rewrite Eq]. }
      rewrite Hs. eapply StronglySorted_weaken; [|apply (sort_by_sorted (ref_direction cmp desc)); [by apply ref_direction_total|by apply ref_direction_trans]].
      intros a b. unfold ref_direction, in_order. destruct desc; apply Z.leb_le.
    + eapply find_none in F; [|by apply list_elem_of_In]. by rewrite String.eqb_refl in F.
Qed.
End Reference.
