(* ===== verification/JsNum.v ===== *)
(** * JavaScript numbers

    A number is an IEEE 754 binary64 value, represented by the Standard
    Library's [spec_float] with precision 53 and maximal exponent 1024.
    The file gives the operations of the language that the workbench uses:
    comparison, [Math.max], [Math.min], [Math.round], [+], [*], [toFixed],
    [String(n)], [parseFloat] and [Number(s)]. Counters and epoch
    milliseconds, which the program only uses below 2^53, are plain
    integers elsewhere; [of_Z] embeds them here. *)
From Stdlib Require Import Ascii.
From Stdlib Require Export SpecFloat.
From S2P Require Import Prelude JsObject.

Notation num := spec_float.

#[export] Instance num_eq_dec : EqDecision num.
Proof. solve_decision. Defined.

Definition prec : Z := 53.
Definition emax : Z := 1024.

Definition nan : num := S754_nan.
Definition zero : num := S754_zero false.

(** The double nearest to [n / d]. *)
Definition ratio (n d : positive) : num :=
  SFdiv prec emax (S754_finite false n 0) (S754_finite false d 0).

Definition sf_neg (x : num) : num := SFopp x.

(** The double nearest to the rational [n / d]. *)
Definition of_ratio (n : Z) (d : positive) : num :=
  match n with
  | Z0 => zero
  | Zpos p => ratio p d
  | Zneg p => sf_neg (ratio p d)
  end.

Definition of_Z (n : Z) : num := of_ratio n 1.

(** Decimal literal [n / 10^k], e.g. [dec 85 2] for 0.85. *)
Definition dec (n : Z) (k : nat) : num := of_ratio n (Z.to_pos (10 ^ Z.of_nat k)).

Definition num_eqb (x y : num) : bool := SFeqb x y.
Definition num_ltb (x y : num) : bool := SFltb x y.
Definition num_leb (x y : num) : bool := SFleb x y.
Definition num_mul (x y : num) : num := SFmul prec emax x y.
Definition num_add (x y : num) : num := SFadd prec emax x y.
Definition num_sub (x y : num) : num := SFsub prec emax x y.
Definition num_div (x y : num) : num := SFdiv prec emax x y.
Definition num_abs (x : num) : num := SFabs x.

Definition is_nan (x : num) : bool := match x with S754_nan => true | _ => false end.

(** [Number.isFinite]. *)
Definition is_finite (x : num) : bool :=
  match x with S754_zero _ | S754_finite _ _ _ => true | _ => false end.

(** A number in a boolean position. *)
Definition num_truthy (x : num) : bool :=
  match x with S754_zero _ | S754_nan => false | _ => true end.

(** [Math.max(x, y)]: NaN is contagious and [+0] is above [-0]. *)
Definition num_max (x y : num) : num :=
  match x, y with
  | S754_nan, _ | _, S754_nan => S754_nan
  | S754_zero a, S754_zero b => S754_zero (a && b)
  | _, _ => if num_ltb x y then y else x
  end.

(** Numbers as exact fractions [n / d]; [None] for NaN and the infinities. *)
Definition to_frac (x : num) : option (Z * positive) :=
  match x with
  | S754_zero _ => Some (0, 1%positive)
  | S754_finite s m e =>
      let n := if s then Zneg m else Zpos m in
      Some (match e with
            | Z0 => (n, 1%positive)
            | Zpos p => (n * 2 ^ e, 1%positive)
            | Zneg p => (n, Z.to_pos (2 ^ Zpos p))
            end)
  | _ => None
  end.

Definition num_sign (x : num) : bool :=
  match x with
  | S754_zero s | S754_infinity s | S754_finite s _ _ => s
  | S754_nan => false
  end.

(** [Math.round]: the integer nearest to [x], halves towards +infinity. *)
Definition round_Z (x : num) : option Z :=
  match to_frac x with
  | Some (n, d) => Some ((2 * n + Zpos d) / (2 * Zpos d))
  | None => None
  end.

(** The same as a number. *)
Definition math_round (x : num) : num := match round_Z x with Some n => of_Z n | None => x end.

(** [ToIntegerOrInfinity] on finite numbers. *)
Definition trunc_Z (x : num) : option Z :=
  match to_frac x with
  | Some (n, d) => Some (Z.quot n (Zpos d))
  | None => None
  end.

(** [Math.floor] on finite numbers. *)
Definition floor_Z (x : num) : option Z :=
  match to_frac x with
  | Some (n, d) => Some (n / Zpos d)
  | None => None
  end.

(** ** Decimal digits *)

Definition digit_char (d : Z) : ascii := ascii_of_N (Z.to_N (48 + d)).

(** The [k] low decimal digits of [n], most significant first. *)
Fixpoint pad_digits (k : nat) (n : Z) : string :=
  match k with
  | O => EmptyString
  | S k' => pad_digits k' (n / 10) +:+ String (digit_char (n mod 10)) EmptyString
  end.

(** Number of decimal digits of [n > 0]; [fuel] above its binary length is enough. *)
Fixpoint ndigits_fuel (fuel : nat) (n : Z) : nat :=
  match fuel with
  | O => 1%nat
  | S f => if n <? 10 then 1%nat else S (ndigits_fuel f (n / 10))
  end.

Definition ndigits (n : Z) : nat := ndigits_fuel (S (Z.to_nat (Z.log2 n))) n.

(** [String(n)] for an integer. *)
Definition string_of_Z (n : Z) : string :=
  if n <? 0 then "-" +:+ pad_digits (ndigits (- n)) (- n) else pad_digits (ndigits n) n.

(** ** [Number.prototype.toString] (radix 10)

    The shortest digit string that reads back as the same double, as the
    standard prescribes: [k] digits [s] with value [s * 10^(n-k)]. *)

Definition pow10_frac (s : Z) (e : Z) : num :=
  if 0 <=? e then of_ratio (s * 10 ^ e) 1 else of_ratio s (Z.to_pos (10 ^ (- e))).

(** [n] such that [10^(n-1) <= p/d < 10^n], for [p > 0]. *)
Definition dec_exponent (p : Z) (d : positive) : Z :=
  let guess := (Z.log2 p - Z.log2 (Zpos d)) * 30103 / 100000 - 1 in
  let ge e := if 0 <=? e then 10 ^ e * Zpos d <=? p else Zpos d <=? p * 10 ^ (- e) in
  (fix up (fuel : nat) (e : Z) : Z :=
     match fuel with
     | O => e
     | S f => if ge e then up f (e + 1) else e
     end) 4%nat guess.

Fixpoint shortest (fuel : nat) (k : Z) (x : num) (p : Z) (d : positive) (n : Z) : Z * Z * Z :=
  let e := n - k in
  let lo := if 0 <=? e then p / (Zpos d * 10 ^ e) else p * 10 ^ (- e) / Zpos d in
  let hi := lo + 1 in
  let ok s := (0 <? s) && bool_decide (pow10_frac s e = x) in
  let dist_lo := if 0 <=? e then p - lo * (Zpos d * 10 ^ e) else p * 10 ^ (- e) - lo * Zpos d in
  let dist_hi := if 0 <=? e then hi * (Zpos d * 10 ^ e) - p else hi * Zpos d - p * 10 ^ (- e) in
  let norm s := if s =? 10 ^ k then (10 ^ (k - 1), k, n + 1) else (s, k, n) in
  match fuel with
  | O => (lo, k, n)
  | S f =>
      if ok lo && ok hi then (if dist_lo <=? dist_hi then norm lo else norm hi)
      else if ok lo then norm lo
      else if ok hi then norm hi
      else shortest f (k + 1) x p d n
  end.

Fixpoint zeros (n : nat) : string :=
  match n with O => EmptyString | S n' => String "0"%char (zeros n') end.

Definition digits_to_string (s k n : Z) : string :=
  let ds := pad_digits (Z.to_nat k) s in
  let tl := String.substring 1 (Z.to_nat (k - 1)) ds in
  let hd := String.substring 0 1 ds in
  if (k <=? n) && (n <=? 21) then ds +:+ zeros (Z.to_nat (n - k))
  else if (0 <? n) && (n <=? 21) then
    String.substring 0 (Z.to_nat n) ds +:+ "." +:+ String.substring (Z.to_nat n) (Z.to_nat (k - n)) ds
  else if (-6 <? n) && (n <=? 0) then "0." +:+ zeros (Z.to_nat (- n)) +:+ ds
  else
    let e := n - 1 in
    hd +:+ (if 1 <? k then "." +:+ tl else EmptyString)
    +:+ "e" +:+ (if e <? 0 then "-" else "+") +:+ string_of_Z (Z.abs e).

Definition num_to_string (x : num) : string :=
  match x with
  | S754_nan => "NaN"
  | S754_zero _ => "0"
  | S754_infinity s => if s then "-Infinity" else "Infinity"
  | S754_finite s m e =>
      match to_frac (S754_finite false m e) with
      | Some (p, d) =>
          let n := dec_exponent p d in
          let '(ds, k, n') := shortest 17 1 (S754_finite false m e) p d n in
          (if s then "-" else EmptyString) +:+ digits_to_string ds k n'
      | None => "NaN"
      end
  end.

(** ** [Number.prototype.toFixed(f)], for [0 <= f <= 100]

    For [|x| < 10^21]: the integer [n] nearest to [|x| * 10^f], the larger
    one on a tie, printed with [f] decimals. *)
Definition fixed_digits (f : nat) (n : Z) : string :=
  let q := n / 10 ^ Z.of_nat f in
  string_of_Z q +:+ (if Nat.eqb f 0 then EmptyString else "." +:+ pad_digits f (n mod 10 ^ Z.of_nat f)).

Definition to_fixed (f : nat) (x : num) : string :=
  match to_frac (num_abs x) with
  | None => num_to_string x
  | Some (p, d) =>
      if 10 ^ 21 * Zpos d <=? p then num_to_string x
      else
        let n := (2 * p * 10 ^ Z.of_nat f + Zpos d) / (2 * Zpos d) in
        let neg := num_sign x && (0 <? p) in
        (if neg then "-" else EmptyString) +:+ fixed_digits f n
  end.

(** ** Order on finite numbers *)

Lemma SFcompare_finite_antisym x y :
  is_finite x = true → is_finite y = true → SFcompare y x = CompOpp <$> SFcompare x y.
Proof.
  destruct x as [sx|sx| |sx mx ex], y as [sy|sy| |sy my ey]; simpl; intros; try discriminate;
    try (by destruct sx); try (by destruct sy); try done.
  rewrite (Z.compare_antisym ex ey).
  destruct sx, sy; simpl; try done; destruct (ex ?= ey); simpl; try done;
    change (PosDef.Pos.compare_cont Eq my mx) with (Pos.compare my mx);
    change (PosDef.Pos.compare_cont Eq mx my) with (Pos.compare mx my);
    rewrite (Pos.compare_antisym mx my); by destruct (Pos.compare mx my).
Qed.

Lemma SFcompare_finite x y :
  is_finite x = true → is_finite y = true → is_Some (SFcompare x y).
Proof. destruct x, y; simpl; intros; try discriminate; eauto. Qed.

Lemma num_leb_refl x : is_finite x = true → num_leb x x = true.
Proof.
  intros F. unfold num_leb, SFleb. pose proof (SFcompare_finite_antisym x x F F) as A.
  destruct (SFcompare_finite x x F F) as [r E]. rewrite E in A |- *. by destruct r.
Qed.

Lemma num_ltb_leb x y : num_ltb x y = true → num_leb x y = true.
Proof. unfold num_ltb, num_leb, SFltb, SFleb. by destruct (SFcompare x y) as [[]|]. Qed.

Lemma num_leb_flip x y :
  is_finite x = true → is_finite y = true → num_ltb x y = false → num_leb y x = true.
Proof.
  intros Fx Fy. unfold num_ltb, num_leb, SFltb, SFleb. rewrite (SFcompare_finite_antisym x y Fx Fy).
  destruct (SFcompare_finite x y Fx Fy) as [r ->]. by destruct r.
Qed.

Lemma num_max_finite x y : is_finite x = true → is_finite y = true → is_finite (num_max x y) = true.
Proof. destruct x, y; simpl; intros; try discriminate; try done; by repeat case_match. Qed.

Lemma num_max_ub x y :
  is_finite x = true → is_finite y = true →
  num_leb x (num_max x y) = true ∧ num_leb y (num_max x y) = true.
Proof.
  intros Fx Fy.
  assert (Hc : num_max x y = (if num_ltb x y then y else x) ∨ ∃ a b, x = S754_zero a ∧ y = S754_zero b).
  { destruct x, y; try discriminate; eauto. }
  destruct Hc as [->|(a & b & -> & ->)]; [|done].
  destruct (num_ltb x y) eqn:E.
  - split; [by apply num_ltb_leb|by apply num_leb_refl].
  - split; [by apply num_leb_refl|by apply num_leb_flip].
Qed.

(** ** Order on numbers other than NaN *)

(** The place of a number in the order: sign class, then exponent and mantissa. *)
Definition num_rank (x : num) : Z * Z * Z :=
  match x with
  | S754_nan => (0, 0, 0)
  | S754_infinity true => (1, 0, 0)
  | S754_finite true m e => (2, - e, - Zpos m)
  | S754_zero _ => (3, 0, 0)
  | S754_finite false m e => (4, e, Zpos m)
  | S754_infinity false => (5, 0, 0)
  end.

Definition rank_le (a b : Z * Z * Z) : Prop :=
  let '(a1, a2, a3) := a in let '(b1, b2, b3) := b in
  a1 < b1 ∨ a1 = b1 ∧ (a2 < b2 ∨ a2 = b2 ∧ a3 ≤ b3).

Lemma rank_le_total a b : rank_le a b ∨ rank_le b a.
Proof. destruct a as [[a1 a2] a3], b as [[b1 b2] b3]; simpl. lia. Qed.

Lemma rank_le_trans a b c : rank_le a b → rank_le b c → rank_le a c.
Proof. destruct a as [[a1 a2] a3], b as [[b1 b2] b3], c as [[c1 c2] c3]; simpl. lia. Qed.

Lemma finite_leb_pos m1 e1 m2 e2 :
  num_leb (S754_finite false m1 e1) (S754_finite false m2 e2) = true ↔ e1 < e2 ∨ e1 = e2 ∧ Zpos m1 ≤ Zpos m2.
Proof.
  unfold num_leb, SFleb. simpl. change (PosDef.Pos.compare_cont Eq m1 m2) with (Pos.compare m1 m2).
  destruct (Z.compare_spec e1 e2); [|split; [lia|done]|split; [done|lia]].
  destruct (Pos.compare_spec m1 m2); split; try done; lia.
Qed.

Lemma finite_leb_neg m1 e1 m2 e2 :
  num_leb (S754_finite true m1 e1) (S754_finite true m2 e2) = true ↔ e2 < e1 ∨ e1 = e2 ∧ Zpos m2 ≤ Zpos m1.
Proof.
  unfold num_leb, SFleb. simpl. change (PosDef.Pos.compare_cont Eq m1 m2) with (Pos.compare m1 m2).
  destruct (Z.compare_spec e1 e2); [|split; [done|lia]|split; [lia|done]].
  destruct (Pos.compare_spec m1 m2); simpl; split; try done; lia.
Qed.

Lemma num_leb_rank x y :
  is_nan x = false → is_nan y = false → num_leb x y = true ↔ rank_le (num_rank x) (num_rank y).
Proof.
  destruct x as [[]|[]| |[] m e], y as [[]|[]| |[] m' e']; try done; intros _ _;
    try (by rewrite ?finite_leb_pos, ?finite_leb_neg; simpl; lia);
    unfold num_leb, SFleb; simpl; split; try done; lia.
Qed.

Lemma num_leb_total x y : is_nan x = false → is_nan y = false → num_leb x y = true ∨ num_leb y x = true.
Proof. intros Hx Hy. rewrite !num_leb_rank by done. apply rank_le_total. Qed.

Lemma num_leb_trans x y z : num_leb x y = true → num_leb y z = true → num_leb x z = true.
Proof.
  assert (N : ∀ a b, num_leb a b = true → is_nan a = false ∧ is_nan b = false) by (by intros [] []).
  intros Hxy Hyz. destruct (N _ _ Hxy), (N _ _ Hyz). rewrite num_leb_rank in * by done. by eapply rank_le_trans.
Qed.

Lemma num_ltb_negb x y : is_nan x = false → is_nan y = false → negb (num_ltb y x) = num_leb x y.
Proof.
  destruct x as [[]|[]| |[] m e], y as [[]|[]| |[] m' e']; try done; intros _ _; unfold num_ltb, num_leb, SFltb, SFleb; simpl;
   change (PosDef.Pos.compare_cont Eq m m') with (Pos.compare m m'); change (PosDef.Pos.compare_cont Eq m' m) with (Pos.compare m' m);
   rewrite (Z.compare_antisym e e'); destruct (e ?= e'); simpl; try done; rewrite (Pos.compare_antisym m m'); by destruct (Pos.compare m m').
Qed.

(** NaN first: a total preorder that agrees with the numeric order on the others. *)
Definition num_le_nan (x y : num) : bool := is_nan x || (negb (is_nan y) && num_leb x y).

Lemma num_le_nan_total x y : num_le_nan x y = true ∨ num_le_nan y x = true.
Proof.
  unfold num_le_nan. destruct (is_nan x) eqn:Ex; [by left|]. destruct (is_nan y) eqn:Ey; [by right|].
  simpl. by apply num_leb_total.
Qed.

Lemma num_le_nan_trans x y z : num_le_nan x y = true → num_le_nan y z = true → num_le_nan x z = true.
Proof.
  unfold num_le_nan. destruct (is_nan x); [done|]. destruct (is_nan y), (is_nan z); simpl; try done. apply num_leb_trans.
Qed.
