(* ===== verification/JsString.v ===== *)
(** * JavaScript strings

    Strings are sequences of UTF-8 bytes. Identifiers, enum labels, regions,
    ISO dates and the literals compared by the program are ASCII, where a
    byte is a UTF-16 code unit; case mapping and trimming act on ASCII
    characters and leave the other bytes alone. *)
From Stdlib Require Import Ascii.
From S2P Require Import Prelude JsObject JsNum.

Definition code (c : ascii) : N := N_of_ascii c.
Definition in_range (lo hi : N) (c : ascii) : bool := ((lo <=? code c) && (code c <=? hi))%N.
Definition is_upper (c : ascii) : bool := in_range 65 90 c.
Definition is_lower (c : ascii) : bool := in_range 97 122 c.
Definition is_digit (c : ascii) : bool := in_range 48 57 c.
Definition is_alnum (c : ascii) : bool := is_upper c || is_lower c || is_digit c.

(** [\w] *)
Definition is_word (c : ascii) : bool := is_alnum c || (code c =? 95)%N.

Definition is_space (c : ascii) : bool := in_range 9 13 c || (code c =? 32)%N.

Definition lower_char (c : ascii) : ascii :=
  if is_upper c then ascii_of_N (code c + 32) else c.
Definition upper_char (c : ascii) : ascii :=
  if is_lower c then ascii_of_N (code c - 32) else c.

Fixpoint map_string (f : ascii → ascii) (s : string) : string :=
  match s with
  | EmptyString => EmptyString
  | String c s' => String (f c) (map_string f s')
  end.

(** [s.toLowerCase()] *)
Definition to_lower (s : string) : string := map_string lower_char s.

Fixpoint starts_with (p s : string) : bool :=
  match p, s with
  | EmptyString, _ => true
  | String a p', String b s' => Ascii.eqb a b && starts_with p' s'
  | _, _ => false
  end.

(** [s.includes(p)] *)
Fixpoint includes (p s : string) : bool :=
  starts_with p s ||
  match s with
  | EmptyString => false
  | String _ s' => includes p s'
  end.

Definition ends_with (p s : string) : bool :=
  (String.length p <=? String.length s)%nat
  && String.eqb (String.substring (String.length s - String.length p) (String.length p) s) p.

(** [s.slice(a, b)] for [0 <= a <= b]. *)
Definition slice (a b : nat) (s : string) : string := String.substring a (b - a) s.

(** [s.slice(a)] for [0 <= a]. *)
Definition slice_from (a : nat) (s : string) : string :=
  String.substring a (String.length s - a) s.

Fixpoint trim_left (s : string) : string :=
  match s with
  | String c s' => if is_space c then trim_left s' else s
  | EmptyString => EmptyString
  end.

Fixpoint trim_right (s : string) : string :=
  match s with
  | EmptyString => EmptyString
  | String c s' =>
      match trim_right s' with
      | EmptyString => if is_space c then EmptyString else String c EmptyString
      | t => String c t
      end
  end.

(** [s.trim()] *)
Definition trim (s : string) : string := trim_right (trim_left s).

(** [s.split(c)[0]]: the text before the first separator. *)
Fixpoint before_char (sep : ascii) (s : string) : string :=
  match s with
  | EmptyString => EmptyString
  | String c s' => if Ascii.eqb c sep then EmptyString else String c (before_char sep s')
  end.

(** [s.replace(/c/g, d)] for single characters. *)
Definition replace_char (a b : ascii) (s : string) : string :=
  map_string (λ c, if Ascii.eqb c a then b else c) s.

(** [s.replace("c", "d")]: the first occurrence only. *)
Fixpoint replace_first_char (a b : ascii) (s : string) : string :=
  match s with
  | EmptyString => EmptyString
  | String c s' =>
      if Ascii.eqb c a then String b s' else String c (replace_first_char a b s')
  end.

(** [s.replace(/\b\w/g, c => c.toUpperCase())]; [w] says whether the
    preceding character is a word character. *)
Fixpoint capitalize_words_from (w : bool) (s : string) : string :=
  match s with
  | EmptyString => EmptyString
  | String c s' =>
      String (if is_word c && negb w then upper_char c else c)
             (capitalize_words_from (is_word c) s')
  end.
Definition capitalize_words (s : string) : string := capitalize_words_from false s.

(** [s.replace(/([a-z])([A-Z])/g, "$1 $2")] *)
Fixpoint split_camel (s : string) : string :=
  match s with
  | String a ((String b _) as s') =>
      if is_lower a && is_upper b then String a (String " "%char (split_camel s'))
      else String a (split_camel s')
  | _ => s
  end.

(** [s.replace(/\/$/, "")] *)
Fixpoint strip_trailing_slash (s : string) : string :=
  match s with
  | EmptyString => EmptyString
  | String c EmptyString => if Ascii.eqb c "/"%char then EmptyString else s
  | String c s' => String c (strip_trailing_slash s')
  end.

(** Characters that a string constant here cannot hold. *)
Definition quote : string := String (Ascii.ascii_of_nat 34) EmptyString.
Definition newline : string := String (Ascii.ascii_of_nat 10) EmptyString.

(** [xs.join(sep)] *)
Fixpoint join (sep : string) (l : list string) : string :=
  match l with
  | [] => EmptyString
  | [x] => x
  | x :: l' => x +:+ sep +:+ join sep l'
  end.

(** [encodeURIComponent]: unreserved characters stay, the other UTF-8 bytes
    are written in percent notation. *)
Definition hex_digit (n : N) : ascii :=
  if (n <? 10)%N then ascii_of_N (48 + n) else ascii_of_N (55 + n).

Definition uri_unreserved (c : ascii) : bool :=
  is_alnum c || existsb (Ascii.eqb c) ["-"; "_"; "."; "!"; "~"; "*"; "'"; "("; ")"]%char.

Fixpoint encode_uri_component (s : string) : string :=
  match s with
  | EmptyString => EmptyString
  | String c s' =>
      if uri_unreserved c then String c (encode_uri_component s')
      else String "%"%char (String (hex_digit (code c / 16)) (String (hex_digit (code c mod 16))
             (encode_uri_component s')))
  end.

(** ** Reading numbers *)

Fixpoint read_digits (acc : Z) (cnt : Z) (s : string) : Z * Z * string :=
  match s with
  | String c s' =>
      match digit_of c with
      | Some d => read_digits (10 * acc + Z.of_N d) (cnt + 1) s'
      | None => (acc, cnt, s)
      end
  | EmptyString => (acc, cnt, s)
  end.

Definition read_sign (s : string) : bool * string :=
  match s with
  | String "-"%char s' => (true, s')
  | String "+"%char s' => (false, s')
  | _ => (false, s)
  end.

(** Optional exponent part; when it is malformed it is not consumed. *)
Definition read_exponent (s : string) : Z * string :=
  match s with
  | String c s' =>
      if Ascii.eqb c "e"%char || Ascii.eqb c "E"%char then
        let '(neg, s1) := read_sign s' in
        let '(e, cnt, s2) := read_digits 0 0 s1 in
        if cnt =? 0 then (0, s) else ((if neg : bool then - e else e), s2)
      else (0, s)
  | EmptyString => (0, s)
  end.

(** The longest prefix that is a StrDecimalLiteral, with the rest. *)
Definition read_decimal (s : string) : option (num * string) :=
  let '(neg, s0) := read_sign s in
  let signed (x : num) := if neg : bool then sf_neg x else x in
  if starts_with "Infinity" s0 then Some (signed (S754_infinity false), slice_from 8 s0)
  else
    let '(ip, ni, s1) := read_digits 0 0 s0 in
    let '(m, nf, s2) :=
      match s1 with
      | String "."%char s' =>
          let '(m, nf, s2) := read_digits ip 0 s' in
          if (ni =? 0) && (nf =? 0) then (ip, 0, s1) else (m, nf, s2)
      | _ => (ip, 0, s1)
      end in
    if (ni =? 0) && (nf =? 0) then None
    else
      let '(e, s3) := read_exponent s2 in
      Some (signed (pow10_frac m (e - nf)), s3).

(** [parseFloat(s)] *)
Definition parse_float (s : string) : num :=
  match read_decimal (trim_left s) with
  | Some (x, _) => x
  | None => nan
  end.

(** Digits of the literals with a radix prefix. *)
Definition radix_digit (c : ascii) : N :=
  if is_digit c then (code c - 48)%N
  else if is_lower c then (code c - 87)%N
  else if is_upper c then (code c - 55)%N else 99%N.

Fixpoint radix_value (radix acc : N) (s : string) : option N :=
  match s with
  | EmptyString => Some acc
  | String c s' =>
      if (radix_digit c <? radix)%N then radix_value radix (radix * acc + radix_digit c)%N s' else None
  end.

Definition radix_prefix (s : string) : option (N * string) :=
  match s with
  | String "0"%char (String p ((String _ _) as s')) =>
      let q := lower_char p in
      if Ascii.eqb q "x"%char then Some (16%N, s')
      else if Ascii.eqb q "o"%char then Some (8%N, s')
      else if Ascii.eqb q "b"%char then Some (2%N, s') else None
  | _ => None
  end.

(** [Number(s)] *)
Definition string_to_number (s : string) : num :=
  match trim s with
  | EmptyString => zero
  | t =>
      match radix_prefix t with
      | Some (r, ds) => match radix_value r 0 ds with
                        | Some n => of_Z (Z.of_N n)
                        | None => nan
                        end
      | None => match read_decimal t with
                | Some (x, EmptyString) => x
                | _ => nan
                end
      end
  end.

(** ** Facts *)

Lemma starts_with_spec p s : starts_with p s = true ↔ ∃ t, s = p +:+ t.
Proof.
  revert s; induction p as [|a p IH]; intros s; simpl; [naive_solver|].
  destruct s as [|b s]; [naive_solver|].
  rewrite andb_true_iff, IH. split.
  - intros [->%Ascii.eqb_eq [t ->]]. by exists t.
  - intros [t [= -> ->]]. split; [apply Ascii.eqb_refl|by exists t].
Qed.

Lemma includes_spec p s : includes p s = true ↔ ∃ a b, s = a +:+ p +:+ b.
Proof.
  induction s as [|c s IH]; simpl; rewrite orb_true_iff, starts_with_spec.
  - split.
    + intros [[t Ht]|]; [|done]. by exists EmptyString, t.
    + intros (a & b & E). left. destruct a; [|done]. by exists b.
  - rewrite IH. split.
    + intros [[t Ht]|(a & b & ->)]; [by exists EmptyString, t|by exists (String c a), b].
    + intros ([|d a] & b & E); [left; by exists b|]. injection E as -> ->. right. eauto.
Qed.

Lemma includes_app_r p s t : includes p t = true → includes p (s +:+ t) = true.
Proof. rewrite !includes_spec. intros (a & b & ->). exists (s +:+ a), b. by rewrite string_app_assoc. Qed.

Lemma lower_char_idem c : lower_char (lower_char c) = lower_char c.
Proof.
  destruct c as [b0 b1 b2 b3 b4 b5 b6 b7].
  destruct b0, b1, b2, b3, b4, b5, b6, b7; vm_compute; reflexivity.
Qed.

Lemma to_lower_idem s : to_lower (to_lower s) = to_lower s.
Proof.
  unfold to_lower. induction s as [|c s IH]; [done|]. simpl. by rewrite lower_char_idem, IH.
Qed.

(** [encodeURIComponent] never emits a character that ends a path segment
    or a query parameter. *)
Definition uri_component_char (c : ascii) : bool := uri_unreserved c || Ascii.eqb c "%"%char.

Fixpoint all_chars (P : ascii → bool) (s : string) : bool :=
  match s with
  | EmptyString => true
  | String c s' => P c && all_chars P s'
  end.

Lemma hex_digit_unreserved n : (n < 16)%N → uri_component_char (hex_digit n) = true.
Proof.
  intros Hn.
  assert (A : forallb (λ i, uri_component_char (hex_digit (N.of_nat i))) (seq 0 16) = true)
    by (vm_compute; reflexivity).
  rewrite forallb_forall in A. specialize (A (N.to_nat n)). rewrite N2Nat.id in A.
  apply A, in_seq. lia.
Qed.

Lemma encode_uri_component_safe s : all_chars uri_component_char (encode_uri_component s) = true.
Proof.
  induction s as [|c s IH]; [done|].
  change (encode_uri_component (String c s)) with
    (if uri_unreserved c then String c (encode_uri_component s)
     else String "%"%char (String (hex_digit (code c / 16)) (String (hex_digit (code c mod 16))
            (encode_uri_component s)))).
  destruct (uri_unreserved c) eqn:E.
  - simpl. unfold uri_component_char at 1. by rewrite E, IH.
  - assert (code c < 256)%N by apply N_ascii_bounded.
    cbn [all_chars]. rewrite !hex_digit_unreserved, IH; [done| |].
    + apply N.mod_lt. lia.
    + apply N.Div0.div_lt_upper_bound. lia.
Qed.

(** ** Texts joined by colons *)

Definition no_colon (s : string) : Prop := ∀ a b, s ≠ a +:+ ":" +:+ b.

Lemma split_at_colon a1 b1 a2 b2 :
  no_colon a1 → no_colon a2 → a1 +:+ ":" +:+ b1 = a2 +:+ ":" +:+ b2 → a1 = a2 ∧ b1 = b2.
Proof.
  revert a2; induction a1 as [|c a1 IH]; intros [|c2 a2] N1 N2 E.
  - by injection E.
  - exfalso. injection E as <- E. by apply (N2 EmptyString a2).
  - exfalso. injection E as -> E. by apply (N1 EmptyString a1).
  - injection E as -> E. destruct (IH a2) as [-> ->]; [| |done|done].
    + intros x y ->. by apply (N1 (String c2 x) y).
    + intros x y ->. by apply (N2 (String c2 x) y).
Qed.

Lemma no_colon_dec (s : string) : includes ":" s = false → no_colon s.
Proof. intros E a b ->. assert (includes ":" (a +:+ ":" +:+ b) = true) by (apply includes_spec; eauto). congruence. Qed.

(** A printed number has no colon. *)
Fixpoint colon_free (s : string) : bool :=
  match s with EmptyString => true | String c s' => negb (Ascii.eqb c ":"%char) && colon_free s' end.

Lemma colon_free_app a b : colon_free (a +:+ b) = colon_free a && colon_free b.
Proof. induction a as [|c a IH]; [done|]. change (String c a +:+ b) with (String c (a +:+ b)). simpl. by rewrite IH, andb_assoc. Qed.

Lemma colon_free_spec s : colon_free s = true → no_colon s.
Proof.
  intros F a b ->. rewrite !colon_free_app in F. simpl in F. by rewrite andb_false_r in F.
Qed.

Lemma colon_free_substring s n m : colon_free s = true → colon_free (String.substring n m s) = true.
Proof.
  revert n m. induction s as [|c s IH]; intros n m; [by destruct n, m|]. simpl. intros [Hc Hs]%andb_true_iff.
  destruct n; [destruct m; [done|simpl; rewrite Hc; by apply IH]|by apply IH].
Qed.

Lemma colon_free_digits k n : colon_free (pad_digits k n) = true.
Proof.
  revert n. induction k as [|k IH]; intros n; [done|]. simpl. rewrite colon_free_app, IH. simpl. rewrite andb_true_r.
  pose proof (Z.mod_pos_bound n 10 ltac:(lia)) as B. unfold digit_char.
  assert (H : n mod 10 ∈ seqZ 0 10) by (apply elem_of_seqZ; lia). revert H. generalize (n mod 10). intros d H.
  apply list_elem_of_In in H. cbn in H. by repeat (destruct H as [<-|H]; [reflexivity|]).
Qed.

Lemma colon_free_integer n : colon_free (string_of_Z n) = true.
Proof. unfold string_of_Z. destruct (n <? 0); [rewrite colon_free_app|]; by rewrite colon_free_digits. Qed.

Lemma colon_free_zeros n : colon_free (zeros n) = true.
Proof. induction n; [done|]. by simpl. Qed.

Lemma colon_free_number x : colon_free (num_to_string x) = true.
Proof.
  unfold num_to_string. destruct x as [b|[]| |s m e]; try done. destruct (to_frac _) as [[p d]|]; [|done].
  destruct (shortest _ _ _ _ _ _) as [[ds k] n]. rewrite colon_free_app. assert (colon_free (if s then "-" else EmptyString) = true) as -> by by destruct s.
  unfold digits_to_string. simpl andb.
  pose proof colon_free_digits as D. pose proof colon_free_zeros as Z0. pose proof colon_free_integer as I.
  destruct (_ && _); [by rewrite colon_free_app, D, Z0|]. destruct (_ && _).
  { rewrite !colon_free_app, !colon_free_substring by done. done. }
  destruct (_ && _); [by rewrite !colon_free_app, D, Z0|].
  rewrite !colon_free_app, I, colon_free_substring by done. destruct (1 <? k); [rewrite colon_free_app, colon_free_substring by done|];
  by destruct (_ <? 0).
Qed.
