(* ===== verification/JsValue.v ===== *)
(** * JavaScript values

    The values that cross the program's boundaries: request and response
    bodies, jsonb columns, messages.  [undefined] is a value because reading
    a missing property yields it.  The operators follow ECMAScript: property
    access throws on [undefined] and [null], [??] tests for those two, [||]
    and conditions use truthiness, template literals use ToString. *)
From Stdlib Require Import Ascii.
From S2P Require Import Prelude JsObject JsNum JsString.

Inductive jsval : Type :=
| JUndef
| JNull
| JBool (b : bool)
| JNum (n : num)
| JStr (s : string)
| JArr (l : list jsval)
| JObj (o : list (string * jsval)).

(** Nested induction principle. *)
Section JsvalInd.
Variable P : jsval → Prop.
Hypothesis Hundef : P JUndef.
Hypothesis Hnull : P JNull.
Hypothesis Hbool : ∀ b, P (JBool b).
Hypothesis Hnum : ∀ n, P (JNum n).
Hypothesis Hstr : ∀ s, P (JStr s).
Hypothesis Harr : ∀ l, Forall P l → P (JArr l).
Hypothesis Hobj : ∀ o, Forall (λ kv, P kv.2) o → P (JObj o).

Fixpoint jsval_nested_ind (v : jsval) : P v :=
  match v with
  | JUndef => Hundef
  | JNull => Hnull
  | JBool b => Hbool b
  | JNum n => Hnum n
  | JStr s => Hstr s
  | JArr l => Harr l ((fix go l : Forall P l := match l with
                       | [] => @List.Forall_nil _ P
                       | x :: l' => @List.Forall_cons _ P x l' (jsval_nested_ind x) (go l')
                       end) l)
  | JObj o => Hobj o ((fix go o : Forall (λ kv, P kv.2) o := match o with
                       | [] => @List.Forall_nil _ (λ kv, P kv.2)
                       | kv :: o' => @List.Forall_cons _ (λ kv, P kv.2) kv o' (jsval_nested_ind kv.2) (go o')
                       end) o)
  end.
End JsvalInd.

#[export] Instance jsval_inhabited : Inhabited jsval := populate JUndef.

Fixpoint jsval_eqb (v w : jsval) {struct v} : bool :=
  match v, w with
  | JUndef, JUndef | JNull, JNull => true
  | JBool a, JBool b => Bool.eqb a b
  | JNum a, JNum b => bool_decide (a = b)
  | JStr a, JStr b => String.eqb a b
  | JArr a, JArr b =>
      (fix go a b := match a, b with
       | [], [] => true
       | x :: a', y :: b' => jsval_eqb x y && go a' b'
       | _, _ => false
       end) a b
  | JObj a, JObj b =>
      (fix go a b := match a, b with
       | [], [] => true
       | kx :: a', ky :: b' => String.eqb kx.1 ky.1 && jsval_eqb kx.2 ky.2 && go a' b'
       | _, _ => false
       end) a b
  | _, _ => false
  end.

Lemma jsval_eqb_spec v w : jsval_eqb v w = true ↔ v = w.
Proof.
  revert w; induction v as [| |a|a|a|l IH|o IH] using jsval_nested_ind; intros w; destruct w; simpl; try naive_solver.
  - rewrite Bool.eqb_true_iff. naive_solver.
  - rewrite bool_decide_eq_true. naive_solver.
  - rewrite String.eqb_eq. naive_solver.
  - match goal with |- _ ↔ JArr l = JArr ?l' => rename l' into r end.
    revert r; induction IH as [|x l Hx _ IHl]; intros [|y r]; try naive_solver.
    rewrite andb_true_iff, Hx, IHl. naive_solver.
  - match goal with |- _ ↔ JObj o = JObj ?l' => rename l' into r end.
    revert r; induction IH as [|[k x] o Hx _ IHo]; intros [|[k' y] r]; try naive_solver.
    rewrite !andb_true_iff, String.eqb_eq, IHo. simpl in *. rewrite Hx. naive_solver.
Qed.

#[export] Instance jsval_eq_dec : EqDecision jsval.
Proof.
  intros v w. destruct (jsval_eqb v w) eqn:E.
  - left. by apply jsval_eqb_spec.
  - right. intros ->. assert (jsval_eqb w w = true) by by apply jsval_eqb_spec. congruence.
Defined.

(** ** Operators *)

(** A value in a boolean position. *)
Definition truthy (v : jsval) : bool :=
  match v with
  | JUndef | JNull => false
  | JBool b => b
  | JNum n => num_truthy n
  | JStr s => negb (String.eqb s EmptyString)
  | JArr _ | JObj _ => true
  end.

Definition is_nullish (v : jsval) : bool :=
  match v with JUndef | JNull => true | _ => false end.

(** [v ?? w] *)
Definition nullish (v w : jsval) : jsval := if is_nullish v then w else v.

(** [v || w] *)
Definition js_or (v w : jsval) : jsval := if truthy v then v else w.

(** [v?.k]: own property of an object; everything else that is not nullish
    has none of the names the program reads. *)
Definition prop (k : string) (v : jsval) : jsval :=
  match v with
  | JObj o => default JUndef (obj_get k o)
  | _ => JUndef
  end.

Definition of_opt_str (o : option string) : jsval :=
  match o with Some s => JStr s | None => JUndef end.

(** [String(v)], and [`${v}`]. *)
Fixpoint to_string (v : jsval) : string :=
  match v with
  | JUndef => "undefined"
  | JNull => "null"
  | JBool b => if b then "true" else "false"
  | JNum n => num_to_string n
  | JStr s => s
  | JArr l =>
      join "," ((fix go l := match l with
                 | [] => []
                 | x :: l' => (if is_nullish x then EmptyString else to_string x) :: go l'
                 end) l)
  | JObj _ => "[object Object]"
  end.

(** [Number(v)] *)
Definition to_number (v : jsval) : num :=
  match v with
  | JUndef => nan
  | JNull => zero
  | JBool b => if b then of_Z 1 else zero
  | JNum n => n
  | JStr s => string_to_number s
  | JArr _ | JObj _ => string_to_number (to_string v)
  end.

(** [typeof v === "number"], [typeof v === "string"]. *)
Definition is_number (v : jsval) : bool := match v with JNum _ => true | _ => false end.
Definition is_string (v : jsval) : bool := match v with JStr _ => true | _ => false end.

(** [v === "literal"] *)
Definition is_str (s : string) (v : jsval) : bool :=
  match v with JStr t => String.eqb s t | _ => false end.

(** [Array.isArray(v)] *)
Definition is_array (v : jsval) : bool := match v with JArr _ => true | _ => false end.

Definition set_prop (k : string) (v : jsval) (o : jsobj jsval) : jsobj jsval := obj_set k v o.

(** [{ ...v }] *)
Fixpoint indexed (i : Z) (l : list jsval) : jsobj jsval :=
  match l with [] => [] | v :: l' => (string_of_Z i, v) :: indexed (i + 1) l' end.

Fixpoint chars (s : string) : list jsval :=
  match s with EmptyString => [] | String c s' => JStr (String c EmptyString) :: chars s' end.

Definition spread (v : jsval) : jsobj jsval :=
  match v with JObj o => o | JArr l => indexed 0 l | JStr s => indexed 0 (chars s) | _ => [] end.

(** ** JSON

    [JSON.stringify] drops the properties whose value is [undefined], writes
    [null] for [undefined] in arrays and for NaN and the infinities; parsing
    the text back gives [json_normal v].  A response or request body is
    modelled by that value rather than by its text.  (The keys of an object
    are distinct: the deletion only matters for lists that are no objects.) *)
Fixpoint json_normal (v : jsval) : jsval :=
  match v with
  | JNum n => if is_finite n then (match n with S754_zero _ => JNum zero | _ => v end) else JNull
  | JArr l =>
      JArr ((fix go l := match l with
             | [] => []
             | x :: l' => (match x with JUndef => JNull | _ => json_normal x end) :: go l'
             end) l)
  | JObj o =>
      JObj ((fix go o := match o with
             | [] => []
             | (k, x) :: o' => match x with
                               | JUndef => obj_delete k (go o')
                               | _ => (k, json_normal x) :: go o'
                               end
             end) o)
  | _ => v
  end.

(** Object literal with optional properties left out when [undefined]. *)
Notation "{[ x ; .. ; y ]}j" := (JObj (cons x .. (cons y nil) ..)) (only parsing).

Lemma to_string_str s : to_string (JStr s) = s.
Proof. done. Qed.

Lemma truthy_str s : truthy (JStr s) = true ↔ s ≠ EmptyString.
Proof. simpl. rewrite negb_true_iff. apply String.eqb_neq. Qed.

Lemma prop_obj k o : prop k (JObj o) = default JUndef (obj_get k o).
Proof. done. Qed.

(** The fields that [JSON.stringify] writes. *)
Definition json_fields (o : jsobj jsval) : jsobj jsval := match json_normal (JObj o) with JObj o' => o' | _ => [] end.

(** An element of an array. *)
Definition json_item (x : jsval) : jsval := match x with JUndef => JNull | _ => json_normal x end.

Lemma json_normal_arr l : json_normal (JArr l) = JArr (json_item <$> l).
Proof. reflexivity. Qed.

Lemma json_fields_cons k x o :
  json_fields ((k, x) :: o) =
  match x with JUndef => obj_delete k (json_fields o) | _ => (k, json_normal x) :: json_fields o end.
Proof. by destruct x. Qed.

Lemma obj_get_fields k o : default JUndef (obj_get k (json_fields o)) = json_normal (default JUndef (obj_get k o)).
Proof.
  induction o as [|[k' x] o IH]; [done|]. rewrite json_fields_cons. simpl.
  destruct (String.eqb_spec k k') as [->|Hne].
  - destruct x; simpl; rewrite ?String.eqb_refl, ?obj_get_delete_eq; done.
  - apply String.eqb_neq in Hne as Hne'. destruct x; simpl; rewrite ?Hne', ?obj_get_delete_ne by done; exact IH.
Qed.

Lemma prop_json k o : prop k (json_normal (JObj o)) = json_normal (prop k (JObj o)).
Proof. exact (obj_get_fields k o). Qed.

Lemma truthy_json v : truthy (json_normal v) = true → truthy v = true.
Proof.
  destruct v as [| | |n|s|l|o]; simpl; try done. destruct (is_finite n) eqn:F; [|done]. by destruct n as [[]| | |].
Qed.

Lemma prop_set_eq k v o : prop k (JObj (obj_set k v o)) = v.
Proof. simpl. by rewrite obj_get_set_eq. Qed.

Lemma prop_set_ne k k' v o : k ≠ k' → prop k (JObj (obj_set k' v o)) = prop k (JObj o).
Proof. intros. simpl. by rewrite obj_get_set_ne. Qed.

#[export] Hint Rewrite prop_set_eq : attest_simp.

Lemma truthy_nullish v : is_nullish v = true → truthy v = false.
Proof. by destruct v. Qed.
