(* ===== verification/Types.v ===== *)
(** * Shared data types

    [src/apps/workbench/src/lib/mock-data.ts] (alerts and case records),
    [src/apps/workbench/src/types/db.ts] (the two workbench tables) and the
    trace-step message of [hooks/use-case-trace-ws.ts].  String unions are
    inductive types with their wire spelling; [unknown] columns are [jsval]. *)
From S2P Require Import Prelude JsObject JsNum JsString JsValue.

(** ** Alerts ([mock-data.ts]) *)

Inductive Severity := SevCritical | SevHigh | SevMedium | SevLow.
Inductive AlertState := InFlight | AwaitingReview | AutoClosed.
Inductive ExecutionPath := PathClassifier | PathLlm | PathHybrid.
Inductive AlertVerdict := VBenign | VSuspicious | VMalicious | VInvestigating.
Inductive AgentName := Triager | Investigator | Hunter.
Inductive AgentState := AgIdle | AgRunning | AgComplete | AgDegraded.

#[export] Instance Severity_eq : EqDecision Severity. Proof. solve_decision. Defined.
#[export] Instance AlertState_eq : EqDecision AlertState. Proof. solve_decision. Defined.
#[export] Instance ExecutionPath_eq : EqDecision ExecutionPath. Proof. solve_decision. Defined.
#[export] Instance AlertVerdict_eq : EqDecision AlertVerdict. Proof. solve_decision. Defined.
#[export] Instance AgentName_eq : EqDecision AgentName. Proof. solve_decision. Defined.
#[export] Instance AgentState_eq : EqDecision AgentState. Proof. solve_decision. Defined.

Definition severity_string (s : Severity) : string :=
  match s with
  | SevCritical => "critical" | SevHigh => "high" | SevMedium => "medium" | SevLow => "low"
  end.

Definition path_string (p : ExecutionPath) : string :=
  match p with PathClassifier => "classifier" | PathLlm => "llm" | PathHybrid => "hybrid" end.

Definition verdict_string (v : AlertVerdict) : string :=
  match v with
  | VBenign => "benign" | VSuspicious => "suspicious"
  | VMalicious => "malicious" | VInvestigating => "investigating"
  end.

Definition agent_name_string (a : AgentName) : string :=
  match a with Triager => "Triager" | Investigator => "Investigator" | Hunter => "Hunter" end.

Definition agent_state_string (a : AgentState) : string :=
  match a with
  | AgIdle => "idle" | AgRunning => "running" | AgComplete => "complete" | AgDegraded => "degraded"
  end.

Definition state_string (s : AlertState) : string :=
  match s with
  | InFlight => "in-flight" | AwaitingReview => "awaiting-review" | AutoClosed => "auto-closed"
  end.

Record FeatureImpact := mkFeatureImpact { fi_name : string; fi_value : string; fi_impact : num }.

Record AgentStatus := mkAgentStatus {
  ag_agent : AgentName;
  ag_status : AgentState;
  ag_step : string;
  ag_toolsUsed : nat
}.

Record Alert := mkAlert {
  al_id : string;
  al_caseId : string;
  al_title : string;
  al_source : string;
  al_entity : string;
  al_region : string;
  al_severity : Severity;
  al_state : AlertState;
  al_verdict : AlertVerdict;
  al_confidence : num;
  al_executionPath : ExecutionPath;
  al_updatedAt : string;
  al_technique : string;
  al_summary : string;
  al_agentStatus : AgentStatus
}.

(** [CaseRecord]: the [as] casts in the code let severity, verdict and
    execution path carry whatever string the server sent. *)
Record TimelineEntry := mkTimelineEntry { tl_time : string; tl_actor : string; tl_event : string }.
Inductive EvidenceType := EvOcsf | EvAsset | EvThreatIntel.
Record EvidenceItem := mkEvidenceItem { ev_label : string; ev_value : string; ev_type : EvidenceType }.

Record CaseRecord := mkCaseRecord {
  cr_id : string;
  cr_title : string;
  cr_severity : string;
  cr_state : AlertState;
  cr_entity : string;
  cr_source : string;
  cr_verdict : string;
  cr_confidence : num;
  cr_executionPath : string;
  cr_timeline : list TimelineEntry;
  cr_evidence : list EvidenceItem;
  cr_featureImpacts : list FeatureImpact
}.

(** ** Tables ([types/db.ts]); a [Date] column is its epoch milliseconds. *)

Inductive TriageStatus := TIdle | TRunning | TComplete | TFailed.
#[export] Instance TriageStatus_eq : EqDecision TriageStatus. Proof. solve_decision. Defined.

Definition triage_status_string (t : TriageStatus) : string :=
  match t with
  | TIdle => "idle" | TRunning => "running" | TComplete => "complete" | TFailed => "failed"
  end.

Record CaseRow := mkCaseRow {
  cw_case_id : string;
  cw_tenant_id : string;
  cw_event : jsval;
  cw_baseline : jsval;
  cw_detection : jsval;
  cw_triage_status : TriageStatus;
  cw_triage_started_at : option Z;
  cw_triage_completed_at : option Z;
  cw_verdict : jsval;
  cw_error : option string;
  cw_created_at : Z;
  cw_updated_at : Z
}.

Record TraceRow := mkTraceRow {
  tw_id : string;
  tw_case_id : string;
  tw_agent_action_id : string;
  tw_agent_id : string;
  tw_execution_path : string;
  tw_step_kind : string;
  tw_summary : string;
  tw_ts : Z;
  tw_created_at : Z
}.

#[export] Instance CaseRow_eq : EqDecision CaseRow. Proof. solve_decision. Defined.
#[export] Instance TraceRow_eq : EqDecision TraceRow. Proof. solve_decision. Defined.

(** ** Trace steps on the WebSocket ([hooks/use-case-trace-ws.ts]) *)
Record KafkaTraceStep := mkKafkaTraceStep {
  ks_case_id : string;
  ks_tenant_id : string;
  ks_agent_action_id : string;
  ks_agent_id : string;
  ks_execution_path : string;
  ks_step_kind : string;
  ks_summary : string;
  ks_ts : num
}.
#[export] Instance KafkaTraceStep_eq : EqDecision KafkaTraceStep. Proof. solve_decision. Defined.

Lemma severity_string_inj s t : severity_string s = severity_string t → s = t.
Proof. by destruct s, t. Qed.
Lemma triage_status_string_inj s t : triage_status_string s = triage_status_string t → s = t.
Proof. by destruct s, t. Qed.
