(* ===== verification/Effects.v ===== *)
(** * Exceptions, requests, responses and handlers

    [res] is the outcome of a computation that can throw. A route handler is
    a program of the effect monad [M]: it performs the effects [fetch],
    [Date.now()] and logging against an environment that may answer each of
    them in any way, and the list of the effects it performed is part of the
    result.  The [i]-th effect of a run is answered by entry [i] of the
    environment, so a theorem that holds for every environment holds for
    every behaviour and every timing of the services. *)
From S2P Require Import Prelude JsObject JsNum JsString JsValue.

(** ** Exceptions *)

(** A thrown [Error]: its name and message. *)
Record err := mkErr { err_name : string; err_message : string }.
#[export] Instance err_eq : EqDecision err. Proof. solve_decision. Defined.

Definition Error (m : string) : err := mkErr "Error" m.

(** [String(e)] *)
Definition err_string (e : err) : string :=
  if String.eqb (err_name e) EmptyString then err_message e
  else if String.eqb (err_message e) EmptyString then err_name e
  else err_name e +:+ ": " +:+ err_message e.

Inductive res (A : Type) := Ok (a : A) | Throw (e : err).
Arguments Ok {A} a.
Arguments Throw {A} e.

#[export] Instance res_eq {A} `{EqDecision A} : EqDecision (res A).
Proof. solve_decision. Defined.

Definition res_bind {A B} (f : A → res B) (m : res A) : res B :=
  match m with Ok a => f a | Throw e => Throw e end.

(** ** HTTP *)

Record request := mkRequest {
  rq_method : string;
  rq_url : string;
  rq_headers : list (string * string);
  rq_body : option jsval;
  rq_timeout : option Z  (** [AbortSignal.timeout(ms)] *)
}.

(** A received response: status, JSON body ([None]: the text is not JSON)
    and text. *)
Record fetched := mkFetched {
  ft_status : Z;
  ft_json : option jsval;
  ft_text : string
}.

(** [res.ok] *)
Definition ft_ok (r : fetched) : bool := (200 <=? ft_status r) && (ft_status r <=? 299).

(** The [SyntaxError] of a body that is not JSON. *)
Definition json_error : err := mkErr "SyntaxError" "invalid JSON".

(** The response a route returns. *)
Inductive response :=
| RJson (status : Z) (body : jsval)
| RText (status : Z) (body : string)
| RRedirect (location : string)
| RNext.

Definition json_ok (body : jsval) : response := RJson 200 body.

Definition response_status (r : response) : Z :=
  match r with RJson s _ | RText s _ => s | RRedirect _ => 307 | RNext => 200 end.

(** What the browser receives for a response: the status and, for a JSON
    body, the value that its text parses to. *)
Definition arrives (r : response) (x : fetched) : Prop :=
  match r with
  | RJson st b => ft_status x = st ∧ ft_json x = Some (json_normal b)
  | RText st t => ft_status x = st ∧ ft_text x = t
  | RRedirect _ | RNext => False
  end.

(** ** The effect monad *)

Inductive effect :=
| EFetch (r : request)
| ENow
| ELog (m : string).

(** The answers of the outside world, by position of the effect in the run. *)
Record env := mkEnv {
  env_fetch : nat → request → res fetched;
  env_now : nat → Z
}.

Definition M (A : Type) : Type := env → list effect → res A * list effect.

Definition ret {A} (a : A) : M A := λ _ l, (Ok a, l).
Definition throw {A} (e : err) : M A := λ _ l, (Throw e, l).

Definition bind {A B} (m : M A) (f : A → M B) : M B := λ w l,
  match m w l with
  | (Ok a, l') => f a w l'
  | (Throw e, l') => (Throw e, l')
  end.

(** [try { m } catch (e) { h(e) }] *)
Definition try_catch {A} (m : M A) (h : err → M A) : M A := λ w l,
  match m w l with
  | (Ok a, l') => (Ok a, l')
  | (Throw e, l') => h e w l'
  end.

Definition lift {A} (r : res A) : M A := λ _ l, (r, l).

(** [await fetch(...)] *)
Definition fetch (r : request) : M fetched := λ w l,
  (env_fetch w (length l) r, l ++ [EFetch r]).

(** [Date.now()] *)
Definition now : M Z := λ w l, (Ok (env_now w (length l)), l ++ [ENow]).

(** [v.k]: a property of [undefined] or [null] is a [TypeError]. *)
Definition member_error (k : string) (v : jsval) : err :=
  mkErr "TypeError" ("Cannot read properties of " +:+ to_string v +:+ " (reading '" +:+ k +:+ "')").

Definition member (k : string) (v : jsval) : M jsval :=
  if is_nullish v then throw (member_error k v) else ret (prop k v).

(** [v?.slice(0, n)]: strings and arrays have the method. *)
Definition slice_val (n : nat) (v : jsval) : M jsval :=
  match v with
  | JUndef | JNull => ret JUndef
  | JStr s => ret (JStr (slice 0 n s))
  | JArr l => ret (JArr (take n l))
  | _ => throw (mkErr "TypeError" "slice is not a function")
  end.

(** [v?.length ?? d] *)
Definition length_or (d : Z) (v : jsval) : jsval :=
  match v with
  | JArr l => JNum (of_Z (Z.of_nat (length l)))
  | JStr s => JNum (of_Z (Z.of_nat (String.length s)))
  | JObj _ => nullish (prop "length" v) (JNum (of_Z d))
  | _ => JNum (of_Z d)
  end.

(** [v.toFixed(f)]: a method of numbers. *)
Definition to_fixed_val (f : nat) (v : jsval) : M string :=
  match v with
  | JNum n => ret (to_fixed f n)
  | JUndef | JNull => throw (member_error "toFixed" v)
  | _ => throw (mkErr "TypeError" "toFixed is not a function")
  end.

(** The outcome of [m], for a [try] block whose effects on a local object
    made before the exception must survive it. *)
Definition attempt {A} (m : M A) : M (res A) := λ w l,
  match m w l with (r, l') => (Ok r, l') end.

(** [m().catch(() => d)] *)
Definition or_else {A} (m : M A) (d : A) : M A := try_catch m (λ _, ret d).

(** The body of a request the route itself received: [req.json()]. *)
Definition read_body (body : option jsval) : M jsval :=
  match body with Some v => ret v | None => throw json_error end.

Definition log (m : string) : M unit := λ _ l, (Ok tt, l ++ [ELog m]).

(** [await res.json()] *)
Definition read_json (r : fetched) : M jsval :=
  match ft_json r with Some v => ret v | None => throw json_error end.

(** [await res.text()] *)
Definition read_text (r : fetched) : M string := ret (ft_text r).

(** Promises of [Promise.all] whose requests have all been issued before the
    first answer is awaited: the two requests are performed in order and a
    rejection of either rejects the whole. *)
Definition both_fetch (a b : request) : M (fetched * fetched) := λ w l,
  let ra := env_fetch w (length l) a in
  let rb := env_fetch w (S (length l)) b in
  (match ra, rb with
   | Ok x, Ok y => Ok (x, y)
   | Throw e, _ => Throw e
   | _, Throw e => Throw e
   end, l ++ [EFetch a; EFetch b]).

Declare Scope eff_scope.
Delimit Scope eff_scope with eff.
Notation "'let!' x ':=' m 'in' k" := (bind m (λ x, k))
  (at level 200, x pattern, m at level 100, k at level 200) : eff_scope.
Notation "m ;; k" := (bind m (λ _, k)) (at level 100, right associativity) : eff_scope.

(** Run a handler from an empty log. *)
Definition run {A} (m : M A) (w : env) : res A * list effect := m w [].

Definition fetches (l : list effect) : list request :=
  omap (λ e, match e with EFetch r => Some r | _ => None end) l.

(** [NextResponse.json(data, { status })]: a status outside 200..599 is a
    [RangeError], and a JSON body may not accompany a null-body status. *)
Definition status_allowed (s : Z) : bool :=
  (200 <=? s) && (s <=? 599) && negb ((s =? 204) || (s =? 205) || (s =? 304)).

Definition status_error (s : Z) : err :=
  if (200 <=? s) && (s <=? 599) then mkErr "TypeError" ("Invalid response status code " +:+ string_of_Z s)
  else mkErr "RangeError" "init[status] must be in the range of 200 to 599, inclusive.".

Definition respond_json (status : Z) (data : jsval) : M response :=
  if status_allowed status then ret (RJson status data) else throw (status_error status).

(** ** Request construction *)
Definition get_req (url : string) : request := mkRequest "GET" url [] None None.
Definition with_timeout (ms : Z) (r : request) : request :=
  mkRequest (rq_method r) (rq_url r) (rq_headers r) (rq_body r) (Some ms).
Definition content_json : list (string * string) := [("Content-Type", "application/json")].
Definition post_json (url : string) (body : jsval) : request :=
  mkRequest "POST" url content_json (Some (json_normal body)) None.

(** [process.env.X ?? d] *)
Definition env_or (v : option string) (d : string) : string := default d v.

(** ** Facts *)

Lemma bind_ret {A B} (a : A) (f : A → M B) w l : bind (ret a) f w l = f a w l.
Proof. done. Qed.

Lemma bind_ok {A B} (m : M A) (f : A → M B) w l a l' :
  m w l = (Ok a, l') → bind m f w l = f a w l'.
Proof. unfold bind. by intros ->. Qed.

Lemma bind_throw {A B} (m : M A) (f : A → M B) w l e l' :
  m w l = (Throw e, l') → bind m f w l = (Throw e, l').
Proof. unfold bind. by intros ->. Qed.

(** Both halves of a sequence that returned had returned. *)
Lemma bind_inv {A B} (m : M A) (f : A → M B) w l b l' :
  bind m f w l = (Ok b, l') → ∃ a l1, m w l = (Ok a, l1) ∧ f a w l1 = (Ok b, l').
Proof. unfold bind. destruct (m w l) as [[a|e] l1]; [eauto|done]. Qed.

(** A handler that never throws: it always returns a response. *)
Definition no_throw {A} (m : M A) : Prop := ∀ w l, ∃ a l', m w l = (Ok a, l').

Lemma no_throw_ret {A} (a : A) : no_throw (ret a).
Proof. intros w l. by exists a, l. Qed.

Lemma no_throw_bind {A B} (m : M A) (f : A → M B) :
  no_throw m → (∀ a, no_throw (f a)) → no_throw (bind m f).
Proof.
  intros Hm Hf w l. destruct (Hm w l) as (a & l' & E). rewrite (bind_ok _ _ _ _ _ _ E). apply Hf.
Qed.

Lemma no_throw_catch {A} (m : M A) h : (∀ e, no_throw (h e)) → no_throw (try_catch m h).
Proof.
  intros Hh w l. unfold try_catch. destruct (m w l) as [[a|e] l']; [by exists a, l'|]. apply Hh.
Qed.

Lemma no_throw_or_else {A} (m : M A) d : no_throw (or_else m d).
Proof. apply no_throw_catch. intros _. apply no_throw_ret. Qed.

Lemma no_throw_now : no_throw now.
Proof. intros w l. unfold now. eauto. Qed.

Lemma no_throw_log m : no_throw (log m).
Proof. intros w l. unfold log. eauto. Qed.

#[export] Hint Resolve no_throw_ret no_throw_bind no_throw_catch no_throw_or_else no_throw_now no_throw_log : attest.

(** Effects are only ever appended to the log. *)
Definition extends {A} (m : M A) : Prop := ∀ w l, ∃ k, (m w l).2 = l ++ k.

Lemma fetches_app l1 l2 : fetches (l1 ++ l2) = fetches l1 ++ fetches l2.
Proof. unfold fetches. apply omap_app. Qed.

(** ** Weakest preconditions

    [wp m Q w l]: the run of [m] in the environment [w] after the effects [l]
    ends with an outcome and a log that satisfy [Q]. *)
Definition wp {A} (m : M A) (Q : res A → list effect → Prop) (w : env) (l : list effect) : Prop :=
  Q (m w l).1 (m w l).2.

Lemma wp_ret {A} (a : A) Q w l : Q (Ok a) l → wp (ret a) Q w l.
Proof. done. Qed.

Lemma wp_throw {A} e (Q : res A → _) w l : Q (Throw e) l → wp (throw e) Q w l.
Proof. done. Qed.

Lemma wp_bind {A B} (m : M A) (f : A → M B) Q w l :
  wp m (λ r l', match r with Ok a => wp (f a) Q w l' | Throw e => Q (Throw e) l' end) w l →
  wp (bind m f) Q w l.
Proof. unfold wp, bind. by destruct (m w l) as [[a|e] l']. Qed.

Lemma wp_catch {A} (m : M A) h Q w l :
  wp m (λ r l', match r with Ok a => Q (Ok a) l' | Throw e => wp (h e) Q w l' end) w l →
  wp (try_catch m h) Q w l.
Proof. unfold wp, try_catch. by destruct (m w l) as [[a|e] l']. Qed.

Lemma wp_attempt {A} (m : M A) Q w l : wp m (λ r l', Q (Ok r) l') w l → wp (attempt m) Q w l.
Proof. unfold wp, attempt. by destruct (m w l). Qed.

Lemma wp_fetch r Q w l : Q (env_fetch w (length l) r) (l ++ [EFetch r]) → wp (fetch r) Q w l.
Proof. done. Qed.

Lemma wp_now Q w l : Q (Ok (env_now w (length l))) (l ++ [ENow]) → wp now Q w l.
Proof. done. Qed.

Lemma wp_log m Q w l : Q (Ok tt) (l ++ [ELog m]) → wp (log m) Q w l.
Proof. done. Qed.

Lemma wp_mono {A} (m : M A) (P Q : res A → list effect → Prop) w l :
  wp m P w l → (∀ r l', P r l' → Q r l') → wp m Q w l.
Proof. unfold wp. eauto. Qed.

(** Computations that perform no effect. *)
Definition silent {A} (m : M A) : Prop := ∀ w l, (m w l).2 = l.

Lemma silent_ret {A} (a : A) : silent (ret a). Proof. done. Qed.
Lemma silent_throw {A} e : silent (throw (A := A) e). Proof. done. Qed.
Lemma silent_bind {A B} (m : M A) (f : A → M B) : silent m → (∀ a, silent (f a)) → silent (bind m f).
Proof.
  intros Hm Hf w l. unfold bind. pose proof (Hm w l) as E. destruct (m w l) as [[a|e] l']; simpl in *; subst; [|done].
  apply Hf.
Qed.
Lemma silent_member k v : silent (member k v).
Proof. unfold member. case_match; [apply silent_throw|apply silent_ret]. Qed.
Lemma silent_read_json r : silent (read_json r).
Proof. unfold read_json. case_match; [apply silent_ret|apply silent_throw]. Qed.
Lemma silent_slice n v : silent (slice_val n v).
Proof. intros w l. by destruct v. Qed.
Lemma silent_to_fixed f v : silent (to_fixed_val f v).
Proof. intros w l. by destruct v. Qed.
Lemma silent_respond s v : silent (respond_json s v).
Proof. unfold respond_json. case_match; [apply silent_ret|apply silent_throw]. Qed.
#[export] Hint Resolve silent_respond silent_ret silent_throw silent_bind silent_member silent_read_json
  silent_slice silent_to_fixed : attest.

(** A silent computation has the same outcome whatever happened before. *)
Lemma wp_silent {A} (m : M A) Q w l : silent m → (∀ r, m w l = (r, l) → Q r l) → wp m Q w l.
Proof. intros Hs HQ. unfold wp. rewrite Hs. apply HQ. specialize (Hs w l).
  destruct (m w l) as [r l']. simpl in *. by subst. Qed.

(** The request [rq] was performed and answered [x]. *)
Definition answered (w : env) (l : list effect) (rq : request) (x : res fetched) : Prop :=
  ∃ i, l !! i = Some (EFetch rq) ∧ env_fetch w i rq = x.

Lemma answered_app w l k rq x : answered w l rq x → answered w (l ++ k) rq x.
Proof. intros (i & E & Ex). exists i. split; [by apply lookup_app_l_Some|done]. Qed.

Lemma answered_last w l rq : answered w (l ++ [EFetch rq]) rq (env_fetch w (length l) rq).
Proof. exists (length l). split; [|done]. apply list_lookup_middle. done. Qed.

#[export] Hint Resolve answered_app answered_last : attest.

(** ** The requests a computation sends *)

(** [m] sends exactly [rqs], whatever the answers are. *)
Definition sends {A} (m : M A) (rqs : list request) : Prop :=
  ∀ w l, fetches (m w l).2 = fetches l ++ rqs.

Lemma sends_silent {A} (m : M A) : silent m → sends m [].
Proof. intros Hm w l. by rewrite Hm, app_nil_r. Qed.

Lemma sends_fetch_silent {A} rq (f : fetched → M A) : (∀ r, silent (f r)) → sends (bind (fetch rq) f) [rq].
Proof.
  intros Hf w l. unfold bind, fetch. destruct (env_fetch w (length l) rq) as [r|e]; simpl; [rewrite Hf|];
    by rewrite fetches_app.
Qed.

Lemma sends_now : sends now [].
Proof. intros w l. unfold now. simpl. by rewrite fetches_app. Qed.

Lemma sends_attempt {A} (m : M A) rqs : sends m rqs → sends (attempt m) rqs.
Proof. intros Hm w l. specialize (Hm w l). unfold attempt. by destruct (m w l). Qed.

(** In a sequence whose first part cannot throw, the requests add up. *)
Lemma sends_bind {A B} (m : M A) (f : A → M B) r1 r2 :
  no_throw m → sends m r1 → (∀ a, sends (f a) r2) → sends (bind m f) (r1 ++ r2).
Proof.
  intros Hn Hm Hf w l. destruct (Hn w l) as (a & l' & E). rewrite (bind_ok _ _ _ _ _ _ E), Hf.
  specialize (Hm w l). rewrite E in Hm. simpl in Hm. by rewrite Hm, app_assoc.
Qed.

Lemma no_throw_attempt {A} (m : M A) : no_throw (attempt m).
Proof. intros w l. unfold attempt. destruct (m w l) as [r l']. eauto. Qed.
#[export] Hint Resolve no_throw_attempt : attest.

(** ** Logs only grow *)

Lemma extends_silent {A} (m : M A) : silent m → extends m.
Proof. intros Hm w l. exists []. by rewrite Hm, app_nil_r. Qed.
Lemma extends_fetch r : extends (fetch r). Proof. intros w l. by eexists. Qed.
Lemma extends_now : extends now. Proof. intros w l. by eexists. Qed.
Lemma extends_log m : extends (log m). Proof. intros w l. by eexists. Qed.

Lemma extends_bind {A B} (m : M A) (f : A → M B) : extends m → (∀ a, extends (f a)) → extends (bind m f).
Proof.
  intros Hm Hf w l. unfold bind. destruct (Hm w l) as [k Ek]. destruct (m w l) as [[a|e] l']; simpl in *; subst l'.
  - destruct (Hf a w (l ++ k)) as [k' ->]. exists (k ++ k'). by rewrite app_assoc.
  - by exists k.
Qed.

Lemma extends_catch {A} (m : M A) h : extends m → (∀ e, extends (h e)) → extends (try_catch m h).
Proof.
  intros Hm Hh w l. unfold try_catch. destruct (Hm w l) as [k Ek]. destruct (m w l) as [[a|e] l']; simpl in *; subst l'.
  - by exists k.
  - destruct (Hh e w (l ++ k)) as [k' ->]. exists (k ++ k'). by rewrite app_assoc.
Qed.

Lemma extends_attempt {A} (m : M A) : extends m → extends (attempt m).
Proof. intros Hm w l. unfold attempt. specialize (Hm w l). by destruct (m w l). Qed.

#[export] Hint Resolve extends_silent extends_fetch extends_now extends_log extends_bind extends_catch
  extends_attempt : attest.

Lemma extends_answered {A} (m : M A) w l a l' rq x :
  extends m → m w l = (a, l') → answered w l rq x → answered w l' rq x.
Proof. intros Hm E H. destruct (Hm w l) as [k Ek]. rewrite E in Ek. simpl in Ek. subst l'. by apply answered_app. Qed.

(** A request that was answered has been logged with its answer. *)
Lemma fetch_inv rq w l r l' : fetch rq w l = (Ok r, l') → l' = l ++ [EFetch rq] ∧ answered w l' rq (Ok r).
Proof. unfold fetch. intros [= E <-]. split; [done|]. rewrite <- E. apply answered_last. Qed.
