(* ===== verification/AlertMappers.v ===== *)
(** * Building alerts

    - [lib/ocsf-to-alert.ts]: OCSF events to queue alerts ([Module Ocsf]);
    - [lib/detection-to-alert.ts]: fired detections to alerts ([Module Detection]);
    - [lib/server/enrich-alert.ts]: merging the persisted case snapshot into
      an alert ([Module Enrich]). *)
From Stdlib Require Import Ascii.
From S2P Require Import Prelude JsObject JsNum JsString JsValue Types.

Module Ocsf.

Record OcsfEvent := mkOcsfEvent {
  oe_event_id : string;
  oe_class_uid : option string;
  oe_time : option string;
  oe_tenant_id : option string;
  oe_actor_user_name : option string;
  oe_actor_user_uid : option string;
  oe_cloud_region : option string;
  oe_cloud_account_uid : option string;
  oe_severity : option string;
  oe_auth_status : option string;
  oe_api_operation : option string;
  oe_api_service : option string
}.
#[export] Instance OcsfEvent_eq : EqDecision OcsfEvent. Proof. solve_decision. Defined.

Definition IDLE_AGENT : AgentStatus := {|
  ag_agent := Triager;
  ag_status := AgIdle;
  ag_step := "Awaiting triage (Phase 4)";
  ag_toolsUsed := 0
|}.

Definition mapSeverity (s : option string) : Severity :=
  match s with
  | None => SevLow
  | Some s =>
      let l := to_lower s in
      if String.eqb l "critical" then SevCritical
      else if String.eqb l "high" then SevHigh
      else if String.eqb l "medium" then SevMedium
      else SevLow
  end.

(** A possibly missing string in a boolean position. *)
Definition str_truthy (s : option string) : bool :=
  match s with Some t => negb (String.eqb t EmptyString) | None => false end.

Definition opt_is (s : option string) (lit : string) : bool :=
  match s with Some t => String.eqb t lit | None => false end.

Definition titleFromEvent (ev : OcsfEvent) : string :=
  if opt_is (oe_class_uid ev) "3002" || opt_is (oe_class_uid ev) "Authentication" then
    let status := if opt_is (oe_auth_status ev) "Success" then "successful" else "failed" in
    status +:+ " console login" +:+
    (if str_truthy (oe_cloud_region ev)
     then " (" +:+ default EmptyString (oe_cloud_region ev) +:+ ")" else EmptyString)
  else if str_truthy (oe_api_operation ev) then
    default EmptyString (oe_api_operation ev) +:+
    (if str_truthy (oe_api_service ev)
     then " via " +:+ default EmptyString (oe_api_service ev) else EmptyString)
  else "OCSF event " +:+ slice 0 8 (oe_event_id ev).

(** The host's [new Date(time).toLocaleTimeString()] depends on its locale
    and time zone: a parameter. *)
Section Locale.
Variable toLocaleTimeString : string → string.

Definition ocsfEventToAlert (ev : OcsfEvent) (index : nat) : Alert := {|
  al_id := oe_event_id ev;
  al_caseId := "case-" +:+ slice 0 8 (oe_event_id ev);
  al_title := titleFromEvent ev;
  al_source := "AWS CloudTrail";
  al_entity := match oe_actor_user_name ev with
               | Some n => n
               | None => default "unknown" (oe_actor_user_uid ev)
               end;
  al_region := default "—" (oe_cloud_region ev);
  al_severity := mapSeverity (oe_severity ev);
  al_state := AwaitingReview;
  al_verdict := VInvestigating;
  al_confidence := zero;
  al_executionPath := PathClassifier;
  al_updatedAt := match oe_time ev with
                  | Some t => if str_truthy (Some t) then toLocaleTimeString t
                              else "event " +:+ string_of_Z (Z.of_nat index + 1)
                  | None => "event " +:+ string_of_Z (Z.of_nat index + 1)
                  end;
  al_technique := if opt_is (oe_class_uid ev) "3002" then "T1078.004" else "T1530";
  al_summary := "Live OCSF event from attest-collector. Triage agents available in Phase 4.";
  al_agentStatus := IDLE_AGENT
|}.

(** The fields of a JSON object read as an [OcsfEvent]; [None] when a field
    is neither a string nor missing, which the declared type excludes. *)
Definition opt_field (k : string) (v : jsval) : option (option string) :=
  match prop k v with
  | JUndef | JNull => Some None
  | JStr s => Some (Some s)
  | _ => None
  end.

Definition as_ocsf (v : jsval) : option OcsfEvent :=
  match prop "event_id" v with
  | JStr id =>
      class_uid ← opt_field "class_uid" v;
      time ← opt_field "time" v;
      tenant ← opt_field "tenant_id" v;
      name ← opt_field "actor_user_name" v;
      uid ← opt_field "actor_user_uid" v;
      region ← opt_field "cloud_region" v;
      account ← opt_field "cloud_account_uid" v;
      sev ← opt_field "severity" v;
      auth ← opt_field "auth_status" v;
      op ← opt_field "api_operation" v;
      svc ← opt_field "api_service" v;
      Some (mkOcsfEvent id class_uid time tenant name uid region account sev auth op svc)
  | _ => None
  end.

Fixpoint map_events (i : nat) (l : list jsval) : option (list Alert) :=
  match l with
  | [] => Some []
  | v :: l' =>
      ev ← as_ocsf v;
      rest ← map_events (S i) l';
      Some (ocsfEventToAlert ev i :: rest)
  end.

Definition parseEventsResponse (data : jsval) : option (list Alert) :=
  match data with
  | JArr l => map_events 0 l
  | JObj o => if obj_has "event_id" o then map_events 0 [data] else Some []
  | _ => Some []
  end.
End Locale.

End Ocsf.

Module Detection.

Record FiredDetection := mkFiredDetection {
  fd_detection_id : string;
  fd_event_id : string;
  fd_actor_user_name : string;
  fd_cloud_region : string;
  fd_severity : string;
  fd_fired_at : string
}.

Definition IDLE_AGENT : AgentStatus := {|
  ag_agent := Triager;
  ag_status := AgIdle;
  ag_step := "Awaiting triage";
  ag_toolsUsed := 0
|}.

Definition DETECTION_TITLES : jsobj string := [
  ("aws_console_login_from_anomalous_geolocation", "Console Login from Anomalous Region");
  ("aws_cloudtrail_logging_disabled", "CloudTrail Logging Disabled");
  ("aws_root_account_use", "AWS Root Account Used");
  ("aws_iam_user_excessive_privilege", "Excessive IAM Privilege Granted");
  ("aws_new_iam_user_then_access_keys_sequence", "New IAM User Created with Access Keys");
  ("aws_s3_bucket_policy_made_public", "S3 Bucket Made Public");
  ("okta_brute_force_authentication", "Okta Brute-Force Authentication");
  ("okta_mfa_bypass_attempt", "Okta MFA Bypass Attempt");
  ("m365_mass_external_sharing", "M365 Mass External Sharing");
  ("m365_inbox_rule_auto_forward_external", "M365 Inbox Auto-Forward Rule")
].

Definition DETECTION_MITRE : jsobj string := [
  ("aws_console_login_from_anomalous_geolocation", "T1078.004");
  ("aws_cloudtrail_logging_disabled", "T1562.001");
  ("aws_root_account_use", "T1078");
  ("aws_iam_user_excessive_privilege", "T1098");
  ("aws_new_iam_user_then_access_keys_sequence", "T1136.003");
  ("aws_s3_bucket_policy_made_public", "T1530");
  ("okta_brute_force_authentication", "T1110");
  ("okta_mfa_bypass_attempt", "T1556");
  ("m365_mass_external_sharing", "T1567");
  ("m365_inbox_rule_auto_forward_external", "T1114.003")
].

Definition toTitleCase (id : string) : string :=
  capitalize_words (replace_char "_"%char " "%char id).

Definition mapSeverity (raw : string) : Severity :=
  let s := to_lower raw in
  if String.eqb s "critical" then SevCritical
  else if String.eqb s "high" then SevHigh
  else if String.eqb s "medium" then SevMedium
  else if String.eqb s "low" then SevLow
  else SevMedium.

(** [s || "unknown"] *)
Definition or_unknown (s : string) : string :=
  if String.eqb s EmptyString then "unknown" else s.

Definition firedDetectionToAlert (d : FiredDetection) : Alert := {|
  al_id := fd_event_id d;
  al_caseId := fd_event_id d;
  al_title := default (toTitleCase (fd_detection_id d)) (obj_get (fd_detection_id d) DETECTION_TITLES);
  al_source := "HELIQL Detection";
  al_entity := or_unknown (fd_actor_user_name d);
  al_region := or_unknown (fd_cloud_region d);
  al_severity := mapSeverity (fd_severity d);
  al_state := AwaitingReview;
  al_verdict := VInvestigating;
  al_confidence := zero;
  al_executionPath := PathClassifier;
  al_updatedAt := fd_fired_at d;
  al_technique := default EmptyString (obj_get (fd_detection_id d) DETECTION_MITRE);
  al_summary := "Detection rule " +:+ quote +:+ fd_detection_id d +:+ quote +:+ " fired — entity: "
                +:+ fd_actor_user_name d +:+ ", region: " +:+ fd_cloud_region d +:+ ".";
  al_agentStatus := IDLE_AGENT
|}.

(** A JSON object read as a [FiredDetection]. *)
Definition as_fired (v : jsval) : option FiredDetection :=
  match prop "detection_id" v, prop "event_id" v, prop "actor_user_name" v,
        prop "cloud_region" v, prop "severity" v, prop "fired_at" v with
  | JStr d, JStr e, JStr a, JStr r, JStr s, JStr f => Some (mkFiredDetection d e a r s f)
  | _, _, _, _, _, _ => None
  end.

Definition parseFiredDetections (data : jsval) : option (list Alert) :=
  match data with
  | JArr l => fmap (M := list) firedDetectionToAlert <$> mapM as_fired l
  | _ => Some []
  end.

End Detection.

Module Enrich.

Definition numberField (value : jsval) (fallback : num) : num :=
  match value with
  | JNum n => if is_finite n then n else fallback
  | _ => fallback
  end.

Definition normalizeExecutionPath (value : jsval) (fallback : ExecutionPath) : ExecutionPath :=
  if is_str "classifier" value then PathClassifier
  else if is_str "llm" value then PathLlm
  else if is_str "hybrid" value then PathHybrid
  else fallback.

Definition normalizeVerdict (value : string) : AlertVerdict :=
  if String.eqb value "false_positive" || String.eqb value "benign" then VBenign
  else if String.eqb value "true_positive" || String.eqb value "malicious" then VMalicious
  else if String.eqb value "needs_investigation" || String.eqb value "suspicious" then VSuspicious
  else VInvestigating.

Definition formatQueueTitle (fallback : string) (event : jsval) : string :=
  if truthy (prop "api_operation" event)
  then split_camel (to_string (prop "api_operation" event))
  else fallback.

(** [undefined] test, for [x !== undefined]. *)
Definition is_undef (v : jsval) : bool := match v with JUndef => true | _ => false end.

Definition buildQueueSummary (alert : Alert) (event verdict : jsval) : string :=
  let parts :=
    (if truthy (prop "api_service" event)
     then ["service " +:+ to_string (prop "api_service" event)] else [])
    ++ (if truthy (prop "cloud_region" event)
        then ["region " +:+ to_string (prop "cloud_region" event)] else [])
    ++ (if is_undef (prop "novelty_score" verdict) then []
        else ["novelty " +:+ to_fixed 3 (to_number (prop "novelty_score" verdict))])
    ++ (if is_undef (prop "latency_ms" verdict) then []
        else [to_string (prop "latency_ms" verdict) +:+ "ms triage"]) in
  match parts with
  | [] => al_summary alert
  | _ => join " · " parts
  end.

Definition mergePersistedCase (alert : Alert) (persisted : CaseRow) : Alert :=
  let verdict := nullish (cw_verdict persisted) JNull in
  let event := nullish (cw_event persisted) JNull in
  let status := triage_status_string (cw_triage_status persisted) in
  let rawVerdict :=
    to_string (nullish (prop "verdict" verdict) (JStr (verdict_string (al_verdict alert)))) in
  let confidence := numberField (prop "calibrated_confidence" verdict) (al_confidence alert) in
  let executionPath :=
    normalizeExecutionPath (prop "execution_path" verdict) (al_executionPath alert) in
  let toolsUsed :=
    match prop "evidence_citations" (prop "investigation" verdict) with
    | JArr l => length l
    | _ => 0%nat
    end in
  {| al_id := al_id alert;
     al_caseId := al_caseId alert;
     al_title := formatQueueTitle (al_title alert) event;
     al_source := if truthy (prop "api_service" event)
                  then to_string (prop "api_service" event) else al_source alert;
     al_entity := if truthy (prop "actor_user_name" event)
                  then to_string (prop "actor_user_name" event) else al_entity alert;
     al_region := if truthy (prop "cloud_region" event)
                  then to_string (prop "cloud_region" event) else al_region alert;
     al_severity := al_severity alert;
     al_state := if String.eqb status "running" then InFlight else al_state alert;
     al_verdict := normalizeVerdict rawVerdict;
     al_confidence := confidence;
     al_executionPath := executionPath;
     al_updatedAt := al_updatedAt alert;
     al_technique := al_technique alert;
     al_summary := buildQueueSummary alert event verdict;
     al_agentStatus := {|
       ag_agent := if decide (executionPath = PathLlm) then Investigator else Triager;
       ag_status := if String.eqb status "complete" then AgComplete
                    else if String.eqb status "running" then AgRunning else AgIdle;
       ag_step := if String.eqb status "complete"
                  then replace_char "_"%char " "%char rawVerdict +:+ " verdict"
                  else if String.eqb status "running" then "Running triage"
                  else "Awaiting triage";
       ag_toolsUsed := toolsUsed
     |}
  |}.

(** [enrichAlertsWithPersisted]; [getCases] is the repository's batch lookup
    and [None] its rejection, which the code turns into an empty map. *)
Definition enrichAlertsWithPersisted
    (getCases : list string → option (gmap string CaseRow)) (alerts : list Alert) : list Alert :=
  match alerts with
  | [] => alerts
  | _ =>
      let persistedMap := default ∅ (getCases (al_caseId <$> alerts)) in
      (λ alert, match persistedMap !! al_caseId alert with
                | Some persisted =>
                    if truthy (cw_event persisted) then mergePersistedCase alert persisted else alert
                | None => alert
                end) <$> alerts
  end.

End Enrich.

(** ** Facts *)

(** A severity string that names one of the four levels, in any case. *)
Definition names_severity (raw : string) (s : Severity) : Prop := to_lower raw = severity_string s.

Lemma detection_mapSeverity_names raw s :
  names_severity raw s → Detection.mapSeverity raw = s.
Proof. unfold names_severity, Detection.mapSeverity. intros ->. by destruct s. Qed.

Lemma ocsf_mapSeverity_names raw s :
  names_severity raw s → Ocsf.mapSeverity (Some raw) = s.
Proof. unfold names_severity, Ocsf.mapSeverity. intros ->. by destruct s. Qed.

Lemma map_events_length loc i l al :
  Ocsf.map_events loc i l = Some al → length al = length l.
Proof.
  revert i al; induction l as [|v l IH]; intros i al; simpl; [by intros [= <-]|].
  intros (ev & _ & (r & Hr & [= <-])%bind_Some)%bind_Some. simpl. f_equal. eauto.
Qed.

Lemma map_events_lookup loc i l al j v :
  Ocsf.map_events loc i l = Some al → l !! j = Some v →
  ∃ ev, Ocsf.as_ocsf v = Some ev ∧ al !! j = Some (Ocsf.ocsfEventToAlert loc ev (i + j)).
Proof.
  revert i al j; induction l as [|w l IH]; intros i al j; simpl; [done|].
  intros (ev & Hev & (r & Hr & [= <-])%bind_Some)%bind_Some.
  destruct j as [|j]; simpl; intros Hj; simplify_eq.
  - exists ev. by rewrite Nat.add_0_r.
  - destruct (IH (S i) r j Hr Hj) as (ev' & ? & ?). exists ev'.
    by replace (i + S j)%nat with (S i + j)%nat by lia.
Qed.
