(* ===== verification/CaseStore.v ===== *)
(** * The client-side case store ([lib/stores/case-store.ts])

    One entry per case, at most [MAX_CASES] of them. Each action of the
    store is a function from the state to the state; [Date.now()] readings
    are arguments. [step] is one call of an action, and the invariants are
    proved by induction over sequences of calls. *)
From S2P Require Import Prelude JsObject JsNum JsString JsValue Types AlertMappers.

Inductive Disposition := DispNone | DispApproved | DispOverride.
#[export] Instance Disposition_eq : EqDecision Disposition. Proof. solve_decision. Defined.

Record ClassifierEvidence := mkClassifierEvidence {
  ce_input_features : jsobj num;
  ce_shap_values : jsobj num;
  ce_raw_prediction : num;
  ce_calibrated_confidence : num;
  ce_novelty_score : num
}.

Record TriageVerdict := mkTriageVerdict {
  tv_action_id : string;
  tv_case_id : string;
  tv_verdict : string;
  tv_execution_path : string;
  tv_calibrated_confidence : num;
  tv_novelty_score : num;
  tv_escalated : bool;
  tv_escalation_reason : option string;
  tv_latency_ms : num;
  tv_classifier_evidence : option ClassifierEvidence
}.

(** [{ regions_seen_30d?: string[] } | null] *)
Notation Baseline := (option (option (list string))).

Record CaseEntry := mkCaseEntry {
  en_event : Ocsf.OcsfEvent;
  en_baseline : Baseline;
  en_verdict : option TriageVerdict;
  en_triageStatus : TriageStatus;
  en_triageStartedAt : option Z;
  en_triageError : option string;
  en_traceSteps : list KafkaTraceStep;
  en_disposition : Disposition;
  en_overrideLabel : option string;
  en_updatedAt : Z
}.

Definition MAX_CASES : nat := 50.

(** The [cases] field of the store. *)
Notation Cases := (jsobj CaseEntry).

(** ** Helpers *)

Definition older (a b : string * CaseEntry) : bool := en_updatedAt a.2 <=? en_updatedAt b.2.

Definition evictIfNeeded (cases : Cases) (incomingId : string) : Cases :=
  if obj_has incomingId cases || (length (obj_keys cases) <? MAX_CASES)%nat then cases
  else
    let sorted := sort_by older (filter (λ kv, kv.1 ≠ incomingId) (obj_entries cases)) in
    match head sorted with
    | None => cases
    | Some toEvict => obj_delete toEvict.1 cases
    end.

(** [`${t.agent_action_id}:${t.step_kind}:${t.ts}`] *)
Definition step_key (t : KafkaTraceStep) : string :=
  ks_agent_action_id t +:+ ":" +:+ ks_step_kind t +:+ ":" +:+ num_to_string (ks_ts t).

(** ** Actions *)

Definition initCase (now : Z) (caseId : string) (event : Ocsf.OcsfEvent) (baseline : Baseline)
    (s : Cases) : Cases :=
  let existing := obj_get caseId s in
  let cases := evictIfNeeded s caseId in
  obj_set caseId {|
    en_event := event;
    en_baseline := baseline;
    en_verdict := existing ≫= en_verdict;
    en_triageStatus := default TIdle (en_triageStatus <$> existing);
    en_triageStartedAt := existing ≫= en_triageStartedAt;
    en_triageError := existing ≫= en_triageError;
    en_traceSteps := default [] (en_traceSteps <$> existing);
    en_disposition := default DispNone (en_disposition <$> existing);
    en_overrideLabel := existing ≫= en_overrideLabel;
    en_updatedAt := now
  |} cases.

(** The shape of the other writes: nothing happens when the case is absent. *)
Definition update_entry (caseId : string) (f : CaseEntry → CaseEntry) (s : Cases) : Cases :=
  match obj_get caseId s with
  | None => s
  | Some entry => obj_set caseId (f entry) s
  end.

Definition startTriage (now1 now2 : Z) (caseId : string) (s : Cases) : Cases :=
  update_entry caseId (λ entry, {|
    en_event := en_event entry; en_baseline := en_baseline entry; en_verdict := en_verdict entry;
    en_triageStatus := TRunning; en_triageStartedAt := Some now1; en_triageError := None;
    en_traceSteps := en_traceSteps entry; en_disposition := en_disposition entry;
    en_overrideLabel := en_overrideLabel entry; en_updatedAt := now2 |}) s.

Definition setVerdict (now : Z) (caseId : string) (verdict : TriageVerdict) (s : Cases) : Cases :=
  update_entry caseId (λ entry, {|
    en_event := en_event entry; en_baseline := en_baseline entry; en_verdict := Some verdict;
    en_triageStatus := TComplete; en_triageStartedAt := en_triageStartedAt entry;
    en_triageError := None; en_traceSteps := en_traceSteps entry;
    en_disposition := en_disposition entry; en_overrideLabel := en_overrideLabel entry;
    en_updatedAt := now |}) s.

Definition failTriage (now : Z) (caseId : string) (error : string) (s : Cases) : Cases :=
  update_entry caseId (λ entry, {|
    en_event := en_event entry; en_baseline := en_baseline entry; en_verdict := en_verdict entry;
    en_triageStatus := TFailed; en_triageStartedAt := en_triageStartedAt entry;
    en_triageError := Some error; en_traceSteps := en_traceSteps entry;
    en_disposition := en_disposition entry; en_overrideLabel := en_overrideLabel entry;
    en_updatedAt := now |}) s.

Definition with_trace (now : Z) (steps : list KafkaTraceStep) (entry : CaseEntry) : CaseEntry := {|
  en_event := en_event entry; en_baseline := en_baseline entry; en_verdict := en_verdict entry;
  en_triageStatus := en_triageStatus entry; en_triageStartedAt := en_triageStartedAt entry;
  en_triageError := en_triageError entry; en_traceSteps := steps;
  en_disposition := en_disposition entry; en_overrideLabel := en_overrideLabel entry;
  en_updatedAt := now |}.

Definition appendTraceStep (now : Z) (caseId : string) (step : KafkaTraceStep) (s : Cases) : Cases :=
  match obj_get caseId s with
  | None => s
  | Some entry =>
      if existsb (λ t, String.eqb (step_key t) (step_key step)) (en_traceSteps entry) then s
      else obj_set caseId (with_trace now (step :: en_traceSteps entry) entry) s
  end.

Definition clearTraceSteps (now : Z) (caseId : string) (s : Cases) : Cases :=
  update_entry caseId (with_trace now []) s.

Definition setApproved (now : Z) (caseId : string) (s : Cases) : Cases :=
  update_entry caseId (λ entry, {|
    en_event := en_event entry; en_baseline := en_baseline entry; en_verdict := en_verdict entry;
    en_triageStatus := en_triageStatus entry; en_triageStartedAt := en_triageStartedAt entry;
    en_triageError := en_triageError entry; en_traceSteps := en_traceSteps entry;
    en_disposition := DispApproved; en_overrideLabel := en_overrideLabel entry;
    en_updatedAt := now |}) s.

Definition setOverride (now : Z) (caseId : string) (label : string) (s : Cases) : Cases :=
  update_entry caseId (λ entry, {|
    en_event := en_event entry; en_baseline := en_baseline entry; en_verdict := en_verdict entry;
    en_triageStatus := en_triageStatus entry; en_triageStartedAt := en_triageStartedAt entry;
    en_triageError := en_triageError entry; en_traceSteps := en_traceSteps entry;
    en_disposition := DispOverride; en_overrideLabel := Some label;
    en_updatedAt := now |}) s.

Definition evict (caseId : string) (s : Cases) : Cases := obj_delete caseId s.

(** ** Selectors *)
Definition selectCase (caseId : string) (s : Cases) : option CaseEntry := obj_get caseId s.
Definition selectVerdict (caseId : string) (s : Cases) : option TriageVerdict :=
  obj_get caseId s ≫= en_verdict.
Definition selectTraceSteps (caseId : string) (s : Cases) : list KafkaTraceStep :=
  default [] (en_traceSteps <$> obj_get caseId s).
Definition selectDisposition (caseId : string) (s : Cases) : Disposition :=
  default DispNone (en_disposition <$> obj_get caseId s).

(** ** Calls as transitions *)

Inductive Action :=
| AInit (caseId : string) (event : Ocsf.OcsfEvent) (baseline : Baseline)
| AStart (caseId : string)
| AVerdict (caseId : string) (verdict : TriageVerdict)
| AFail (caseId error : string)
| AAppend (caseId : string) (step : KafkaTraceStep)
| AClear (caseId : string)
| AApprove (caseId : string)
| AOverride (caseId label : string)
| AEvict (caseId : string).

(** One call, all its clock readings being [now]. *)
Definition run_action (now : Z) (a : Action) (s : Cases) : Cases :=
  match a with
  | AInit c e b => initCase now c e b s
  | AStart c => startTriage now now c s
  | AVerdict c v => setVerdict now c v s
  | AFail c e => failTriage now c e s
  | AAppend c t => appendTraceStep now c t s
  | AClear c => clearTraceSteps now c s
  | AApprove c => setApproved now c s
  | AOverride c l => setOverride now c l s
  | AEvict c => evict c s
  end.

Inductive step : Cases → Cases → Prop :=
| step_call now a s : step s (run_action now a s).

(** ** Well-formed states *)

Record entry_wf (e : CaseEntry) : Prop := {
  wf_complete : en_triageStatus e = TComplete → is_Some (en_verdict e);
  wf_running : en_triageStatus e = TRunning → is_Some (en_triageStartedAt e);
  wf_error : is_Some (en_triageError e) ↔ en_triageStatus e = TFailed;
  wf_override : en_disposition e = DispOverride → is_Some (en_overrideLabel e);
  wf_trace : NoDup (step_key <$> en_traceSteps e)
}.

Record store_wf (s : Cases) : Prop := {
  sw_nodup : obj_wf s;
  sw_bound : (length s ≤ MAX_CASES)%nat;
  sw_entries : ∀ k e, obj_get k s = Some e → entry_wf e
}.

(** ** Eviction *)

Lemma older_total a b : older a b = true ∨ older b a = true.
Proof. unfold older. rewrite !Z.leb_le. lia. Qed.

Lemma older_trans a b c : older a b = true → older b c = true → older a c = true.
Proof. unfold older. rewrite !Z.leb_le. lia. Qed.

#[export] Hint Resolve older_total older_trans : attest.

Lemma evict_cases cases id :
  evictIfNeeded cases id = cases ∧ (obj_has id cases = true ∨ (length cases < MAX_CASES)%nat)
  ∨ ∃ old, old ∈ cases ∧ old.1 ≠ id ∧ evictIfNeeded cases id = obj_delete old.1 cases
           ∧ obj_has id cases = false ∧ (MAX_CASES ≤ length cases)%nat
           ∧ ∀ kv, kv ∈ cases → en_updatedAt old.2 ≤ en_updatedAt kv.2.
Proof.
  unfold evictIfNeeded, obj_keys. rewrite length_fmap.
  destruct (obj_has id cases) eqn:Hh; simpl; [auto|].
  destruct (Nat.ltb_spec (length cases) MAX_CASES) as [Hl|Hl]; [auto|]. right.
  assert (Hmem : ∀ kv, kv ∈ cases →
    kv ∈ sort_by older (filter (λ kv, kv.1 ≠ id) (obj_entries cases))).
  { intros [k v] Hkv. rewrite sort_by_perm, list_elem_of_filter, obj_entries_perm. split; [|done].
    simpl. intros ->. assert (is_Some (obj_get id cases)) as Hs.
    { apply obj_get_keys, list_elem_of_fmap. by exists (id, v). }
    apply obj_has_spec in Hs. congruence. }
  destruct (sort_by older _) as [|old l] eqn:E; simpl.
  - destruct cases as [|kv cases]; [unfold MAX_CASES in Hl; simpl in Hl; lia|].
    by specialize (Hmem kv (list_elem_of_here _ _)) as ?%elem_of_nil.
  - assert (old ∈ sort_by older (filter (λ kv, kv.1 ≠ id) (obj_entries cases))) as Ho
      by (rewrite E; left).
    rewrite sort_by_perm, list_elem_of_filter, obj_entries_perm in Ho. destruct Ho as [Hne Hin].
    exists old. splits; try done. intros kv Hkv. apply Z.leb_le.
    eapply (sort_by_head_min older older_total older_trans _ _ _ E).
    rewrite <- (sort_by_perm older), E. by apply Hmem.
Qed.

Lemma evict_wf cases id : obj_wf cases → obj_wf (evictIfNeeded cases id).
Proof. intros W. destruct (evict_cases cases id) as [[-> _]|(old & _ & _ & -> & _)]; auto with attest. Qed.

(** After eviction there is room for the incoming case. *)
Lemma evict_room cases id :
  obj_wf cases → (length cases ≤ MAX_CASES)%nat →
  obj_has id (evictIfNeeded cases id) = true ∧ evictIfNeeded cases id = cases
  ∨ (length (evictIfNeeded cases id) < MAX_CASES)%nat.
Proof.
  intros W Hb. destruct (evict_cases cases id) as [[-> [?|?]]|([k v] & Hin & _ & -> & _ & _)]; auto.
  right. simpl. assert (is_Some (obj_get k cases)) as Hs by (rewrite (obj_elem_get k v cases); eauto).
  pose proof (obj_delete_length k cases W Hs). lia.
Qed.

Lemma evict_get cases id k e :
  obj_get k (evictIfNeeded cases id) = Some e → obj_get k cases = Some e.
Proof.
  destruct (evict_cases cases id) as [[-> _]|(old & _ & _ & -> & _)]; [done|].
  destruct (decide (k = old.1)) as [->|]; [by rewrite obj_get_delete_eq|].
  by rewrite obj_get_delete_ne.
Qed.

Lemma evict_get_incoming cases id : obj_get id (evictIfNeeded cases id) = obj_get id cases.
Proof.
  destruct (evict_cases cases id) as [[-> _]|(old & _ & Hne & -> & _)]; [done|].
  by rewrite obj_get_delete_ne.
Qed.

(** ** Well-formedness is preserved *)

Lemma obj_set_store_wf c e s :
  obj_wf s → (length s < MAX_CASES)%nat ∨ (obj_has c s = true ∧ (length s ≤ MAX_CASES)%nat) →
  entry_wf e → (∀ k e, obj_get k s = Some e → entry_wf e) → store_wf (obj_set c e s).
Proof.
  intros W Hl He Hs. constructor; [auto with attest| |].
  - rewrite obj_set_length. case_match; destruct Hl as [?|[? ?]]; simplify_eq; lia.
  - intros k e'. destruct (decide (k = c)) as [->|].
    + rewrite obj_get_set_eq. naive_solver.
    + rewrite obj_get_set_ne; eauto.
Qed.

Lemma update_entry_wf c f s :
  store_wf s → (∀ e, entry_wf e → entry_wf (f e)) → store_wf (update_entry c f s).
Proof.
  intros [W B E] Hf. unfold update_entry. destruct (obj_get c s) as [e|] eqn:Hc; [|done].
  apply obj_set_store_wf; eauto. right. split; [|done]. by apply obj_has_spec.
Qed.

Lemma default_entry_wf ev b now :
  entry_wf (mkCaseEntry ev b None TIdle None None [] DispNone None now).
Proof. constructor; simpl; try done; constructor. Qed.

Lemma initCase_wf now c ev b s : store_wf s → store_wf (initCase now c ev b s).
Proof.
  intros [W B E]. unfold initCase. apply obj_set_store_wf.
  - by apply evict_wf.
  - destruct (evict_room s c W B) as [[Hh E1]|]; [rewrite E1 in Hh |- *|]; auto.
  - destruct (obj_get c s) as [e|] eqn:Hc; simpl.
    + destruct (E c e Hc) as [H1 H2 H3 H4 H5]. by constructor.
    + apply default_entry_wf.
  - intros k e Hk. eapply E, evict_get, Hk.
Qed.

Ltac entry_wf_tac :=
  intros e [? ? ? ? ?]; constructor; simpl; try done; try (by eauto);
    first [split; naive_solver | constructor | naive_solver].

Lemma appendTraceStep_wf now c t s : store_wf s → store_wf (appendTraceStep now c t s).
Proof.
  intros [W B E]. unfold appendTraceStep. destruct (obj_get c s) as [e|] eqn:Hc; [|done].
  destruct (existsb _ _) eqn:Hx; [done|].
  apply obj_set_store_wf; eauto.
  - right. split; [|done]. by apply obj_has_spec.
  - destruct (E c e Hc) as [? ? ? ? Hn]. constructor; simpl; try done.
    constructor; [|done]. intros (t' & Ek & Ht')%list_elem_of_fmap.
    assert (existsb (λ t0, String.eqb (step_key t0) (step_key t)) (en_traceSteps e) = true); [|congruence].
    apply existsb_exists. exists t'. split; [by apply list_elem_of_In|]. by apply String.eqb_eq.
Qed.

Lemma evict_action_wf c s : store_wf s → store_wf (evict c s).
Proof.
  intros [W B E]. unfold evict. constructor; [auto with attest| |].
  - pose proof (obj_delete_length_le c s). lia.
  - intros k e. destruct (decide (k = c)) as [->|]; [by rewrite obj_get_delete_eq|].
    rewrite obj_get_delete_ne; eauto.
Qed.

Lemma run_action_wf now a s : store_wf s → store_wf (run_action now a s).
Proof.
  intros W. destruct a; simpl;
    [by apply initCase_wf| | | |by apply appendTraceStep_wf| | | |by apply evict_action_wf];
    (apply update_entry_wf; [done|]); entry_wf_tac.
Qed.

(** ** Abstract specification: a bounded finite map

    What the store promises, with the map [gmap string CaseEntry] as its
    state: every write but [initCase] alters the entry of its case, and
    [initCase] inserts one after dropping at most one oldest entry. *)

Definition oldest (m : gmap string CaseEntry) (k : string) : Prop :=
  ∃ e, m !! k = Some e ∧ ∀ k' e', m !! k' = Some e' → en_updatedAt e ≤ en_updatedAt e'.

Definition fresh_entry (now : Z) (ev : Ocsf.OcsfEvent) (b : Baseline) : CaseEntry :=
  mkCaseEntry ev b None TIdle None None [] DispNone None now.

Definition refreshed_entry (now : Z) (ev : Ocsf.OcsfEvent) (b : Baseline) (e : CaseEntry) : CaseEntry :=
  mkCaseEntry ev b (en_verdict e) (en_triageStatus e) (en_triageStartedAt e) (en_triageError e)
    (en_traceSteps e) (en_disposition e) (en_overrideLabel e) now.

Definition make_room (m : gmap string CaseEntry) (c : string) (m' : gmap string CaseEntry) : Prop :=
  m' = m ∧ (is_Some (m !! c) ∨ (size m < MAX_CASES)%nat)
  ∨ m !! c = None ∧ size m = MAX_CASES ∧ ∃ k, k ≠ c ∧ oldest m k ∧ m' = delete k m.

Definition set_status (now : Z) (st : TriageStatus) (started : option Z) (err : option string)
    (e : CaseEntry) : CaseEntry :=
  mkCaseEntry (en_event e) (en_baseline e) (en_verdict e) st started err
    (en_traceSteps e) (en_disposition e) (en_overrideLabel e) now.

Inductive spec_action (now : Z) : Action → gmap string CaseEntry → gmap string CaseEntry → Prop :=
| spec_init c ev b m m1 :
    make_room m c m1 →
    spec_action now (AInit c ev b) m
      (<[c := match m !! c with Some e => refreshed_entry now ev b e | None => fresh_entry now ev b end]> m1)
| spec_start c m :
    spec_action now (AStart c) m (alter (λ e, set_status now TRunning (Some now) None e) c m)
| spec_verdict c v m :
    spec_action now (AVerdict c v) m
      (alter (λ e, mkCaseEntry (en_event e) (en_baseline e) (Some v) TComplete (en_triageStartedAt e)
                     None (en_traceSteps e) (en_disposition e) (en_overrideLabel e) now) c m)
| spec_fail c err m :
    spec_action now (AFail c err) m
      (alter (λ e, set_status now TFailed (en_triageStartedAt e) (Some err) e) c m)
| spec_append c t m :
    spec_action now (AAppend c t) m
      (alter (λ e, if decide (step_key t ∈ step_key <$> en_traceSteps e) then e
                   else with_trace now (t :: en_traceSteps e) e) c m)
| spec_clear c m : spec_action now (AClear c) m (alter (with_trace now []) c m)
| spec_approve c m :
    spec_action now (AApprove c) m
      (alter (λ e, mkCaseEntry (en_event e) (en_baseline e) (en_verdict e) (en_triageStatus e)
                     (en_triageStartedAt e) (en_triageError e) (en_traceSteps e) DispApproved
                     (en_overrideLabel e) now) c m)
| spec_override c l m :
    spec_action now (AOverride c l) m
      (alter (λ e, mkCaseEntry (en_event e) (en_baseline e) (en_verdict e) (en_triageStatus e)
                     (en_triageStartedAt e) (en_triageError e) (en_traceSteps e) DispOverride
                     (Some l) now) c m)
| spec_evict c m : spec_action now (AEvict c) m (delete c m).

Lemma update_entry_map c f s : obj_map (update_entry c f s) = alter f c (obj_map s).
Proof.
  unfold update_entry. destruct (obj_get c s) as [e|] eqn:Hc; rewrite <- obj_get_map in Hc.
  - rewrite obj_map_set. apply map_eq; intros k. destruct (decide (k = c)) as [->|].
    + by rewrite lookup_insert_eq, lookup_alter_eq, Hc.
    + by rewrite lookup_insert_ne, lookup_alter_ne.
  - apply map_eq; intros k. destruct (decide (k = c)) as [->|].
    + by rewrite lookup_alter_eq, Hc.
    + by rewrite lookup_alter_ne.
Qed.

Lemma existsb_step_key t l :
  existsb (λ t', String.eqb (step_key t') (step_key t)) l = bool_decide (step_key t ∈ step_key <$> l).
Proof.
  induction l as [|x l IH]; [done|]. simpl. rewrite IH.
  destruct (String.eqb_spec (step_key x) (step_key t)) as [E|E]; simpl; symmetry.
  - apply bool_decide_eq_true. rewrite E. left.
  - apply bool_decide_ext. csimpl. rewrite elem_of_cons. naive_solver.
Qed.

Lemma appendTraceStep_update now c t s :
  obj_wf s →
  obj_map (appendTraceStep now c t s) =
  alter (λ e, if decide (step_key t ∈ step_key <$> en_traceSteps e) then e
              else with_trace now (t :: en_traceSteps e) e) c (obj_map s).
Proof.
  intros W. unfold appendTraceStep. destruct (obj_get c s) as [e|] eqn:Hc.
  - rewrite existsb_step_key. case_bool_decide as D.
    + symmetry. rewrite <- obj_get_map in Hc. apply map_eq; intros k. destruct (decide (k = c)) as [->|].
      * rewrite lookup_alter_eq, Hc. simpl. by rewrite decide_True.
      * by rewrite lookup_alter_ne.
    + rewrite <- update_entry_map. unfold update_entry. rewrite Hc. by rewrite decide_False.
  - rewrite <- update_entry_map. unfold update_entry. by rewrite Hc.
Qed.

Lemma obj_map_size s : obj_wf (A:=CaseEntry) s → size (obj_map s) = length s.
Proof. intros W. unfold obj_map. by apply map_size_list_to_map. Qed.

Lemma evict_make_room s c :
  store_wf s → make_room (obj_map s) c (obj_map (evictIfNeeded s c)).
Proof.
  intros [W B _]. unfold make_room. rewrite obj_map_size, obj_get_map by done.
  destruct (evict_cases s c) as [[-> Hc]|(old & Hin & Hne & -> & Hh & Hl & Hmin)].
  - left. split; [done|]. by rewrite <- obj_has_spec.
  - right. rewrite obj_map_delete. splits.
    + destruct (obj_get c s) eqn:E; [|done]. assert (obj_has c s = true) by (apply obj_has_spec; eauto). congruence.
    + lia.
    + exists old.1. splits; [done| |done]. exists old.2.
      rewrite obj_get_map. split.
      * apply obj_elem_get; [done|]. by destruct old.
      * intros k e. rewrite obj_get_map. intros He. by apply obj_get_elem, Hmin in He.
Qed.

(** C7: the store refines its specification: seen as a finite map, every
    call of an action does exactly what the abstract specification says
    ([initCase] inserts, dropping an oldest entry only when the store is
    full and the case new; every other action alters one entry). *)
Theorem case_store_refines now a s :
  store_wf s → spec_action now a (obj_map s) (obj_map (run_action now a s)).
Proof.
  intros W. destruct a; simpl; try (unfold startTriage, setVerdict, failTriage, clearTraceSteps,
    setApproved, setOverride, evict; rewrite ?update_entry_map, ?obj_map_delete; by constructor).
  - unfold initCase. rewrite obj_map_set.
    pose proof (spec_init now caseId event baseline (obj_map s) _ (evict_make_room s caseId W)) as R.
    rewrite obj_get_map in R. by destruct (obj_get caseId s).
  - rewrite appendTraceStep_update by apply W. constructor.
Qed.

(** ** Samples for the witnesses *)
Definition sample_event (id : string) : Ocsf.OcsfEvent :=
  Ocsf.mkOcsfEvent id (Some "3002") None None (Some "alice") None (Some "eu-west-1") None None None None None.

Definition sample_step (a k : string) (ts : Z) : KafkaTraceStep :=
  mkKafkaTraceStep "c1" "default" a "triager" "llm" k "summary" (of_Z ts).

Definition sample_store : Cases := initCase 1 "c1" (sample_event "c1") None [].

Lemma store_wf_empty : store_wf [].
Proof. constructor; simpl; [constructor|unfold MAX_CASES; lia|done]. Qed.

Lemma sample_store_wf : store_wf sample_store.
Proof. apply initCase_wf, store_wf_empty. Qed.

Lemma case_store_refines_witness :
  store_wf sample_store ∧
  spec_action 5 (AFail "c1" "boom") (obj_map sample_store) (obj_map (failTriage 5 "c1" "boom" sample_store)).
Proof. split; [apply sample_store_wf|]. apply (case_store_refines 5 (AFail "c1" "boom")), sample_store_wf. Defined.

(** C8: whatever actions are called, in whatever order and at whatever
    times, the store keeps at most 50 cases, one entry per case id, and every
    entry stays consistent: a complete triage has a verdict, a running one a
    start time, an error message is present exactly when triage failed, an
    override has its label, and no two trace steps share their identity. *)
Theorem case_store_invariant s0 s :
  store_wf s0 → star step s0 s →
  (length s ≤ 50)%nat ∧ NoDup s.*1 ∧
  ∀ c e, obj_get c s = Some e →
    (en_triageStatus e = TComplete → is_Some (en_verdict e)) ∧
    (en_triageStatus e = TRunning → is_Some (en_triageStartedAt e)) ∧
    (is_Some (en_triageError e) ↔ en_triageStatus e = TFailed) ∧
    (en_disposition e = DispOverride → is_Some (en_overrideLabel e)) ∧
    NoDup (step_key <$> en_traceSteps e).
Proof.
  intros W0 R. assert (store_wf s) as [Wn Wb We].
  { eapply star_invariant; [exact W0| |exact R]. intros a b Wa Hs. destruct Hs. by apply run_action_wf. }
  splits; [done..|]. intros c e Hc. by destruct (We c e Hc).
Qed.

Lemma case_store_invariant_witness :
  store_wf [] ∧ star step [] sample_store ∧ (length sample_store ≤ 50)%nat.
Proof.
  assert (R : star step [] sample_store).
  { eapply star_snoc; [apply star_refl|]. exact (step_call 1 (AInit "c1" (sample_event "c1") None) []). }
  split; [apply store_wf_empty|]. split; [exact R|].
  exact (proj1 (case_store_invariant [] sample_store store_wf_empty R)).
Defined.

(** Opening a case. The entry afterwards carries the new event and
    baseline, and keeps the verdict, triage state, trace and disposition an
    earlier visit left; every other case is unchanged, except that when the
    case is new and the store holds 50 entries, exactly one is dropped and
    no entry was written earlier than it. *)
Theorem initCase_spec now c ev b s :
  store_wf s →
  let s' := initCase now c ev b s in
  obj_get c s' = Some (match obj_get c s with
                       | Some e => refreshed_entry now ev b e
                       | None => fresh_entry now ev b
                       end) ∧
  length s' = (if obj_has c s then length s else (S (length s) `min` MAX_CASES)%nat) ∧
  ∀ k e, k ≠ c → obj_get k s = Some e →
    obj_get k s' = Some e ∨
    (obj_get k s' = None ∧ obj_has c s = false ∧ length s = MAX_CASES ∧
     ∀ k' e', obj_get k' s = Some e' → en_updatedAt e ≤ en_updatedAt e').
Proof.
  intros [W B _] s'. unfold s', initCase. splits.
  - rewrite obj_get_set_eq. by destruct (obj_get c s).
  - rewrite obj_set_length.
    destruct (evict_cases s c) as [[-> Hc]|([k v] & Hin & Hne & -> & Hh & Hl & _)].
    + destruct (obj_has c s); [done|]. destruct Hc; [done|lia].
    + simpl in *. rewrite Hh. replace (obj_has c (obj_delete k s)) with false.
      * pose proof (obj_delete_length k s W) as L.
        rewrite (obj_elem_get k v s W Hin) in L. specialize (L ltac:(eauto)). unfold MAX_CASES in *. lia.
      * symmetry. unfold obj_has in *. by rewrite obj_get_delete_ne.
  - intros k e Hne Hk. rewrite obj_get_set_ne by done.
    destruct (evict_cases s c) as [[-> _]|([k' v] & Hin & _ & -> & Hh & Hl & Hmin)]; [by left|].
    simpl in *. destruct (decide (k = k')) as [->|]; [|left; by rewrite obj_get_delete_ne].
    right. rewrite obj_get_delete_eq. splits; [done..|lia|].
    rewrite (obj_elem_get k' v s W Hin) in Hk. simplify_eq.
    intros k2 e2 H2. by apply obj_get_elem, Hmin in H2.
Qed.

Definition open_cases (l : list Z) (s : Cases) : Cases :=
  foldr (λ i s, initCase (100 - i) (string_of_Z i) (sample_event "e") None s) s l.

Lemma open_cases_wf l s : store_wf s → store_wf (open_cases l s).
Proof. intros W. induction l as [|i l IH]; simpl; [done|]. by apply initCase_wf. Qed.

(** Fifty cases, case ["49"] being the first written. *)
Definition full_store : Cases := open_cases (seqZ 0 50) [].

Lemma full_store_wf : store_wf full_store.
Proof. apply open_cases_wf, store_wf_empty. Qed.

Lemma initCase_spec_witness :
  store_wf full_store ∧ length full_store = MAX_CASES ∧
  obj_get "49" (initCase 500 "new" (sample_event "new") None full_store) = None ∧
  length (initCase 500 "new" (sample_event "new") None full_store) = 50%nat.
Proof.
  split; [apply full_store_wf|]. split; [vm_compute; reflexivity|].
  split; [vm_compute; reflexivity|].
  destruct (initCase_spec 500 "new" (sample_event "new") None full_store full_store_wf) as (_ & L & _).
  exact L.
Defined.

(** ** Trace steps *)

Lemma append_present now c t s e :
  obj_get c s = Some e → step_key t ∈ step_key <$> en_traceSteps e → appendTraceStep now c t s = s.
Proof.
  intros Hc Hk. unfold appendTraceStep. rewrite Hc, existsb_step_key. by rewrite bool_decide_eq_true_2.
Qed.

Definition append_all (now : Z) (c : string) (ts : list KafkaTraceStep) (s : Cases) : Cases :=
  foldl (λ s t, appendTraceStep now c t s) s ts.

Lemma selectTraceSteps_append now c t s :
  is_Some (obj_get c s) →
  selectTraceSteps c (appendTraceStep now c t s) =
    if decide (step_key t ∈ step_key <$> selectTraceSteps c s) then selectTraceSteps c s
    else t :: selectTraceSteps c s.
Proof.
  intros [e Hc]. unfold selectTraceSteps. rewrite Hc. simpl. case_decide as D.
  - erewrite append_present by eauto. by rewrite Hc.
  - unfold appendTraceStep. rewrite Hc, existsb_step_key, bool_decide_eq_false_2 by done.
    by rewrite obj_get_set_eq.
Qed.

Lemma append_domain now c t s k :
  is_Some (obj_get k (appendTraceStep now c t s)) ↔ is_Some (obj_get k s).
Proof.
  unfold appendTraceStep. destruct (obj_get c s) as [e|] eqn:Hc; [|done]. case_match; [done|].
  destruct (decide (k = c)) as [->|].
  - rewrite obj_get_set_eq, Hc. split; eauto.
  - by rewrite obj_get_set_ne.
Qed.

(** The trace of a case after a batch, as the one-pass deduplication of the
    batch in arrival order, newest first. *)
Lemma append_all_trace now c ts s :
  is_Some (obj_get c s) →
  selectTraceSteps c (append_all now c ts s) =
    reverse (dedup_by step_key (list_to_set (step_key <$> selectTraceSteps c s)) ts)
    ++ selectTraceSteps c s.
Proof.
  revert s; induction ts as [|t ts IH]; intros s Hs; [done|]. simpl.
  rewrite IH by by apply append_domain. rewrite selectTraceSteps_append by done.
  destruct (decide (step_key t ∈ step_key <$> selectTraceSteps c s)) as [D|D].
  - by rewrite (decide_True (P := step_key t ∈ list_to_set _)) by by rewrite elem_of_list_to_set.
  - rewrite (decide_False (P := step_key t ∈ list_to_set _)) by by rewrite elem_of_list_to_set.
    csimpl. by rewrite reverse_cons, <- app_assoc.
Qed.

Lemma append_all_absorb now c ts s :
  is_Some (obj_get c s) → (∀ t, t ∈ ts → step_key t ∈ step_key <$> selectTraceSteps c s) →
  append_all now c ts s = s.
Proof.
  intros [e Hc]. unfold selectTraceSteps. rewrite Hc. simpl.
  induction ts as [|t ts IH]; intros Hin; [done|]. simpl.
  erewrite append_present; [|exact Hc|apply Hin; left]. apply IH. intros t' Ht'. apply Hin. by right.
Qed.

(** Trace messages are deduplicated across reconnects. Delivering a
    batch of steps prepends exactly its new steps (one per identity
    [agent_action_id:step_kind:ts], the first delivered), and delivering any
    part of an already delivered batch again, in any order and at any later
    time, changes nothing at all in the store. *)
Theorem trace_replay now1 now2 c ts replay s :
  is_Some (obj_get c s) → (∀ t, t ∈ replay → t ∈ ts) →
  let s1 := append_all now1 c ts s in
  selectTraceSteps c s1 =
    reverse (dedup_by step_key (list_to_set (step_key <$> selectTraceSteps c s)) ts)
    ++ selectTraceSteps c s ∧
  append_all now2 c replay s1 = s1.
Proof.
  intros Hs Hsub s1. pose proof (append_all_trace now1 c ts s Hs) as E. fold s1 in E.
  split; [exact E|]. apply append_all_absorb.
  - unfold s1. clear E s1 Hsub. revert s Hs. induction ts as [|t ts IH]; intros s Hs; simpl; [done|].
    apply IH. by apply append_domain.
  - intros t Ht. rewrite E, fmap_app, elem_of_app, fmap_reverse, elem_of_reverse.
    rewrite dedup_by_keys, elem_of_list_to_set.
    destruct (decide (step_key t ∈ step_key <$> selectTraceSteps c s)); [by right|].
    left. split; [|done]. apply list_elem_of_fmap_2. by apply Hsub.
Qed.

Lemma trace_replay_witness :
  is_Some (obj_get "c1" sample_store) ∧
  append_all 9 "c1" [sample_step "a" "tool_call" 3]
    (append_all 8 "c1" [sample_step "a" "tool_call" 3; sample_step "a" "envelope" 4] sample_store)
  = append_all 8 "c1" [sample_step "a" "tool_call" 3; sample_step "a" "envelope" 4] sample_store.
Proof.
  assert (H : is_Some (obj_get "c1" sample_store)) by (eexists; vm_compute; reflexivity).
  split; [exact H|].
  refine (proj2 (trace_replay 8 9 "c1" _ _ sample_store H _)).
  intros t Ht. apply list_elem_of_singleton in Ht as ->. left.
Defined.
