(* ===== verification/UseTriage.v ===== *)
(** * The triage hook ([hooks/use-triage.ts])

    [useTriage(caseId, alert)] in one browser page: the module-level set
    [_triageFired], the hook's state and refs, its two effects and the
    requests they have in flight, over the client case store.

    React is modelled by its documented rules: after a state change the
    component renders again; an effect whose dependencies changed first runs
    its previous cleanup and then its body; unmounting runs the cleanups.
    The local variable [mounted] of one run of an effect is a numbered flag,
    since the continuation of the request and the cleanup share it. The hook
    is mounted for one case; its alert is present or not for the whole mount. *)
From S2P Require Import Prelude JsObject JsNum JsString JsValue Types AlertMappers CaseStore Effects.

#[export] Instance ClassifierEvidence_eq : EqDecision ClassifierEvidence. Proof. solve_decision. Defined.
#[export] Instance TriageVerdict_eq : EqDecision TriageVerdict. Proof. solve_decision. Defined.

Definition RUNNING_TTL_MS : Z := 5 * 60 * 1000.

Section Hook.
Variable caseId : string.
Variable has_alert : bool.

(** ** State *)

(** The dependencies of the second effect that can change. *)
Record deps := mkDeps {
  dp_hasCase : bool;
  dp_hydrated : bool;
  dp_serverChecked : bool;
  dp_storeVerdict : option TriageVerdict;
  dp_triageStatus : TriageStatus;
  dp_triageStartedAt : Z;
  dp_hasTerminalTrace : bool
}.
#[export] Instance deps_eq : EqDecision deps. Proof. solve_decision. Defined.

(** One mounted instance. *)
Record comp := mkComp {
  cp_serverChecked : bool;      (** [serverCheckedFor === caseId] *)
  cp_error : option string;
  cp_firedRef : bool;
  cp_effect1 : option nat;      (** flag of the first effect, once it has run *)
  cp_effect2 : option deps;     (** dependencies of the last run of the second *)
  cp_cleanup2 : option nat      (** flag its cleanup clears *)
}.

Inductive pending := PGet (flag : nat) | PPost (flag : nat).

Record hook_state := mkHook {
  hs_store : Cases;
  hs_hydrated : bool;
  hs_fired : gset string;       (** [_triageFired] *)
  hs_comp : option comp;
  hs_flags : list bool;         (** the [mounted] variables *)
  hs_pending : list pending;
  hs_posts : list Z;            (** times at which a triage was requested, latest first *)
  hs_now : Z
}.

Definition entry_of (s : hook_state) : option CaseEntry := obj_get caseId (hs_store s).

Definition terminal_step (t : KafkaTraceStep) : bool :=
  String.eqb (ks_step_kind t) "final_verdict" || String.eqb (ks_step_kind t) "envelope".

Definition deps_of (s : hook_state) (c : comp) : deps := {|
  dp_hasCase := bool_decide (is_Some (entry_of s));
  dp_hydrated := hs_hydrated s;
  dp_serverChecked := cp_serverChecked c;
  dp_storeVerdict := entry_of s ≫= en_verdict;
  dp_triageStatus := default TIdle (en_triageStatus <$> entry_of s);
  dp_triageStartedAt := default 0 (entry_of s ≫= en_triageStartedAt);
  dp_hasTerminalTrace := existsb terminal_step (default [] (en_traceSteps <$> entry_of s))
|}.

(** [loading], as returned by the hook. *)
Definition loading (s : hook_state) (c : comp) : bool :=
  bool_decide (cp_error c = None) && bool_decide (dp_storeVerdict (deps_of s c) = None) &&
  negb (dp_hasTerminalTrace (deps_of s c)).

(** ** Updates *)

Definition with_store (st : Cases) (s : hook_state) : hook_state :=
  mkHook st (hs_hydrated s) (hs_fired s) (hs_comp s) (hs_flags s) (hs_pending s) (hs_posts s) (hs_now s).
Definition with_fired (f : gset string) (s : hook_state) : hook_state :=
  mkHook (hs_store s) (hs_hydrated s) f (hs_comp s) (hs_flags s) (hs_pending s) (hs_posts s) (hs_now s).
Definition with_comp (c : option comp) (s : hook_state) : hook_state :=
  mkHook (hs_store s) (hs_hydrated s) (hs_fired s) c (hs_flags s) (hs_pending s) (hs_posts s) (hs_now s).
Definition with_flags (l : list bool) (s : hook_state) : hook_state :=
  mkHook (hs_store s) (hs_hydrated s) (hs_fired s) (hs_comp s) l (hs_pending s) (hs_posts s) (hs_now s).
Definition with_pending (l : list pending) (s : hook_state) : hook_state :=
  mkHook (hs_store s) (hs_hydrated s) (hs_fired s) (hs_comp s) (hs_flags s) l (hs_posts s) (hs_now s).
Definition with_posts (l : list Z) (s : hook_state) : hook_state :=
  mkHook (hs_store s) (hs_hydrated s) (hs_fired s) (hs_comp s) (hs_flags s) (hs_pending s) l (hs_now s).

Definition set_comp (f : comp → comp) (s : hook_state) : hook_state := with_comp (f <$> hs_comp s) s.

Definition set_checked (c : comp) : comp :=
  mkComp true (cp_error c) (cp_firedRef c) (cp_effect1 c) (cp_effect2 c) (cp_cleanup2 c).
Definition set_error (e : string) (c : comp) : comp :=
  mkComp (cp_serverChecked c) (Some e) (cp_firedRef c) (cp_effect1 c) (cp_effect2 c) (cp_cleanup2 c).

(** [mounted = false] *)
Definition kill (flag : option nat) (l : list bool) : list bool :=
  match flag with Some n => <[n := false]> l | None => l end.

Definition alive (s : hook_state) (flag : nat) : bool := default false (hs_flags s !! flag).

(** ** The effects *)

(** The first effect: ask the server for the case's state. *)
Definition effect1 (s : hook_state) : hook_state :=
  match hs_comp s with
  | Some c =>
      if hs_hydrated s && bool_decide (cp_effect1 c = None) then
        let n := length (hs_flags s) in
        with_comp (Some (mkComp (cp_serverChecked c) (cp_error c) (cp_firedRef c) (Some n) (cp_effect2 c) (cp_cleanup2 c)))
          (with_pending (hs_pending s ++ [PGet n]) (with_flags (hs_flags s ++ [true]) s))
      else s
  | None => s
  end.

Definition runningIsFresh (now : Z) (d : deps) : bool :=
  bool_decide (dp_triageStatus d = TRunning) && (0 <? dp_triageStartedAt d) &&
  (now - dp_triageStartedAt d <? RUNNING_TTL_MS).

(** The body of the second effect, for the component [c] with dependencies [d]. *)
Definition effect2_body (now : Z) (d : deps) (c : comp) (s : hook_state) : hook_state :=
  if negb (dp_hydrated d) || negb (dp_serverChecked d) || negb (dp_hasCase d) then s
  else if bool_decide (is_Some (dp_storeVerdict d)) || dp_hasTerminalTrace d then s
  else if runningIsFresh now d then s
  else
    let fired := if decide (dp_triageStatus d = TRunning) then hs_fired s ∖ {[caseId]} else hs_fired s in
    if negb has_alert || cp_firedRef c || bool_decide (caseId ∈ fired) then with_fired fired s
    else
      let n := length (hs_flags s) in
      with_comp (Some (mkComp (cp_serverChecked c) (cp_error c) true (cp_effect1 c) (cp_effect2 c) (Some n)))
        (with_fired ({[caseId]} ∪ fired)
          (with_store (startTriage now now caseId (hs_store s))
            (with_posts (now :: hs_posts s)
              (with_pending (hs_pending s ++ [PPost n]) (with_flags (hs_flags s ++ [true]) s))))).

(** A render: the second effect runs when its dependencies changed. *)
Definition effect2 (now : Z) (s : hook_state) : hook_state :=
  match hs_comp s with
  | Some c =>
      let d := deps_of s c in
      if decide (cp_effect2 c = Some d) then s
      else
        let c1 := mkComp (cp_serverChecked c) (cp_error c) (cp_firedRef c) (cp_effect1 c) (Some d) None in
        effect2_body now d c1 (with_comp (Some c1) (with_flags (kill (cp_cleanup2 c) (hs_flags s)) s))
  | None => s
  end.

(** The renders after a change: starting a triage changes the store, so the
    second effect is considered twice; [flush_settled] shows that is enough. *)
Definition flush (now : Z) (s : hook_state) : hook_state := effect2 now (effect2 now (effect1 s)).

(** ** Events *)

Inductive get_answer := GotVerdict (v : TriageVerdict) | GotFailed (e : string) | GotOther | GetRejected.
Inductive post_answer := PostVerdict (v : TriageVerdict) | PostRejected (message : string).

Inductive event :=
| Mount
| Unmount
| Hydrate
| Store (a : Action)                     (** a call of the store by other code *)
| GetAnswer (i : nat) (x : get_answer)
| PostAnswer (i : nat) (x : post_answer).

(** ** Reading the answers

    Values of other types than the declared ones yield [None]. *)
Definition num_field (k : string) (v : jsval) : option num := match prop k v with JNum n => Some n | _ => None end.
Definition str_field (k : string) (v : jsval) : option string := match prop k v with JStr s => Some s | _ => None end.

Definition num_record (v : jsval) : option (jsobj num) :=
  match v with
  | JObj o => mapM (λ kv, match kv.2 with JNum n => Some (kv.1, n) | _ => None end) o
  | _ => None
  end.

Definition as_evidence (v : jsval) : option (option ClassifierEvidence) :=
  match v with
  | JUndef => Some None
  | _ =>
      features ← num_record (prop "input_features" v);
      shap ← num_record (prop "shap_values" v);
      raw ← num_field "raw_prediction" v;
      calibrated ← num_field "calibrated_confidence" v;
      novelty ← num_field "novelty_score" v;
      Some (Some (mkClassifierEvidence features shap raw calibrated novelty))
  end.

Definition as_verdict (v : jsval) : option TriageVerdict :=
  action ← str_field "action_id" v;
  case_id ← str_field "case_id" v;
  verdict ← str_field "verdict" v;
  path ← str_field "execution_path" v;
  calibrated ← num_field "calibrated_confidence" v;
  novelty ← num_field "novelty_score" v;
  escalated ← (match prop "escalated" v with JBool b => Some b | _ => None end);
  reason ← (match prop "escalation_reason" v with JUndef => Some None | JStr s => Some (Some s) | _ => None end);
  latency ← num_field "latency_ms" v;
  evidence ← as_evidence (prop "classifier_evidence" v);
  Some (mkTriageVerdict action case_id verdict path calibrated novelty escalated reason latency evidence).

(** The first effect reads the body whatever the status. *)
Definition read_get (r : res fetched) : option get_answer :=
  match r with
  | Throw _ => Some GetRejected
  | Ok x =>
      match ft_json x with
      | None => Some GetRejected
      | Some data =>
          if is_nullish data then Some GetRejected
          else if truthy (prop "verdict" data) then GotVerdict <$> as_verdict (prop "verdict" data)
          else match prop "status" data, prop "error" data with
               | JStr st, JStr e =>
                   if String.eqb st "failed" && negb (String.eqb e EmptyString) then Some (GotFailed e) else Some GotOther
               | JStr _, (JUndef | JNull) | JUndef, (JUndef | JNull | JStr _) => Some GotOther
               | _, _ => None
               end
      end
  end.

Definition read_post (r : res fetched) : option post_answer :=
  match r with
  | Throw e => Some (PostRejected (err_message e))
  | Ok x =>
      if negb (ft_ok x) then Some (PostRejected ("HTTP " +:+ string_of_Z (ft_status x)))
      else match ft_json x with
           | None => Some (PostRejected (err_message json_error))
           | Some data => PostVerdict <$> as_verdict data
           end
  end.

Definition get_answered (now : Z) (flag : nat) (x : get_answer) (s : hook_state) : hook_state :=
  if negb (alive s flag) then s
  else match x with
       | GotVerdict v =>
           with_fired ({[caseId]} ∪ hs_fired s) (with_store (setVerdict now caseId v (hs_store s)) s)
       | GotFailed e =>
           if String.eqb e EmptyString then set_comp set_checked s
           else set_comp (set_error e) (with_store (failTriage now caseId e (hs_store s)) s)
       | GotOther | GetRejected => set_comp set_checked s
       end.

Definition post_answered (now : Z) (flag : nat) (x : post_answer) (s : hook_state) : hook_state :=
  match x with
  | PostVerdict v => with_store (setVerdict now caseId v (hs_store s)) s
  | PostRejected m =>
      let s1 := with_store (failTriage now caseId m (hs_store s)) s in
      if alive s flag then set_comp (set_error m) s1 else s1
  end.

(** Other code does not start triages. *)
Definition foreign (a : Action) : bool := match a with AStart _ => false | _ => true end.

Definition handle (now : Z) (e : event) (s : hook_state) : option hook_state :=
  match e with
  | Mount =>
      match hs_comp s with
      | None => Some (with_comp (Some (mkComp false None false None None None)) s)
      | Some _ => None
      end
  | Unmount =>
      match hs_comp s with
      | Some c => Some (with_comp None (with_flags (kill (cp_effect1 c) (kill (cp_cleanup2 c) (hs_flags s))) s))
      | None => None
      end
  | Hydrate =>
      Some (mkHook (hs_store s) true (hs_fired s) (hs_comp s) (hs_flags s) (hs_pending s) (hs_posts s) (hs_now s))
  | Store a => if foreign a then Some (with_store (run_action now a (hs_store s)) s) else None
  | GetAnswer i x =>
      match hs_pending s !! i with
      | Some (PGet n) => Some (get_answered now n x (with_pending (delete i (hs_pending s)) s))
      | _ => None
      end
  | PostAnswer i x =>
      match hs_pending s !! i with
      | Some (PPost n) => Some (post_answered now n x (with_pending (delete i (hs_pending s)) s))
      | _ => None
      end
  end.

(** An event at time [now], which does not precede the last one. *)
Definition fire (now : Z) (e : event) (s : hook_state) : option hook_state :=
  if bool_decide (0 < now ∧ hs_now s ≤ now) then
    s1 ← handle now e s;
    let s2 := flush now s1 in
    Some (mkHook (hs_store s2) (hs_hydrated s2) (hs_fired s2) (hs_comp s2) (hs_flags s2) (hs_pending s2)
            (hs_posts s2) now)
  else None.

Definition hstep (s s' : hook_state) : Prop := ∃ now e, fire now e s = Some s'.

(** A page load: a store restored from the session, no hook mounted. *)
Definition page_load (store : Cases) (t : Z) : hook_state := mkHook store false ∅ None [] [] [] t.

(** ** The store under the hook *)

(** A case that is running after a foreign action was running before, since
    the same time. *)
Lemma foreign_running now a st e :
  foreign a = true → obj_get caseId (run_action now a st) = Some e → en_triageStatus e = TRunning →
  ∃ e0, obj_get caseId st = Some e0 ∧ en_triageStatus e0 = TRunning ∧ en_triageStartedAt e0 = en_triageStartedAt e.
Proof.
  assert (Hup : ∀ c f, (∀ x, en_triageStatus (f x) = TRunning →
       en_triageStatus x = TRunning ∧ en_triageStartedAt x = en_triageStartedAt (f x)) →
     obj_get caseId (update_entry c f st) = Some e → en_triageStatus e = TRunning →
     ∃ e0, obj_get caseId st = Some e0 ∧ en_triageStatus e0 = TRunning ∧ en_triageStartedAt e0 = en_triageStartedAt e).
  { intros c f Hf. unfold update_entry. destruct (obj_get c st) as [x|] eqn:Ex; [|eauto].
    destruct (decide (caseId = c)) as [->|Hne]; [|rewrite obj_get_set_ne by done; eauto].
    rewrite obj_get_set_eq. intros [= <-] Hr. destruct (Hf x Hr). eauto. }
  destruct a as [c ev b|c|c v|c m|c t|c|c|c l|c]; simpl; intros Hforeign; try done;
    try (apply Hup; intros x; simpl; done).
  - unfold initCase. destruct (decide (caseId = c)) as [->|Hne].
    + rewrite obj_get_set_eq. destruct (obj_get c st) as [x|]; intros [= <-]; simpl; [eauto|done].
    + rewrite obj_get_set_ne by done. intros E%evict_get Hr. eauto.
  - unfold appendTraceStep. destruct (obj_get c st) as [x|] eqn:Ex; [|eauto]. case_match; [eauto|].
    destruct (decide (caseId = c)) as [->|Hne]; [|rewrite obj_get_set_ne by done; eauto].
    rewrite obj_get_set_eq. intros [= <-] Hr. eauto.
  - unfold evict. destruct (decide (caseId = c)) as [->|Hne].
    + by rewrite obj_get_delete_eq.
    + rewrite obj_get_delete_ne by done. eauto.
Qed.

Lemma startTriage_entry now st e :
  obj_get caseId st = Some e →
  ∃ e', obj_get caseId (startTriage now now caseId st) = Some e' ∧ en_triageStatus e' = TRunning ∧
        en_triageStartedAt e' = Some now.
Proof. intros E. unfold startTriage, update_entry. rewrite E, obj_get_set_eq. eauto. Qed.

(** ** How the second effect ends *)

Inductive effect2_result (now : Z) (d : deps) (c : comp) (s : hook_state) : hook_state → Prop :=
| e2_idle : effect2_result now d c s s
| e2_guarded fired :
    (fired = hs_fired s ∨ (dp_triageStatus d = TRunning ∧ runningIsFresh now d = false)) →
    (hs_fired s ∖ {[caseId]} ⊆ fired) →
    effect2_result now d c s (with_fired fired s)
| e2_fired fired n :
    dp_hasCase d = true → runningIsFresh now d = false → cp_firedRef c = false →
    (caseId ∉ hs_fired s ∨ dp_triageStatus d = TRunning) →
    n = length (hs_flags s) → caseId ∈ fired →
    effect2_result now d c s
      (with_comp (Some (mkComp (cp_serverChecked c) (cp_error c) true (cp_effect1 c) (cp_effect2 c) (Some n)))
        (with_fired fired
          (with_store (startTriage now now caseId (hs_store s))
            (with_posts (now :: hs_posts s)
              (with_pending (hs_pending s ++ [PPost n]) (with_flags (hs_flags s ++ [true]) s)))))).

Lemma effect2_body_result now d c s : effect2_result now d c s (effect2_body now d c s).
Proof.
  unfold effect2_body. destruct (negb (dp_hydrated d) || negb (dp_serverChecked d) || negb (dp_hasCase d)) eqn:E1.
  { constructor. }
  apply orb_false_iff in E1 as [_ E1]. apply negb_false_iff in E1.
  case_match; [constructor|]. destruct (runningIsFresh now d) eqn:Hf; [constructor|].
  cbv zeta. remember (if decide (dp_triageStatus d = TRunning) then hs_fired s ∖ {[caseId]} else hs_fired s)
    as fired eqn:Efired.
  assert (Hfired : fired = hs_fired s ∨ (dp_triageStatus d = TRunning ∧ runningIsFresh now d = false))
    by (rewrite Efired; destruct (decide (dp_triageStatus d = TRunning)); auto).
  destruct (negb has_alert || cp_firedRef c || bool_decide (caseId ∈ fired)) eqn:E2.
  - apply e2_guarded; [done|]. rewrite Efired. destruct (decide (dp_triageStatus d = TRunning)); set_solver.
  - apply orb_false_iff in E2 as [[_ E2]%orb_false_iff E3]. apply bool_decide_eq_false in E3.
    apply e2_fired; try done; [|set_solver]. rewrite Efired in E3.
    destruct (decide (dp_triageStatus d = TRunning)); [by right|by left].
Qed.

(** The store, hence the dependencies, are only changed by a triage. *)
Lemma deps_of_guard s c c' fired flags :
  cp_serverChecked c' = cp_serverChecked c →
  deps_of (with_fired fired (with_comp (Some c') (with_flags flags s))) c' = deps_of s c.
Proof. intros E. unfold deps_of. simpl. by rewrite E. Qed.

(** A triage that has just been started is running and fresh. *)
Lemma fresh_after_start now s c s' c' :
  0 < now → dp_hasCase (deps_of s c) = true →
  hs_store s' = startTriage now now caseId (hs_store s) → runningIsFresh now (deps_of s' c') = true.
Proof.
  intros Hnow Hc Hst. simpl in Hc. apply bool_decide_eq_true in Hc as [e He].
  destruct (startTriage_entry now _ _ He) as (e' & He' & Hr & Hs).
  unfold runningIsFresh, deps_of, entry_of. rewrite Hst, He'. simpl. rewrite Hr, Hs. simpl.
  apply andb_true_iff. split; [by apply Z.ltb_lt|].
  apply Z.ltb_lt. unfold RUNNING_TTL_MS. lia.
Qed.

(** ** What renders preserve *)

Definition posts_dead (s : hook_state) : Prop := ∀ n, PPost n ∈ hs_pending s → hs_flags s !! n = Some false.

Lemma kill_dead f l n : l !! n = Some false → kill f l !! n = Some false.
Proof.
  destruct f as [m|]; simpl; [|done]. intros E. destruct (decide (m = n)) as [->|].
  - rewrite list_lookup_insert_eq; [done|]. by eapply lookup_lt_Some.
  - by rewrite list_lookup_insert_ne.
Qed.

Lemma app_dead (l : list bool) n : l !! n = Some false → (l ++ [true]) !! n = Some false.
Proof. apply lookup_app_l_Some. Qed.

Lemma effect1_dead s : posts_dead s → posts_dead (effect1 s).
Proof.
  intros D. unfold effect1. destruct (hs_comp s) as [c|]; [|done]. case_match; [|done].
  intros n. simpl. intros [Hn|Hn]%elem_of_app; [by apply app_dead, D|]. apply list_elem_of_singleton in Hn. done.
Qed.

(** The running marker of the case is missing its time or too old. *)
Definition stale (now : Z) (s : hook_state) : Prop :=
  ∃ e, entry_of s = Some e ∧ en_triageStatus e = TRunning ∧
       ¬ (0 < default 0 (en_triageStartedAt e) ∧ now - default 0 (en_triageStartedAt e) < RUNNING_TTL_MS).

Lemma stale_deps now s c :
  dp_triageStatus (deps_of s c) = TRunning → runningIsFresh now (deps_of s c) = false → stale now s.
Proof.
  unfold deps_of, runningIsFresh, stale. simpl. destruct (entry_of s) as [e|]; simpl; [|done].
  intros Hr Hf. exists e. split; [done|]. split; [done|]. rewrite Hr in Hf.
  rewrite bool_decide_eq_true_2 in Hf by done. simpl in Hf.
  intros [H1%Z.ltb_lt H2%Z.ltb_lt]. rewrite H1, H2 in Hf. done.
Qed.

(** What the renders after one change amount to. *)
Record flushed (now : Z) (s s' : hook_state) : Prop := {
  fl_error : cp_error <$> hs_comp s' = cp_error <$> hs_comp s;
  fl_flags n : hs_flags s !! n = Some false → hs_flags s' !! n = Some false;
  fl_pending n : PPost n ∈ hs_pending s' → PPost n ∈ hs_pending s ∨ hs_flags s' !! n = Some false;
  fl_triage :
    (hs_store s' = hs_store s ∧ hs_posts s' = hs_posts s ∧
       (hs_fired s' = hs_fired s ∨ stale now s)) ∨
    (hs_store s' = startTriage now now caseId (hs_store s) ∧ hs_posts s' = now :: hs_posts s ∧
       caseId ∈ hs_fired s' ∧ is_Some (entry_of s) ∧ (caseId ∉ hs_fired s ∨ stale now s))
}.

Lemma flushed_refl now s : flushed now s s.
Proof. split; auto. Qed.

Lemma effect1_flushed now s s' : flushed now (effect1 s) s' → flushed now s s'.
Proof.
  unfold effect1. destruct (hs_comp s) as [c|] eqn:Ec; [|done]. case_match; [|done].
  intros [He Hf Hp Ht]. simpl in *. split.
  - by rewrite He, Ec.
  - intros n Hn. by apply Hf, app_dead.
  - intros n Hn. destruct (Hp n Hn) as [Hin|]; [|by right].
    apply elem_of_app in Hin as [Hin|Hin]; [by left|]. by apply list_elem_of_singleton in Hin.
  - exact Ht.
Qed.

(** The second effect, started or not. *)
Lemma effect2_settled now s c : hs_comp s = Some c → cp_effect2 c = Some (deps_of s c) → effect2 now s = s.
Proof. intros Ec Ed. unfold effect2. rewrite Ec. by rewrite decide_True. Qed.

(** The second run after a triage was started clears that run's flag and
    does nothing else. *)
Lemma effect2_second now s s1 c c1 fired n :
  0 < now → hs_comp s = Some c → cp_error c1 = cp_error c → hs_store s1 = hs_store s → hs_posts s1 = hs_posts s →
  hs_pending s1 = hs_pending s → cp_effect2 c1 = Some (deps_of s c) →
  (∀ m, hs_flags s !! m = Some false → hs_flags s1 !! m = Some false) →
  dp_hasCase (deps_of s c) = true → runningIsFresh now (deps_of s c) = false →
  (caseId ∉ hs_fired s ∨ stale now s) → n = length (hs_flags s1) → caseId ∈ fired →
  flushed now s (effect2 now
    (with_comp (Some (mkComp (cp_serverChecked c1) (cp_error c1) true (cp_effect1 c1) (cp_effect2 c1) (Some n)))
      (with_fired fired
        (with_store (startTriage now now caseId (hs_store s1))
          (with_posts (now :: hs_posts s1)
            (with_pending (hs_pending s1 ++ [PPost n]) (with_flags (hs_flags s1 ++ [true]) s1))))))).
Proof.
  intros Hnow Ec Ee Es Ep Epd Ed Hk Hc Hfr Hst En Hin. set (s2 := with_comp _ _).
  set (c2 := mkComp _ _ true _ _ _) in s2.
  assert (Hfresh : runningIsFresh now (deps_of s2 c2) = true)
    by (eapply (fresh_after_start now s c); [done..|by unfold s2; simpl; rewrite Es]).
  unfold effect2. change (hs_comp s2) with (Some c2). cbv iota zeta beta. rewrite decide_False.
  2: { change (cp_effect2 c2) with (cp_effect2 c1). rewrite Ed. intros E'.
       assert (E : deps_of s c = deps_of s2 c2) by congruence. rewrite <- E in Hfresh. congruence. }
  cbv zeta. set (c3 := mkComp _ _ _ _ _ _). set (s3 := with_comp (Some c3) _).
  assert (Hflag : ∀ m, hs_flags s !! m = Some false → hs_flags s3 !! m = Some false)
    by (intros m Hm; apply kill_dead, app_dead, Hk, Hm).
  assert (Hpost : ∀ m, PPost m ∈ hs_pending s3 → PPost m ∈ hs_pending s ∨ hs_flags s3 !! m = Some false).
  { intros m. unfold s3, s2. simpl. rewrite Epd. intros [Hm|Hm]%elem_of_app; [by left|right].
    apply list_elem_of_singleton in Hm as [= ->]. rewrite list_lookup_insert_eq; [done|].
    rewrite length_app, En. simpl. lia. }
  assert (Hsome : is_Some (entry_of s)) by (simpl in Hc; by apply bool_decide_eq_true in Hc).
  assert (Hgoal : flushed now s s3).
  { split; [by rewrite Ec; simpl; rewrite Ee|done|done|right].
    unfold s3, s2. simpl. rewrite Es, Ep. by split_and!. }
  destruct (effect2_body_result now (deps_of s2 c2) c3 s3) as [|fired' Hf' _|? ? ? ? Href]; [done| |done].
  destruct Hf' as [->|[_ Hf']]; [exact Hgoal|congruence].
Qed.

Lemma effect2_twice now s : 0 < now → flushed now s (effect2 now (effect2 now s)).
Proof.
  intros Hnow. destruct (hs_comp s) as [c|] eqn:Ec.
  2: { assert (E : effect2 now s = s) by (unfold effect2; by rewrite Ec). rewrite !E. apply flushed_refl. }
  destruct (decide (cp_effect2 c = Some (deps_of s c))) as [Ed|Ed].
  { rewrite !(effect2_settled now s c) by done. apply flushed_refl. }
  unfold effect2 at 2. rewrite Ec, decide_False by done.
  set (c1 := mkComp _ _ _ _ _ _). set (s1 := with_comp _ _).
  assert (Hk : ∀ n, hs_flags s !! n = Some false → hs_flags s1 !! n = Some false) by (intros n; apply kill_dead).
  destruct (effect2_body_result now (deps_of s c) c1 s1)
    as [|fired Hfired Hsub|fired n Hc Hfr Href Hfd En].
  - rewrite (effect2_settled now s1 c1) by done. split; [by rewrite Ec|done|auto|]. left. auto.
  - rewrite (effect2_settled now _ c1) by done. split; [by rewrite Ec|done|auto|left].
    split; [done|]. split; [done|]. destruct Hfired as [->|[Hr Hf]]; [by left|right]. by eapply stale_deps.
  - apply (effect2_second now s s1 c c1 fired n); try done.
    + destruct Hfd as [Hfd|Hfd]; [by left|right]. by eapply stale_deps.
Qed.

(** The second run leaves nothing to do for a third. *)
Lemma effect2_again now s c : 0 < now → hs_comp (effect2 now (effect2 now s)) = Some c →
  cp_effect2 c = Some (deps_of (effect2 now (effect2 now s)) c).
Proof.
  intros Hnow. destruct (hs_comp s) as [c0|] eqn:Ec.
  2: { assert (E : effect2 now s = s) by (unfold effect2; by rewrite Ec). rewrite !E, Ec. done. }
  destruct (decide (cp_effect2 c0 = Some (deps_of s c0))) as [Ed|Ed].
  { rewrite !(effect2_settled now s c0) by done. rewrite Ec. by intros [= <-]. }
  unfold effect2 at 2 4. rewrite Ec, decide_False by done.
  set (c1 := mkComp _ _ _ _ _ _). set (s1 := with_comp _ _).
  destruct (effect2_body_result now (deps_of s c0) c1 s1) as [|fired _ _|fired n Hc Hfr Href Hfd En Hin].
  - rewrite (effect2_settled now s1 c1) by done. by intros [= <-].
  - rewrite (effect2_settled now _ c1) by done. by intros [= <-].
  - set (s2 := with_comp _ (with_fired fired _)). set (c2 := mkComp _ _ true _ _ _) in s2.
    assert (Hfresh : runningIsFresh now (deps_of s2 c2) = true) by (by eapply (fresh_after_start now s c0)).
    unfold effect2. change (hs_comp s2) with (Some c2). cbv iota zeta beta. rewrite decide_False.
    2: { intros E'. assert (E : deps_of s c0 = deps_of s2 c2) by (change (cp_effect2 c2) with (Some (deps_of s c0)) in E'; congruence).
         rewrite <- E in Hfresh. congruence. }
    cbv zeta. set (c3 := mkComp _ _ _ _ _ _). set (s3 := with_comp (Some c3) _).
    destruct (effect2_body_result now (deps_of s2 c2) c3 s3) as [|fired' _ _|? ? _ Hfr' _ _ _ _]; [by intros [= <-]..|congruence].
Qed.

(** After its renders the component has nothing left to do. *)
Lemma flush_settled now s c : 0 < now → hs_comp (flush now s) = Some c → cp_effect2 c = Some (deps_of (flush now s) c).
Proof. intros Hnow. unfold flush. by apply effect2_again. Qed.

Lemma flush_flushed now s : 0 < now → flushed now s (flush now s).
Proof. intros. apply effect1_flushed. by apply effect2_twice. Qed.

(** ** What events preserve *)

Record handled (s s' : hook_state) : Prop := {
  hd_posts : hs_posts s' = hs_posts s;
  hd_fired : hs_fired s ⊆ hs_fired s';
  hd_flags n : hs_flags s !! n = Some false → hs_flags s' !! n = Some false;
  hd_pending p : p ∈ hs_pending s' → p ∈ hs_pending s;
  hd_running e : entry_of s' = Some e → en_triageStatus e = TRunning →
    ∃ e0, entry_of s = Some e0 ∧ en_triageStatus e0 = TRunning ∧ en_triageStartedAt e0 = en_triageStartedAt e
}.

Lemma delete_subset {A} i (l : list A) x : x ∈ delete i l → x ∈ l.
Proof. intros H. eapply elem_of_submseteq; [exact H|]. apply sublist_submseteq, sublist_delete. Qed.

Lemma handled_refl s : handled s s.
Proof. split; eauto. Qed.

Lemma handle_handled now e s s' : handle now e s = Some s' → handled s s'.
Proof.
  destruct e as [| | |a|i x|i x]; simpl.
  - destruct (hs_comp s); [done|]. intros [= <-]. split; simpl; eauto.
  - destruct (hs_comp s) as [c|]; [|done]. intros [= <-]. split; simpl; eauto using kill_dead.
  - intros [= <-]. split; simpl; eauto.
  - destruct (foreign a) eqn:Ha; [|done]. intros [= <-]. split; simpl; eauto.
    intros e He Hr. by eapply (foreign_running now a).
  - destruct (hs_pending s !! i) as [[n|n]|]; try done. intros [= <-]. unfold get_answered.
    case_match; [split; simpl; eauto using delete_subset|].
    destruct x as [v|m| |]; [|case_match| |]; split; simpl; eauto using delete_subset; try set_solver.
    + intros e He Hr. by eapply (foreign_running now (AVerdict caseId v)).
    + intros e He Hr. by eapply (foreign_running now (AFail caseId m)).
  - destruct (hs_pending s !! i) as [[n|n]|]; try done. intros [= <-]. unfold post_answered.
    destruct x as [v|m].
    + split; simpl; eauto using delete_subset. intros e He Hr. by eapply (foreign_running now (AVerdict caseId v)).
    + case_match; split; simpl; eauto using delete_subset;
        intros e He Hr; by eapply (foreign_running now (AFail caseId m)).
Qed.

(** ** The invariant *)

Fixpoint spaced (l : list Z) : Prop :=
  match l with
  | t1 :: l' => match l' with t2 :: _ => RUNNING_TTL_MS ≤ t1 - t2 | [] => True end ∧ spaced l'
  | [] => True
  end.

Record hook_inv (s : hook_state) : Prop := {
  hi_dead : posts_dead s;
  hi_last t l : hs_posts s = t :: l →
    0 < t ≤ hs_now s ∧ (caseId ∈ hs_fired s ∨ RUNNING_TTL_MS ≤ hs_now s - t) ∧
    ∀ e, entry_of s = Some e → en_triageStatus e = TRunning → en_triageStartedAt e = Some t;
  hi_spaced : spaced (hs_posts s)
}.

Lemma stale_old now s s1 t :
  handled s s1 → stale now s1 → 0 < t →
  (∀ e, entry_of s = Some e → en_triageStatus e = TRunning → en_triageStartedAt e = Some t) →
  RUNNING_TTL_MS ≤ now - t.
Proof.
  intros [_ _ _ _ Hr] (e & He & Hrun & Hold) Ht Hlast. destruct (Hr e He Hrun) as (e0 & He0 & Hrun0 & Heq).
  rewrite (Hlast e0 He0 Hrun0) in Heq. rewrite <- Heq in Hold. simpl in Hold. lia.
Qed.

Lemma fire_inv now e s s' : hook_inv s → fire now e s = Some s' → hook_inv s'.
Proof.
  intros [Hd Hl Hsp]. unfold fire. case_bool_decide as Hn; [|done]. destruct Hn as [Hnow Hmono].
  intros (s1 & Hh%handle_handled & E)%bind_Some. injection E as <-.
  destruct (flush_flushed now s1 Hnow) as [He Hf Hp Ht].
  pose proof Hh as [Hposts Hfired Hflags Hpend Hrun]. split; simpl.
  - intros n Hin. destruct (Hp n Hin) as [Hin1|]; [|done]. by apply Hf, Hflags, Hd, Hpend.
  - intros t l. destruct Ht as [(Hst & Hpo & Hfi)|(Hst & Hpo & Hin & Hsome & Hold)].
    + rewrite Hpo, Hposts. intros Hs. destruct (Hl t l Hs) as (Ht & Hfd & Hlast). split; [lia|]. split.
      * destruct Hfi as [->|Hstale]; [|right; by eapply stale_old; [exact Hh|exact Hstale|lia|exact Hlast]].
        destruct Hfd as [Hfd|]; [left; by apply Hfired|right; lia].
      * intros x Hx Hxr. unfold entry_of in Hx. simpl in Hx. rewrite Hst in Hx.
        destruct (Hrun x Hx Hxr) as (e0 & He0 & Hr0 & <-). by apply Hlast.
    + rewrite Hpo. intros [= <- <-]. split; [lia|]. split; [by left|].
      intros x Hx _. unfold entry_of in Hx. simpl in Hx. rewrite Hst in Hx. destruct Hsome as [e1 He1].
      destruct (startTriage_entry now _ _ He1) as (e' & He' & _ & Hs'). congruence.
  - destruct Ht as [(Hst & -> & Hfi)|(Hst & -> & Hin & Hsome & Hold)]; rewrite Hposts; [done|].
    simpl. split; [|done]. destruct (hs_posts s) as [|t l] eqn:Hps; [done|].
    destruct (Hl t l eq_refl) as (Ht & Hfd & Hlast). destruct Hold as [Hnot|Hstale].
    + destruct Hfd as [Hfd|]; [|lia]. destruct Hnot. by apply Hfired.
    + by eapply stale_old; [exact Hh|exact Hstale|lia|exact Hlast].
Qed.

Lemma page_load_inv store t : hook_inv (page_load store t).
Proof. split; simpl; [intros n Hn; by apply elem_of_nil in Hn|done|done]. Qed.

Lemma reachable_inv store t s : star hstep (page_load store t) s → hook_inv s.
Proof.
  apply star_invariant; [apply page_load_inv|]. intros a b Ia (now & e & E). by eapply fire_inv.
Qed.

(** ** Properties *)

(** C9: one browser page does not hammer the orchestrator. However often the
    hook is mounted, unmounted and answered, and whatever else happens to
    the store, two triage requests of a page for the case are at least
    [RUNNING_TTL_MS] apart: a second one needs a running marker older than
    that. *)
Theorem triage_requests_spaced store t s :
  star hstep (page_load store t) s → spaced (hs_posts s).
Proof. intros R. apply hi_spaced, (reachable_inv store t s R). Qed.

Lemma startTriage_keeps now st :
  (obj_get caseId (startTriage now now caseId st) ≫= en_verdict) = (obj_get caseId st ≫= en_verdict) ∧
  (en_traceSteps <$> obj_get caseId (startTriage now now caseId st)) = (en_traceSteps <$> obj_get caseId st).
Proof.
  unfold startTriage, update_entry. destruct (obj_get caseId st) as [e|] eqn:E; [|by rewrite E].
  by rewrite obj_get_set_eq.
Qed.

Lemma failTriage_keeps now m st :
  (obj_get caseId (failTriage now caseId m st) ≫= en_verdict) = (obj_get caseId st ≫= en_verdict) ∧
  (en_traceSteps <$> obj_get caseId (failTriage now caseId m st)) = (en_traceSteps <$> obj_get caseId st).
Proof.
  unfold failTriage, update_entry. destruct (obj_get caseId st) as [e|] eqn:E; [|by rewrite E].
  by rewrite obj_get_set_eq.
Qed.

(** [loading] depends on the error, the verdict and the trace only. *)
Lemma loading_same s c s' c' :
  cp_error c' = cp_error c → (entry_of s' ≫= en_verdict) = (entry_of s ≫= en_verdict) →
  (en_traceSteps <$> entry_of s') = (en_traceSteps <$> entry_of s) → loading s' c' = loading s c.
Proof. intros He Hv Ht. unfold loading, deps_of. simpl. by rewrite He, Hv, Ht. Qed.

Lemma flush_keeps now s :
  0 < now →
  (entry_of (flush now s) ≫= en_verdict) = (entry_of s ≫= en_verdict) ∧
  (en_traceSteps <$> entry_of (flush now s)) = (en_traceSteps <$> entry_of s).
Proof.
  intros Hn. destruct (flush_flushed now s Hn) as [_ _ _ [(E & _)|(E & _)]]; unfold entry_of; rewrite E; [done|].
  apply startTriage_keeps.
Qed.

(** A failed triage is never shown. Starting a triage changes what the
    effect depends on, so the effect runs again and clears the [mounted]
    variable of the run that waits for the answer; when the request fails,
    the hook's error is not set. A hook that was loading keeps loading, with
    the failure recorded only in the store. *)
Theorem triage_error_lost store t s now i n m s' :
  star hstep (page_load store t) s →
  hs_pending s !! i = Some (PPost n) → fire now (PostAnswer i (PostRejected m)) s = Some s' →
  cp_error <$> hs_comp s' = cp_error <$> hs_comp s ∧
  ∀ c, hs_comp s = Some c → loading s c = true → ∃ c', hs_comp s' = Some c' ∧ loading s' c' = true.
Proof.
  intros R Hi E. pose proof (hi_dead _ (reachable_inv store t s R) n ltac:(by eapply list_elem_of_lookup_2)) as Hdead.
  unfold fire in E. case_bool_decide as Hn; [|done]. unfold handle in E. rewrite Hi in E.
  set (s1 := post_answered _ _ _ _) in E. injection E as <-.
  assert (Es1 : s1 = with_store (failTriage now caseId m (hs_store s)) (with_pending (delete i (hs_pending s)) s)).
  { unfold s1, post_answered, alive. simpl. by rewrite Hdead. }
  destruct Hn as [Hn _]. pose proof (fl_error _ _ _ (flush_flushed now s1 Hn)) as He.
  pose proof (flush_keeps now s1 Hn) as [Hv Ht].
  assert (Hc1 : hs_comp s1 = hs_comp s) by (by rewrite Es1). rewrite Hc1 in He. simpl.
  split; [exact He|]. intros c Hc Hload. rewrite Hc in He.
  destruct (hs_comp (flush now s1)) as [c'|] eqn:Ec'; [|done]. injection He as He. exists c'. split; [done|].
  rewrite <- Hload. apply loading_same; [done| |].
  - unfold entry_of in *. simpl. rewrite Hv, Es1. apply failTriage_keeps.
  - unfold entry_of in *. simpl. rewrite Ht, Es1. apply failTriage_keeps.
Qed.
End Hook.

(** ** A page that never stops loading *)

Definition run_hook (es : list (Z * event)) (s : hook_state) : option hook_state :=
  foldl (λ s e, s ≫= fire "c1" true e.1 e.2) (Some s) es.

Lemma run_hook_star es s s' : run_hook es s = Some s' → star (hstep "c1" true) s s'.
Proof.
  unfold run_hook. revert s'. induction es as [|e es IH] using rev_ind; intros s'; [intros [= <-]; constructor|].
  rewrite foldl_app. simpl. intros (s1 & E1 & E2)%bind_Some.
  eapply star_snoc; [by apply IH|]. by exists e.1, e.2.
Qed.

Definition open_page : list (Z * event) :=
  [(10, Mount); (20, Store (AInit "c1" (sample_event "c1") None)); (30, Hydrate); (40, GetAnswer 0 GotOther)].

Definition waiting_page : hook_state :=
  default (page_load [] 1) (run_hook open_page (page_load [] 1)).

Definition failed_page : hook_state :=
  default waiting_page (fire "c1" true 50 (PostAnswer 0 (PostRejected "HTTP 502")) waiting_page).

Lemma waiting_page_star : star (hstep "c1" true) (page_load [] 1) waiting_page.
Proof. apply (run_hook_star open_page). vm_compute. reflexivity. Qed.

Lemma triage_requests_spaced_witness :
  hs_posts waiting_page = [40] ∧ spaced (hs_posts waiting_page).
Proof.
  split; [vm_compute; reflexivity|].
  apply (triage_requests_spaced "c1" true [] 1 waiting_page waiting_page_star).
Defined.

Lemma triage_error_lost_witness :
  (en_triageStatus <$> entry_of "c1" failed_page) = Some TFailed ∧
  ∃ c', hs_comp failed_page = Some c' ∧ loading "c1" failed_page c' = true.
Proof.
  split; [vm_compute; reflexivity|].
  assert (Ei : hs_pending waiting_page !! 0%nat = Some (PPost 1)) by (vm_compute; reflexivity).
  assert (Ef : fire "c1" true 50 (PostAnswer 0 (PostRejected "HTTP 502")) waiting_page = Some failed_page)
    by (vm_compute; reflexivity).
  assert (Ec : ∃ c, hs_comp waiting_page = Some c ∧ loading "c1" waiting_page c = true)
    by (eexists; split; [vm_compute; reflexivity|vm_compute; reflexivity]).
  destruct Ec as (c & Ec & Hl).
  exact (proj2 (triage_error_lost "c1" true [] 1 waiting_page 50 0 1 "HTTP 502" failed_page waiting_page_star Ei Ef) c Ec Hl).
Defined.
