(* ===== verification/Session.v ===== *)
(** * Reloads of a case page

    [hooks/use-triage.ts] over the persistence of
    [lib/stores/case-store.ts]: every write of the store is kept in the
    session storage, so a page that is loaded again starts with the store of
    the page before, while its module state, hooks and requests are gone.
    (The store holds JSON values and clock readings, which its JSON text gives
    back.) A session is a sequence of events of [UseTriage] and reloads. *)
From S2P Require Import Prelude JsObject JsNum JsString JsValue Types AlertMappers CaseStore Effects UseTriage.

Section Session.
Variable caseId : string.
Variable has_alert : bool.

(** The page loaded again at time [t]; the requests sent so far are kept as a
    record. *)
Definition reload (t : Z) (s : hook_state) : hook_state :=
  mkHook (hs_store s) false ∅ None [] [] (hs_posts s) t.

Inductive session_step : hook_state → hook_state → Prop :=
| session_event s s' : hstep caseId has_alert s s' → session_step s s'
| session_reload t s : hs_now s <= t → session_step s (reload t s).

(** The case is marked as being triaged since [t]. *)
Definition running_since (t : Z) (s : hook_state) : Prop :=
  ∃ e, entry_of caseId s = Some e ∧ en_triageStatus e = TRunning ∧ en_triageStartedAt e = Some t.

(** A reload, or an event less than [RUNNING_TTL_MS] after [t] that leaves
    the mark: no verdict, no failure, no eviction of the case. *)
Inductive unanswered_step (t : Z) : hook_state → hook_state → Prop :=
| unanswered_event now e s s1 s' :
    handle caseId now e s = Some s1 → running_since t s1 → now - t < RUNNING_TTL_MS →
    fire caseId has_alert now e s = Some s' → unanswered_step t s s'
| unanswered_reload now s : hs_now s <= now → unanswered_step t s (reload now s).

Lemma unanswered_session t s s' : unanswered_step t s s' → session_step s s'.
Proof. intros [now e a b c _ _ _ E|now a E]; [apply session_event; by exists now, e|by constructor]. Qed.

Lemma running_fresh t now s c :
  0 < t → now - t < RUNNING_TTL_MS → running_since t s → runningIsFresh now (deps_of caseId s c) = true.
Proof.
  intros Ht Hn (e & He & Hr & Hs). unfold runningIsFresh. simpl. rewrite He. simpl. rewrite Hr, Hs.
  rewrite bool_decide_eq_true_2 by done. simpl. rewrite andb_true_iff, !Z.ltb_lt. lia.
Qed.

(** With a fresh mark the effects send no triage request and leave the
    store. *)
Lemma effect2_fresh t now s :
  0 < t → now - t < RUNNING_TTL_MS → running_since t s →
  hs_posts (effect2 caseId has_alert now s) = hs_posts s ∧ hs_store (effect2 caseId has_alert now s) = hs_store s.
Proof.
  intros Ht Hn R. unfold effect2. destruct (hs_comp s) as [c|]; [|done]. case_decide; [done|].
  unfold effect2_body. cbv zeta. destruct (_ || _); [done|]. destruct (_ || _); [done|].
  by rewrite (running_fresh t now s c) by done.
Qed.

Lemma effect1_store s : hs_posts (effect1 s) = hs_posts s ∧ hs_store (effect1 s) = hs_store s.
Proof. unfold effect1. destruct (hs_comp s); [|done]. by destruct (_ && _). Qed.

Lemma flush_fresh t now s :
  0 < t → now - t < RUNNING_TTL_MS → running_since t s →
  hs_posts (flush caseId has_alert now s) = hs_posts s ∧ hs_store (flush caseId has_alert now s) = hs_store s.
Proof.
  intros Ht Hn R. unfold flush.
  assert (Same : ∀ a b, hs_store a = hs_store b → running_since t b → running_since t a)
    by (intros a b E (e & He & H); exists e; split; [unfold entry_of; by rewrite E|exact H]).
  pose proof (effect1_store s) as [P1 S1].
  destruct (effect2_fresh t now (effect1 s)) as [P2 S2]; [done|done|by eapply Same|].
  destruct (effect2_fresh t now (effect2 caseId has_alert now (effect1 s))) as [P3 S3]; [done|done| |by rewrite P3, P2, S3, S2].
  eapply Same; [|exact R]. by rewrite S2.
Qed.

Lemma unanswered_keeps t s s' :
  0 < t → running_since t s → unanswered_step t s s' → running_since t s' ∧ hs_posts s' = hs_posts s.
Proof.
  intros Ht R S. destruct S as [now e a s1 b H R1 Hn E|now a _]; [|split; [exact R|done]].
  unfold fire in E. case_bool_decide; [|done]. rewrite H in E. simpl in E.
  destruct (flush_fresh t now s1 Ht Hn R1) as [P Sf]. pose proof (hd_posts _ _ _ (handle_handled caseId now e a s1 H)) as Pa.
  injection E as <-. simpl. rewrite P, Pa. split; [|done].
  destruct R1 as (x & Hx & R1). exists x. split; [|exact R1]. unfold entry_of. simpl. by rewrite Sf.
Qed.

(** C10: a triage is not asked for twice because the page is loaded again.
    While the case is marked as being triaged since [t], and until five
    minutes after [t], no sequence of reloads, mounts, answers of the status
    request and other writes that leave the mark sends another triage
    request; the mark itself stays. *)
Theorem reload_no_duplicate store t0 t s s' :
  star session_step (page_load store t0) s → 0 < t → running_since t s →
  star (unanswered_step t) s s' → running_since t s' ∧ hs_posts s' = hs_posts s ∧ star session_step (page_load store t0) s'.
Proof.
  intros Rs Ht R0 R. refine (star_invariant _ (λ x, running_since t x ∧ hs_posts x = hs_posts s ∧ star session_step (page_load store t0) x) _ _ _ _ R); [done|].
  intros a b (Ra & Pa & Sa) St. destruct (unanswered_keeps t a b Ht Ra St) as [Rb Pb].
  split; [done|]. split; [congruence|]. eapply star_snoc; [exact Sa|]. by eapply unanswered_session.
Qed.
End Session.

(** The page of [UseTriage.waiting_page] has asked at time 40; it is loaded
    again, and the server knows nothing of the case yet. *)
Definition reloaded_page : hook_state :=
  default waiting_page (foldl (λ s e, s ≫= fire "c1" true e.1 e.2) (Some (reload 1000 waiting_page))
    [(1010, Mount); (1020, Hydrate); (1030, GetAnswer 0 GotOther)]).

Lemma waiting_running : running_since "c1" 40 waiting_page.
Proof. eexists. split; [vm_compute; reflexivity|]. split; reflexivity. Qed.

Lemma waiting_session : star (session_step "c1" true) (page_load [] 1) waiting_page.
Proof.
  refine (star_invariant _ (star (session_step "c1" true) (page_load [] 1)) _ _ _ _ waiting_page_star); [constructor|].
  intros a b Ra S. eapply star_snoc; [exact Ra|]. by constructor.
Qed.

Lemma unanswered_run es s s' :
  foldl (λ s e, s ≫= fire "c1" true e.1 e.2) (Some s) es = Some s' →
  (∀ a e, e ∈ es → running_since "c1" 40 a → ∀ s1, handle "c1" e.1 e.2 a = Some s1 → running_since "c1" 40 s1) →
  (∀ e, e ∈ es → e.1 - 40 < RUNNING_TTL_MS) → running_since "c1" 40 s → star (unanswered_step "c1" true 40) s s'.
Proof.
  revert s'. induction es as [|e es IH] using rev_ind; intros s' E K T R.
  - injection E as <-. constructor.
  - rewrite foldl_app in E. simpl in E. apply bind_Some in E as (a & Ea & E).
    assert (Sa : star (unanswered_step "c1" true 40) s a).
    { apply IH; [done| | |done]; intros; [eapply K; [|done..]|apply T]; apply elem_of_app; by left. }
    assert (Ra : running_since "c1" 40 a).
    { refine (star_invariant _ (running_since "c1" 40) _ _ R _ Sa). intros x y Rx Sx. by apply (unanswered_keeps "c1" true 40 x y). }
    eapply star_snoc; [exact Sa|]. pose proof E as E'. unfold fire in E'. case_bool_decide; [|done].
    apply bind_Some in E' as (s1 & H1 & _). eapply unanswered_event; [exact H1| | |exact E].
    + eapply K; [|exact Ra|exact H1]. apply elem_of_app. right. left.
    + apply T. apply elem_of_app. right. left.
Qed.

Lemma reloaded_star : star (unanswered_step "c1" true 40) waiting_page reloaded_page.
Proof.
  eapply star_trans; [eapply star_snoc; [constructor|apply (unanswered_reload "c1" true 40 1000); vm_compute; discriminate]|].
  apply (unanswered_run [(1010, Mount); (1020, Hydrate); (1030, GetAnswer 0 GotOther)]).
  - vm_compute. reflexivity.
  - intros a e He (x & Hx & Hr) s1 H. exists x. split; [|exact Hr].
    apply list_elem_of_In in He as [<-|[<-|[<-|[]]]]; simpl in H.
    + destruct (hs_comp a); [done|]. by injection H as <-.
    + by injection H as <-.
    + destruct (hs_pending a !! 0%nat) as [[n|n]|]; [|done..]. injection H as <-. unfold get_answered. by case_match.
  - intros e He. apply list_elem_of_In in He as [<-|[<-|[<-|[]]]]; vm_compute; reflexivity.
  - eexists. split; [vm_compute; reflexivity|]. split; reflexivity.
Qed.

Lemma reload_no_duplicate_witness :
  hs_hydrated reloaded_page = true ∧ hs_posts reloaded_page = hs_posts waiting_page.
Proof.
  split; [vm_compute; reflexivity|].
  exact (proj1 (proj2 (reload_no_duplicate "c1" true [] 1 40 waiting_page reloaded_page waiting_session eq_refl waiting_running reloaded_star))).
Defined.
