(* ===== verification/AlertsWs.v ===== *)
(** * The live alert feed ([hooks/use-alerts-ws.ts])

    One mount of [useAlertsWs]: its sockets, its reconnection timers, the
    refs [wsRef], [retryMs], [retryTimer] and [seenIds], and the list of
    alerts. The browser opens and closes sockets and delivers messages at any
    time; [close()] only starts a close, the [close] event comes later. *)
From S2P Require Import Prelude JsObject JsNum JsString JsValue Types AlertMappers.

Inductive WsStatus := WsConnecting | WsConnected | WsDisconnected.

(** Life of a socket: until its [close] event it is live. *)
Inductive socket := SkConnecting | SkOpen | SkClosing | SkClosed.
#[export] Instance socket_eq : EqDecision socket. Proof. solve_decision. Defined.

Record feed := mkFeed {
  fe_mounted : bool;
  fe_alerts : list Alert;          (** [newAlerts], latest first *)
  fe_status : WsStatus;
  fe_retryMs : Z;
  fe_seen : gset string;           (** [seenIds] *)
  fe_sockets : list socket;        (** in order of creation *)
  fe_wsRef : option nat;
  fe_timers : list (Z * bool);     (** delay, and whether the timer is pending *)
  fe_retryTimer : option nat
}.

Definition with_conn (sockets : list socket) (ref : option nat) (timers : list (Z * bool)) (rt : option nat)
    (retry : Z) (st : WsStatus) (f : feed) : feed :=
  mkFeed (fe_mounted f) (fe_alerts f) st retry (fe_seen f) sockets ref timers rt.

(** [connect()] *)
Definition connect (f : feed) : feed :=
  with_conn (fe_sockets f ++ [SkConnecting]) (Some (length (fe_sockets f))) (fe_timers f) (fe_retryTimer f)
    (fe_retryMs f) (fe_status f) f.

(** The mount effect. *)
Definition mount : feed := connect (mkFeed true [] WsConnecting 1000 ∅ [] None [] None).

(** [ws.onopen] *)
Definition onopen (i : nat) (f : feed) : feed :=
  with_conn (<[i := SkOpen]> (fe_sockets f)) (fe_wsRef f) (fe_timers f) (fe_retryTimer f) 1000 WsConnected f.

Definition alert_key (d : Detection.FiredDetection) : string :=
  Detection.fd_detection_id d +:+ ":" +:+ Detection.fd_event_id d.

(** [ws.onmessage]; [None] is a message that cannot be parsed. *)
Definition onmessage (m : option Detection.FiredDetection) (f : feed) : feed :=
  match m with
  | Some d =>
      if decide (alert_key d ∈ fe_seen f) then f
      else mkFeed (fe_mounted f) (Detection.firedDetectionToAlert d :: fe_alerts f) (fe_status f) (fe_retryMs f)
             ({[alert_key d]} ∪ fe_seen f) (fe_sockets f) (fe_wsRef f) (fe_timers f) (fe_retryTimer f)
  | None => f
  end.

(** [ws.onclose]: a timer for the next attempt. *)
Definition onclose (i : nat) (f : feed) : feed :=
  with_conn (<[i := SkClosed]> (fe_sockets f)) (fe_wsRef f) (fe_timers f ++ [(fe_retryMs f, true)])
    (Some (length (fe_timers f))) (fe_retryMs f) WsDisconnected f.

(** [ws.close()] *)
Definition close_socket (i : nat) (sockets : list socket) : list socket :=
  match sockets !! i with
  | Some SkConnecting | Some SkOpen => <[i := SkClosing]> sockets
  | _ => sockets
  end.

(** [ws.onerror] *)
Definition onerror (i : nat) (f : feed) : feed :=
  with_conn (close_socket i (fe_sockets f)) (fe_wsRef f) (fe_timers f) (fe_retryTimer f) (fe_retryMs f) (fe_status f) f.

Definition clear_timer (t : option nat) (timers : list (Z * bool)) : list (Z * bool) :=
  match t with
  | Some i => match timers !! i with Some (d, _) => <[i := (d, false)]> timers | None => timers end
  | None => timers
  end.

(** The timer's callback. *)
Definition ontimer (i : nat) (f : feed) : feed :=
  connect (with_conn (fe_sockets f) (fe_wsRef f) (clear_timer (Some i) (fe_timers f)) (fe_retryTimer f)
             (Z.min (fe_retryMs f * 2) 32000) (fe_status f) f).

(** The cleanup of the mount effect. *)
Definition unmount (f : feed) : feed :=
  let timers := clear_timer (fe_retryTimer f) (fe_timers f) in
  let sockets := match fe_wsRef f with Some i => close_socket i (fe_sockets f) | None => fe_sockets f end in
  mkFeed false (fe_alerts f) (fe_status f) (fe_retryMs f) (fe_seen f) sockets (fe_wsRef f) timers (fe_retryTimer f).

Inductive ws_step : feed → feed → Prop :=
| ws_open i f : fe_sockets f !! i = Some SkConnecting → ws_step f (onopen i f)
| ws_message i m f : fe_sockets f !! i = Some SkOpen → ws_step f (onmessage m f)
| ws_error i f : fe_sockets f !! i = Some SkConnecting ∨ fe_sockets f !! i = Some SkOpen → ws_step f (onerror i f)
| ws_close i f s : fe_sockets f !! i = Some s → s ≠ SkClosed → ws_step f (onclose i f)
| ws_timer i d f : fe_timers f !! i = Some (d, true) → ws_step f (ontimer i f)
| ws_unmount f : fe_mounted f = true → ws_step f (unmount f).

(** ** Live connections *)

Definition live_socket (s : socket) : nat := match s with SkClosed => 0%nat | _ => 1%nat end.
Definition live_timer (t : Z * bool) : nat := if t.2 then 1%nat else 0%nat.

(** Sockets not yet closed plus pending reconnections. *)
Definition live (f : feed) : nat :=
  (sum_list_with live_socket (fe_sockets f) + sum_list_with live_timer (fe_timers f))%nat.

Lemma sum_set {A} (g : A → nat) (l : list A) i x y :
  l !! i = Some x → (sum_list_with g (<[i := y]> l) + g x = sum_list_with g l + g y)%nat.
Proof.
  revert i; induction l as [|z l IH]; intros [|i] E; simpl in *; try done.
  - injection E as ->. lia.
  - specialize (IH i E). lia.
Qed.

Lemma live_connect f : live (connect f) = S (live f).
Proof. unfold live. simpl. rewrite sum_list_with_app. simpl. lia. Qed.

Lemma live_close_socket i l : sum_list_with live_socket (close_socket i l) = sum_list_with live_socket l.
Proof.
  unfold close_socket. destruct (l !! i) as [[]|] eqn:E; try done.
  all: pose proof (sum_set live_socket l i _ SkClosing E) as H; simpl in H; lia.
Qed.

Lemma live_clear i d l :
  l !! i = Some (d, true) → S (sum_list_with live_timer (clear_timer (Some i) l)) = sum_list_with live_timer l.
Proof.
  intros E. simpl. rewrite E. pose proof (sum_set live_timer l i _ (d, false) E) as H.
  unfold live_timer at 2 4 in H. simpl in H. lia.
Qed.

(** Every step but the unmount keeps exactly as many live connections. *)
Lemma live_step f f' : ws_step f f' → (live f' = live f) ∨ (fe_mounted f = true ∧ f' = unmount f).
Proof.
  intros [i f0 E|i m f0 E|i f0 E|i f0 s E Hs|i d f0 E|f0 E]; [left..|by right].
  - unfold live, onopen. simpl. pose proof (sum_set live_socket _ i _ SkOpen E) as H.
    simpl in H. lia.
  - unfold onmessage. destruct m as [d|]; [|done]. by case_decide.
  - unfold live, onerror. simpl. by rewrite live_close_socket.
  - unfold live, onclose. simpl. rewrite sum_list_with_app. pose proof (sum_set live_socket _ i _ SkClosed E) as H.
    simpl. destruct s; simpl in H; try done; lia.
  - unfold ontimer. rewrite live_connect. unfold live. simpl.
    pose proof (live_clear i d _ E) as H. simpl in H. lia.
Qed.

(** ** The mounted feed *)

Lemma sum_zero {A} (g : A → nat) (l : list A) i x : sum_list_with g l = 0%nat → l !! i = Some x → g x = 0%nat.
Proof.
  revert i; induction l as [|y l IH]; intros [|i] Hs E; simpl in *; try done.
  - injection E as ->. lia.
  - apply (IH i); [lia|done].
Qed.

Lemma sum_pos {A} (g : A → nat) (l : list A) : (0 < sum_list_with g l)%nat → ∃ i x, l !! i = Some x ∧ (0 < g x)%nat.
Proof.
  induction l as [|y l IH]; simpl; [lia|]. intros H. destruct (g y) eqn:E.
  - destruct IH as (i & x & ? & ?); [lia|]. by exists (S i), x.
  - exists 0%nat, y. split; [done|lia].
Qed.

(** The alerts shown, as detections: one per key. *)
Definition shown (f : feed) (ds : list Detection.FiredDetection) : Prop :=
  fe_alerts f = Detection.firedDetectionToAlert <$> ds ∧ NoDup (alert_key <$> ds) ∧
  ∀ k, k ∈ fe_seen f ↔ k ∈ alert_key <$> ds.

(** The back-off is one second doubled some times, at most 32 seconds. *)
Definition backoff_ok (ms : Z) : Prop := ∃ n : nat, ms = Z.min (1000 * 2 ^ Z.of_nat n) 32000.

Lemma backoff_double ms : backoff_ok ms → backoff_ok (Z.min (ms * 2) 32000).
Proof.
  intros [n ->]. exists (S n). rewrite Nat2Z.inj_succ, Z.pow_succ_r by lia. lia.
Qed.

Record feed_inv (f : feed) : Prop := {
  fi_live : fe_mounted f = true → live f = 1%nat;
  fi_timer i d : fe_mounted f = true → fe_timers f !! i = Some (d, true) → fe_retryTimer f = Some i;
  fi_shown : ∃ ds, shown f ds;
  fi_backoff : backoff_ok (fe_retryMs f) ∧ Forall (λ t, backoff_ok t.1) (fe_timers f)
}.

Lemma mount_inv : feed_inv mount.
Proof.
  split; simpl; [done|by intros i d _ ?| |].
  - exists []. split; [done|]. split; [constructor|]. intros k. simpl. set_solver.
  - split; [|done]. by exists 0%nat.
Qed.

(** A live socket leaves no room for a timer. *)
Lemma no_timer f i s j d :
  live f = 1%nat → fe_sockets f !! i = Some s → s ≠ SkClosed → fe_timers f !! j = Some (d, true) → False.
Proof.
  intros Hl Ei Hs Ej. unfold live in Hl.
  pose proof (sum_set live_socket _ i _ SkClosed Ei) as H1. pose proof (sum_set live_timer _ j _ (d, false) Ej) as H2.
  destruct s; simpl in *; try done; unfold live_timer in *; simpl in *; lia.
Qed.

Lemma clear_timer_lookup i l j d : clear_timer (Some i) l !! j = Some (d, true) → l !! j = Some (d, true) ∧ j ≠ i.
Proof.
  simpl. destruct (l !! i) as [[d' b]|] eqn:E.
  - destruct (decide (i = j)) as [->|Hne]; [|rewrite list_lookup_insert_ne by done; auto].
    rewrite list_lookup_insert_eq by (by eapply lookup_lt_Some). done.
  - intros Ej. split; [done|]. intros ->. congruence.
Qed.

Lemma clear_timer_backoff i l : Forall (λ t, backoff_ok t.1) l → Forall (λ t, backoff_ok t.1) (clear_timer i l).
Proof.
  intros F. destruct i as [i|]; simpl; [|done]. destruct (l !! i) as [[d b]|] eqn:E; [|done].
  apply Forall_insert; [done|]. rewrite Forall_lookup in F. by apply (F i (d, b)).
Qed.

Lemma feed_step_inv f f' : feed_inv f → ws_step f f' → feed_inv f'.
Proof.
  intros [Hl Ht Hs [Hb Hbs]] St. pose proof (live_step f f' St) as Hlive.
  destruct St as [i f0 E|i m f0 E|i f0 E|i f0 s E Hsk|i d f0 E|f0 E].
  - split; simpl; [|by eauto|done|by split; [exists 0%nat|]].
    intros Hm. destruct Hlive as [->|[_ Hu]]; [by apply Hl|]. apply (f_equal fe_mounted) in Hu. simpl in Hu. congruence.
  - unfold onmessage in *. destruct m as [dt|]; [|by split]. case_decide as Hk; [by split|].
    split; simpl; [done|done| |done]. destruct Hs as (ds & Ha & Hn & Hsn). exists (dt :: ds).
    split; [simpl; by rewrite Ha|]. split.
    + csimpl. constructor; [|done]. by rewrite <- Hsn.
    + intros k. csimpl. rewrite elem_of_union, elem_of_singleton, elem_of_cons, Hsn. done.
  - split; simpl; [|by eauto|done|done].
    intros Hm. destruct Hlive as [->|[_ Hu]]; [by apply Hl|]. apply (f_equal fe_mounted) in Hu. simpl in Hu. congruence.
  - split; simpl.
    + intros Hm. destruct Hlive as [->|[_ Hu]]; [by apply Hl|]. apply (f_equal fe_mounted) in Hu. simpl in Hu. congruence.
    + intros j d Hm [Ej|[Hj Ej]]%lookup_app_Some; [by destruct (no_timer f0 i s j d); auto|].
      apply list_lookup_singleton_Some in Ej as [Ej _]. f_equal. lia.
    + done.
    + split; [done|]. apply Forall_app. by repeat constructor.
  - split; simpl.
    + intros Hm. destruct Hlive as [->|[_ Hu]]; [by apply Hl|]. apply (f_equal fe_mounted) in Hu. simpl in Hu. congruence.
    + intros j d' Hm Ej. change (clear_timer (Some i) (fe_timers f0) !! j = Some (d', true)) in Ej.
      apply clear_timer_lookup in Ej as [Ej Hne]. specialize (Ht i d Hm E) as H1. specialize (Ht j d' Hm Ej). congruence.
    + done.
    + split; [by apply backoff_double|]. by apply (clear_timer_backoff (Some i)).
  - split; simpl; [done|done|done|]. split; [done|]. by apply clear_timer_backoff.
Qed.

Lemma reachable_feed f : star ws_step mount f → feed_inv f.
Proof. apply star_invariant; [apply mount_inv|]. intros; by eapply feed_step_inv. Qed.

(** ** What was delivered *)

(** The steps that deliver nothing. *)
Inductive ws_conn : feed → feed → Prop :=
| wc_open i f : fe_sockets f !! i = Some SkConnecting → ws_conn f (onopen i f)
| wc_error i f : fe_sockets f !! i = Some SkConnecting ∨ fe_sockets f !! i = Some SkOpen → ws_conn f (onerror i f)
| wc_close i f s : fe_sockets f !! i = Some s → s ≠ SkClosed → ws_conn f (onclose i f)
| wc_timer i d f : fe_timers f !! i = Some (d, true) → ws_conn f (ontimer i f)
| wc_unmount f : fe_mounted f = true → ws_conn f (unmount f).

(** A run from the mount with the detections its open sockets delivered, in
    order. *)
Inductive ws_run : list Detection.FiredDetection → feed → Prop :=
| wr_mount : ws_run [] mount
| wr_message ds i m f : ws_run ds f → fe_sockets f !! i = Some SkOpen → ws_run (ds ++ option_list m) (onmessage m f)
| wr_conn ds f f' : ws_run ds f → ws_conn f f' → ws_run ds f'.

Lemma ws_conn_step f f' : ws_conn f f' → ws_step f f'.
Proof. intros []; [by apply ws_open|by apply ws_error|by eapply ws_close|by eapply ws_timer|by apply ws_unmount]. Qed.

(** Every feed is the end of such a run. *)
Lemma ws_run_exists f : star ws_step mount f → ∃ ds, ws_run ds f.
Proof.
  intros R. refine (star_invariant _ (λ f, ∃ ds, ws_run ds f) _ _ _ _ R); [by exists []; constructor|].
  intros a b [ds Ra] St. destruct St as [i f0 E|i m f0 E|i f0 E|i f0 s E Hs|i d f0 E|f0 E].
  2: by exists (ds ++ option_list m); eapply wr_message.
  all: exists ds; eapply wr_conn; [exact Ra|]; by econstructor.
Qed.

Lemma ws_run_star ds f : ws_run ds f → star ws_step mount f.
Proof.
  induction 1 as [|ds i m f R IH E|ds f f' R IH C]; [constructor|..]; (eapply star_snoc; [exact IH|]); [by eapply ws_message|by apply ws_conn_step].
Qed.

Lemma ws_conn_shown f f' : ws_conn f f' → fe_alerts f' = fe_alerts f ∧ fe_seen f' = fe_seen f.
Proof. by intros []. Qed.

Lemma ws_run_alerts ds f : ws_run ds f →
  fe_alerts f = Detection.firedDetectionToAlert <$> reverse (dedup_by alert_key ∅ ds) ∧
  ∀ k, k ∈ fe_seen f ↔ k ∈ alert_key <$> ds.
Proof.
  induction 1 as [|ds i m f R [IHa IHs] E|ds f f' R [IHa IHs] C].
  - split; [done|]. intros k. simpl. set_solver.
  - destruct m as [d|]; simpl; [|by rewrite app_nil_r]. rewrite dedup_by_app. simpl.
    assert (K : alert_key d ∈ dedup_seen alert_key ∅ ds ↔ alert_key d ∈ fe_seen f).
    { rewrite dedup_seen_elem, IHs. set_solver. }
    assert (Sn : ∀ k, k ∈ alert_key <$> ds ++ [d] ↔ k = alert_key d ∨ k ∈ alert_key <$> ds).
    { intros k. rewrite fmap_app, elem_of_app. simpl. rewrite list_elem_of_singleton. tauto. }
    do 2 case_decide; try tauto.
    + rewrite app_nil_r. split; [done|]. intros k. rewrite Sn, <- IHs. naive_solver.
    + split; [by rewrite reverse_app; simpl; rewrite IHa|]. intros k. simpl. rewrite elem_of_union, elem_of_singleton, Sn, IHs. done.
  - destruct (ws_conn_shown f f' C) as [-> ->]. by split.
Qed.

(** C39: the feed. Whatever the network does, (1) while it is mounted there is
    exactly one live connection or pending reconnection; (2) every delay is
    one second doubled a number of times, at most 32 seconds; and (3) the
    alerts are exactly those of the detections its sockets delivered, newest
    first, of each detection and event the first that came, replays on
    reconnection included. *)
Theorem alerts_feed_mounted ds f :
  ws_run ds f →
  (fe_mounted f = true → live f = 1%nat) ∧
  (backoff_ok (fe_retryMs f) ∧ Forall (λ t, backoff_ok t.1) (fe_timers f)) ∧
  fe_alerts f = Detection.firedDetectionToAlert <$> reverse (dedup_by alert_key ∅ ds).
Proof.
  intros R. destruct (reachable_feed f (ws_run_star ds f R)) as [Hl _ _ Hb]. split; [done|]. split; [done|]. by apply ws_run_alerts.
Qed.

(** ** After the unmount *)

Lemma unmounted_live f f' : fe_mounted f = false → star ws_step f f' → fe_mounted f' = false ∧ live f' = live f.
Proof.
  intros Hm R. induction R as [|f1 f2 f3 R IH St]; [done|]. destruct (IH Hm) as [Hm2 <-].
  destruct (live_step f2 f3 St) as [->|[Hx _]]; [|congruence]. split; [|done].
  destruct St as [i f0 E|i [m|] f0 E|i f0 E|i f0 s E Hs|i d f0 E|f0 E]; simpl in *; try done. by case_decide.
Qed.

(** A live feed can get a socket open again. *)
Lemma live_reopens f : live f = 1%nat → ∃ f', star ws_step f f' ∧ ∃ i, fe_sockets f' !! i = Some SkOpen.
Proof.
  assert (Hconn : ∀ f i, fe_sockets f !! i = Some SkConnecting →
    ∃ f', star ws_step f f' ∧ ∃ i, fe_sockets f' !! i = Some SkOpen).
  { intros g i E. exists (onopen i g). split; [eapply star_snoc; [constructor|by apply ws_open]|].
    exists i. simpl. apply list_lookup_insert_eq. by eapply lookup_lt_Some. }
  assert (Htimer : ∀ f i d, fe_timers f !! i = Some (d, true) →
    ∃ f', star ws_step f f' ∧ ∃ i, fe_sockets f' !! i = Some SkOpen).
  { intros g i d E. destruct (Hconn (ontimer i g) (length (fe_sockets g))) as (f' & R & H).
    - simpl. by apply list_lookup_middle.
    - exists f'. split; [|done]. eapply star_trans; [|exact R]. eapply star_snoc; [constructor|by eapply ws_timer]. }
  intros Hl. unfold live in Hl. destruct (sum_list_with live_socket (fe_sockets f)) eqn:Es.
  - destruct (sum_pos live_timer (fe_timers f)) as (i & [d b] & E & Hp); [lia|].
    unfold live_timer in Hp. destruct b; simpl in Hp; [|lia]. by eapply Htimer.
  - destruct (sum_pos live_socket (fe_sockets f)) as (i & s & E & Hp); [lia|]. destruct s; simpl in Hp; [| | |lia].
    + by eapply Hconn.
    + exists f. split; [constructor|]. by exists i.
    + destruct (Htimer (onclose i f) (length (fe_timers f)) (fe_retryMs f)) as (f' & R & H).
      * simpl. by apply list_lookup_middle.
      * exists f'. split; [|done]. eapply star_trans; [|exact R]. eapply star_snoc; [constructor|by eapply ws_close].
Qed.

(** The cleanup leaks the connection. Closing the socket makes the
    browser report the close, and [onclose] starts a new timer that nothing
    clears; so after an unmount with a live socket there is, for ever, a live
    socket or a pending reconnection, and the feed can always open a socket
    again. Only an unmount during a back-off pause stops it. *)
Theorem alerts_feed_leak f f' :
  star ws_step mount f → fe_mounted f = true → star ws_step (unmount f) f' →
  if existsb (λ s, bool_decide (s ≠ SkClosed)) (fe_sockets f)
  then live f' = 1%nat ∧ ∃ f'', star ws_step f' f'' ∧ ∃ i, fe_sockets f'' !! i = Some SkOpen
  else live f' = 0%nat.
Proof.
  intros R Hm R'. destruct (reachable_feed f R) as [Hl Ht _ _]. specialize (Hl Hm).
  destruct (unmounted_live (unmount f) f' eq_refl R') as [_ Hlive].
  assert (Hsock : sum_list_with live_socket (fe_sockets (unmount f)) = sum_list_with live_socket (fe_sockets f)).
  { simpl. destruct (fe_wsRef f); [apply live_close_socket|done]. }
  destruct (existsb _ _) eqn:Ex.
  - apply existsb_exists in Ex as (s & [i Ei]%list_elem_of_In%list_elem_of_lookup & Hs%bool_decide_eq_true).
    assert (H1 : live (unmount f) = 1%nat).
    { assert (Hnt : fe_timers (unmount f) = fe_timers f).
      { simpl. unfold clear_timer. destruct (fe_retryTimer f) as [j|]; [|done].
        destruct (fe_timers f !! j) as [[d []]|] eqn:Ej; [|by rewrite list_insert_id|done].
        exfalso. by apply (no_timer f i s j d). }
      unfold live. rewrite Hsock, Hnt. exact Hl. }
    rewrite Hlive, H1. split; [done|]. apply live_reopens. congruence.
  - assert (H0 : sum_list_with live_socket (fe_sockets f) = 0%nat).
    { destruct (sum_list_with live_socket (fe_sockets f)) eqn:E; [done|]. exfalso.
      destruct (sum_pos live_socket (fe_sockets f)) as (i & s & Ei & Hp); [lia|].
      assert (Hx : existsb (λ s, bool_decide (s ≠ SkClosed)) (fe_sockets f) = true); [|congruence].
      apply existsb_exists. exists s. split; [apply list_elem_of_In; by eapply list_elem_of_lookup_2|].
      apply bool_decide_eq_true. destruct s; simpl in Hp; [done..|lia]. }
    rewrite Hlive. unfold live. rewrite Hsock, H0. simpl. unfold live in Hl. rewrite H0 in Hl. simpl in Hl.
    destruct (sum_pos live_timer (fe_timers f)) as (j & [d b] & Ej & Hp); [lia|].
    unfold live_timer in Hp. destruct b; simpl in Hp; [|lia]. rewrite (Ht j d Hm Ej). pose proof (live_clear j d _ Ej). lia.
Qed.

(** ** A run *)

Definition opened : feed := onopen 0 mount.

Lemma opened_star : star ws_step mount opened.
Proof. eapply star_snoc; [constructor|]. by apply ws_open. Qed.

(** The page is left, the socket closes, the timer fires. *)
Definition zombie : feed := ontimer 0 (onclose 0 (unmount opened)).

Lemma zombie_star : star ws_step (unmount opened) zombie.
Proof.
  eapply star_snoc; [eapply star_snoc; [constructor|]|].
  - by apply (ws_close 0 _ SkClosing).
  - by apply (ws_timer 0 1000).
Qed.

Lemma alerts_feed_leak_witness :
  fe_mounted zombie = false ∧ fe_sockets zombie = [SkClosed; SkConnecting] ∧ live zombie = 1%nat.
Proof.
  split; [reflexivity|]. split; [reflexivity|].
  exact (proj1 (alerts_feed_leak opened zombie opened_star eq_refl zombie_star)).
Defined.

(** A detection arrives, the connection drops and comes back, and the
    detection is replayed before a new one. *)
Definition fired_at (e : string) : Detection.FiredDetection :=
  Detection.mkFiredDetection "aws_root_account_use" e "bob" "eu-west-1" "high" "2026-01-01 10:00:00".

Definition replayed : feed :=
  onmessage (Some (fired_at "e2")) (onmessage (Some (fired_at "e1"))
    (onopen 1 (ontimer 0 (onclose 0 (onmessage (Some (fired_at "e1")) opened))))).

Lemma replayed_run : ws_run [fired_at "e1"; fired_at "e1"; fired_at "e2"] replayed.
Proof.
  apply (wr_message [fired_at "e1"; fired_at "e1"] 1 (Some (fired_at "e2"))); [|reflexivity]. apply (wr_message [fired_at "e1"] 1 (Some (fired_at "e1"))); [|reflexivity].
  eapply wr_conn; [|by apply wc_open]. eapply wr_conn; [|by eapply wc_timer]. eapply wr_conn; [|by eapply wc_close].
  apply (wr_message [] 0 (Some (fired_at "e1"))); [|reflexivity]. eapply wr_conn; [constructor|by apply wc_open].
Qed.

Lemma alerts_feed_mounted_witness :
  fe_mounted replayed = true ∧ live replayed = 1%nat ∧
  fe_alerts replayed = [Detection.firedDetectionToAlert (fired_at "e2"); Detection.firedDetectionToAlert (fired_at "e1")].
Proof.
  split; [reflexivity|]. destruct (alerts_feed_mounted _ replayed replayed_run) as (H1 & _ & H2).
  split; [by apply H1|]. rewrite H2. vm_compute. reflexivity.
Defined.
