(* ===== verification/JsDate.v ===== *)
(** * JavaScript dates

    A [Date] is its time value, an integer number of milliseconds since the
    epoch of magnitude at most 8.64e15, or NaN ([None]).  The file gives the
    proleptic Gregorian calendar of ECMAScript, [toISOString], and the
    [Date] constructor on numbers, with the fact the program relies on:
    different times have different ISO strings. *)
From Stdlib Require Import Ascii.
From S2P Require Import Prelude JsObject JsNum JsString.

Definition MAX_TIME : Z := 8640000000000000.
Definition time_ok (t : Z) : bool := Z.abs t <=? MAX_TIME.

(** [TimeClip(ToIntegerOrInfinity(x))]: the time value of [new Date(x)]. *)
Definition date_of_num (x : num) : option Z :=
  match trunc_Z x with
  | Some t => if time_ok t then Some t else None
  | None => None
  end.

(** ** Civil dates *)
Record civil := mkCivil { cv_year : Z; cv_month : Z; cv_day : Z }.

Definition year_of_era (doe : Z) : Z := (doe - doe / 1460 + doe / 36524 - doe / 146096) / 365.

Definition civil_of_days (days : Z) : civil :=
  let z := days + 719468 in
  let era := z / 146097 in
  let doe := z mod 146097 in
  let yoe := year_of_era doe in
  let doy := doe - (365 * yoe + yoe / 4 - yoe / 100) in
  let mp := (5 * doy + 2) / 153 in
  let d := doy - (153 * mp + 2) / 5 + 1 in
  let m := if mp <? 10 then mp + 3 else mp - 9 in
  mkCivil (yoe + era * 400 + (if m <=? 2 then 1 else 0)) m d.

Definition days_of_civil (c : civil) : Z :=
  let y := cv_year c - (if cv_month c <=? 2 then 1 else 0) in
  let era := y / 400 in
  let yoe := y mod 400 in
  let mp := if 2 <? cv_month c then cv_month c - 3 else cv_month c + 9 in
  let doy := (153 * mp + 2) / 5 + cv_day c - 1 in
  let doe := yoe * 365 + yoe / 4 - yoe / 100 + doy in
  era * 146097 + doe - 719468.

Lemma year_of_era_bounds doe :
  0 ≤ doe < 146097 →
  0 ≤ year_of_era doe < 400 ∧
  0 ≤ doe - (365 * year_of_era doe + year_of_era doe / 4 - year_of_era doe / 100) ≤ 365.
Proof. unfold year_of_era. intros. Z.to_euclidean_division_equations. lia. Qed.

Lemma civil_of_days_bounds days :
  1 ≤ cv_month (civil_of_days days) ≤ 12 ∧ 1 ≤ cv_day (civil_of_days days) ≤ 31.
Proof.
  unfold civil_of_days. cbn [cv_month cv_day].
  pose proof (year_of_era_bounds ((days + 719468) mod 146097)
                (Z.mod_pos_bound (days + 719468) 146097 ltac:(lia))) as [_ H].
  revert H. generalize ((days + 719468) mod 146097 - (365 * year_of_era ((days + 719468) mod 146097) +
     year_of_era ((days + 719468) mod 146097) / 4 - year_of_era ((days + 719468) mod 146097) / 100)).
  intros doy H. destruct (Z.ltb_spec ((5 * doy + 2) / 153) 10); Z.to_euclidean_division_equations; lia.
Qed.

(** The calendar loses nothing: a day number is recovered from its date. *)
Lemma days_of_civil_of_days days : days_of_civil (civil_of_days days) = days.
Proof.
  unfold days_of_civil, civil_of_days. cbn [cv_year cv_month cv_day].
  set (z := days + 719468). pose proof (Z.mod_pos_bound z 146097 ltac:(lia)) as Hd.
  pose proof (Z.div_mod z 146097 ltac:(lia)) as Hz.
  set (doe := z mod 146097) in *. set (era := z / 146097) in *.
  destruct (year_of_era_bounds doe Hd) as [Hy Hdoy].
  set (yoe := year_of_era doe) in *.
  set (doy := doe - (365 * yoe + yoe / 4 - yoe / 100)) in *.
  set (mp := (5 * doy + 2) / 153) in *.
  assert (0 ≤ mp ≤ 11) by (unfold mp; Z.to_euclidean_division_equations; lia).
  set (m := if mp <? 10 then mp + 3 else mp - 9).
  assert (Hmp : (if 2 <? m then m - 3 else m + 9) = mp).
  { unfold m. destruct (Z.ltb_spec mp 10); case_match; bool_to_prop; lia. }
  rewrite Hmp.
  replace (yoe + era * 400 + (if m <=? 2 then 1 else 0) - (if m <=? 2 then 1 else 0))
    with (yoe + era * 400) by lia.
  rewrite Z.div_add, Z.div_small, Z.add_0_l by lia.
  rewrite Z.mod_add, Z.mod_small by lia.
  replace ((153 * mp + 2) / 5 + (doy - (153 * mp + 2) / 5 + 1) - 1) with doy by lia.
  unfold doy, z in *. lia.
Qed.

Lemma civil_of_days_inj a b : civil_of_days a = civil_of_days b → a = b.
Proof. intros E. by rewrite <- (days_of_civil_of_days a), E, days_of_civil_of_days. Qed.

(** ** [toISOString] *)

Definition iso_year (y : Z) : string :=
  if (0 <=? y) && (y <=? 9999) then pad_digits 4 y
  else (if y <? 0 then "-" else "+") +:+ pad_digits 6 (Z.abs y).

Definition MS_PER_DAY : Z := 86400000.

Definition iso_time (ms : Z) : string :=
  pad_digits 2 (ms / 3600000) +:+ ":" +:+ pad_digits 2 (ms / 60000 mod 60) +:+ ":"
  +:+ pad_digits 2 (ms / 1000 mod 60) +:+ "." +:+ pad_digits 3 (ms mod 1000) +:+ "Z".

Definition to_iso_string (t : Z) : string :=
  let c := civil_of_days (t / MS_PER_DAY) in
  iso_year (cv_year c) +:+ "-" +:+ pad_digits 2 (cv_month c) +:+ "-" +:+ pad_digits 2 (cv_day c)
  +:+ "T" +:+ iso_time (t mod MS_PER_DAY).

(** ** Injectivity *)

Lemma digit_char_inj a b : 0 ≤ a < 10 → 0 ≤ b < 10 → digit_char a = digit_char b → a = b.
Proof.
  unfold digit_char. intros Ha Hb E. apply (f_equal N_of_ascii) in E.
  rewrite !N_ascii_embedding in E by lia. lia.
Qed.

Lemma pad_digits_length k n : String.length (pad_digits k n) = k.
Proof. revert n; induction k as [|k IH]; intros n; simpl; [done|]. rewrite string_app_length, IH. simpl. lia. Qed.

Lemma pad_digits_inj k a b :
  0 ≤ a < 10 ^ Z.of_nat k → 0 ≤ b < 10 ^ Z.of_nat k → pad_digits k a = pad_digits k b → a = b.
Proof.
  revert a b; induction k as [|k IH]; intros a b Ha Hb E; [simpl in *; lia|].
  rewrite Nat2Z.inj_succ, Z.pow_succ_r in Ha, Hb by lia. simpl in E.
  apply string_app_inj_r in E as [E1 E2]; [|done]. injection E2 as E2.
  apply digit_char_inj in E2; [|apply Z.mod_pos_bound; lia..].
  apply IH in E1; [|split; [apply Z.div_pos; lia|apply Z.div_lt_upper_bound; lia]..].
  rewrite (Z.div_mod a 10), (Z.div_mod b 10) by lia. lia.
Qed.

Lemma iso_year_length y : (String.length (iso_year y) = 4 ∨ String.length (iso_year y) = 7)%nat.
Proof.
  unfold iso_year. case_match; [left|right]; rewrite ?string_app_length, !pad_digits_length; [done|].
  by case_match.
Qed.

Lemma iso_year_inj y1 y2 :
  Z.abs y1 < 10 ^ 6 → Z.abs y2 < 10 ^ 6 → iso_year y1 = iso_year y2 → y1 = y2.
Proof.
  unfold iso_year. intros H1 H2 E.
  destruct ((0 <=? y1) && (y1 <=? 9999)) eqn:A1, ((0 <=? y2) && (y2 <=? 9999)) eqn:A2.
  - bool_to_prop. apply pad_digits_inj in E; simpl; lia.
  - apply (f_equal String.length) in E. rewrite string_app_length, !pad_digits_length in E.
    by destruct (y2 <? 0).
  - apply (f_equal String.length) in E. rewrite string_app_length, !pad_digits_length in E.
    by destruct (y1 <? 0).
  - apply string_app_inj_r in E as [E1 E2]; [|by rewrite !pad_digits_length].
    apply pad_digits_inj in E2; [|lia..].
    destruct (Z.ltb_spec y1 0), (Z.ltb_spec y2 0); try discriminate; lia.
Qed.

Ltac iso_fields E :=
  repeat match type of E with
  | ?a +:+ _ = ?b +:+ _ =>
      apply (string_app_inj_l a b) in E; [|by rewrite ?pad_digits_length];
      let E1 := fresh "F" in destruct E as [E1 E]
  end.

Lemma iso_time_inj a b : 0 ≤ a < MS_PER_DAY → 0 ≤ b < MS_PER_DAY → iso_time a = iso_time b → a = b.
Proof.
  unfold iso_time, MS_PER_DAY. intros Ha Hb E. iso_fields E.
  repeat match goal with F : pad_digits _ _ = pad_digits _ _ |- _ =>
    apply pad_digits_inj in F; [|simpl; Z.to_euclidean_division_equations; lia..] end.
  clear E F0 F2 F4. Z.to_euclidean_division_equations. lia.
Qed.

Lemma iso_time_length a : String.length (iso_time a) = 13%nat.
Proof. unfold iso_time. by rewrite !string_app_length, !pad_digits_length. Qed.

Lemma civil_year_bound t :
  time_ok t = true → Z.abs (cv_year (civil_of_days (t / MS_PER_DAY))) < 10 ^ 6.
Proof.
  unfold time_ok, MAX_TIME, MS_PER_DAY, civil_of_days. intros H%Z.leb_le. cbn [cv_year].
  pose proof (year_of_era_bounds ((t / 86400000 + 719468) mod 146097)
    (Z.mod_pos_bound (t / 86400000 + 719468) 146097 ltac:(lia))) as [Hy _].
  revert Hy. generalize (year_of_era ((t / 86400000 + 719468) mod 146097)). intros yoe Hy.
  case_match; Z.to_euclidean_division_equations; lia.
Qed.

Theorem to_iso_string_inj t1 t2 :
  time_ok t1 = true → time_ok t2 = true → to_iso_string t1 = to_iso_string t2 → t1 = t2.
Proof.
  intros H1 H2. unfold to_iso_string.
  set (c1 := civil_of_days (t1 / MS_PER_DAY)). set (c2 := civil_of_days (t2 / MS_PER_DAY)). intros E.
  apply string_app_inj_r in E as [Ey E].
  2:{ by rewrite !string_app_length, !pad_digits_length, !iso_time_length. }
  apply iso_year_inj in Ey; [|by apply civil_year_bound..].
  iso_fields E.
  pose proof (civil_of_days_bounds (t1 / MS_PER_DAY)). pose proof (civil_of_days_bounds (t2 / MS_PER_DAY)).
  assert (cv_month c1 = cv_month c2) by (eapply (pad_digits_inj 2); [..|eassumption]; unfold c1, c2; change (10 ^ Z.of_nat 2) with 100; lia).
  assert (cv_day c1 = cv_day c2) by (eapply (pad_digits_inj 2); [..|eassumption]; unfold c1, c2; change (10 ^ Z.of_nat 2) with 100; lia).
  assert (Ec : c1 = c2) by (destruct c1, c2; simpl in *; congruence).
  apply civil_of_days_inj in Ec.
  apply iso_time_inj in E; [|apply Z.mod_pos_bound; unfold MS_PER_DAY; lia..].
  rewrite (Z.div_mod t1 MS_PER_DAY), (Z.div_mod t2 MS_PER_DAY) by (unfold MS_PER_DAY; lia). congruence.
Qed.

Lemma to_iso_string_length t : (String.length (to_iso_string t) = 24 ∨ String.length (to_iso_string t) = 27)%nat.
Proof.
  unfold to_iso_string. rewrite !string_app_length, !pad_digits_length, iso_time_length.
  destruct (iso_year_length (cv_year (civil_of_days (t / MS_PER_DAY)))) as [->| ->]; simpl; lia.
Qed.
