(* ===== verification/LoadStore.v ===== *)
(** * The load-test store ([lib/stores/load-store.ts])

    The state of a load run in the browser: its life cycle, whose start and
    stop wait for the load generator, and the ring buffer of metrics. An
    asynchronous action is split at its await: a request becomes pending, and
    its answer is a later event. *)
From S2P Require Import Prelude JsObject JsNum JsString JsValue Types Effects.

Record MetricsSnapshot := mkSnapshot {
  ms_ts : string;
  ms_events_per_sec : num;
  ms_consumer_lag : num;
  ms_detections_per_sec : num;
  ms_clickhouse_rows_per_sec : num;
  ms_triage_p95_ms : num;
  ms_total_events : num;
  ms_total_detections : num;
  ms_active_load_gen : bool;
  ms_current_load_gen_rate : num
}.

Inductive LoadScenario := ScMixed | ScAttack | ScBenign.

Record LoadConfig := mkLoadConfig {
  lc_rate : num;
  lc_duration_secs : num;
  lc_scenario : LoadScenario;
  lc_tenants : num;
  lc_seed_baselines : bool;
  lc_sampled_triage_pct : num
}.

(** [Partial<LoadConfig>] *)
Record LoadConfigPatch := mkPatch {
  lp_rate : option num;
  lp_duration_secs : option num;
  lp_scenario : option LoadScenario;
  lp_tenants : option num;
  lp_seed_baselines : option bool;
  lp_sampled_triage_pct : option num
}.

Inductive LoadStatus := LdIdle | LdStarting | LdRunning | LdStopping | LdCompleted | LdError.
#[export] Instance LoadStatus_eq : EqDecision LoadStatus. Proof. solve_decision. Defined.

Definition DEFAULT_CONFIG : LoadConfig :=
  mkLoadConfig (of_Z 10000) (of_Z 30) ScMixed (of_Z 3) true zero.

Definition HISTORY_MAX : nat := 300.

Record LoadState := mkLoadState {
  ld_status : LoadStatus;
  ld_config : LoadConfig;
  ld_startedAt : option Z;
  ld_history : list MetricsSnapshot;
  ld_current : option MetricsSnapshot;
  ld_errorMsg : option string
}.

Definition initial_load : LoadState := mkLoadState LdIdle DEFAULT_CONFIG None [] None None.

Definition setConfig (c : LoadConfigPatch) (s : LoadState) : LoadState :=
  let g := ld_config s in
  mkLoadState (ld_status s)
    (mkLoadConfig (default (lc_rate g) (lp_rate c)) (default (lc_duration_secs g) (lp_duration_secs c))
       (default (lc_scenario g) (lp_scenario c)) (default (lc_tenants g) (lp_tenants c))
       (default (lc_seed_baselines g) (lp_seed_baselines c))
       (default (lc_sampled_triage_pct g) (lp_sampled_triage_pct c)))
    (ld_startedAt s) (ld_history s) (ld_current s) (ld_errorMsg s).

Definition set_status (st : LoadStatus) (s : LoadState) : LoadState :=
  mkLoadState st (ld_config s) (ld_startedAt s) (ld_history s) (ld_current s) (ld_errorMsg s).

Definition set_failed (m : string) (s : LoadState) : LoadState :=
  mkLoadState LdError (ld_config s) (ld_startedAt s) (ld_history s) (ld_current s) (Some m).

(** [startRun] up to its await. *)
Definition startRun (now : Z) (s : LoadState) : LoadState :=
  mkLoadState LdStarting (ld_config s) (Some now) [] None None.

(** The error of an answer that is not ok: [body.error ?? `HTTP ${status}`]. *)
Definition answer_error (r : fetched) : string :=
  let body := match ft_json r with Some v => v | None => JObj [] end in
  if is_nullish body then "Cannot read properties of null (reading 'error')"
  else to_string (nullish (prop "error" body) (JStr ("HTTP " +:+ string_of_Z (ft_status r)))).

Definition start_answered (r : res fetched) (s : LoadState) : LoadState :=
  match r with
  | Ok x => if ft_ok x then set_status LdRunning s else set_failed (answer_error x) s
  | Throw e => set_failed (err_message e) s
  end.

Definition stopRun (s : LoadState) : LoadState := set_status LdStopping s.

(** 404: the generator stopped on its own. *)
Definition stop_answered (r : res fetched) (s : LoadState) : LoadState :=
  match r with
  | Ok x => if ft_ok x || (ft_status x =? 404) then set_status LdCompleted s else set_failed (answer_error x) s
  | Throw e => set_failed (err_message e) s
  end.

Definition ingestSnapshot (m : MetricsSnapshot) (s : LoadState) : LoadState :=
  let prev := ld_history s in
  let history := if (HISTORY_MAX <=? length prev)%nat then take_last (HISTORY_MAX - 1) prev ++ [m] else prev ++ [m] in
  let status := if bool_decide (ld_status s = LdRunning) && negb (ms_active_load_gen m) && (5 <? length prev)%nat
                then LdCompleted else ld_status s in
  mkLoadState status (ld_config s) (ld_startedAt s) history (Some m) (ld_errorMsg s).

Definition reset (s : LoadState) : LoadState := initial_load.

(** ** Events *)

Inductive load_event :=
| LConfig (c : LoadConfigPatch)
| LStart (now : Z)
| LStartAnswer (r : res fetched)
| LStop
| LStopAnswer (r : res fetched)
| LIngest (m : MetricsSnapshot)
| LReset.

Definition load_step (e : load_event) (s : LoadState) : LoadState :=
  match e with
  | LConfig c => setConfig c s
  | LStart now => startRun now s
  | LStartAnswer r => start_answered r s
  | LStop => stopRun s
  | LStopAnswer r => stop_answered r s
  | LIngest m => ingestSnapshot m s
  | LReset => reset s
  end.

Definition load_run (es : list load_event) (s : LoadState) : LoadState := foldl (λ s e, load_step e s) s es.

(** ** The ring buffer *)

(** The snapshots ingested since the last start or reset. *)
Definition since_start (es : list load_event) : list MetricsSnapshot :=
  foldl (λ l e, match e with LIngest m => l ++ [m] | LStart _ | LReset => [] | _ => l end) [] es.

Definition buffered (l : list MetricsSnapshot) (s : LoadState) : Prop :=
  ld_history s = take_last HISTORY_MAX l ∧ ld_current s = last l.

Lemma push_history (prev l : list MetricsSnapshot) m :
  prev = take_last HISTORY_MAX l →
  (if (HISTORY_MAX <=? length prev)%nat then take_last (HISTORY_MAX - 1) prev ++ [m] else prev ++ [m]) =
  take_last HISTORY_MAX (l ++ [m]).
Proof.
  intros ->.
  assert (Hs : take_last HISTORY_MAX (l ++ [m]) = take_last (HISTORY_MAX - 1) l ++ [m])
    by exact (take_last_snoc (HISTORY_MAX - 1) l m).
  rewrite Hs. destruct (HISTORY_MAX <=? _)%nat eqn:E.
  - rewrite take_last_take_last; [done|]. unfold HISTORY_MAX. lia.
  - apply Nat.leb_gt in E. rewrite take_last_length in E.
    rewrite !take_last_all; [done| |]; unfold HISTORY_MAX in *; lia.
Qed.

(** The metrics shown for a run. After any sequence of actions and
    answers, in any order, the history is exactly the last [HISTORY_MAX]
    snapshots ingested since the last start or reset, in order, and the
    current one is the last of them; answers, stops and configuration
    changes never touch them. *)
Theorem load_history es :
  let s := load_run es initial_load in
  ld_history s = take_last HISTORY_MAX (since_start es) ∧ ld_current s = last (since_start es) ∧
  (length (ld_history s) ≤ HISTORY_MAX)%nat.
Proof.
  enough (H : buffered (since_start es) (load_run es initial_load)).
  { destruct H as [H1 H2]. split; [done|]. split; [done|]. rewrite H1, take_last_length. lia. }
  unfold load_run, since_start. induction es as [|e es IH] using rev_ind; [done|].
  rewrite !foldl_app. simpl. destruct IH as [IH1 IH2].
  set (s := foldl _ initial_load es) in *. set (l := foldl _ [] es) in *.
  destruct e as [c|now|r| |r|m|]; simpl; try done; unfold buffered.
  - destruct r as [x|x]; simpl; [case_match|]; done.
  - destruct r as [x|x]; simpl; [case_match|]; done.
  - simpl. split; [by apply push_history|]. by rewrite last_snoc.
Qed.

(** Answers are not tied to the run that asked. A reset while a start is
    pending is undone by the late answer: the store says the load is running
    with no start time and an empty history, although the user had reset it.
    (The load page keeps this from happening: [LoadPage.load_requests_serial].) *)
Theorem load_reset_resurrected r now s :
  ft_ok r = true →
  let s' := load_run [LStart now; LReset; LStartAnswer (Ok r)] s in
  ld_status s' = LdRunning ∧ ld_startedAt s' = None ∧ ld_history s' = [].
Proof. intros Hr. simpl. by rewrite Hr. Qed.

Lemma load_reset_resurrected_witness :
  ld_status (load_run [LStart 5; LReset; LStartAnswer (Ok (mkFetched 200 (Some JNull) EmptyString))] initial_load) = LdRunning.
Proof. apply (load_reset_resurrected (mkFetched 200 (Some JNull) EmptyString) 5 initial_load). reflexivity. Defined.
