(* ===== verification/TraceWs.v ===== *)
(** * The live trace of a case ([hooks/use-case-trace-ws.ts])

    [useCaseTraceWs(caseId)] over the client case store: the token requests
    in flight, the sockets with the case each was opened for, the
    reconnection timers and the refs. The case may change while the hook is
    mounted; [connectRef] always holds the [connect] of the latest case,
    while a socket's handlers and a token's continuation keep the case they
    were created for. *)
From S2P Require Import Prelude JsObject JsNum JsString JsValue Types AlertMappers CaseStore AlertsWs Effects.

Section TraceWs.
(** [env.NEXT_PUBLIC_WS_GATEWAY_URL], in a browser. *)
Variable GATEWAY_URL : string.

Record tail := mkTail {
  tl_mounted : bool;
  tl_case : option string;             (** [caseId], as of the last render *)
  tl_status : WsStatus;
  tl_retryMs : Z;
  tl_tokens : list string;             (** token requests in flight, by case *)
  tl_sockets : list socket;            (** in order of creation *)
  tl_urls : list (string * string);    (** case and address of each socket *)
  tl_wsRef : option nat;
  tl_timers : list (Z * bool);
  tl_retryTimer : option nat;
  tl_store : Cases;
  tl_received : list (string * KafkaTraceStep)  (** steps passed to the store, in order *)
}.

Definition wsBase (in_browser : bool) : string := if in_browser then GATEWAY_URL else "ws://localhost:4500".

Definition trace_url (caseId token : string) : string :=
  strip_trailing_slash (wsBase true) +:+ "/ws/cases/" +:+ encode_uri_component caseId +:+ "/trace?token=" +:+
  encode_uri_component token.

Definition with_status (st : WsStatus) (s : tail) : tail :=
  mkTail (tl_mounted s) (tl_case s) st (tl_retryMs s) (tl_tokens s) (tl_sockets s) (tl_urls s) (tl_wsRef s)
    (tl_timers s) (tl_retryTimer s) (tl_store s) (tl_received s).
Definition with_tokens (l : list string) (s : tail) : tail :=
  mkTail (tl_mounted s) (tl_case s) (tl_status s) (tl_retryMs s) l (tl_sockets s) (tl_urls s) (tl_wsRef s)
    (tl_timers s) (tl_retryTimer s) (tl_store s) (tl_received s).
Definition with_sockets (l : list socket) (s : tail) : tail :=
  mkTail (tl_mounted s) (tl_case s) (tl_status s) (tl_retryMs s) (tl_tokens s) l (tl_urls s) (tl_wsRef s)
    (tl_timers s) (tl_retryTimer s) (tl_store s) (tl_received s).
Definition with_timers (l : list (Z * bool)) (s : tail) : tail :=
  mkTail (tl_mounted s) (tl_case s) (tl_status s) (tl_retryMs s) (tl_tokens s) (tl_sockets s) (tl_urls s) (tl_wsRef s)
    l (tl_retryTimer s) (tl_store s) (tl_received s).
Definition with_retryMs (ms : Z) (s : tail) : tail :=
  mkTail (tl_mounted s) (tl_case s) (tl_status s) ms (tl_tokens s) (tl_sockets s) (tl_urls s) (tl_wsRef s)
    (tl_timers s) (tl_retryTimer s) (tl_store s) (tl_received s).

(** [connect()] of the case [c]: a request for a token. *)
Definition connect_case (c : option string) (s : tail) : tail :=
  match c with
  | Some caseId =>
      if String.eqb caseId EmptyString then with_status WsDisconnected s
      else with_tokens (tl_tokens s ++ [caseId]) s
  | None => with_status WsDisconnected s
  end.

(** [retryTimer.current = setTimeout(..., retryMs.current)] *)
Definition schedule (s : tail) : tail :=
  mkTail (tl_mounted s) (tl_case s) WsDisconnected (tl_retryMs s) (tl_tokens s) (tl_sockets s) (tl_urls s) (tl_wsRef s)
    (tl_timers s ++ [(tl_retryMs s, true)]) (Some (length (tl_timers s))) (tl_store s) (tl_received s).

(** The timer's callback: [connectRef.current()]. *)
Definition timer_fired (i : nat) (s : tail) : tail :=
  connect_case (tl_case s) (with_retryMs (Z.min (tl_retryMs s * 2) 32000) (with_timers (clear_timer (Some i) (tl_timers s)) s)).

(** The answer of the token route: refused or failed, without a token, or a
    token. *)
Inductive token_answer := TokFailed | TokMissing | TokGranted (token : string).

(** [json.token] is used as a string in the socket's address. *)
Definition read_token (r : res fetched) : token_answer :=
  match r with
  | Throw _ => TokFailed
  | Ok x =>
      if negb (ft_ok x) then TokFailed
      else match ft_json x with
           | None => TokFailed
           | Some v =>
               if is_nullish v then TokFailed
               else if truthy (prop "token" v) then TokGranted (to_string (prop "token" v)) else TokMissing
           end
  end.

Definition token_answered (caseId : string) (a : token_answer) (s : tail) : tail :=
  match a with
  | TokFailed => schedule s
  | TokMissing => with_status WsDisconnected s
  | TokGranted token =>
      if String.eqb token EmptyString then with_status WsDisconnected s
      else mkTail (tl_mounted s) (tl_case s) (tl_status s) (tl_retryMs s) (tl_tokens s) (tl_sockets s ++ [SkConnecting])
             (tl_urls s ++ [(caseId, trace_url caseId token)]) (Some (length (tl_sockets s)))
             (tl_timers s) (tl_retryTimer s) (tl_store s) (tl_received s)
  end.

Definition socket_opened (i : nat) (s : tail) : tail :=
  with_retryMs 500 (with_status WsConnected (with_sockets (<[i := SkOpen]> (tl_sockets s)) s)).

(** A message: not JSON, a back-pressure notice, or a step. *)
Inductive ws_message := MsgMalformed | MsgBackpressure | MsgStep (t : KafkaTraceStep).

Definition message_step (m : ws_message) : option KafkaTraceStep :=
  match m with
  | MsgStep t =>
      if String.eqb (ks_step_kind t) EmptyString || String.eqb (ks_agent_action_id t) EmptyString then None else Some t
  | _ => None
  end.

Definition socket_message (now : Z) (caseId : string) (m : ws_message) (s : tail) : tail :=
  match message_step m with
  | Some t =>
      mkTail (tl_mounted s) (tl_case s) (tl_status s) (tl_retryMs s) (tl_tokens s) (tl_sockets s) (tl_urls s) (tl_wsRef s)
        (tl_timers s) (tl_retryTimer s) (appendTraceStep now caseId t (tl_store s)) (tl_received s ++ [(caseId, t)])
  | None => s
  end.

Definition socket_closed (i : nat) (s : tail) : tail := schedule (with_sockets (<[i := SkClosed]> (tl_sockets s)) s).

Definition socket_failed (i : nat) (s : tail) : tail := with_sockets (close_socket i (tl_sockets s)) s.

(** The cleanup of the mount effect. *)
Definition cleanup (s : tail) : tail :=
  with_retryMs 500
    (with_sockets (match tl_wsRef s with Some i => close_socket i (tl_sockets s) | None => tl_sockets s end)
      (with_timers (clear_timer (tl_retryTimer s) (tl_timers s)) s)).

(** The mount effect, its microtask included. *)
Definition mount_effect (c : option string) (s : tail) : tail :=
  connect_case c (with_status WsConnecting (with_retryMs 500
    (mkTail true c (tl_status s) (tl_retryMs s) (tl_tokens s) (tl_sockets s) (tl_urls s) (tl_wsRef s)
      (tl_timers s) (tl_retryTimer s) (tl_store s) (tl_received s)))).

Definition tail_mount (c : option string) (store : Cases) : tail :=
  mount_effect c (mkTail true c WsConnecting 500 [] [] [] None [] None store []).

(** A render with another case. *)
Definition switch_case (c : option string) (s : tail) : tail := mount_effect c (cleanup s).

Definition tail_unmount (s : tail) : tail :=
  let s := cleanup s in
  mkTail false (tl_case s) (tl_status s) (tl_retryMs s) (tl_tokens s) (tl_sockets s) (tl_urls s) (tl_wsRef s)
    (tl_timers s) (tl_retryTimer s) (tl_store s) (tl_received s).

Inductive tail_step : tail → tail → Prop :=
| ts_token i c a s : tl_tokens s !! i = Some c →
    tail_step s (token_answered c a (with_tokens (delete i (tl_tokens s)) s))
| ts_open i s : tl_sockets s !! i = Some SkConnecting → tail_step s (socket_opened i s)
| ts_message now i c url m s : tl_sockets s !! i = Some SkOpen → tl_urls s !! i = Some (c, url) →
    tail_step s (socket_message now c m s)
| ts_error i s : tl_sockets s !! i = Some SkConnecting ∨ tl_sockets s !! i = Some SkOpen → tail_step s (socket_failed i s)
| ts_close i k s : tl_sockets s !! i = Some k → k ≠ SkClosed → tail_step s (socket_closed i s)
| ts_timer i d s : tl_timers s !! i = Some (d, true) → tail_step s (timer_fired i s)
| ts_switch c s : tl_mounted s = true → tl_case s ≠ c → tail_step s (switch_case c s)
| ts_unmount s : tl_mounted s = true → tail_step s (tail_unmount s).

(** ** What reaches the store *)

Definition received_for (c : string) (s : tail) : list KafkaTraceStep :=
  omap (λ p, if decide (p.1 = c) then Some p.2 else None) (tl_received s).

Record tail_inv (st0 : Cases) (s : tail) : Prop := {
  ti_sockets : length (tl_sockets s) = length (tl_urls s);
  ti_urls : ∀ c u, (c, u) ∈ tl_urls s → ∃ token, token ≠ EmptyString ∧ u = trace_url c token;
  ti_received : ∀ c t, (c, t) ∈ tl_received s →
    c ∈ (tl_urls s).*1 ∧ ks_step_kind t ≠ EmptyString ∧ ks_agent_action_id t ≠ EmptyString;
  ti_domain : ∀ c, is_Some (obj_get c (tl_store s)) ↔ is_Some (obj_get c st0);
  ti_trace : ∀ c, is_Some (obj_get c st0) →
    selectTraceSteps c (tl_store s) =
      reverse (dedup_by step_key (list_to_set (step_key <$> selectTraceSteps c st0)) (received_for c s))
      ++ selectTraceSteps c st0
}.

(** A transition that handles connections only. *)
Definition same_data (s s' : tail) : Prop :=
  length (tl_sockets s') = length (tl_sockets s) ∧ tl_urls s' = tl_urls s ∧ tl_received s' = tl_received s ∧
  tl_store s' = tl_store s.

Lemma same_data_inv st0 s s' : same_data s s' → tail_inv st0 s → tail_inv st0 s'.
Proof.
  intros (H1 & H2 & H3 & H4) [I1 I2 I3 I4 I5].
  constructor; unfold received_for; rewrite ?H1, ?H2, ?H3, ?H4; done.
Qed.

Lemma close_socket_length i l : length (close_socket i l) = length l.
Proof. unfold close_socket. repeat case_match; by rewrite ?length_insert. Qed.

Lemma connect_case_same c s : same_data s (connect_case c s).
Proof. unfold connect_case. repeat case_match; done. Qed.

Lemma cleanup_same s : same_data s (cleanup s).
Proof. unfold same_data, cleanup. simpl. split; [|done]. case_match; [apply close_socket_length|done]. Qed.

Lemma mount_effect_same c s : same_data s (mount_effect c s).
Proof. unfold mount_effect. exact (connect_case_same c _). Qed.

Lemma same_data_trans s1 s2 s3 : same_data s1 s2 → same_data s2 s3 → same_data s1 s3.
Proof. intros (?&?&?&?) (?&?&?&?). unfold same_data. repeat split; congruence. Qed.

(** One more step in arrival order. *)
Lemma selectTraceSteps_other now c c' t st :
  c ≠ c' → selectTraceSteps c (appendTraceStep now c' t st) = selectTraceSteps c st.
Proof.
  intros Hne. unfold selectTraceSteps, appendTraceStep. destruct (obj_get c' st) as [e|]; [|done].
  case_match; [done|]. by rewrite obj_get_set_ne.
Qed.

Lemma dedup_snoc (seen : gset string) l t :
  dedup_by step_key seen (l ++ [t]) =
  if decide (step_key t ∈ step_key <$> l ∨ step_key t ∈ seen) then dedup_by step_key seen l
  else dedup_by step_key seen l ++ [t].
Proof.
  rewrite dedup_by_app. simpl. pose proof (dedup_seen_elem step_key seen l (step_key t)) as E.
  repeat case_decide; try tauto. by rewrite app_nil_r.
Qed.

Lemma trace_snoc now c t st st0 l :
  is_Some (obj_get c st) →
  selectTraceSteps c st = reverse (dedup_by step_key (list_to_set (step_key <$> st0)) l) ++ st0 →
  selectTraceSteps c (appendTraceStep now c t st) =
    reverse (dedup_by step_key (list_to_set (step_key <$> st0)) (l ++ [t])) ++ st0.
Proof.
  intros Hc E. rewrite selectTraceSteps_append, dedup_snoc, E by done.
  assert (Hk : step_key t ∈ step_key <$> reverse (dedup_by step_key (list_to_set (step_key <$> st0)) l) ++ st0 ↔
               step_key t ∈ step_key <$> l ∨ step_key t ∈ (list_to_set (step_key <$> st0) : gset string)).
  { rewrite fmap_app, elem_of_app, fmap_reverse, elem_of_reverse, dedup_by_keys, elem_of_list_to_set.
    destruct (decide (step_key t ∈ step_key <$> st0)); tauto. }
  repeat case_decide; try tauto. by rewrite reverse_app.
Qed.

Lemma omap_snoc {A B} (f : A → option B) l x :
  omap f (l ++ [x]) = omap f l ++ match f x with Some y => [y] | None => [] end.
Proof. rewrite omap_app. simpl. by destruct (f x). Qed.

Lemma message_inv st0 now i c url m s :
  tl_urls s !! i = Some (c, url) → tail_inv st0 s → tail_inv st0 (socket_message now c m s).
Proof.
  intros Hu I. unfold socket_message. destruct (message_step m) as [t|] eqn:Hm; [|done].
  destruct I as [I1 I2 I3 I4 I5]. constructor; simpl.
  - done.
  - done.
  - intros c' t' [Hin|Hin]%elem_of_app; [by apply I3|]. apply list_elem_of_singleton in Hin as [= -> ->].
    split; [apply list_elem_of_fmap; exists (c, url); split; [done|by eapply list_elem_of_lookup_2]|].
    destruct m as [| |t0]; try done. simpl in Hm. case_match eqn:Eb; [done|]. injection Hm as ->.
    apply orb_false_iff in Eb as [E1 E2]. by apply String.eqb_neq in E1, E2.
  - intros c'. rewrite append_domain. apply I4.
  - intros c' Hc'. unfold received_for. cbn [tl_received]. rewrite omap_snoc. cbn [fst snd].
    case_decide as Hne; [subst c'|].
    + apply trace_snoc; [by apply I4|by apply I5].
    + rewrite app_nil_r, selectTraceSteps_other by congruence. by apply I5.
Qed.

Lemma token_inv st0 c a s : tail_inv st0 s → tail_inv st0 (token_answered c a s).
Proof.
  intros I. destruct a as [| |token]; simpl; try (by eapply same_data_inv; [|exact I]).
  case_match eqn:E; [by eapply same_data_inv; [|exact I]|]. destruct I as [I1 I2 I3 I4 I5]. constructor; simpl.
  - rewrite !length_app. simpl. lia.
  - intros c' u [Hin|Hin]%elem_of_app; [by apply I2|]. apply list_elem_of_singleton in Hin as [= -> ->].
    exists token. split; [by apply String.eqb_neq|done].
  - intros c' t Hin. destruct (I3 c' t Hin) as [H1 H2]. split; [|done]. rewrite fmap_app, elem_of_app. by left.
  - done.
  - done.
Qed.

Lemma tail_step_inv st0 s s' : tail_step s s' → tail_inv st0 s → tail_inv st0 s'.
Proof.
  intros [i c a s0 E|i s0 E|now i c url m s0 E Eu|i s0 E|i k s0 E Hk|i d s0 E|c s0 Hm Hc|s0 Hm] I.
  - apply token_inv. by eapply same_data_inv; [|exact I].
  - eapply same_data_inv; [|exact I]. unfold same_data. simpl. by rewrite length_insert.
  - by eapply message_inv.
  - eapply same_data_inv; [|exact I]. unfold same_data. simpl. by rewrite close_socket_length.
  - eapply same_data_inv; [|exact I]. unfold same_data. simpl. by rewrite length_insert.
  - eapply same_data_inv; [|exact I]. unfold timer_fired. exact (connect_case_same _ _).
  - eapply same_data_inv; [|exact I]. eapply same_data_trans; [apply cleanup_same|apply mount_effect_same].
  - eapply same_data_inv; [|exact I]. exact (cleanup_same s0).
Qed.

Lemma tail_mount_inv c store : tail_inv store (tail_mount c store).
Proof.
  eapply same_data_inv; [apply mount_effect_same|]. constructor; simpl; try done.
  - intros ? ? H. by apply elem_of_nil in H.
  - intros ? ? H. by apply elem_of_nil in H.
Qed.

(** C13: the live trace of a case. However the hook reconnects, switches case
    or is unmounted, and whatever the gateway delivers, the store's trace of
    every case opened before is exactly what it was, with the steps delivered
    on that case's own sockets prepended: one per identity, the first
    delivered, newest first, and never one without a kind or an action id.
    Steps are stored under the case whose token the socket was opened with,
    and no case is created. *)
Theorem trace_tail c0 store s :
  star tail_step (tail_mount c0 store) s →
  (∀ c, is_Some (obj_get c store) →
     selectTraceSteps c (tl_store s) =
       reverse (dedup_by step_key (list_to_set (step_key <$> selectTraceSteps c store)) (received_for c s))
       ++ selectTraceSteps c store) ∧
  (∀ c, obj_get c store = None → obj_get c (tl_store s) = None) ∧
  (∀ c t, (c, t) ∈ tl_received s →
     (∃ token, token ≠ EmptyString ∧ (c, trace_url c token) ∈ tl_urls s) ∧
     ks_step_kind t ≠ EmptyString ∧ ks_agent_action_id t ≠ EmptyString).
Proof.
  intros R. assert (tail_inv store s) as [_ I2 I3 I4 I5].
  { eapply (star_invariant _ (tail_inv store)); [apply tail_mount_inv| |exact R]. intros; by eapply tail_step_inv. }
  split; [exact I5|]. split.
  - intros c Hc. apply eq_None_not_Some. intros Hs%I4. rewrite Hc in Hs. by destruct Hs.
  - intros c t Hin. destruct (I3 c t Hin) as [((c', u) & E & Hu)%list_elem_of_fmap Hk]. simpl in E. subst c'.
    split; [|done]. destruct (I2 c u Hu) as (token & Ht & ->). by exists token.
Qed.

(** ** Connections after a switch *)

(** Token requests in flight, sockets not yet closed and pending timers. *)
Definition tail_live (s : tail) : nat :=
  (length (tl_tokens s) + sum_list_with live_socket (tl_sockets s) + sum_list_with live_timer (tl_timers s))%nat.

Definition timer_pending (s : tail) : bool :=
  match tl_retryTimer s with
  | Some i => match tl_timers s !! i with Some (_, b) => b | None => false end
  | None => false
  end.

Lemma clear_idle i l d : l !! i = Some (d, false) → clear_timer (Some i) l = l.
Proof. intros E. simpl. rewrite E. by apply list_insert_id. Qed.

Lemma cleanup_live s : tail_live s = (tail_live (cleanup s) + if timer_pending s then 1 else 0)%nat.
Proof.
  unfold tail_live, cleanup, timer_pending. simpl.
  assert (Hs : sum_list_with live_socket (match tl_wsRef s with Some i => close_socket i (tl_sockets s)
               | None => tl_sockets s end) = sum_list_with live_socket (tl_sockets s))
    by (destruct (tl_wsRef s); [apply live_close_socket|done]).
  rewrite Hs. destruct (tl_retryTimer s) as [i|]; [|simpl; lia]. destruct (tl_timers s !! i) as [[d []]|] eqn:E.
  - pose proof (live_clear i d _ E). lia.
  - rewrite (clear_idle i _ d E). lia.
  - simpl. rewrite E. lia.
Qed.

(** Switching to another case, or leaving the page, cancels a pending
    reconnection only: any other live connection, and any token request in
    flight, survives, and a switch adds one more. *)
Lemma switch_leaks c s :
  c ≠ EmptyString → timer_pending s = false →
  tail_live (switch_case (Some c) s) = S (tail_live s) ∧ tail_live (tail_unmount s) = tail_live s.
Proof.
  intros Hc Ht. pose proof (cleanup_live s) as E. rewrite Ht in E. split.
  - unfold switch_case, mount_effect, connect_case. apply String.eqb_neq in Hc. rewrite Hc.
    unfold tail_live in *. simpl in *. rewrite length_app. simpl. lia.
  - unfold tail_live in *. simpl in *. lia.
Qed.
End TraceWs.

(** ** A run *)

Definition sample_tail : tail :=
  socket_message 7 "c1" (MsgStep (sample_step "a" "tool_call" 3))
    (socket_opened 0 (token_answered "ws://gw/" "c1" (TokGranted "jwt")
      (with_tokens [] (tail_mount (Some "c1") sample_store)))).

Lemma sample_tail_star : star (tail_step "ws://gw/") (tail_mount (Some "c1") sample_store) sample_tail.
Proof.
  unfold sample_tail.
  eapply star_snoc; [|apply (ts_message "ws://gw/" 7 0 "c1" (trace_url "ws://gw/" "c1" "jwt")); reflexivity].
  eapply star_snoc; [|apply ts_open; reflexivity].
  eapply star_snoc; [constructor|by apply (ts_token "ws://gw/" 0 "c1" (TokGranted "jwt"))].
Qed.

Lemma trace_tail_witness :
  is_Some (obj_get "c1" sample_store) ∧
  selectTraceSteps "c1" (tl_store sample_tail) = [sample_step "a" "tool_call" 3].
Proof.
  assert (H : is_Some (obj_get "c1" sample_store)) by (eexists; vm_compute; reflexivity).
  split; [exact H|].
  rewrite (proj1 (trace_tail "ws://gw/" (Some "c1") sample_store sample_tail sample_tail_star) "c1" H).
  vm_compute. reflexivity.
Defined.
