(* ===== verification/RateLimit.v ===== *)
(** * The sliding-window rate limiter of the public routes

    [app/api/demo/run/route.ts] and [app/api/waitlist/route.ts] guard their
    unauthenticated [POST] with the same function [rateLimited] over a module
    level map [hits] from caller to the times of its accepted calls; the key
    ["*"] counts all callers. The constants are the section's parameters. *)
From S2P Require Import Prelude.

(** [hits: Map<string, number[]>] *)
Notation hits_map := (gmap string (list Z)).

Definition MAX_KEYS : nat := 10000.

Section Limiter.
Variables (WINDOW_MS : Z) (PER_IP_LIMIT GLOBAL_LIMIT : nat).

(** [(hits.get(key) ?? []).filter((t) => now - t < WINDOW_MS)] *)
Definition recent (now : Z) (hits : hits_map) (key : string) : list Z :=
  filter (λ t, now - t < WINDOW_MS) (default [] (hits !! key)).

(** The answer and the map afterwards. *)
Definition rateLimited (now : Z) (ip : string) (hits : hits_map) : bool * hits_map :=
  let mine := recent now hits ip in
  let all := recent now hits "*" in
  if (PER_IP_LIMIT <=? length mine)%nat || (GLOBAL_LIMIT <=? length all)%nat then (true, hits)
  else
    let hits1 := <["*" := all ++ [now]]> (<[ip := mine ++ [now]]> hits) in
    (false, if (MAX_KEYS <? size hits1)%nat then ∅ else hits1).

(** A run of the process: the calls [(ip, time)] in order. The result is the
    map and the accepted calls. *)
Fixpoint serve (calls : list (string * Z)) (hits : hits_map) (accepted : list (string * Z)) :
    hits_map * list (string * Z) :=
  match calls with
  | [] => (hits, accepted)
  | (ip, t) :: calls' =>
      let '(limited, hits') := rateLimited t ip hits in
      serve calls' hits' (if limited then accepted else accepted ++ [(ip, t)])
  end.

(** [Date.now()] does not go back. *)
Fixpoint nondecreasing (last : Z) (calls : list (string * Z)) : Prop :=
  match calls with
  | [] => True
  | (_, t) :: calls' => last ≤ t ∧ nondecreasing t calls'
  end.

(** The accepted calls a key stands for, in the window of [WINDOW_MS]
    milliseconds that starts at [a]. *)
Definition charged (key : string) (c : string * Z) : Prop := key = "*" ∨ c.1 = key.
#[local] Instance charged_dec key c : Decision (charged key c).
Proof. unfold charged. apply _. Defined.

Definition in_win (a t : Z) : Prop := a ≤ t < a + WINDOW_MS.

Definition times (key : string) (l : list (string * Z)) : list Z := (filter (charged key) l).*2.

Definition count (key : string) (a : Z) (l : list (string * Z)) : nat :=
  length (filter (in_win a) (times key l)).

Definition limit_of (key : string) : nat :=
  if decide (key = "*") then GLOBAL_LIMIT else PER_IP_LIMIT.

(** ** Facts about counting *)

Lemma times_app key l1 l2 : times key (l1 ++ l2) = times key l1 ++ times key l2.
Proof. unfold times. by rewrite filter_app, fmap_app. Qed.

Lemma times_one key c : times key [c] = if decide (charged key c) then [c.2] else [].
Proof. unfold times. rewrite filter_cons. by case_decide. Qed.

Lemma times_elem key l t : t ∈ times key l → ∃ c, c ∈ l ∧ c.2 = t.
Proof. intros (c & -> & [_ Hc]%list_elem_of_filter)%list_elem_of_fmap. eauto. Qed.

Lemma count_app key a l1 l2 : count key a (l1 ++ l2) = (count key a l1 + count key a l2)%nat.
Proof. unfold count. by rewrite times_app, filter_app, length_app. Qed.

Lemma count_zero key a l : (∀ c, c ∈ l → c.2 < a) → count key a l = 0%nat.
Proof.
  intros H. unfold count. rewrite filter_nil; [done|].
  intros t (c & Hc & <-)%times_elem [Ha _]. specialize (H c Hc). lia.
Qed.

Lemma count_all a l : (∀ c, c ∈ l → in_win a c.2) → count "*" a l = length l.
Proof.
  intros H. unfold count. rewrite filter_id.
  - unfold times. rewrite filter_id by (by left). apply length_fmap.
  - intros t (c & Hc & <-)%times_elem. by apply H.
Qed.

(** Counting in the window that ends now is what [recent] looks at. *)
Lemma count_recent key now a l :
  in_win a now → (count key a l ≤ length (filter (λ t, (now - t < WINDOW_MS)%Z) (times key l)))%nat.
Proof. intros [Ha Hw]. apply filter_length_impl. intros t _ [H1 H2]. lia. Qed.

Lemma filter_later t t' (l : list Z) :
  t ≤ t' →
  filter (λ x, t' - x < WINDOW_MS) (filter (λ x, t - x < WINDOW_MS) l) = filter (λ x, t' - x < WINDOW_MS) l.
Proof. intros H. rewrite list_filter_filter. apply list_filter_iff. intros x. lia. Qed.

(** ** The invariant

    [old] are the calls accepted before the map was last cleared, [cur]
    those accepted since. *)
Record lim_inv (last : Z) (hits : hits_map) (old cur : list (string * Z)) : Prop := mkLimInv {
  li_hits key t : last ≤ t → recent t hits key = filter (λ x, t - x < WINDOW_MS) (times key cur);
  li_cur key a : (count key a cur ≤ limit_of key)%nat;
  li_old key a : (count key a old ≤ 2 * limit_of key)%nat;
  li_edge key a : (∀ c, c ∈ old → c.2 < a + WINDOW_MS) → (count key a old ≤ limit_of key)%nat;
  li_order c d : c ∈ old → d ∈ cur → c.2 ≤ d.2;
  li_last c : c ∈ old ++ cur → c.2 ≤ last;
  li_size : (size (delete "*" hits) ≤ length cur)%nat;
  li_epoch : old = [] ∨ (MAX_KEYS ≤ length old)%nat
}.

Lemma lim_inv_init t : lim_inv t ∅ [] [].
Proof.
  split; intros; cbn; try lia; try (by left); try done.
  all: match goal with E : _ ∈ _ |- _ => by apply elem_of_nil in E end.
Qed.

Lemma lim_inv_later t t' hits old cur : t ≤ t' → lim_inv t hits old cur → lim_inv t' hits old cur.
Proof.
  intros Ht [Hh Hc Ho He Hor Hl Hs Hep]. split; try done.
  - intros. apply Hh. lia.
  - intros c Hin. specialize (Hl c Hin). lia.
Qed.

(** No window holds more than twice the limit, across a clear. *)
Lemma lim_inv_total t hits old cur key a :
  lim_inv t hits old cur → (count key a (old ++ cur) ≤ 2 * limit_of key)%nat.
Proof.
  intros [_ Hc Ho He Hor _ _ _]. rewrite count_app.
  destruct (decide (Exists (λ c, in_win a c.2) cur)) as [Hex|Hno].
  - apply Exists_exists in Hex as (d & Hd & Hw).
    assert (count key a old ≤ limit_of key)%nat; [|specialize (Hc key a); lia].
    apply He. intros c Hin. specialize (Hor c d Hin Hd). destruct Hw. lia.
  - assert (count key a cur = 0%nat) as ->; [|specialize (Ho key a); lia].
    unfold count. rewrite filter_nil; [done|]. intros x (c & Hin & <-)%times_elem Hw.
    apply Hno, Exists_exists. eauto.
Qed.

Definition accept (now : Z) (ip : string) (hits : hits_map) : hits_map :=
  <["*" := recent now hits "*" ++ [now]]> (<[ip := recent now hits ip ++ [now]]> hits).

Lemma accept_recent now ip hits key t :
  now ≤ t →
  recent t (accept now ip hits) key =
  recent t hits key ++ filter (λ x, t - x < WINDOW_MS) (if decide (charged key (ip, now)) then [now] else []).
Proof.
  intros Ht. unfold recent at 1, accept.
  assert (Hf : ∀ k, filter (λ x, t - x < WINDOW_MS) (recent now hits k ++ [now]) =
    recent t hits k ++ filter (λ x, t - x < WINDOW_MS) [now]).
  { intros k. rewrite filter_app. f_equal. unfold recent. by apply filter_later. }
  destruct (decide (key = "*")) as [->|Hs].
  - rewrite lookup_insert_eq, decide_True by (by left). apply Hf.
  - rewrite lookup_insert_ne by done. destruct (decide (ip = key)) as [->|Hk].
    + rewrite lookup_insert_eq, decide_True by (by right). apply Hf.
    + rewrite lookup_insert_ne by done. rewrite decide_False by (unfold charged; naive_solver).
      by rewrite app_nil_r.
Qed.

Lemma accept_size now ip hits :
  (size (delete "*" (accept now ip hits)) ≤ S (size (delete "*" hits)))%nat.
Proof.
  unfold accept. rewrite delete_insert_eq. destruct (decide (ip = "*")) as [->|Hne].
  - rewrite delete_insert_eq. lia.
  - rewrite delete_insert_ne by done. rewrite map_size_insert. case_match; simpl; lia.
Qed.

Lemma size_star (hits : hits_map) : (size hits ≤ S (size (delete "*" hits)))%nat.
Proof. rewrite map_size_delete. case_match; simpl; lia. Qed.

Lemma lim_inv_accept now ip hits old cur :
  lim_inv now hits old cur →
  (length (recent now hits ip) < PER_IP_LIMIT)%nat → (length (recent now hits "*") < GLOBAL_LIMIT)%nat →
  lim_inv now (accept now ip hits) old (cur ++ [(ip, now)]).
Proof.
  intros [Hh Hc Ho He Hor Hl Hs Hep] Hip Hall. split; try done.
  - intros key t Ht. rewrite accept_recent, Hh, times_app, times_one, filter_app by done. done.
  - intros key a. rewrite count_app. specialize (Hc key a).
    unfold count at 2. rewrite times_one. case_decide as Hch; [|simpl; lia].
    destruct (decide (in_win a now)) as [Hw|Hw]; [|rewrite filter_cons_False by done; simpl; lia].
    rewrite filter_cons_True by done. simpl.
    pose proof (count_recent key now a cur Hw) as Hr. rewrite <- Hh in Hr by lia.
    unfold limit_of. destruct Hch as [->|Hk]; simpl in *.
    + rewrite ?decide_True by done. lia.
    + subst key. case_decide; [subst ip; lia|lia].
  - intros c d Hin [Hd|Hd]%elem_of_app; [by apply Hor|]. apply list_elem_of_singleton in Hd as ->.
    apply Hl. set_solver.
  - intros c. rewrite app_assoc, elem_of_app, list_elem_of_singleton. intros [Hin| ->]; [by apply Hl|done].
  - rewrite length_app. simpl. pose proof (accept_size now ip hits). lia.
Qed.

(** [if (hits.size > 10_000) hits.clear()] starts a new epoch, long after the
    window of the previous one. *)
Lemma lim_inv_clear now hits old cur :
  (GLOBAL_LIMIT < MAX_KEYS)%nat →
  lim_inv now hits old cur → (MAX_KEYS < size hits)%nat → lim_inv now ∅ (old ++ cur) [].
Proof.
  intros HG I Hsz. pose proof I as [Hh Hc Ho He Hor Hl Hs Hep].
  assert (Hlen : (MAX_KEYS ≤ length cur)%nat) by (pose proof (size_star hits); lia).
  pose proof (lim_inv_init now) as [Z1 Z2 _ _ Z5 _ Z7 _]. split; try done.
  - intros key a. by eapply lim_inv_total.
  - intros key a Hb. rewrite count_app.
    destruct (decide (Forall (λ d, a ≤ d.2) cur)) as [Hge|Hlt].
    + rewrite Forall_forall in Hge. specialize (Hc "*" a). rewrite count_all in Hc.
      * unfold limit_of in Hc. rewrite decide_True in Hc by done. lia.
      * intros c Hin. split; [by apply Hge|]. apply Hb. set_solver.
    + apply not_Forall_Exists in Hlt; [|apply _]. apply Exists_exists in Hlt as (d & Hd & Hlt).
      rewrite count_zero; [apply Hc|]. intros c Hin. specialize (Hor c d Hin Hd). simpl in Hlt; lia.
  - intros c d _ Hd. by apply elem_of_nil in Hd.
  - intros c. rewrite app_nil_r. apply Hl.
  - right. rewrite length_app. lia.
Qed.

Lemma rateLimited_accept now ip hits hits' :
  rateLimited now ip hits = (false, hits') →
  (length (recent now hits ip) < PER_IP_LIMIT)%nat ∧ (length (recent now hits "*") < GLOBAL_LIMIT)%nat ∧
  hits' = if (MAX_KEYS <? size (accept now ip hits))%nat then ∅ else accept now ip hits.
Proof.
  unfold rateLimited. destruct (_ || _) eqn:E; [done|]. intros [= <-].
  apply orb_false_iff in E as [?%Nat.leb_gt ?%Nat.leb_gt]. done.
Qed.

Fixpoint end_time (last : Z) (calls : list (string * Z)) : Z :=
  match calls with [] => last | (_, t) :: calls' => end_time t calls' end.

(** ** Epochs *)

(** The calls accepted in the epochs that a clear has ended, and since. *)
Record epochs := mkEpochs { ep_past : list (list (string * Z)); ep_cur : list (string * Z) }.

(** An accepted call is in the map, so an empty map has just been cleared. *)
Definition note (c : string * Z) (hits' : hits_map) (e : epochs) : epochs :=
  if bool_decide (hits' = ∅) then mkEpochs (ep_past e ++ [ep_cur e ++ [c]]) [] else mkEpochs (ep_past e) (ep_cur e ++ [c]).

Fixpoint serve_epochs (calls : list (string * Z)) (hits : hits_map) (e : epochs) : hits_map * epochs :=
  match calls with
  | [] => (hits, e)
  | (ip, t) :: calls' =>
      let '(limited, hits') := rateLimited t ip hits in
      serve_epochs calls' hits' (if limited then e else note (ip, t) hits' e)
  end.

Definition accepted (e : epochs) : list (string * Z) := concat (ep_past e) ++ ep_cur e.

Definition within_limits (l : list (string * Z)) : Prop := ∀ key a, (count key a l ≤ limit_of key)%nat.

Record epochs_inv (last : Z) (hits : hits_map) (e : epochs) : Prop := {
  ei_lim : lim_inv last hits (concat (ep_past e)) (ep_cur e);
  ei_past l : l ∈ ep_past e → within_limits l ∧ (MAX_KEYS ≤ length l)%nat
}.

Lemma note_accepted c hits' e : accepted (note c hits' e) = accepted e ++ [c].
Proof.
  unfold accepted, note. case_bool_decide; cbn [ep_past ep_cur]; [|by rewrite app_assoc].
  rewrite concat_app. cbn. by rewrite !app_nil_r, app_assoc.
Qed.

Lemma accept_nonempty now ip hits : accept now ip hits ≠ ∅.
Proof. apply insert_non_empty. Qed.

Lemma epochs_step now ip hits hits' b e last :
  (GLOBAL_LIMIT < MAX_KEYS)%nat → last ≤ now → epochs_inv last hits e → rateLimited now ip hits = (b, hits') →
  epochs_inv now hits' (if b then e else note (ip, now) hits' e).
Proof.
  intros HG Hle [I%(lim_inv_later _ now) P] E; [|done]. destruct b.
  - assert (hits' = hits) as -> by (unfold rateLimited in E; destruct (_ || _); by simplify_eq). by split.
  - apply rateLimited_accept in E as (H1 & H2 & ->).
    pose proof (lim_inv_accept now ip hits _ _ I H1 H2) as I'. unfold note.
    destruct (_ <? _)%nat eqn:Hsz.
    + apply Nat.ltb_lt in Hsz. rewrite bool_decide_eq_true_2 by done. split; cbn [ep_past ep_cur].
      * rewrite concat_app. cbn. rewrite app_nil_r. by apply (lim_inv_clear now (accept now ip hits)).
      * intros l [?|Hl]%elem_of_app; [by apply P|]. apply list_elem_of_singleton in Hl as ->.
        split; [intros key a; apply (li_cur _ _ _ _ I')|]. pose proof (li_size _ _ _ _ I'). pose proof (size_star (accept now ip hits)). lia.
    + rewrite bool_decide_eq_false_2 by apply accept_nonempty. by split.
Qed.

Lemma serve_epochs_inv calls last hits e hits' e' :
  (GLOBAL_LIMIT < MAX_KEYS)%nat → nondecreasing last calls → epochs_inv last hits e →
  serve_epochs calls hits e = (hits', e') →
  epochs_inv (end_time last calls) hits' e' ∧ serve calls hits (accepted e) = (hits', accepted e').
Proof.
  intros HG. revert last hits e. induction calls as [|[ip t] calls IH]; simpl; intros last hits e.
  - by intros _ I [= <- <-].
  - intros [Ht Hn] I. destruct (rateLimited t ip hits) as [b h1] eqn:E. intros Es.
    destruct (IH t h1 _ Hn (epochs_step t ip hits h1 b e last HG Ht I E) Es) as [Ie Ea]. split; [exact Ie|].
    rewrite <- Ea. destruct b; [done|]. by rewrite note_accepted.
Qed.

(** What [recent] looks at are the calls of the window that ends now. *)
Lemma recent_count last hits e key t :
  epochs_inv last hits e → last ≤ t → length (recent t hits key) = count key (t - WINDOW_MS + 1) (ep_cur e).
Proof.
  intros [I _] Ht. rewrite (li_hits _ _ _ _ I) by done. unfold count.
  assert (Hx : ∀ x, x ∈ times key (ep_cur e) → t - x < WINDOW_MS ↔ in_win (t - WINDOW_MS + 1) x).
  { intros x (c & Hin & <-)%times_elem. pose proof (li_last _ _ _ _ I c ltac:(set_solver)). unfold in_win. lia. }
  apply Nat.le_antisymm; apply filter_length_impl; intros x Hin; by apply Hx.
Qed.

(** C22: the rate limiter of the unauthenticated routes, for calls at
    non-decreasing times and limits below the size at which the map is
    cleared. The accepted calls fall into epochs, which the clears end. (1)
    In every epoch, in every window of [WINDOW_MS] milliseconds, at most the
    limit of calls is accepted per caller and in total, so (2) a window that
    spans clears holds at most twice the limit. (3) Each epoch that was ended
    has [MAX_KEYS] calls or more. (4) The next call is refused exactly if its
    caller, or all callers together, have reached their limit in the current
    epoch within the last [WINDOW_MS] milliseconds. *)
Theorem rateLimited_window calls t0 hits e :
  (GLOBAL_LIMIT < MAX_KEYS)%nat → nondecreasing t0 calls → serve_epochs calls ∅ (mkEpochs [] []) = (hits, e) →
  serve calls ∅ [] = (hits, accepted e) ∧
  (∀ l, l ∈ ep_cur e :: ep_past e → ∀ key a, (count key a l ≤ limit_of key)%nat) ∧
  (∀ key a, (count key a (accepted e) ≤ 2 * limit_of key)%nat) ∧
  (∀ l, l ∈ ep_past e → (MAX_KEYS ≤ length l)%nat) ∧
  ∀ ip t, end_time t0 calls ≤ t →
    ((rateLimited t ip hits).1 = true ↔
      (PER_IP_LIMIT ≤ count ip (t - WINDOW_MS + 1) (ep_cur e))%nat ∨ (GLOBAL_LIMIT ≤ count "*" (t - WINDOW_MS + 1) (ep_cur e))%nat).
Proof.
  intros HG Hn E.
  assert (I0 : epochs_inv t0 ∅ (mkEpochs [] [])) by (split; [apply lim_inv_init|by intros ? ?%elem_of_nil]).
  destruct (serve_epochs_inv calls t0 ∅ _ hits e HG Hn I0 E) as [I Es]. pose proof I as [L P].
  split; [exact Es|]. split; [|split; [|split]].
  - intros l [->|Hl]%elem_of_cons; [apply (li_cur _ _ _ _ L)|]. by apply P.
  - intros key a. by eapply lim_inv_total.
  - intros l Hl. by apply P.
  - intros ip t Ht. rewrite <- !(recent_count _ hits e _ t I Ht). unfold rateLimited.
    destruct (_ || _) eqn:Hb; cbn; [|apply orb_false_iff in Hb as [?%Nat.leb_gt ?%Nat.leb_gt]; split; [done|lia]].
    apply orb_true_iff in Hb as [Hb%Nat.leb_le|Hb%Nat.leb_le]; tauto.
Qed.
End Limiter.

(** Six quick calls of one caller under the demo's limits: the sixth is refused. *)
Definition sample_calls : list (string * Z) :=
  [("a", 0); ("a", 10); ("b", 20); ("a", 30); ("a", 40); ("a", 50); ("a", 60)].

Definition sample_served : hits_map * epochs := serve_epochs 60000 5 60 sample_calls ∅ (mkEpochs [] []).

Lemma rateLimited_window_witness :
  ep_past sample_served.2 = [] ∧ length (accepted sample_served.2) = 6%nat ∧
  (∀ key a, (count 60000 key a (ep_cur sample_served.2) ≤ limit_of 5 60 key)%nat) ∧
  (rateLimited 60000 5 60 60 "a" sample_served.1).1 = true ∧ (5 ≤ count 60000 "a" (-59939) (ep_cur sample_served.2))%nat.
Proof.
  split; [vm_compute; reflexivity|]. split; [vm_compute; reflexivity|].
  assert (R : (rateLimited 60000 5 60 60 "a" sample_served.1).1 = true) by (vm_compute; reflexivity).
  assert (HG : (60 < MAX_KEYS)%nat) by (apply Nat.ltb_lt; vm_compute; reflexivity).
  assert (HN : nondecreasing 0 sample_calls) by (vm_compute; splits; done).
  assert (HE : serve_epochs 60000 5 60 sample_calls ∅ (mkEpochs [] []) = (sample_served.1, sample_served.2)) by (vm_compute; reflexivity).
  destruct (rateLimited_window 60000 5 60 sample_calls 0 sample_served.1 sample_served.2 HG HN HE) as (_ & H1 & _ & _ & H2).
  split; [apply (H1 (ep_cur sample_served.2)); left|]. split; [exact R|].
  assert (HT : end_time 0 sample_calls ≤ 60) by (vm_compute; discriminate).
  destruct (proj1 (H2 "a" 60 HT) R) as [H|H]; [exact H|]. exfalso. vm_compute in H. lia.
Defined.
