(* ===== verification/DemoRun.v ===== *)
(** * The public demo ([app/api/demo/run/route.ts], [app/api/demo/status/route.ts])

    [POST /api/demo/run] is unauthenticated: behind the rate limiter it runs
    one scenario through the collector and the orchestrator, fetches the
    signed envelope and the verification report, and reports success only if
    the log verified. *)
From S2P Require Import Prelude JsObject JsNum JsString JsValue JsDate Types Effects.
From Stdlib Require Import Ascii.
From S2P Require Import RateLimit Scenarios.

Open Scope eff_scope.

Definition WINDOW_MS : Z := 60000.
Definition PER_IP_LIMIT : nat := 5.
Definition GLOBAL_LIMIT : nat := 60.
Definition DEMO_TENANT : string := "demo".
Definition DEMO_SCENARIO : string := "geo_anomaly".

(** [req.headers.get("x-forwarded-for")?.split(",")[0]?.trim() || "unknown"] *)
Definition client_ip (forwarded_for : option string) : string :=
  match forwarded_for with
  | Some h => let ip := trim (before_char ","%char h) in if String.eqb ip EmptyString then "unknown" else ip
  | None => "unknown"
  end.

Definition friendlyFetchError (e : err) (service : string) : string :=
  let raw := err_string e in
  if includes "fetch failed" raw || includes "ECONNREFUSED" raw || includes "AbortError" raw
  then service +:+ " unreachable" else raw.

Definition demo_out (error : option string) (collector orchestrator : jsval) : jsobj jsval :=
  [("ok", JBool false)] ++
  match error with Some e => [("error", JStr e)] | None => [] end ++
  [("event_ids", JArr []); ("action_id", JStr EmptyString); ("verdict", JStr "unknown");
   ("execution_path", JStr "classifier"); ("tenant_id", JStr DEMO_TENANT);
   ("collector", collector); ("orchestrator", orchestrator)].

Definition not_ok : jsval := JObj [("ok", JBool false)].
Definition is_ok : jsval := JObj [("ok", JBool true)].
Definition failed_with (e : string) : jsval := JObj [("ok", JBool false); ("error", JStr e)].

Definition limited : jsobj jsval :=
  demo_out (Some "Demo is rate limited. Try again in a minute.") is_ok (failed_with "rate limited").

(** [results.slice(-5)] *)
Definition slice_last (n : nat) (v : jsval) : M jsval :=
  match v with
  | JArr l => ret (JArr (take_last n l))
  | JStr s => ret (JStr (slice_from (String.length s - n) s))
  | JUndef | JNull => throw (member_error "slice" v)
  | _ => throw (mkErr "TypeError" "slice is not a function")
  end.

Lemma silent_slice_last n v : silent (slice_last n v).
Proof. intros w l. by destruct v. Qed.

Section Demo.
Variable getHours : Z → Z.
Variables (COLLECTOR_URL ORCHESTRATOR_URL : string).

(** The requests the handler makes. *)
Definition ingest_request (trail : jsval) : request :=
  mkRequest "POST" (COLLECTOR_URL +:+ "/ingest")
    [("Content-Type", "application/json"); ("X-Tenant-Id", DEMO_TENANT)] (Some (json_normal trail)) (Some 8000).

Definition demo_triage_request (alert : jsval) : request :=
  with_timeout 12000 (post_json (ORCHESTRATOR_URL +:+ "/triage")
    (JObj [("tenant_id", JStr DEMO_TENANT); ("alert", alert)])).

Definition envelope_request (action_id : string) : request :=
  with_timeout 5000 (get_req (ORCHESTRATOR_URL +:+ "/v1/attestations/" +:+ action_id)).

Definition verify_request : request :=
  with_timeout 5000 (get_req (ORCHESTRATOR_URL +:+ "/v1/attestations/verify")).

Notation out := (jsobj jsval).
Definition out_get (k : string) (o : out) : jsval := prop k (JObj o).

(** The collector stage. *)
Definition demo_collector (s : Scenario) (params : jsval) (o : out) : M out :=
  try_catch
    (let! trail := sc_buildCloudTrail s params in
     let! r := fetch (ingest_request trail) in
     let! data := read_json r in
     let! bad := (if negb (ft_ok r) then ret true
                  else let! e := member "error" data in ret (truthy e)) in
     if bad : bool then
       let! e := member "error" data in
       throw (Error (to_string (nullish e (JStr ("HTTP " +:+ string_of_Z (ft_status r))))))
     else
       let! ids := member "event_ids" data in
       ret (obj_set "collector" is_ok (obj_set "event_ids" (nullish ids (JArr [])) o)))
    (λ e, ret (obj_set "collector" (failed_with (friendlyFetchError e "Collector")) o)).

(** The orchestrator stage: the object and whether the stage succeeded. *)
Definition demo_orchestrator (s : Scenario) (params : jsval) (o : out) : M (bool * out) :=
  try_catch
    (let! alert := sc_buildAlert s params in
     let! r := fetch (demo_triage_request alert) in
     if negb (ft_ok r) then throw (Error ("HTTP " +:+ string_of_Z (ft_status r)))
     else
       let! triage := read_json r in
       let! action := member "action_id" triage in
       let! verdict := member "verdict" triage in
       let! path := member "execution_path" triage in
       ret (true, obj_set "orchestrator" is_ok
                    (obj_set "execution_path" (nullish path (JStr "classifier"))
                      (obj_set "verdict" (nullish verdict (JStr "unknown"))
                        (obj_set "action_id" (nullish action (JStr EmptyString)) o)))))
    (λ e, ret (false, obj_set "error"
                  (JStr "Orchestrator is not reachable. The hosted demo needs the triage service up.")
                  (obj_set "orchestrator" (failed_with (friendlyFetchError e "Orchestrator")) o))).

(** [out.envelope] from the answer. *)
Definition read_envelope (r : fetched) (o : out) : M out :=
  if ft_ok r then
    let! env := read_json r in
    let! action := member "agent_action_id" env in
    ret (obj_set "envelope" (JObj [
      ("agent_action_id", nullish action (out_get "action_id" o));
      ("case_id", nullish (prop "case_id" env) (JStr EmptyString));
      ("tenant_id", nullish (prop "tenant_id" env) (JStr DEMO_TENANT));
      ("verdict", nullish (prop "verdict" env) (out_get "verdict" o));
      ("execution_path", nullish (prop "execution_path" env) (out_get "execution_path" o));
      ("prev_hash", nullish (prop "prev_hash" env) (JStr EmptyString));
      ("signature", nullish (prop "signature" env) (JStr EmptyString));
      ("signed_at", nullish (prop "signed_at" env) (JStr EmptyString))]) o)
  else ret o.

(** [out.verify] from the answer. *)
Definition read_verify (r : fetched) (o : out) : M out :=
  if ft_ok r then
    let! report := read_json r in
    let! results := member "results" report in
    let! last := slice_last 5 results in
    ret (obj_set "verify" (JObj (obj_set "results" last (spread report))) o)
  else ret o.

Definition verify_failed (e : err) (o : out) : out :=
  obj_set "error" (JStr ("Signed, but verify API failed: " +:+ err_string e)) o.

(** The attestation stage; what was assigned before an exception stays. *)
Definition demo_attestation (o : out) : M out :=
  if truthy (out_get "action_id" o) then
    let! rs := attempt (both_fetch (envelope_request (to_string (out_get "action_id" o))) verify_request) in
    match rs with
    | Throw e => ret (verify_failed e o)
    | Ok (envRes, verifyRes) =>
        let! r1 := attempt (read_envelope envRes o) in
        match r1 with
        | Throw e => ret (verify_failed e o)
        | Ok o1 =>
            let! r2 := attempt (read_verify verifyRes o1) in
            match r2 with
            | Throw e => ret (verify_failed e o1)
            | Ok o2 => ret o2
            end
        end
    end
  else ret o.

(** [out.ok] and the final error message. *)
Definition demo_finish (o : out) : out :=
  let ok := truthy (prop "ok" (out_get "orchestrator" o)) && truthy (out_get "envelope" o) &&
            truthy (prop "ok" (out_get "verify" o)) in
  let o1 := obj_set "ok" (JBool ok) o in
  if negb ok && negb (truthy (out_get "error" o1)) then
    obj_set "error" (JStr (if truthy (out_get "verify" o1)
                           then "Envelope signed, but the log did not verify."
                           else "Envelope signed, but the verify API is not available on this orchestrator.")) o1
  else o1.

Definition scenario_of (body : option jsval) : jsval :=
  match body with
  | Some b => if truthy (prop "scenario_id" b) then prop "scenario_id" b else JStr DEMO_SCENARIO
  | None => JStr DEMO_SCENARIO
  end.

(** The handler after the rate limiter. *)
Definition demo_run (body : option jsval) : M response :=
  let id := scenario_of body in
  match getScenario getHours id with
  | None => ret (RJson 400 (JObj (demo_out (Some ("Unknown scenario: " +:+ to_string id)) not_ok not_ok)))
  | Some s =>
      let params := sc_defaultParams s in
      let! o1 := demo_collector s params (demo_out None not_ok not_ok) in
      let! r2 := demo_orchestrator s params o1 in
      if r2.1 : bool then
        let! o3 := demo_attestation r2.2 in
        ret (json_ok (JObj (demo_finish o3)))
      else ret (RJson 503 (JObj r2.2))
  end.

(** [POST]: the rate limiter runs before the first await. *)
Definition demo_post (forwarded_for : option string) (body : option jsval) (hits : gmap string (list Z)) :
    M (response * gmap string (list Z)) :=
  let! t := now in
  let '(over, hits') := rateLimited WINDOW_MS PER_IP_LIMIT GLOBAL_LIMIT t (client_ip forwarded_for) hits in
  if over : bool then ret (RJson 429 (JObj limited), hits')
  else let! r := demo_run body in ret (r, hits').

(** ** [GET /api/demo/status] *)
Definition up (url : string) : M bool :=
  try_catch (let! r := fetch (with_timeout 1500 (get_req url)) in ret (ft_ok r)) (λ _, ret false).

Definition demo_status : M response :=
  let! collector := up (COLLECTOR_URL +:+ "/healthz") in
  let! orchestrator := up (ORCHESTRATOR_URL +:+ "/healthz") in
  ret (json_ok (JObj [("live", JBool (collector && orchestrator));
                      ("collector", JBool collector); ("orchestrator", JBool orchestrator)])).

(** ** What the stages guarantee *)

(** Evidence that a triage was answered with [triage]. *)
Definition triaged (w : env) (l : list effect) (triage : jsval) : Prop :=
  ∃ alert r, answered w l (demo_triage_request alert) (Ok r) ∧ ft_ok r = true ∧ ft_json r = Some triage.

(** Evidence that the envelope was served and the log verified. *)
Definition attested (w : env) (l : list effect) (action : string) : Prop :=
  ∃ re rv report,
    answered w l (envelope_request action) (Ok re) ∧ ft_ok re = true ∧ is_Some (ft_json re) ∧
    answered w l verify_request (Ok rv) ∧ ft_ok rv = true ∧ ft_json rv = Some report ∧
    truthy (prop "ok" report) = true.

(** What the answer's envelope says where the orchestrator's has no value. *)
Definition envelope_default (o : out) (k : string) : jsval :=
  if String.eqb k "agent_action_id" then out_get "action_id" o
  else if String.eqb k "tenant_id" then JStr DEMO_TENANT
  else if String.eqb k "verdict" then out_get "verdict" o
  else if String.eqb k "execution_path" then out_get "execution_path" o
  else JStr EmptyString.

Definition envelope_keys : list string :=
  ["agent_action_id"; "case_id"; "tenant_id"; "verdict"; "execution_path"; "prev_hash"; "signature"; "signed_at"].

(** The envelope in [o] was read from [env]. *)
Definition envelope_of (env : jsval) (o : out) : Prop :=
  (∃ fields, out_get "envelope" o = JObj fields) ∧
  ∀ k, k ∈ envelope_keys → prop k (out_get "envelope" o) = nullish (prop k env) (envelope_default o k).

Lemma envelope_default_same o o' :
  (∀ k, k ∈ ["action_id"; "verdict"; "execution_path"] → out_get k o' = out_get k o) →
  ∀ k, envelope_default o' k = envelope_default o k.
Proof. intros H k. unfold envelope_default. by rewrite !H by set_solver. Qed.

Lemma envelope_of_same env o o' :
  (∀ k, k ∈ ["envelope"; "action_id"; "verdict"; "execution_path"] → out_get k o' = out_get k o) →
  envelope_of env o → envelope_of env o'.
Proof.
  intros H [Hf He]. unfold envelope_of. rewrite H by set_solver. split; [done|]. intros k Hk.
  rewrite (envelope_default_same o o'); [by apply He|]. intros k' Hk'. apply H. set_solver.
Qed.

(** An envelope or a report in [o] was served in the run. *)
Definition out_sound (w : env) (l : list effect) (o : out) : Prop :=
  (truthy (out_get "envelope" o) = true →
     ∃ re env, answered w l (envelope_request (to_string (out_get "action_id" o))) (Ok re) ∧ ft_ok re = true ∧
               ft_json re = Some env ∧ envelope_of env o) ∧
  (truthy (out_get "verify" o) = true →
     ∃ rv report, answered w l verify_request (Ok rv) ∧ ft_ok rv = true ∧ ft_json rv = Some report ∧
                  (∃ fields, out_get "verify" o = JObj fields) ∧
                  ∀ k, k ≠ "results" → prop k (out_get "verify" o) = prop k report).

Lemma out_sound_blank w l o : out_get "envelope" o = JUndef → out_get "verify" o = JUndef → out_sound w l o.
Proof. intros E V. split; rewrite ?E, ?V; done. Qed.

Lemma out_sound_same w l o o' :
  (∀ k, k ∈ ["envelope"; "verify"; "action_id"; "verdict"; "execution_path"] → out_get k o' = out_get k o) →
  out_sound w l o → out_sound w l o'.
Proof.
  intros H [He Hv]. unfold out_sound. rewrite !H by set_solver. split; [|done].
  intros Ht. destruct (He Ht) as (re & env & ? & ? & ? & Henv). exists re, env. split_and!; try done.
  eapply envelope_of_same; [|exact Henv]. intros k Hk. apply H. set_solver.
Qed.

Lemma truthy_prop_ok v : truthy (prop "ok" v) = true → truthy v = true.
Proof. by destruct v. Qed.

Lemma demo_collector_ok s params o w l :
  wp (demo_collector s params o)
    (λ r _, ∃ o', r = Ok o' ∧ ∀ k, k ≠ "collector" → k ≠ "event_ids" → out_get k o' = out_get k o) w l.
Proof.
  apply wp_catch. unfold wp at 1. destruct (bind _ _ w l) as [[o'|e] l'] eqn:E; simpl.
  - exists o'. split; [done|]. intros k H1 H2.
    revert E. unfold bind, fetch, read_json, member, throw, ret. repeat case_match; intros; simplify_eq.
    all: unfold out_get; rewrite ?prop_set_ne by done; done.
  - apply wp_ret. eexists. split; [done|]. intros k H1 H2. unfold out_get. by rewrite prop_set_ne.
Qed.

Lemma demo_orchestrator_ok s params o w l :
  wp (demo_orchestrator s params o)
    (λ r l', ∃ b o', r = Ok (b, o') ∧
       (∀ k, k ∈ ["envelope"; "verify"; "ok"] → out_get k o' = out_get k o) ∧
       (b = true → ∃ triage, triaged w l' triage ∧
          out_get "action_id" o' = nullish (prop "action_id" triage) (JStr EmptyString))) w l.
Proof.
  assert (Hk : ∀ k, k ∈ ["envelope"; "verify"; "ok"] →
    k ≠ "orchestrator" ∧ k ≠ "execution_path" ∧ k ≠ "verdict" ∧ k ≠ "action_id" ∧ k ≠ "error")
    by set_solver.
  assert (failed : ∀ x y l', ∃ b o', Ok (false, obj_set "error" x (obj_set "orchestrator" y o)) = Ok (b, o') ∧
    (∀ k, k ∈ ["envelope"; "verify"; "ok"] → out_get k o' = out_get k o) ∧
    (b = true → ∃ triage, triaged w l' triage ∧
      out_get "action_id" o' = nullish (prop "action_id" triage) (JStr EmptyString))).
  { intros x y l'. eexists _, _. split; [done|]. split; [|done]. intros k (?&?&?&?&?)%Hk.
    unfold out_get. by rewrite !prop_set_ne by done. }
  apply wp_catch, wp_bind. unfold wp at 1.
  destruct (sc_buildAlert s params w l) as [[alert|e] l1]; simpl.
  2: by apply failed.
  apply wp_bind, wp_fetch. destruct (env_fetch w (length l1) _) as [r|e] eqn:Ef; simpl.
  2: by apply failed.
  assert (Ha : answered w (l1 ++ [EFetch (demo_triage_request alert)]) (demo_triage_request alert) (Ok r))
    by (rewrite <- Ef; apply answered_last).
  destruct (ft_ok r) eqn:Hok; simpl.
  2: by apply failed.
  apply wp_bind. unfold wp at 1, read_json. destruct (ft_json r) as [triage|] eqn:Ej; simpl.
  2: by apply failed.
  destruct (is_nullish triage) eqn:Hn; [unfold wp, bind, member; rewrite Hn; by apply failed|].
  rewrite !Scenarios.member_ok by done. unfold wp. simpl.
  eexists _, _. split; [done|]. split.
  - intros k (?&?&?&?&?)%Hk. unfold out_get. by rewrite !prop_set_ne by done.
  - intros _. exists triage. split; [exists alert, r; by split_and!|].
    unfold out_get. rewrite !prop_set_ne, prop_set_eq by done. done.
Qed.

Lemma read_envelope_ok r o w l :
  out_get "envelope" o = JUndef →
  wp (read_envelope r o)
    (λ x l', l' = l ∧ ∀ o', x = Ok o' →
       (∀ k, k ≠ "envelope" → out_get k o' = out_get k o) ∧
       (truthy (out_get "envelope" o') = true → ft_ok r = true ∧ ∃ env, ft_json r = Some env ∧ envelope_of env o')) w l.
Proof.
  intros He. unfold read_envelope. destruct (ft_ok r).
  - unfold wp, read_json, bind. destruct (ft_json r) as [env|]; simpl; [|done].
    unfold member. destruct (is_nullish env); simpl; [done|]. split; [done|]. intros o' [= <-].
    split; [intros k Hk; unfold out_get; by rewrite prop_set_ne|]. intros _. split; [done|]. exists env. split; [done|].
    split; [unfold out_get; rewrite prop_set_eq; by eexists|].
    intros k Hk. rewrite (envelope_default_same o) by (intros k' Hk'; unfold out_get; apply prop_set_ne; set_solver).
    unfold out_get at 1. rewrite prop_set_eq. unfold envelope_keys in Hk. rewrite !elem_of_cons, elem_of_nil in Hk.
    by destruct_or! Hk; subst k.
  - apply wp_ret. split; [done|]. intros o' [= <-]. rewrite He. done.
Qed.

Lemma read_verify_ok r o w l :
  out_get "verify" o = JUndef →
  wp (read_verify r o)
    (λ x l', l' = l ∧ ∀ o', x = Ok o' →
       (∀ k, k ≠ "verify" → out_get k o' = out_get k o) ∧
       (truthy (out_get "verify" o') = true →
          ft_ok r = true ∧ ∃ report, ft_json r = Some report ∧ (∃ fields, out_get "verify" o' = JObj fields) ∧
            ∀ k, k ≠ "results" → prop k (out_get "verify" o') = prop k report)) w l.
Proof.
  intros He. unfold read_verify. destruct (ft_ok r).
  - unfold wp, read_json, bind. destruct (ft_json r) as [report|]; simpl; [|done].
    unfold member. destruct report as [| | | | |arr|rep]; simpl; try done.
    pose proof (silent_slice_last 5 (default JUndef (obj_get "results" rep)) w l) as Hl.
    destruct (slice_last 5 _ w l) as [[last|e] l1] eqn:El; simpl in *; subst l1.
    + split; [done|]. intros o' [= <-]. split.
      * intros k Hk. unfold out_get. by rewrite prop_set_ne.
      * intros _. split; [done|]. exists (JObj rep). split; [done|]. unfold out_get. rewrite prop_set_eq.
        split; [by eexists|]. intros k Hk. by rewrite prop_set_ne.
    + done.
  - apply wp_ret. split; [done|]. intros o' [= <-]. rewrite He. done.
Qed.

(** What a finished object says when its envelope is there and the report is good. *)
Definition success (o : jsobj jsval) : bool :=
  truthy (out_get "envelope" o) && truthy (prop "ok" (out_get "verify" o)).

Lemma success_attested w l o :
  out_sound w l o → success o = true → attested w l (to_string (out_get "action_id" o)).
Proof.
  intros [He Hv] [H1 H2]%andb_true_iff. destruct (He H1) as (re & env & ? & ? & ? & _).
  destruct (Hv (truthy_prop_ok _ H2)) as (rv & report & ? & ? & ? & _ & Hk). rewrite Hk in H2 by done.
  exists re, rv, report. split_and!; done.
Qed.

Lemma verify_failed_get k e o : k ≠ "error" → out_get k (verify_failed e o) = out_get k o.
Proof. intros. unfold out_get, verify_failed. by rewrite prop_set_ne. Qed.

Lemma both_fetch_ok a b w l :
  wp (both_fetch a b)
    (λ r l', l' = l ++ [EFetch a; EFetch b] ∧
       ∀ x y, r = Ok (x, y) → answered w l' a (Ok x) ∧ answered w l' b (Ok y)) w l.
Proof.
  unfold wp, both_fetch. simpl. split; [done|].
  destruct (env_fetch w (length l) a) as [x|] eqn:Ex, (env_fetch w (S (length l)) b) as [y|] eqn:Ey;
    try done.
  intros ? ? [= <- <-]. split.
  - exists (length l). split; [|done]. by apply list_lookup_middle.
  - exists (S (length l)). split; [|done]. replace (S (length l)) with (length l + 1)%nat by lia.
    by rewrite lookup_app_r, Nat.add_comm, Nat.add_sub by lia.
Qed.

Lemma demo_attestation_ok o w l :
  out_get "envelope" o = JUndef → out_get "verify" o = JUndef →
  wp (demo_attestation o)
    (λ r l', ∃ o' k, r = Ok o' ∧ l' = l ++ k ∧ out_get "action_id" o' = out_get "action_id" o ∧ out_sound w l' o') w l.
Proof.
  intros He Hv. unfold demo_attestation. case_match.
  2: { apply wp_ret. exists o, []. rewrite app_nil_r. split_and!; try done. by apply out_sound_blank. }
  set (action := to_string _). apply wp_bind, wp_attempt. eapply wp_mono; [apply both_fetch_ok|].
  assert (Hbad : ∀ e o1 k, out_get "action_id" o1 = out_get "action_id" o → out_sound w (l ++ k) o1 →
    ∃ o' k', Ok (verify_failed e o1) = Ok o' ∧ l ++ k = l ++ k' ∧
      out_get "action_id" o' = out_get "action_id" o ∧ out_sound w (l ++ k) o').
  { intros e o1 k Ha Hs. exists (verify_failed e o1), k. split; [done|]. split; [done|].
    rewrite verify_failed_get by done. split; [done|]. eapply out_sound_same; [|exact Hs].
    intros k' Hk'. apply verify_failed_get. set_solver. }
  assert (Hnone : ∀ k, out_sound w k o) by (intros k; by apply out_sound_blank).
  cbv beta. intros [[re rv]|e] l' [-> Hrs]; [|by apply wp_ret, Hbad].
  destruct (Hrs re rv eq_refl) as [Are Arv]. clear Hrs.
  apply wp_bind, wp_attempt. eapply wp_mono; [by apply read_envelope_ok|]. cbv beta.
  intros [o1|e] l1 [-> Henv]; [|by apply wp_ret, Hbad].
  destruct (Henv o1 eq_refl) as [Hk1 Ht1].
  assert (S1 : out_sound w (l ++ [EFetch (envelope_request action); EFetch verify_request]) o1).
  { split; [|by rewrite Hk1, Hv]. intros Ht. destruct (Ht1 Ht) as [? (env & ? & ?)]. exists re, env.
    rewrite Hk1 by done. by split_and!. }
  apply wp_bind, wp_attempt. eapply wp_mono; [by apply read_verify_ok; rewrite Hk1|]. cbv beta.
  intros [o2|e] l2 [-> Hver]; [|by apply wp_ret, Hbad; [apply Hk1|]].
  destruct (Hver o2 eq_refl) as [Hk2 Ht2].
  apply wp_ret. eexists o2, _. split; [done|]. split; [done|]. split; [by rewrite Hk2, Hk1|]. split.
  - rewrite !Hk2 by done. intros Ht. destruct (proj1 S1 Ht) as (re' & env & ? & ? & ? & Henv2). exists re', env.
    split_and!; try done. eapply envelope_of_same; [|exact Henv2]. intros k Hk. apply Hk2. set_solver.
  - intros Ht. destruct (Ht2 Ht) as [? (report & ? & ?)]. by exists rv, report.
Qed.

Lemma demo_finish_get k o : k ≠ "ok" → k ≠ "error" → out_get k (demo_finish o) = out_get k o.
Proof. intros Hok He. unfold demo_finish, out_get. case_match; by rewrite !prop_set_ne. Qed.

Lemma demo_finish_ok o : is_true (truthy (out_get "ok" (demo_finish o))) → success o = true.
Proof.
  unfold demo_finish. set (ok := _ && _ && _). set (o1 := obj_set "ok" _ o).
  assert (Hok : out_get "ok" o1 = JBool ok) by (unfold out_get; apply prop_set_eq).
  assert (Hs : is_true ok → success o = true).
  { unfold ok, success. intros [[_ He]%andb_true_iff Hv]%andb_true_iff. by rewrite He, Hv. }
  case_match.
  - unfold out_get in *. rewrite !prop_set_ne by done. rewrite Hok. done.
  - rewrite Hok. done.
Qed.

(** What [demo_run] returns. *)
Definition demo_result (w : env) (r : res response) (l : list effect) : Prop :=
  ∃ st o, r = Ok (RJson st (JObj o)) ∧ st ∈ [200; 400; 503] ∧ out_sound w l o ∧
    (st = 200 → truthy (out_get "ok" o) = true →
      ∃ triage, triaged w l triage ∧ out_get "action_id" o = nullish (prop "action_id" triage) (JStr EmptyString) ∧
        attested w l (to_string (out_get "action_id" o))).

Lemma demo_run_ok body w l : wp (demo_run body) (demo_result w) w l.
Proof.
  unfold demo_run. destruct (getScenario _ _) as [s|].
  2: { apply wp_ret. do 2 eexists. split; [done|]. split; [set_solver|]. split; [by apply out_sound_blank|done]. }
  apply wp_bind. eapply wp_mono; [apply demo_collector_ok|]. cbv beta. intros r1 l1 (o1 & -> & Hk1).
  apply wp_bind. eapply wp_mono; [apply demo_orchestrator_ok|]. cbv beta. intros r2 l2 (b & o2 & -> & Hk2 & Ht).
  assert (He : out_get "envelope" o2 = JUndef ∧ out_get "verify" o2 = JUndef).
  { rewrite !Hk2 by set_solver. rewrite !Hk1 by done. by split. }
  destruct b; simpl.
  2: { apply wp_ret. do 2 eexists. split; [done|]. split; [set_solver|]. split; [apply out_sound_blank; apply He|done]. }
  destruct (Ht eq_refl) as (triage & Htr & Hact).
  apply wp_bind. eapply wp_mono; [apply demo_attestation_ok; apply He|]. cbv beta.
  intros r3 l3 (o3 & k & -> & -> & Ha3 & Hs3). apply wp_ret. do 2 eexists. split; [done|]. split; [set_solver|].
  assert (Ha : out_get "action_id" (demo_finish o3) = out_get "action_id" o3) by (by apply demo_finish_get).
  split; [eapply out_sound_same; [|exact Hs3]; intros k' Hk'; apply demo_finish_get; set_solver|].
  intros _ Hok. exists triage. rewrite Ha. split; [|split; [by rewrite Ha3|by apply success_attested, demo_finish_ok]].
  destruct Htr as (alert & r & Hr & ?). exists alert, r. split; [by apply answered_app|done].
Qed.

(** A call: over the limit it is refused and nothing is sent, else it is a run. *)
Lemma demo_post_run forwarded_for body hits w :
  ∃ r l, let limit := rateLimited WINDOW_MS PER_IP_LIMIT GLOBAL_LIMIT (env_now w 0) (client_ip forwarded_for) hits in
    run (demo_post forwarded_for body hits) w = (Ok (r, limit.2), l) ∧
    if limit.1 : bool then r = RJson 429 (JObj limited) ∧ fetches l = [] else demo_result w (Ok r) l.
Proof.
  unfold run, demo_post, bind at 1. simpl. destruct (rateLimited _ _ _ _ _ _) as [[] h1].
  - do 2 eexists. by repeat split.
  - unfold bind. pose proof (demo_run_ok body w [ENow]) as Hw. unfold wp in Hw.
    destruct (demo_run body w [ENow]) as [r l1]. cbn [fst snd] in Hw. destruct Hw as (st & o & -> & Hw).
    do 2 eexists. split; [done|]. by exists st, o.
Qed.

(** C14: the demo never claims a success it did not see. When
    [POST /api/demo/run] answers 200 with [ok: true], the orchestrator
    answered the triage request with an action id, served the envelope of
    that same action id, and reported [ok] for the verification of the
    attestation log, all in this very run and whatever the services did
    otherwise. *)
Theorem demo_success_attested forwarded_for body hits w hits' o l :
  run (demo_post forwarded_for body hits) w = (Ok (RJson 200 o, hits'), l) →
  truthy (prop "ok" o) = true →
  ∃ triage, triaged w l triage ∧ prop "action_id" o = nullish (prop "action_id" triage) (JStr EmptyString) ∧
    attested w l (to_string (prop "action_id" o)).
Proof.
  intros E Hok. destruct (demo_post_run forwarded_for body hits w) as (r & l' & E' & Hr). rewrite E in E'.
  destruct (rateLimited _ _ _ _ _ _) as [[] h1]; simpl in *; injection E' as <- _ <-.
  - by destruct Hr.
  - destruct Hr as (st & o' & [= <- ->] & _ & _ & H). by apply H.
Qed.

(** [POST /api/demo/run] always answers, with status 200, 400, 429 or
    503, and leaves the rate limiter in the state its one decision produced.
    A call over the limit is answered 429 and sends no request at all. *)
Theorem demo_post_answers forwarded_for body hits w :
  ∃ r l, let limit := rateLimited WINDOW_MS PER_IP_LIMIT GLOBAL_LIMIT (env_now w 0) (client_ip forwarded_for) hits in
    run (demo_post forwarded_for body hits) w = (Ok (r, limit.2), l) ∧
    response_status r ∈ [200; 400; 429; 503] ∧
    (limit.1 = true → response_status r = 429 ∧ fetches l = []) ∧
    (limit.1 = false → response_status r ≠ 429).
Proof.
  destruct (demo_post_run forwarded_for body hits w) as (r & l & E & Hr). exists r, l. split; [done|].
  destruct (rateLimited _ _ _ _ _ _) as [[] h1].
  - destruct Hr as [-> ->]. split_and!; [set_solver|done|done].
  - destruct Hr as (st & o & [= ->] & Hst & _). split_and!; [set_solver|done|]. intros _ E'. simpl in E'. set_solver.
Qed.
End Demo.

(** ** A successful run *)

Definition sample_service (i : nat) (r : request) : res fetched :=
  let json v := Ok (mkFetched 200 (Some v) EmptyString) in
  if ends_with "/ingest" (rq_url r) then json (JObj [("event_ids", JArr [JStr "e1"])])
  else if ends_with "/triage" (rq_url r) then json (JObj [("action_id", JStr "a1"); ("verdict", JStr "malicious")])
  else if ends_with "/verify" (rq_url r) then json (JObj [("ok", JBool true); ("results", JArr [])])
  else json (JObj [("signature", JStr "sig")]).

Definition sample_env : env := mkEnv sample_service (λ i, 1700000000000 + Z.of_nat i).

Definition sample_run := run (demo_post (λ _, 12) "http://c" "http://o" (Some "10.0.0.1, proxy") None ∅) sample_env.

Lemma demo_success_attested_witness :
  ∃ o hits l, sample_run = (Ok (RJson 200 o, hits), l) ∧ prop "ok" o = JBool true ∧
    prop "action_id" o = JStr "a1" ∧ attested "http://o" sample_env l "a1".
Proof.
  unfold sample_run. destruct (run _ sample_env) as [r l] eqn:E.
  assert (Hr : ∃ o hits, r = Ok (RJson 200 o, hits) ∧ prop "ok" o = JBool true ∧ prop "action_id" o = JStr "a1").
  { apply (f_equal fst) in E. simpl in E. subst r. vm_compute. eexists _, _. split_and!; reflexivity. }
  destruct Hr as (o & hits & -> & Hok & Ha). exists o, hits, l. split; [reflexivity|].
  destruct (demo_success_attested (λ _, 12) "http://c" "http://o" (Some "10.0.0.1, proxy") None ∅ sample_env hits o l E)
    as (triage & _ & _ & Hatt); [by rewrite Hok|].
  rewrite Ha in Hatt. split; [exact Hok|]. split; [exact Ha|exact Hatt].
Defined.
