(* ===== verification/ProxyRoutes.v ===== *)
(** * Routes that forward to one service

    The routes under [app/api] that hand a request to the control plane, the
    orchestrator, the load generator or Arroyo and pass the answer on:
    [load/*], [baselines/user/[name]], [events], [triage], [warm/query],
    [detections], [arroyo], [cases/[caseId]/override] and [healthz].
    The base URLs, read from the environment with a default, are
    parameters. *)
From S2P Require Import Prelude JsObject JsNum JsString JsValue Types Effects.

Open Scope eff_scope.

Definition error_body (m : string) : jsval := JObj [("error", JStr m)].

Section Routes.
Variables (CP_URL ORCHESTRATOR_URL LOAD_GEN_URL ARROYO_URL : string).

(** [res.json().catch(() => ({}))] *)
Definition json_or_empty (r : fetched) : M jsval := or_else (read_json r) (JObj []).

(** [POST /api/load/start] *)
Definition load_start (body : option jsval) : M response :=
  let! b := or_else (read_body body) (JObj []) in
  try_catch
    (let! res := fetch (post_json (LOAD_GEN_URL +:+ "/run") b) in
     let! data := json_or_empty res in
     respond_json (ft_status res) data)
    (λ e, ret (RJson 502 (error_body (err_string e)))).

(** [GET /api/load/status] *)
Definition load_status : M response :=
  try_catch
    (let! res := fetch (get_req (LOAD_GEN_URL +:+ "/status")) in
     let! data := json_or_empty res in
     respond_json (ft_status res) data)
    (λ e, ret (RJson 502 (JObj [("error", JStr (err_string e)); ("running", JBool false)]))).

Definition stop_request : request := mkRequest "POST" (LOAD_GEN_URL +:+ "/stop") [] None None.

(** [POST /api/load/stop] *)
Definition load_stop : M response :=
  try_catch
    (let! res := fetch stop_request in
     let! data := json_or_empty res in
     respond_json (ft_status res) data)
    (λ e, ret (RJson 502 (error_body (err_string e)))).

(** [GET /api/baselines/user/[name]] *)
Definition user_baseline_request (name : string) : request :=
  get_req (CP_URL +:+ "/v1/baselines/user/" +:+ encode_uri_component name).

Definition user_baseline (name : string) : M response :=
  try_catch
    (let! res := fetch (user_baseline_request name) in
     let! data := read_json res in
     respond_json (ft_status res) data)
    (λ e, log "[api/baselines/user] upstream error:" ;;
          ret (RJson 503 (error_body "control-plane unavailable"))).

(** [GET /api/events]: [id] is the query parameter, absent or a string. *)
Definition events_request (id : option string) : request :=
  get_req (match id with
           | Some i => if String.eqb i EmptyString then CP_URL +:+ "/v1/events/recent"
                       else CP_URL +:+ "/v1/events/recent?id=" +:+ encode_uri_component i
           | None => CP_URL +:+ "/v1/events/recent"
           end).

Definition events (id : option string) : M response :=
  try_catch
    (let! res := fetch (events_request id) in
     let! data := read_json res in
     respond_json (ft_status res) data)
    (λ e, log "[api/events] upstream error:" ;;
          ret (RJson 503 (error_body "control-plane unavailable"))).

(** [POST /api/triage] *)
Definition triage (body : option jsval) : M response :=
  try_catch
    (let! b := read_body body in
     let! res := fetch (with_timeout 10000 (post_json (ORCHESTRATOR_URL +:+ "/triage") b)) in
     let! data := read_json res in
     respond_json (ft_status res) data)
    (λ e, ret (RJson 503 (error_body (err_string e)))).

(** [POST /api/warm/query] *)
Definition warm_query (body : option jsval) : M response :=
  match body with
  | None => ret (RJson 400 (error_body "invalid JSON body"))
  | Some b =>
      try_catch
        (let! res := fetch (post_json (CP_URL +:+ "/v1/warm/query") b) in
         let! data := read_json res in
         respond_json (ft_status res) data)
        (λ e, log "[api/warm/query] upstream error:" ;;
              ret (RJson 503 (error_body "control-plane unavailable")))
  end.

(** [GET /api/detections] *)
Definition detections : M response :=
  try_catch
    (let! res := fetch (get_req (CP_URL +:+ "/v1/detections/fired")) in
     if negb (ft_ok res) then
       respond_json (ft_status res) (error_body ("control-plane error: " +:+ string_of_Z (ft_status res)))
     else
       let! data := read_json res in
       ret (json_ok data))
    (λ e, ret (RJson 503 (error_body "control-plane unreachable"))).

(** [GET /api/healthz] *)
Definition healthz : M response :=
  let! t := now in ret (json_ok (JObj [("ok", JBool true); ("ts", JNum (of_Z t))])).

(** ** Arroyo pipelines *)

(** [for (const p of v)] *)
Definition iterate (v : jsval) : M (list jsval) :=
  match v with
  | JArr l => ret l
  | JStr s => ret (chars s)
  | _ => throw (mkErr "TypeError" "is not iterable")
  end.

(** [v.at(-1)] *)
Definition at_last (v : jsval) : M jsval :=
  match v with
  | JArr l => ret (default JUndef (last l))
  | JStr s => ret (default JUndef (last (chars s)))
  | _ => throw (mkErr "TypeError" "at is not a function")
  end.

Definition jobs_request (id : jsval) : request :=
  get_req (ARROYO_URL +:+ "/api/v1/pipelines/" +:+ to_string id +:+ "/jobs").

Definition pipeline_row (id name state : jsval) : jsval :=
  JObj [("id", id); ("name", name); ("state", state)].

(** The body of the loop: the row pushed for pipeline [p]. *)
Definition arroyo_row (p : jsval) : M jsval :=
  try_catch
    (let! id := member "id" p in
     let! jobsRes := fetch (jobs_request id) in
     let! jobs := (if ft_ok jobsRes then read_json jobsRes else ret (JObj [("data", JArr [])])) in
     let! data := member "data" jobs in
     let! latestJob := at_last (nullish data (JArr [])) in
     ret (pipeline_row (prop "id" p) (prop "name" p) (nullish (prop "state" latestJob) (JStr "Unknown"))))
    (λ _, let! id := member "id" p in ret (pipeline_row id (prop "name" p) (JStr "Unknown"))).

Fixpoint arroyo_rows (ps : list jsval) : M (list jsval) :=
  match ps with
  | [] => ret []
  | p :: ps' => let! r := arroyo_row p in let! rs := arroyo_rows ps' in ret (r :: rs)
  end.

Definition arroyo_down : response :=
  json_ok (JObj [("pipelines", JArr []); ("error", JStr "arroyo unreachable")]).

Definition pipelines_request : request := get_req (ARROYO_URL +:+ "/api/v1/pipelines").

Definition arroyo : M response :=
  try_catch
    (let! res := fetch pipelines_request in
     if negb (ft_ok res) then ret arroyo_down
     else
       let! body := read_json res in
       let! data := member "data" body in
       let! ps := iterate (nullish data (JArr [])) in
       let! rows := arroyo_rows ps in
       ret (json_ok (JObj [("pipelines", JArr rows)])))
    (λ _, ret arroyo_down).

(** ** Case overrides ([cases/[caseId]/override]) *)

(** What [auth.api.getSession] reports of a signed-in user. *)
Record session_user := mkUser { su_id : string; su_email : option string }.

Definition override_request (user : session_user) (caseId : string) (body : jsval) : request :=
  mkRequest "POST"
    (strip_trailing_slash ORCHESTRATOR_URL +:+ "/v1/cases/" +:+ encode_uri_component caseId +:+ "/override")
    [("Content-Type", "application/json"); ("X-Actor-Id", su_id user);
     ("X-Actor-Email", default EmptyString (su_email user))]
    (Some (json_normal body)) None.

(** [session] is the answer of the authentication library. *)
Definition override_post (session : res (option session_user)) (caseId : string) (body : option jsval) : M response :=
  let! s := lift session in
  match s with
  | None => ret (RJson 401 (error_body "unauthorized"))
  | Some user =>
      match body with
      | None => ret (RJson 400 (error_body "invalid JSON"))
      | Some b =>
          try_catch
            (let! res := fetch (override_request user caseId b) in
             let! data := or_else (read_json res) (error_body "invalid JSON from orchestrator") in
             respond_json (ft_status res) data)
            (λ _, ret (RJson 503 (error_body "orchestrator unavailable")))
      end
  end.
End Routes.

(** ** Pass-through

    [passes_through m rq fallback onerr]: the route performs exactly the
    request [rq] and answers with the upstream's status and JSON body
    ([fallback] for a body that is not JSON); every failure, of the network,
    of the body or of a status that cannot carry a body, becomes [onerr]. *)
Definition forward (a : res fetched) (fallback : option jsval) (onerr : err → response) : response :=
  match a with
  | Throw e => onerr e
  | Ok r =>
      match (match ft_json r with Some v => Some v | None => fallback end) with
      | Some v => if status_allowed (ft_status r) then RJson (ft_status r) v
                  else onerr (status_error (ft_status r))
      | None => onerr json_error
      end
  end.

Definition passes_through (m : M response) (rq : request) (fallback : option jsval)
    (onerr : err → response) : Prop :=
  ∀ w l, (m w l).1 = Ok (forward (env_fetch w (length l) rq) fallback onerr) ∧
         fetches (m w l).2 = fetches l ++ [rq].

Lemma fetches_fetch l rq : fetches (l ++ [EFetch rq]) = fetches l ++ [rq].
Proof. by rewrite fetches_app. Qed.

Lemma fetches_log l m : fetches (l ++ [ELog m]) = fetches l.
Proof. rewrite fetches_app. apply app_nil_r. Qed.

(** The shape of all these handlers. *)
Lemma passes_through_shape rq (read : fetched → M jsval) h fallback onerr :
  (∀ r, read r = match ft_json r with
                 | Some v => ret v
                 | None => match fallback with Some v => ret v | None => throw json_error end end) →
  (∀ e w l, (h e w l).1 = Ok (onerr e) ∧ fetches (h e w l).2 = fetches l) →
  passes_through
    (try_catch (let! r := fetch rq in let! data := read r in respond_json (ft_status r) data) h)
    rq fallback onerr.
Proof.
  intros Hread Hh w l.
  assert (Hbad : ∀ e, (h e w (l ++ [EFetch rq])).1 = Ok (onerr e) ∧
    fetches (h e w (l ++ [EFetch rq])).2 = fetches l ++ [rq])
    by (intros e; destruct (Hh e w (l ++ [EFetch rq])) as [-> ->]; by rewrite fetches_fetch).
  unfold try_catch, bind, fetch, forward.
  destruct (env_fetch w (length l) rq) as [r|e]; [|apply Hbad].
  rewrite Hread. unfold respond_json.
  destruct (ft_json r) as [v|]; [|destruct fallback as [v|]]; simpl; try apply Hbad.
  all: destruct (status_allowed _); simpl; try apply Hbad.
  all: split; [done|apply fetches_fetch].
Qed.

Lemma quiet_handler r : ∀ (e : err) w l, (ret (r e) w l).1 = Ok (r e : response) ∧ fetches (ret (r e) w l).2 = fetches l.
Proof. done. Qed.

Lemma logging_handler m r :
  ∀ (e : err) w l, ((log m ;; ret (r e))%eff w l).1 = Ok (r e : response) ∧
                   fetches ((log m ;; ret (r e))%eff w l).2 = fetches l.
Proof. intros. split; [done|]. apply fetches_log. Qed.

(** The forwarding routes are transparent. Each performs exactly one
    request, to its own upstream path and with the client's body, and
    answers with the upstream's status and JSON body; any failure, also a
    status that cannot carry a body, becomes the route's own 502 or 503
    answer, so none of them rejects. The load generator's routes replace a
    body that is not JSON by an empty object. *)
Theorem proxies_pass_through cp orch gen :
  (∀ b, passes_through (load_start gen (Some b)) (post_json (gen +:+ "/run") b) (Some (JObj []))
          (λ e, RJson 502 (error_body (err_string e)))) ∧
  passes_through (load_status gen) (get_req (gen +:+ "/status")) (Some (JObj []))
    (λ e, RJson 502 (JObj [("error", JStr (err_string e)); ("running", JBool false)])) ∧
  passes_through (load_stop gen) (stop_request gen) (Some (JObj []))
    (λ e, RJson 502 (error_body (err_string e))) ∧
  (∀ name, passes_through (user_baseline cp name) (user_baseline_request cp name) None
             (λ _, RJson 503 (error_body "control-plane unavailable"))) ∧
  (∀ id, passes_through (events cp id) (events_request cp id) None
           (λ _, RJson 503 (error_body "control-plane unavailable"))) ∧
  (∀ b, passes_through (triage orch (Some b)) (with_timeout 10000 (post_json (orch +:+ "/triage") b)) None
          (λ e, RJson 503 (error_body (err_string e)))) ∧
  (∀ b, passes_through (warm_query cp (Some b)) (post_json (cp +:+ "/v1/warm/query") b) None
          (λ _, RJson 503 (error_body "control-plane unavailable"))).
Proof.
  assert (Hempty : ∀ r, json_or_empty r = match ft_json r with Some v => ret v | None => ret (JObj []) end).
  { intros r. unfold json_or_empty, read_json. by destruct (ft_json r). }
  split_and!; intros.
  all: match goal with
       | |- passes_through (load_start _ (Some ?b)) _ _ _ => change (load_start gen (Some b)) with
           (try_catch (let! res := fetch (post_json (gen +:+ "/run") b) in
                       let! data := json_or_empty res in respond_json (ft_status res) data)
              (λ e, ret (RJson 502 (error_body (err_string e)))))
       | |- passes_through (triage _ (Some ?b)) _ _ _ => change (triage orch (Some b)) with
           (try_catch (let! res := fetch (with_timeout 10000 (post_json (orch +:+ "/triage") b)) in
                       let! data := read_json res in respond_json (ft_status res) data)
              (λ e, ret (RJson 503 (error_body (err_string e)))))
       | _ => idtac
       end.
  all: apply passes_through_shape; [first [exact Hempty | by intros r; unfold read_json; destruct (ft_json r)]|].
  all: first [exact (quiet_handler _) | exact (logging_handler _ _)].
Qed.

(** ** Overrides *)

(** The last path segment and the query values never leave their place. *)
Lemma encode_no_slash s : includes "/" (encode_uri_component s) = false.
Proof.
  destruct (includes "/" (encode_uri_component s)) eqn:E; [|done].
  apply includes_spec in E as (a & b & E). pose proof (encode_uri_component_safe s) as Hs.
  rewrite E in Hs. clear E. induction a as [|c a IH]; simpl in Hs; [done|].
  apply andb_true_iff in Hs as [_ Hs]. by apply IH.
Qed.

(** An override is only ever forwarded for a signed-in user. Without a
    session the answer is 401 and nothing is sent; with one, at most one
    request is sent, which carries the session's user id and email as actor,
    the client's body, and the case id as a single path segment. *)
Theorem override_authorised orch session caseId body w :
  let out := run (override_post orch session caseId body) w in
  (session = Ok None → out = (Ok (RJson 401 (error_body "unauthorized")), [])) ∧
  (∀ rq, rq ∈ fetches out.2 →
     ∃ u b, session = Ok (Some u) ∧ body = Some b ∧ fetches out.2 = [rq] ∧ rq_body rq = Some (json_normal b) ∧
       ("X-Actor-Id", su_id u) ∈ rq_headers rq ∧
       ("X-Actor-Email", default EmptyString (su_email u)) ∈ rq_headers rq ∧
       ∃ seg, includes "/" seg = false ∧
         rq_url rq = strip_trailing_slash orch +:+ "/v1/cases/" +:+ seg +:+ "/override").
Proof.
  split; [by intros ->|]. intros rq. unfold run, override_post, bind at 1, lift.
  destruct session as [[u|]|e]; simpl; [|by intros ?%elem_of_nil..].
  destruct body as [b|]; simpl; [|by intros ?%elem_of_nil].
  assert (Hone : fetches ((try_catch
    (let! res := fetch (override_request orch u caseId b) in
     let! data := or_else (read_json res) (error_body "invalid JSON from orchestrator") in
     respond_json (ft_status res) data)
    (λ _, ret (RJson 503 (error_body "orchestrator unavailable"))))%eff w []).2 = [override_request orch u caseId b]).
  { unfold try_catch, bind, fetch, or_else, read_json, respond_json. simpl.
    destruct (env_fetch w 0 _) as [r|]; [|done].
    by destruct (ft_json r); simpl; destruct (status_allowed _). }
  rewrite Hone. intros ->%list_elem_of_singleton. exists u, b. split_and!; try done; try set_solver.
  exists (encode_uri_component caseId). split; [apply encode_no_slash|done].
Qed.

Lemma override_authorised_witness :
  fetches (run (override_post "http://o/" (Ok (Some (mkUser "u1" None))) "../x" (Some JNull))
             (mkEnv (λ _ _, Throw json_error) (λ _, 0))).2 ≠ [] ∧
  run (override_post "http://o/" (Ok None) "../x" (Some JNull)) (mkEnv (λ _ _, Throw json_error) (λ _, 0))
  = (Ok (RJson 401 (error_body "unauthorized")), []).
Proof.
  split; [by vm_compute|].
  apply (override_authorised "http://o/" (Ok None) "../x" (Some JNull)). reflexivity.
Defined.

(** ** Arroyo *)

(** The row of pipeline [p]. *)
Definition row_of (p row : jsval) : Prop :=
  prop "id" row = prop "id" p ∧ prop "name" row = prop "name" p ∧ is_nullish (prop "state" row) = false.

Lemma arroyo_row_ok arr p w l :
  is_nullish p = false → ∃ row l', arroyo_row arr p w l = (Ok row, l') ∧ row_of p row.
Proof.
  intros Hp. unfold arroyo_row, try_catch.
  destruct (bind (member "id" p) _ w l) as [[row|e] l1] eqn:E.
  - exists row, l1. split; [done|].
    apply bind_inv in E as (id & l2 & Eid & E). apply bind_inv in E as (r & l3 & _ & E).
    apply bind_inv in E as (jobs & l4 & _ & E). apply bind_inv in E as (data & l5 & _ & E).
    apply bind_inv in E as (job & l6 & _ & E). injection E as <- _.
    unfold member in Eid. rewrite Hp in Eid. injection Eid as <- _.
    split; [done|]. split; [done|]. cbn.
    unfold nullish. by destruct (is_nullish (prop "state" job)) eqn:Hn.
  - unfold member. rewrite Hp. eexists _, _. split; [done|]. by split_and!.
Qed.

Lemma arroyo_rows_ok arr ps w l :
  Forall (λ p, is_nullish p = false) ps →
  ∃ rows l', arroyo_rows arr ps w l = (Ok rows, l') ∧ Forall2 row_of ps rows.
Proof.
  intros Hps. revert l. induction Hps as [|p ps Hp _ IH]; intros l; simpl; [by exists [], l|].
  destruct (arroyo_row_ok arr p w l Hp) as (row & l1 & E1 & Hr).
  destruct (IH l1) as (rows & l2 & E2 & Hrs). exists (row :: rows), l2.
  rewrite (bind_ok _ _ _ _ _ _ E1), (bind_ok _ _ _ _ _ _ E2). split; [done|]. by constructor.
Qed.

(** [GET /api/arroyo] always answers 200. When Arroyo lists its
    pipelines, the answer has exactly one row per pipeline, in order, with
    its id and name and a known state, however the job requests end: one
    failing pipeline never hides the others. *)
Theorem arroyo_answers arr w :
  (∃ body, (run (arroyo arr) w).1 = Ok (RJson 200 body)) ∧
  ∀ r o ps, env_fetch w 0 (pipelines_request arr) = Ok r → ft_ok r = true →
    ft_json r = Some (JObj o) → obj_get "data" o = Some (JArr ps) →
    Forall (λ p, is_nullish p = false) ps →
    ∃ rows, (run (arroyo arr) w).1 = Ok (RJson 200 (JObj [("pipelines", JArr rows)])) ∧
            Forall2 row_of ps rows.
Proof.
  split.
  - unfold run, arroyo, try_catch. destruct (bind _ _ w []) as [[resp|e] l'] eqn:E; [|by eexists].
    apply bind_inv in E as (r & l1 & _ & E). destruct (negb (ft_ok r)); [injection E as <- _; by eexists|].
    apply bind_inv in E as (body & l2 & _ & E). apply bind_inv in E as (data & l3 & _ & E).
    apply bind_inv in E as (ps & l4 & _ & E). apply bind_inv in E as (rows & l5 & _ & E).
    injection E as <- _. by eexists.
  - intros r o ps Ef Hok Ej Hd Hps. unfold run, arroyo, try_catch, bind at 1, fetch. simpl. rewrite Ef, Hok. simpl.
    unfold bind at 1, read_json. rewrite Ej. simpl. unfold bind at 1, ret at 1, member. simpl. rewrite Hd. simpl.
    unfold bind at 1, ret at 1.
    destruct (arroyo_rows_ok arr ps w [EFetch (pipelines_request arr)] Hps) as (rows & l' & E & Hrows).
    unfold bind. rewrite E. by exists rows.
Qed.

Definition sample_arroyo : env :=
  mkEnv (λ i rq, if String.eqb (rq_url rq) "http://a/api/v1/pipelines"
                 then Ok (mkFetched 200 (Some (JObj [("data", JArr [JObj [("id", JStr "p1")]; JObj [("id", JStr "p2")]])])) EmptyString)
                 else Throw json_error) (λ _, 0).

Lemma arroyo_answers_witness :
  ∃ rows, (run (arroyo "http://a") sample_arroyo).1 = Ok (RJson 200 (JObj [("pipelines", JArr rows)])) ∧
          Forall2 row_of [JObj [("id", JStr "p1")]; JObj [("id", JStr "p2")]] rows.
Proof.
  apply (proj2 (arroyo_answers "http://a" sample_arroyo)
    (mkFetched 200 (Some (JObj [("data", JArr [JObj [("id", JStr "p1")]; JObj [("id", JStr "p2")]])])) EmptyString)
    [("data", JArr [JObj [("id", JStr "p1")]; JObj [("id", JStr "p2")]])]
    [JObj [("id", JStr "p1")]; JObj [("id", JStr "p2")]]); try reflexivity.
  repeat (constructor; [reflexivity|]). constructor.
Defined.
