(* ===== verification/SimulateRoute.v ===== *)
(** * Simulation routes ([app/api/simulate/route.ts], [app/api/simulate/verify/route.ts])

    [POST /api/simulate] drives one scenario through the hot path and reports
    each stage; [GET /api/simulate/verify] probes the four slower stages for
    the event.  The verification route puts the event id into a SQL text, so
    its guard matters.  The four probes run concurrently in the code; each is
    independent of the others, so the model performs them one after the
    other in an environment that answers arbitrarily. *)
From Stdlib Require Import Ascii.
From S2P Require Import Prelude JsObject JsNum JsString JsValue Types Effects Scenarios.

Open Scope eff_scope.

Record StageResult := mkStage {
  st_ok : bool;
  st_latency_ms : Z;
  st_artifact : string;
  st_error : option string
}.

Definition stage_json (s : StageResult) : jsval :=
  JObj ([("ok", JBool (st_ok s)); ("latency_ms", JNum (of_Z (st_latency_ms s))); ("artifact", JStr (st_artifact s))]
        ++ match st_error s with Some e => [("error", JStr e)] | None => [] end).

(** [v.length] and [v[0]] *)
Definition length_val (v : jsval) : jsval :=
  match v with
  | JArr l => JNum (of_Z (Z.of_nat (length l)))
  | JStr s => JNum (of_Z (Z.of_nat (String.length s)))
  | _ => prop "length" v
  end.

Definition index0 (v : jsval) : jsval :=
  match v with
  | JArr l => default JUndef (head l)
  | JStr (String c _) => JStr (String c EmptyString)
  | _ => prop "0" v
  end.

Definition throw_http (r : fetched) : M unit :=
  if ft_ok r then ret tt else throw (Error ("HTTP " +:+ string_of_Z (ft_status r))).

(** ** [POST /api/simulate] *)
Section Simulate.
Variable getHours : Z → Z.
Variables (COLLECTOR_URL ORCHESTRATOR_URL : string).

Definition sim_ingest_request (trail : jsval) : request :=
  mkRequest "POST" (COLLECTOR_URL +:+ "/ingest")
    [("Content-Type", "application/json"); ("X-Tenant-Id", "default")] (Some (json_normal trail)) (Some 8000).

Definition sim_triage_request (alert : jsval) : request :=
  with_timeout 10000 (post_json (ORCHESTRATOR_URL +:+ "/triage") (JObj [("alert", alert)])).

(** [event_ids] is assigned before the artifact is built, and stays assigned
    if that fails. *)
Definition sim_collector_ids (s : Scenario) (params : jsval) : M jsval :=
  let! trail := sc_buildCloudTrail s params in
  let! r := fetch (sim_ingest_request trail) in
  let! data := read_json r in
  let! bad := (if negb (ft_ok r) then ret true
               else let! e := member "error" data in ret (truthy e)) in
  if bad : bool then
    let! e := member "error" data in
    throw (Error (to_string (nullish e (JStr ("HTTP " +:+ string_of_Z (ft_status r))))))
  else
    let! ids := member "event_ids" data in
    ret (nullish ids (JArr [])).

Definition sim_collector_artifact (t0 : Z) (ids : jsval) : M StageResult :=
  let! t := now in
  let! first := slice_val 8 (index0 ids) in
  ret (mkStage true (t - t0)
    ("Published " +:+ to_string (length_val ids) +:+ " OCSF event(s) to Kafka topic 'cloudtrail' (id " +:+
     to_string (nullish first (JStr "?")) +:+ "…)") None).

Definition sim_collector (s : Scenario) (params : jsval) : M (jsval * StageResult) :=
  let! t0 := now in
  let failure ids e :=
    let! t := now in ret (ids, mkStage false (t - t0) "Collector unreachable" (Some (err_string e))) in
  let! ids := attempt (sim_collector_ids s params) in
  match ids with
  | Throw e => failure (JArr []) e
  | Ok ids =>
      let! a := attempt (sim_collector_artifact t0 ids) in
      match a with Ok st => ret (ids, st) | Throw e => failure ids e end
  end.

(** [triageData], and the three stages reported from the one request. *)
Definition sim_triage_data (s : Scenario) (params : jsval) : M jsval :=
  let! alert := sc_buildAlert s params in
  let! r := fetch (sim_triage_request alert) in
  throw_http r ;;
  read_json r.

Definition sim_stages_ok (t0 : Z) (triage : jsval) : M (StageResult * StageResult * StageResult) :=
  let! ev := member "classifier_evidence" triage in
  let raw := nullish (prop "raw_prediction" ev) (JNum zero) in
  let calb := nullish (prop "calibrated_confidence" ev) (JNum zero) in
  let! t := now in
  let! action := slice_val 8 (prop "action_id" triage) in
  let! raw3 := to_fixed_val 3 raw in
  let! calb3 := to_fixed_val 3 calb in
  ret (mkStage true (t - t0)
         (to_string (prop "execution_path" triage) +:+ " path → verdict " +:+ to_string (prop "verdict" triage) +:+
          " (action " +:+ to_string action +:+ "…)") None,
       mkStage true 0 ("Isotonic regression: raw " +:+ raw3 +:+ " → calibrated " +:+ calb3) None,
       mkStage true 0 "Ed25519 envelope signed; appended to attestations.ndjson" None).

Definition sim_orchestrator (s : Scenario) (params : jsval) :
    M (jsval * (StageResult * StageResult * StageResult)) :=
  let! t0 := now in
  let failure data e :=
    let! t := now in
    let skipped := mkStage false 0 "Skipped (orchestrator failed)" None in
    ret (data, (mkStage false (t - t0) "Orchestrator unreachable" (Some (err_string e)), skipped, skipped)) in
  let! data := attempt (sim_triage_data s params) in
  match data with
  | Throw e => failure JNull e
  | Ok triage =>
      let! stages := attempt (sim_stages_ok t0 triage) in
      match stages with Ok st => ret (triage, st) | Throw e => failure triage e end
  end.

(** [SimulateResponse] *)
Definition sim_response (ids username : jsval) (collector : StageResult) (triage : jsval)
    (orchestrator calibration attestation : StageResult) (total : Z) : jsval :=
  JObj [
    ("event_ids", ids);
    ("username", username);
    ("action_id", nullish (prop "action_id" triage) (JStr EmptyString));
    ("collector", stage_json collector);
    ("orchestrator", stage_json orchestrator);
    ("calibration", stage_json calibration);
    ("attestation", stage_json attestation);
    ("verdict", nullish (prop "verdict" triage) (JStr "unknown"));
    ("execution_path", nullish (prop "execution_path" triage) (JStr "classifier"));
    ("calibrated_confidence", nullish (prop "calibrated_confidence" triage) (JNum zero));
    ("raw_prediction", nullish (prop "raw_prediction" (prop "classifier_evidence" triage)) (JNum zero));
    ("novelty_score", nullish (prop "novelty_score" triage) (JNum zero));
    ("escalated", nullish (prop "escalated" triage) (JBool false));
    ("classifier_evidence", prop "classifier_evidence" triage);
    ("total_latency_ms", JNum (of_Z total))].

Definition simulate (body : option jsval) : M response :=
  let! t0 := now in
  let! b := read_body body in
  let! scenario_id := member "scenario_id" b in
  let! params := member "params" b in
  match getScenario getHours scenario_id with
  | None => ret (RJson 400 (JObj [("error", JStr ("Unknown scenario: " +:+ to_string scenario_id))]))
  | Some s =>
      let! c := sim_collector s params in
      let! o := sim_orchestrator s params in
      let! username := member "username" params in
      let! t := now in
      ret (json_ok (sim_response c.1 username c.2 o.1 o.2.1.1 o.2.1.2 o.2.2 (t - t0)))
  end.
End Simulate.

(** ** [GET /api/simulate/verify] *)

(** [async timed(fn)] *)
Definition timed {A} (fn : M A) : M (option A * Z * option string) :=
  let! t0 := now in
  let! r := attempt fn in
  let! t := now in
  ret (match r with
       | Ok a => (Some a, t - t0, None)
       | Throw e => (None, t - t0, Some (err_string e))
       end).

(** [/^[A-Za-z0-9-]{1,64}$/] *)
Definition id_char (c : ascii) : bool := is_alnum c || Ascii.eqb c "-"%char.
Definition valid_event_id (s : string) : bool :=
  all_chars id_char s && (1 <=? String.length s)%nat && (String.length s <=? 64)%nat.

Section Verify.
Variables (CONTROL_PLANE_URL MCP_GATEWAY_URL : string).

Definition baseline_probe_request (username : string) : request :=
  with_timeout 3000 (get_req (CONTROL_PLANE_URL +:+ "/v1/baselines/user/" +:+ encode_uri_component username)).

Definition fired_request : request := with_timeout 3000 (get_req (CONTROL_PLANE_URL +:+ "/v1/detections/fired")).

Definition warm_sql (eventId : string) : string :=
  "SELECT event_id, time FROM cloudtrail WHERE event_id = '" +:+ eventId +:+ "' LIMIT 1".

Definition warm_request (eventId : string) : request :=
  with_timeout 3000 (post_json (CONTROL_PLANE_URL +:+ "/v1/warm/query") (JObj [("sql", JStr (warm_sql eventId))])).

Definition tools_request : request := with_timeout 2000 (get_req (MCP_GATEWAY_URL +:+ "/tools")).

Definition rw_probe (username : string) : M jsval :=
  let! r := fetch (baseline_probe_request username) in
  throw_http r ;; read_json r.

(** [all.find((d) => d.event_id === eventId)] *)
Fixpoint find_event (eventId : string) (all : list jsval) : M jsval :=
  match all with
  | [] => ret JUndef
  | d :: all' =>
      let! id := member "event_id" d in
      if is_str eventId id then ret d else find_event eventId all'
  end.

(** [{ match, total }] *)
Definition det_probe (eventId : string) : M (jsval * Z) :=
  let! r := fetch fired_request in
  throw_http r ;;
  let! all := read_json r in
  match all with
  | JArr l => let! m := find_event eventId l in ret (m, Z.of_nat (length l))
  | JUndef | JNull => throw (member_error "find" all)
  | _ => throw (mkErr "TypeError" "all.find is not a function")
  end.

Definition ice_probe (eventId : string) : M jsval :=
  let! r := fetch (warm_request eventId) in
  throw_http r ;;
  let! data := read_json r in
  let! rows := member "rows" data in
  ret (length_or 0 rows).

Definition mcp_probe : M jsval :=
  let! r := fetch tools_request in
  throw_http r ;;
  let! tools := read_json r in
  match tools with
  | JArr l => ret (length_val tools)
  | _ => let! t := member "tools" tools in ret (length_or 0 t)
  end.

Definition risingwave_stage (username : string) (r : option jsval * Z * option string) : StageResult :=
  let '(value, ms, error) := r in
  match value with
  | Some v =>
      if truthy v then
        mkStage true ms ("Materialized view 'user_baselines' has entry for " +:+ username +:+ " (" +:+
          to_string (length_or 0 (prop "regions_seen_30d" v)) +:+ " region(s) seen, " +:+
          to_string (nullish (prop "logins_24h" v) (JNum zero)) +:+ " logins/24h)") None
      else mkStage false ms ("No baseline yet for " +:+ username +:+ " — RisingWave still building MV from Kafka stream") error
  | None => mkStage false ms ("No baseline yet for " +:+ username +:+ " — RisingWave still building MV from Kafka stream") error
  end.

Definition detection_stage (r : option (jsval * Z) * Z * option string) : StageResult :=
  let '(value, ms, error) := r in
  let m := match value with Some (m, _) => m | None => JUndef end in
  if truthy m then
    mkStage true ms ("Detection '" +:+ to_string (prop "detection_id" m) +:+ "' fired at " +:+
      to_string (prop "fired_at" m) +:+ "; stored in ClickHouse") None
  else mkStage false ms ("Detection runtime hasn't fired for this event yet (" +:+
      string_of_Z (match value with Some (_, n) => n | None => 0 end) +:+ " other detections in queue)") error.

Definition iceberg_stage (r : option jsval * Z * option string) : StageResult :=
  let '(value, ms, error) := r in
  if (match value with Some n => num_ltb zero (to_number n) | None => false end) then
    mkStage true ms "Event found in warm parquet (s3://attest-warm/cloudtrail/) — Iceberg table queryable" None
  else mkStage false ms "Iceberg writer hasn't flushed yet (30 s batch interval); event still buffered" error.

Definition mcp_stage (actionId : string) (r : option jsval * Z * option string) : StageResult :=
  let '(value, ms, error) := r in
  match value with
  | Some count =>
      mkStage true ms ("MCP gateway up — " +:+ to_string count +:+ " tool(s) registered with policy engine; attestation " +:+
        slice 0 8 actionId +:+ "… queryable") None
  | None => mkStage false ms "MCP gateway unreachable" error
  end.

(** The query parameters are absent or strings. *)
Definition verify (event_id username action_id : option string) : M response :=
  let eventId := default EmptyString event_id in
  let user := default EmptyString username in
  let actionId := default EmptyString action_id in
  if negb (valid_event_id eventId) then ret (RJson 400 (JObj [("error", JStr "invalid event_id")]))
  else
    let! rw := timed (rw_probe user) in
    let! det := timed (det_probe eventId) in
    let! ice := timed (ice_probe eventId) in
    let! mcp := timed mcp_probe in
    ret (json_ok (JObj [
      ("risingwave", stage_json (risingwave_stage user rw));
      ("detection", stage_json (detection_stage det));
      ("iceberg", stage_json (iceberg_stage ice));
      ("mcp", stage_json (mcp_stage actionId mcp))])).
End Verify.

(** ** The verification route *)

Lemma silent_throw_http r : silent (throw_http r).
Proof. unfold throw_http. case_match; [apply silent_ret|apply silent_throw]. Qed.

Lemma silent_find_event id l : silent (find_event id l).
Proof.
  induction l as [|d l IH]; simpl; [apply silent_ret|].
  apply silent_bind; [apply silent_member|]. intros x. case_match; [apply silent_ret|exact IH].
Qed.

#[export] Hint Resolve silent_throw_http silent_find_event : attest.

Lemma no_throw_timed {A} (m : M A) : no_throw (timed m).
Proof. unfold timed. repeat (apply no_throw_bind; [auto with attest|intros ?]). apply no_throw_ret. Qed.

Lemma sends_timed {A} (m : M A) rqs : sends m rqs → sends (timed m) rqs.
Proof.
  intros Hm. unfold timed. rewrite <- (app_nil_l rqs).
  apply sends_bind; [auto with attest|apply sends_now|]. intros t0.
  rewrite <- (app_nil_r rqs). apply sends_bind; [auto with attest|by apply sends_attempt|]. intros r.
  apply (sends_bind _ _ [] []); [auto with attest|apply sends_now|]. intros t.
  apply sends_silent, silent_ret.
Qed.

Lemma rw_probe_sends cp u : sends (rw_probe cp u) [baseline_probe_request cp u].
Proof. apply sends_fetch_silent. auto with attest. Qed.

Lemma det_probe_sends cp id : sends (det_probe cp id) [fired_request cp].
Proof.
  apply sends_fetch_silent. intros r. repeat (apply silent_bind; [auto with attest|intros ?]).
  case_match; auto with attest.
Qed.

Lemma ice_probe_sends cp id : sends (ice_probe cp id) [warm_request cp id].
Proof.
  apply sends_fetch_silent. intros r. repeat (apply silent_bind; [auto with attest|intros ?]). auto with attest.
Qed.

Lemma mcp_probe_sends gw : sends (mcp_probe gw) [tools_request gw].
Proof.
  apply sends_fetch_silent. intros r. repeat (apply silent_bind; [auto with attest|intros ?]).
  case_match; auto with attest.
Qed.

Lemma valid_event_id_spec id :
  valid_event_id id = true →
  all_chars id_char id = true ∧ (1 ≤ String.length id ≤ 64)%nat ∧ includes "'" id = false.
Proof.
  unfold valid_event_id. intros [[Hc H1%Nat.leb_le]%andb_true_iff H2%Nat.leb_le]%andb_true_iff.
  split; [done|]. split; [lia|]. destruct (includes "'" id) eqn:E; [|done].
  apply includes_spec in E as (a & b & ->). clear H1 H2. exfalso.
  induction a as [|c a IH]; simpl in Hc; [done|]. apply andb_true_iff in Hc as [_ Hc]. by apply IH.
Qed.

(** C16: the verification route cannot be used to inject SQL. An event id
    that is not one to sixty-four letters, digits or hyphens is refused with
    400 before anything is sent. Otherwise the route answers 200 and sends
    exactly its four probes, and the only SQL text among them is the fixed
    query with that id, which contains no quote, between the quotes. *)
Theorem verify_no_injection cp gw event_id username action_id w :
  let out := run (verify cp gw event_id username action_id) w in
  let id := default EmptyString event_id in
  (valid_event_id id = false →
     out = (Ok (RJson 400 (JObj [("error", JStr "invalid event_id")])), [])) ∧
  (valid_event_id id = true →
     (∃ body, out.1 = Ok (RJson 200 body)) ∧
     fetches out.2 = [baseline_probe_request cp (default EmptyString username); fired_request cp;
                      warm_request cp id; tools_request gw] ∧
     all_chars id_char id = true ∧ (1 ≤ String.length id ≤ 64)%nat ∧ includes "'" id = false) ∧
  (∀ rq sql, rq ∈ fetches out.2 → rq_body rq = Some (JObj [("sql", JStr sql)]) → sql = warm_sql id).
Proof.
  intros out id.
  assert (Hbad : valid_event_id id = false →
    out = (Ok (RJson 400 (JObj [("error", JStr "invalid event_id")])), [])).
  { intros Hv. unfold out, run, verify. fold id. by rewrite Hv. }
  assert (Hok : valid_event_id id = true →
    (∃ body, out.1 = Ok (RJson 200 body)) ∧
    fetches out.2 = [baseline_probe_request cp (default EmptyString username); fired_request cp;
                     warm_request cp id; tools_request gw]).
  { intros Hv. unfold out, run, verify. fold id. rewrite Hv. simpl. split.
    - destruct (no_throw_timed (rw_probe cp (default EmptyString username)) w []) as (rw & l1 & E1).
      destruct (no_throw_timed (det_probe cp id) w l1) as (det & l2 & E2).
      destruct (no_throw_timed (ice_probe cp id) w l2) as (ice & l3 & E3).
      destruct (no_throw_timed (mcp_probe gw) w l3) as (mcp & l4 & E4).
      rewrite (bind_ok _ _ _ _ _ _ E1), (bind_ok _ _ _ _ _ _ E2), (bind_ok _ _ _ _ _ _ E3), (bind_ok _ _ _ _ _ _ E4).
      by eexists.
    - match goal with |- fetches (?m w []).2 = _ => enough (sends m
        ([baseline_probe_request cp (default EmptyString username)] ++ [fired_request cp] ++ [warm_request cp id] ++
         [tools_request gw] ++ [])) as Hs by apply Hs end.
      apply sends_bind; [apply no_throw_timed|apply sends_timed, rw_probe_sends|intros rw].
      apply sends_bind; [apply no_throw_timed|apply sends_timed, det_probe_sends|intros det].
      apply sends_bind; [apply no_throw_timed|apply sends_timed, ice_probe_sends|intros ice].
      apply sends_bind; [apply no_throw_timed|apply sends_timed, mcp_probe_sends|intros mcp].
      apply sends_silent, silent_ret. }
  split; [exact Hbad|]. split.
  - intros Hv. destruct (Hok Hv) as [? ?]. split; [done|]. split; [done|]. by apply valid_event_id_spec.
  - intros rq sql Hin Hb. destruct (valid_event_id id) eqn:Hv.
    + destruct (Hok eq_refl) as [_ Hf]. rewrite Hf in Hin.
      repeat (apply elem_of_cons in Hin as [->|Hin]; [simpl in Hb; simplify_eq; try done|]).
      by apply elem_of_nil in Hin.
    + rewrite (Hbad eq_refl) in Hin. by apply elem_of_nil in Hin.
Qed.

Lemma verify_no_injection_witness :
  run (verify "http://cp" "http://gw" (Some "x' OR '1'='1") None None) quiet_env =
    (Ok (RJson 400 (JObj [("error", JStr "invalid event_id")])), []) ∧
  fetches (run (verify "http://cp" "http://gw" (Some "evt-1") None None) quiet_env).2 =
    [baseline_probe_request "http://cp" EmptyString; fired_request "http://cp";
     warm_request "http://cp" "evt-1"; tools_request "http://gw"].
Proof.
  split.
  - apply (proj1 (verify_no_injection "http://cp" "http://gw" (Some "x' OR '1'='1") None None quiet_env)).
    reflexivity.
  - apply (proj1 (proj2 (verify_no_injection "http://cp" "http://gw" (Some "evt-1") None None quiet_env))).
    reflexivity.
Defined.

(** ** What a verified stage means *)

(** The service answered the request with a success and the JSON body [v]. *)
Definition served (w : env) (l : list effect) (rq : request) (v : jsval) : Prop :=
  ∃ r, answered w l rq (Ok r) ∧ ft_ok r = true ∧ ft_json r = Some v.

Lemma served_extends {A} (m : M A) w l a l' rq v : extends m → m w l = (a, l') → served w l rq v → served w l' rq v.
Proof. intros Hm E (r & Ha & ?). exists r. split; [by eapply extends_answered|done]. Qed.

(** [fetch], the status check and [json()], the common start of the probes. *)
Lemma probe_inv {A} rq (f : jsval → M A) w l a l' :
  (∀ v, silent (f v)) →
  (let! r := fetch rq in throw_http r ;; let! v := read_json r in f v)%eff w l = (Ok a, l') →
  ∃ v, served w l' rq v ∧ f v w l' = (Ok a, l').
Proof.
  intros Hf E. apply bind_inv in E as (r & l1 & Er & E). apply fetch_inv in Er as [_ Ha].
  apply bind_inv in E as ([] & l2 & Et & E). unfold throw_http in Et. destruct (ft_ok r) eqn:Hok; [|done].
  injection Et as <-. apply bind_inv in E as (v & l3 & Ev & E). unfold read_json in Ev.
  destruct (ft_json r) as [v'|] eqn:Hj; [|done]. injection Ev as <- <-.
  assert (l1 = l') as <- by (pose proof (Hf v' w l1) as Hs; rewrite E in Hs; by simpl in Hs).
  exists v'. split; [by exists r|done].
Qed.

Lemma timed_inv {A} (m : M A) w l a ms e l' :
  timed m w l = (Ok (Some a, ms, e), l') → ∃ l1, m w (l ++ [ENow]) = (Ok a, l1) ∧ l' = l1 ++ [ENow].
Proof.
  unfold timed. intros E. apply bind_inv in E as (t0 & l1 & E1 & E). injection E1 as _ <-.
  apply bind_inv in E as (r & l2 & E2 & E). unfold attempt in E2.
  destruct (m w (l ++ [ENow])) as [r' l3] eqn:Em. injection E2 as <- <-.
  apply bind_inv in E as (t & l4 & E4 & E). injection E4 as _ <-.
  destruct r'; unfold ret in E; simplify_eq; eauto.
Qed.

Lemma find_event_inv id all d w l l' :
  find_event id all w l = (Ok d, l') → truthy d = true → d ∈ all ∧ prop "event_id" d = JStr id.
Proof.
  induction all as [|x all IH]; simpl; [by intros [= <- _]|]. intros E Ht.
  apply bind_inv in E as (i & l1 & Ei & E). destruct (is_str id i) eqn:His.
  - injection E as <- _. split; [left|]. unfold member in Ei. destruct (is_nullish x); [done|].
    injection Ei as <- _. destruct (prop "event_id" x); try done. simpl in His. by apply String.eqb_eq in His as ->.
  - assert (l1 = l) as -> by (pose proof (silent_member "event_id" x w l) as Hs; rewrite Ei in Hs; by simpl in Hs).
    destruct (IH E Ht). split; [by right|done].
Qed.

Definition stage_ok (k : string) (body : jsval) : Prop := prop "ok" (prop k body) = JBool true.

Definition seen_event (id : string) (all : list jsval) : Prop := ∃ d, d ∈ all ∧ prop "event_id" d = JStr id.

Lemma extends_timed {A} (m : M A) : extends m → extends (timed m).
Proof. intros Hm. unfold timed. eauto 10 with attest. Qed.

Lemma extends_sends_fetch {A} rq (f : fetched → M A) : (∀ r, silent (f r)) → extends (bind (fetch rq) f).
Proof. intros Hf. apply extends_bind; [apply extends_fetch|]. intros r. by apply extends_silent. Qed.

(** A probe that is timed and came back with a value. *)
Lemma timed_probe {A} rq (f : jsval → M A) w l a ms e l' :
  (∀ v, silent (f v)) →
  timed (let! r := fetch rq in throw_http r ;; let! v := read_json r in f v)%eff w l = (Ok (Some a, ms, e), l') →
  ∃ v l1, served w l' rq v ∧ f v w l1 = (Ok a, l1).
Proof.
  intros Hf E. apply timed_inv in E as (l1 & E & ->). apply probe_inv in E as (v & Hs & E); [|done].
  exists v, l1. split; [|done]. destruct Hs as (r & Ha & ?). exists r. split; [by apply answered_app|done].
Qed.

Lemma rw_probe_inv cp u w l v ms e l' :
  timed (rw_probe cp u) w l = (Ok (Some v, ms, e), l') → served w l' (baseline_probe_request cp u) v.
Proof.
  intros E. apply timed_inv in E as (l1 & E & ->).
  apply bind_inv in E as (r & l2 & Er & E). apply fetch_inv in Er as [_ Ha].
  apply bind_inv in E as ([] & l3 & Et & E). unfold throw_http in Et. destruct (ft_ok r) eqn:Hok; [|done].
  injection Et as <-. unfold read_json in E. destruct (ft_json r) as [v'|] eqn:Hj; [|done].
  injection E as <- <-. exists r. split; [by apply answered_app|done].
Qed.

(** A stage the verification route shows as passed was really observed in
    that run: the control plane served a truthy baseline for the user; it
    served a list of fired detections one of which has the event id; its
    warm-tier query for that id returned more than no rows; the gateway
    served its tools. *)
Theorem verify_stages_sound cp gw event_id username action_id w body l :
  run (verify cp gw event_id username action_id) w = (Ok (RJson 200 body), l) →
  let id := default EmptyString event_id in
  (stage_ok "risingwave" body →
     ∃ v, served w l (baseline_probe_request cp (default EmptyString username)) v ∧ truthy v = true) ∧
  (stage_ok "detection" body → ∃ all, served w l (fired_request cp) (JArr all) ∧ seen_event id all) ∧
  (stage_ok "iceberg" body →
     ∃ data, served w l (warm_request cp id) data ∧
             num_ltb zero (to_number (length_or 0 (prop "rows" data))) = true) ∧
  (stage_ok "mcp" body → ∃ tools, served w l (tools_request gw) tools).
Proof.
  intros E id. unfold run, verify in E. fold id in E.
  destruct (valid_event_id id); simpl in E; [|done].
  apply bind_inv in E as ([[rw rwms] rwe] & l1 & E1 & E).
  apply bind_inv in E as ([[det detms] dete] & l2 & E2 & E).
  apply bind_inv in E as ([[ice icems] icee] & l3 & E3 & E).
  apply bind_inv in E as ([[mcp mcpms] mcpe] & l4 & E4 & E). injection E as <- <-.
  assert (X2 : extends (timed (det_probe cp id))).
  { apply extends_timed, extends_sends_fetch. intros r. repeat (apply silent_bind; [auto with attest|intros ?]).
    case_match; auto with attest. }
  assert (X3 : extends (timed (ice_probe cp id))).
  { apply extends_timed, extends_sends_fetch. intros r. repeat (apply silent_bind; [auto with attest|intros ?]).
    auto with attest. }
  assert (X4 : extends (timed (mcp_probe gw))).
  { apply extends_timed, extends_sends_fetch. intros r. repeat (apply silent_bind; [auto with attest|intros ?]).
    case_match; auto with attest. }
  split; [|split; [|split]]; unfold stage_ok; cbn.
  - destruct rw as [v|]; [|done]. destruct (truthy v) eqn:Hv; [|done]. intros _. exists v. split; [|done].
    apply rw_probe_inv in E1. by eapply (served_extends _ _ _ _ _ _ _ X4 E4), (served_extends _ _ _ _ _ _ _ X3 E3),
      (served_extends _ _ _ _ _ _ _ X2 E2).
  - destruct det as [[m n]|]; [|done]. destruct (truthy m) eqn:Hm; [|done]. intros _.
    apply timed_probe in E2 as (v & l' & Hs & Ef); [|intros v; case_match; auto with attest].
    destruct v; try done. apply bind_inv in Ef as (d & l'' & Ed & Ef). injection Ef as E5 _ _. subst d.
    eexists. split; [by eapply (served_extends _ _ _ _ _ _ _ X4 E4), (served_extends _ _ _ _ _ _ _ X3 E3)|].
    exists m. by eapply find_event_inv.
  - destruct ice as [n|]; [|done]. destruct (num_ltb zero (to_number n)) eqn:Hn; [|done]. intros _.
    apply timed_probe in E3 as (v & l' & Hs & Ef); [|intros; auto with attest].
    exists v. split; [by eapply (served_extends _ _ _ _ _ _ _ X4 E4)|].
    apply bind_inv in Ef as (rows & l'' & Er & Ef). injection Ef as <- _. unfold member in Er.
    destruct (is_nullish v); [done|]. injection Er as <- _. exact Hn.
  - destruct mcp as [c|]; [|done]. intros _.
    apply timed_probe in E4 as (v & l' & Hs & Ef); [|intros v; case_match; auto with attest]. by exists v.
Qed.

Definition verify_env : env :=
  mkEnv (λ i rq, Ok (mkFetched 200 (Some (
    if ends_with "/fired" (rq_url rq) then JArr [JObj [("event_id", JStr "evt-1")]]
    else if ends_with "/query" (rq_url rq) then JObj [("rows", JArr [JNull])]
    else JObj [])) EmptyString)) (λ i, Z.of_nat i).

Lemma verify_stages_sound_witness :
  ∃ body l, run (verify "http://cp" "http://gw" (Some "evt-1") (Some "bob") None) verify_env = (Ok (RJson 200 body), l) ∧
    stage_ok "detection" body ∧ ∃ all, served verify_env l (fired_request "http://cp") (JArr all) ∧ seen_event "evt-1" all.
Proof.
  destruct (run (verify "http://cp" "http://gw" (Some "evt-1") (Some "bob") None) verify_env) as [r l] eqn:E.
  assert (Hr : ∃ body, r = Ok (RJson 200 body) ∧ stage_ok "detection" body).
  { apply (f_equal fst) in E. simpl in E. subst r. vm_compute. eexists. split; reflexivity. }
  destruct Hr as (body & -> & Hd). exists body, l. split; [reflexivity|]. split; [exact Hd|].
  exact (proj1 (proj2 (verify_stages_sound "http://cp" "http://gw" (Some "evt-1") (Some "bob") None verify_env body l E)) Hd).
Defined.

(** ** The simulation route *)

Section SimulateFacts.
Variable getHours : Z → Z.
Variables (COLLECTOR_URL ORCHESTRATOR_URL : string).
Implicit Types (s : Scenario) (w : env) (l : list effect).

Lemma attempt_inv {A} (m : M A) w l r l' : attempt m w l = (Ok r, l') → m w l = (r, l').
Proof. unfold attempt. destruct (m w l). by intros [= -> ->]. Qed.

Lemma sim_collector_ids_inv s params w l ids l' :
  sim_collector_ids COLLECTOR_URL s params w l = (Ok ids, l') →
  ∃ trail data, served w l' (sim_ingest_request COLLECTOR_URL trail) data ∧
    truthy (prop "error" data) = false ∧ ids = nullish (prop "event_ids" data) (JArr []).
Proof.
  unfold sim_collector_ids. intros E. apply bind_inv in E as (trail & l1 & _ & E).
  apply bind_inv in E as (r & l2 & Er & E). apply fetch_inv in Er as [_ Ha].
  apply bind_inv in E as (data & l3 & Ed & E). unfold read_json in Ed.
  destruct (ft_json r) as [d|] eqn:Hj; [|done]. injection Ed as <- <-.
  apply bind_inv in E as (bad & l4 & Eb & E). destruct bad.
  { apply bind_inv in E as (x & l5 & _ & E). done. }
  destruct (ft_ok r) eqn:Hok; simpl in Eb; [|done].
  apply bind_inv in Eb as (e & l5 & Ee & Eb). unfold member in Ee, E. destruct (is_nullish d); [done|].
  injection Ee as <- <-. injection Eb as Hb <-. injection E as <- <-.
  exists trail, d. split; [by exists r|]. split; [done|done].
Qed.

Lemma sim_collector_inv s params w l ids st l' :
  sim_collector COLLECTOR_URL s params w l = (Ok (ids, st), l') → st_ok st = true →
  ∃ trail data, served w l' (sim_ingest_request COLLECTOR_URL trail) data ∧
    truthy (prop "error" data) = false ∧ ids = nullish (prop "event_ids" data) (JArr []).
Proof.
  unfold sim_collector. intros E Hst. apply bind_inv in E as (t0 & l1 & _ & E).
  apply bind_inv in E as (r & l2 & Er & E). apply attempt_inv in Er. destruct r as [ids'|e].
  - apply bind_inv in E as (a & l3 & Ea & E). apply attempt_inv in Ea. destruct a as [st'|e].
    + injection E as <- <- <-. apply sim_collector_ids_inv in Er as (trail & data & Hs & ?).
      exists trail, data. split; [|done]. eapply (served_extends _ _ _ _ _ _ _ _ Ea Hs).
    + by injection E as _ <- _.
  - by injection E as _ <- _.
  Unshelve. unfold sim_collector_artifact. eauto 10 with attest.
Qed.

Lemma sim_triage_data_inv s params w l triage l' :
  sim_triage_data ORCHESTRATOR_URL s params w l = (Ok triage, l') →
  ∃ alert, served w l' (sim_triage_request ORCHESTRATOR_URL alert) triage.
Proof.
  unfold sim_triage_data. intros E. apply bind_inv in E as (alert & l1 & _ & E).
  apply bind_inv in E as (r & l2 & Er & E). apply fetch_inv in Er as [_ Ha].
  apply bind_inv in E as ([] & l3 & Et & E). unfold throw_http in Et. destruct (ft_ok r) eqn:Hok; [|done].
  injection Et as <-. unfold read_json in E. destruct (ft_json r) as [v'|] eqn:Hj; [|done].
  injection E as <- <-. exists alert, r. done.
Qed.

Lemma sim_stages_ok_inv t0 triage w l a b c l' :
  sim_stages_ok t0 triage w l = (Ok (a, b, c), l') → st_ok a = true ∧ st_ok b = true ∧ st_ok c = true.
Proof.
  unfold sim_stages_ok. intros E. do 5 (apply bind_inv in E as (? & ? & _ & E)). by injection E as <- <- <- _.
Qed.

(** What the orchestrator stages say. *)
Lemma sim_orchestrator_inv s params w l triage a b c l' :
  sim_orchestrator ORCHESTRATOR_URL s params w l = (Ok (triage, (a, b, c)), l') →
  st_ok b = st_ok a ∧ st_ok c = st_ok a ∧
  ((triage = JNull ∧ st_ok a = false) ∨
   ∃ alert, served w l' (sim_triage_request ORCHESTRATOR_URL alert) triage).
Proof.
  unfold sim_orchestrator. intros E. apply bind_inv in E as (t0 & l1 & _ & E).
  apply bind_inv in E as (r & l2 & Er & E). apply attempt_inv in Er. destruct r as [triage'|e].
  - apply sim_triage_data_inv in Er as (alert & r & Ha & Hr).
    apply bind_inv in E as (x & l3 & Ex & E). apply attempt_inv in Ex.
    assert (Hx : extends (sim_stages_ok t0 triage')) by (unfold sim_stages_ok; eauto 20 with attest).
    pose proof (extends_answered _ _ _ _ _ _ _ Hx Ex Ha) as Ha'. destruct x as [[[a' b'] c']|e].
    + apply sim_stages_ok_inv in Ex as (H1 & H2 & H3). injection E as <- <- <- <- <-.
      rewrite H1, H2, H3. split_and!; [done|done|]. right. by exists alert, r.
    + apply bind_inv in E as (t & l4 & Et & E). injection E as <- <- <- <- <-. split_and!; [done|done|]. right.
      exists alert, r. split; [|done]. by eapply extends_answered; [apply extends_now|exact Et|].
  - apply bind_inv in E as (t & l4 & Et & E). injection E as <- <- <- <- <-. split_and!; [done|done|]. by left.
Qed.

Lemma silent_sim_read r : silent (throw_http r ;; read_json r)%eff.
Proof. apply silent_bind; auto with attest. Qed.

Lemma sim_orchestrator_extends s params :
  s ∈ SCENARIOS getHours → extends (sim_orchestrator ORCHESTRATOR_URL s params).
Proof.
  intros Hs. pose proof (build_alert_extends getHours s params Hs) as Hb.
  assert (Hd : extends (sim_triage_data ORCHESTRATOR_URL s params)).
  { unfold sim_triage_data. apply extends_bind; [done|]. intros alert. apply extends_sends_fetch.
    intros r. apply silent_sim_read. }
  unfold sim_orchestrator. apply extends_bind; [apply extends_now|]. intros t0.
  apply extends_bind; [by apply extends_attempt|]. intros [triage|e]; [|eauto with attest].
  apply extends_bind; [apply extends_attempt; unfold sim_stages_ok; eauto 20 with attest|].
  intros [st|e]; eauto with attest.
Qed.

(** C21: what a simulation reports is what the services said. In a 200
    response the verdict, action id and execution path are the ones in the
    orchestrator's answer to this run's triage request (or the defaults when
    there was none); the calibration and attestation stages pass exactly
    when the orchestrator stage does, which needs such an answer; and a
    passed collector stage means the collector accepted this run's batch and
    the event ids are its. *)
Theorem simulate_provenance body w resp l :
  run (simulate getHours COLLECTOR_URL ORCHESTRATOR_URL body) w = (Ok (RJson 200 resp), l) →
  (∃ triage,
     (triage = JNull ∨ ∃ alert, served w l (sim_triage_request ORCHESTRATOR_URL alert) triage) ∧
     prop "verdict" resp = nullish (prop "verdict" triage) (JStr "unknown") ∧
     prop "action_id" resp = nullish (prop "action_id" triage) (JStr EmptyString) ∧
     prop "execution_path" resp = nullish (prop "execution_path" triage) (JStr "classifier") ∧
     (stage_ok "orchestrator" resp → ∃ alert, served w l (sim_triage_request ORCHESTRATOR_URL alert) triage)) ∧
  (stage_ok "calibration" resp ↔ stage_ok "orchestrator" resp) ∧
  (stage_ok "attestation" resp ↔ stage_ok "orchestrator" resp) ∧
  (stage_ok "collector" resp →
     ∃ trail data, served w l (sim_ingest_request COLLECTOR_URL trail) data ∧
       truthy (prop "error" data) = false ∧ prop "event_ids" resp = nullish (prop "event_ids" data) (JArr [])).
Proof.
  unfold run, simulate. intros E.
  apply bind_inv in E as (t0 & l1 & _ & E). apply bind_inv in E as (b & l2 & _ & E).
  apply bind_inv in E as (sid & l3 & _ & E). apply bind_inv in E as (params & l4 & _ & E).
  destruct (getScenario getHours sid) as [s|] eqn:Hs; [|done]. apply getScenario_spec in Hs as [Hs _].
  apply bind_inv in E as ([ids col] & l5 & Ec & E).
  apply bind_inv in E as ([triage [[a bb] c]] & l6 & Eo & E).
  apply bind_inv in E as (user & l7 & Eu & E).
  apply bind_inv in E as (t & l8 & Et & E). injection E as <- <-.
  pose proof (sim_orchestrator_inv _ _ _ _ _ _ _ _ _ Eo) as (Hb & Hc & Ht).
  assert (Xu : extends (member "username" params)) by auto with attest.
  assert (Hl : ∀ alert v, served w l6 (sim_triage_request ORCHESTRATOR_URL alert) v →
    served w l8 (sim_triage_request ORCHESTRATOR_URL alert) v).
  { intros alert v H. eapply (served_extends _ _ _ _ _ _ _ extends_now Et), (served_extends _ _ _ _ _ _ _ Xu Eu), H. }
  split; [|split; [|split]].
  - exists triage. split; [|split; [done|split; [done|split; [done|]]]].
    + destruct Ht as [[-> _]|[alert Ha]]; [by left|right]. exists alert. by apply Hl.
    + unfold stage_ok. simpl. intros [= Ho]. destruct Ht as [[_ ?]|[alert Ha]]; [congruence|].
      exists alert. by apply Hl.
  - unfold stage_ok. simpl. by rewrite Hb.
  - unfold stage_ok. simpl. by rewrite Hc.
  - unfold stage_ok. simpl. intros [= Ho].
    destruct (sim_collector_inv _ _ _ _ _ _ _ Ec Ho) as (trail & data & Hsv & Herr & ->).
    exists trail, data. split; [|by split].
    eapply (served_extends _ _ _ _ _ _ _ extends_now Et), (served_extends _ _ _ _ _ _ _ Xu Eu),
      (served_extends _ _ _ _ _ _ _ (sim_orchestrator_extends s params Hs) Eo), Hsv.
Qed.
End SimulateFacts.

Definition sim_env : env :=
  mkEnv (λ i rq, Ok (mkFetched 200 (Some (
    if ends_with "/ingest" (rq_url rq) then JObj [("event_ids", JArr [JStr "0123456789"])]
    else JObj [("verdict", JStr "malicious"); ("action_id", JStr "a1")])) EmptyString)) (λ i, Z.of_nat i).

Definition sim_body : jsval :=
  JObj [("scenario_id", JStr "geo_anomaly"); ("params", sc_defaultParams (geo_anomaly (λ _, 3)))].

Lemma simulate_provenance_witness :
  ∃ resp l, run (simulate (λ _, 3) "http://c" "http://o" (Some sim_body)) sim_env = (Ok (RJson 200 resp), l) ∧
    prop "verdict" resp = JStr "malicious" ∧ stage_ok "collector" resp ∧
    ∃ trail data, served sim_env l (sim_ingest_request "http://c" trail) data.
Proof.
  destruct (run (simulate (λ _, 3) "http://c" "http://o" (Some sim_body)) sim_env) as [r l] eqn:E.
  assert (Hr : ∃ resp, r = Ok (RJson 200 resp) ∧ prop "verdict" resp = JStr "malicious" ∧ stage_ok "collector" resp).
  { apply (f_equal fst) in E. simpl in E. subst r. vm_compute. eexists. split; [reflexivity|]. by split. }
  destruct Hr as (resp & -> & Hv & Hc). exists resp, l. split; [reflexivity|]. split; [exact Hv|]. split; [exact Hc|].
  destruct (proj2 (proj2 (proj2 (simulate_provenance (λ _, 3) "http://c" "http://o" (Some sim_body) sim_env resp l E))) Hc)
    as (trail & data & Hs & _). exists trail, data. exact Hs.
Defined.
