(* ===== verification/Auth.v ===== *)
(** * Sessions and access ([lib/auth.ts], [proxy.ts], [app/api/auth/*])

    The signing secret of the session library, the page guard, the forced
    logout, the development seed of an analyst and the tokens of the trace
    WebSocket. The session library, the JWT library and the user table are
    parameters. *)
From Stdlib Require Import Ascii.
From S2P Require Import Prelude JsObject JsNum JsString JsValue Types Effects ProxyRoutes.

Open Scope eff_scope.

(** ** The session secret ([resolveAuthSecret]) *)

Definition DEV_AUTH_SECRET : string := "local-dev-better-auth-secret-min-32-chars!!".

(** The environment variables read. *)
Record process_env := mkProcess {
  pe_node_env : option string;
  pe_next_phase : option string;
  pe_auth_secret : option string
}.

Definition opt_is (s : string) (o : option string) : bool :=
  match o with Some x => String.eqb x s | None => false end.

Definition productionRuntime (p : process_env) : bool :=
  opt_is "production" (pe_node_env p) && negb (opt_is "phase-production-build" (pe_next_phase p)).

Definition secret_error : err :=
  Error "BETTER_AUTH_SECRET must be set to a unique value of at least 32 characters in production".

Definition resolveAuthSecret (p : process_env) : res string :=
  let secret := pe_auth_secret p in
  if negb (productionRuntime p) then Ok (default DEV_AUTH_SECRET secret)
  else match secret with
       | Some s =>
           if String.eqb s EmptyString || String.eqb s DEV_AUTH_SECRET || (String.length s <? 32)%nat
           then Throw secret_error else Ok s
       | None => Throw secret_error
       end.

(** A production server never signs sessions with the public development
    secret nor with a short one: it refuses to start instead. Everywhere
    else a secret is always available, the configured one when there is one. *)
Theorem resolveAuthSecret_safe p :
  (productionRuntime p = true →
     match resolveAuthSecret p with
     | Ok s => pe_auth_secret p = Some s ∧ s ≠ DEV_AUTH_SECRET ∧ (32 ≤ String.length s)%nat
     | Throw e => e = secret_error
     end) ∧
  (productionRuntime p = false → resolveAuthSecret p = Ok (default DEV_AUTH_SECRET (pe_auth_secret p))).
Proof.
  unfold resolveAuthSecret. split; intros ->; simpl; [|done].
  destruct (pe_auth_secret p) as [s|]; [|done]. destruct (_ || _) eqn:E; [done|].
  apply orb_false_iff in E as [[_ E2]%orb_false_iff E3]. apply String.eqb_neq in E2.
  apply Nat.ltb_ge in E3. done.
Qed.

Lemma resolveAuthSecret_safe_witness :
  resolveAuthSecret (mkProcess (Some "production") None (Some DEV_AUTH_SECRET)) = Throw secret_error ∧
  resolveAuthSecret (mkProcess None None None) = Ok DEV_AUTH_SECRET.
Proof.
  split.
  - pose proof (proj1 (resolveAuthSecret_safe (mkProcess (Some "production") None (Some DEV_AUTH_SECRET))) eq_refl) as H.
    vm_compute. reflexivity.
  - apply (proj2 (resolveAuthSecret_safe (mkProcess None None None))). reflexivity.
Defined.

(** ** The page guard ([proxy.ts]) *)

Notation cookie_jar := (gmap string string).

(** [application/x-www-form-urlencoded] serialisation of a query value. *)
Fixpoint form_encode (s : string) : string :=
  match s with
  | EmptyString => EmptyString
  | String c s' =>
      if is_alnum c || Ascii.eqb c "*"%char || Ascii.eqb c "-"%char || Ascii.eqb c "."%char || Ascii.eqb c "_"%char
      then String c (form_encode s')
      else if Ascii.eqb c " "%char then String "+"%char (form_encode s')
      else String "%"%char (String (hex_digit (code c / 16)) (String (hex_digit (code c mod 16)) (form_encode s')))
  end.

Section Guard.
(** [getSessionCookie] of the session library: the session cookie of a request. *)
Variable getSessionCookie : cookie_jar → option string.

Definition proxy (origin pathname : string) (jar : cookie_jar) : response :=
  if negb (starts_with "/workbench" pathname) then RNext
  else match getSessionCookie jar with
       | Some token =>
           if String.eqb token EmptyString
           then RRedirect (origin +:+ "/login?callbackUrl=" +:+ form_encode pathname) else RNext
       | None => RRedirect (origin +:+ "/login?callbackUrl=" +:+ form_encode pathname)
       end.

(** ** Forced logout *)

Definition SESSION_COOKIES : list string :=
  ["better-auth.session_token"; "__Secure-better-auth.session_token";
   "better-auth.session_data"; "__Secure-better-auth.session_data"].

Record set_cookie := mkCookie {
  ck_name : string;
  ck_value : string;
  ck_path : string;
  ck_max_age : Z;
  ck_secure : bool;
  ck_http_only : bool
}.

Definition clearSessionCookies : list set_cookie :=
  (λ name, mkCookie name EmptyString "/" 0 (starts_with "__Secure-" name) true) <$> SESSION_COOKIES.

Definition force_logout_get (origin : string) : response * list set_cookie :=
  (RRedirect (origin +:+ "/login"), clearSessionCookies).

Definition force_logout_post : response * list set_cookie :=
  (json_ok (JObj [("ok", JBool true)]), clearSessionCookies).

(** What a browser does with a [Set-Cookie] header: a [__Secure-] name needs
    the attribute, the attribute needs a secure origin, and a maximal age of
    zero removes the cookie. *)
Definition browser_set (https : bool) (jar : cookie_jar) (c : set_cookie) : cookie_jar :=
  if (ck_secure c && negb https) || (starts_with "__Secure-" (ck_name c) && negb (ck_secure c)) then jar
  else if ck_max_age c <=? 0 then delete (ck_name c) jar
  else <[ck_name c := ck_value c]> jar.

Definition browser_apply (https : bool) (jar : cookie_jar) (cs : list set_cookie) : cookie_jar :=
  foldl (browser_set https) jar cs.

(** A cookie jar of an insecure origin holds no [__Secure-] cookies. *)
Definition jar_ok (https : bool) (jar : cookie_jar) : Prop :=
  https = true ∨ ∀ name, starts_with "__Secure-" name = true → jar !! name = None.

Lemma browser_apply_cleared https jar name :
  jar_ok https jar → name ∈ SESSION_COOKIES → browser_apply https jar clearSessionCookies !! name = None.
Proof.
  intros Hj Hn. unfold browser_apply, clearSessionCookies, SESSION_COOKIES. cbn [fmap list_fmap foldl].
  unfold browser_set. cbn -[starts_with lookup delete].
  destruct Hj as [->|Hj]; simpl.
  - unfold SESSION_COOKIES in Hn. rewrite !lookup_delete_None.
    repeat (apply elem_of_cons in Hn as [->|Hn]; [tauto|]). by apply elem_of_nil in Hn.
  - destruct https; simpl; rewrite !lookup_delete_None; unfold SESSION_COOKIES in Hn;
      repeat (apply elem_of_cons in Hn as [->|Hn]; [(tauto || (right; right; by apply Hj))|]);
      by apply elem_of_nil in Hn.
Qed.

(** After a forced logout the workbench is closed. If the session library
    finds no session in a jar without its cookies, then once the browser has
    processed the logout answer, over https or http, every workbench page is
    redirected to the login page with its own path as the way back, and the
    paths outside the workbench are untouched. *)
Theorem logout_closes_workbench https jar origin pathname :
  (∀ j, (∀ name, name ∈ SESSION_COOKIES → j !! name = None) → getSessionCookie j = None) →
  jar_ok https jar →
  let jar' := browser_apply https jar (force_logout_get origin).2 in
  proxy origin pathname jar' =
    if starts_with "/workbench" pathname
    then RRedirect (origin +:+ "/login?callbackUrl=" +:+ form_encode pathname) else RNext.
Proof.
  intros Hlib Hj jar'. unfold proxy. destruct (starts_with "/workbench" pathname); [|done]. simpl.
  rewrite Hlib; [done|]. intros name Hn. by apply browser_apply_cleared.
Qed.
End Guard.

(** A reader of the two session token cookies. *)
Definition sample_reader (jar : cookie_jar) : option string :=
  match jar !! "better-auth.session_token" with
  | Some t => Some t
  | None => jar !! "__Secure-better-auth.session_token"
  end.

Definition sample_jar : cookie_jar := {["better-auth.session_token" := "tok"]}.

Lemma logout_closes_workbench_witness :
  proxy sample_reader "http://h" "/workbench/queue" sample_jar = RNext ∧
  proxy sample_reader "http://h" "/workbench/queue"
    (browser_apply true sample_jar (force_logout_get "http://h").2) =
  RRedirect "http://h/login?callbackUrl=%2Fworkbench%2Fqueue".
Proof.
  split; [vm_compute; reflexivity|].
  apply (logout_closes_workbench sample_reader true sample_jar "http://h" "/workbench/queue").
  - intros j Hj. unfold sample_reader. rewrite !Hj; [reflexivity| |]; vm_compute; [right; left|left].
  - left. reflexivity.
Defined.

(** ** The development seed ([app/api/auth/seed-analyst/route.ts]) *)

Definition SEED_EMAIL : string := "analyst@attest.local".

Record seed_env := mkSeedEnv {
  se_node_env : option string;
  se_allow : option string;
  se_secret : option string
}.

(** What the route does: an answer of its own, or the answer of the session
    library's sign-up handler to this request. *)
Inductive seed_result := SeedAnswer (r : response) | SeedSignUp (r : request).

(** [existing]: whether the user table has the seed's email. *)
Definition seed_analyst (p : seed_env) (origin : string) (secret : option string) (existing : bool) : seed_result :=
  if opt_is "production" (se_node_env p) || negb (opt_is "1" (se_allow p)) then
    SeedAnswer (RJson 404 (error_body "not found"))
  else if match secret with
          | Some s => String.eqb s EmptyString || negb (opt_is s (se_secret p))
          | None => true
          end then
    SeedAnswer (RJson 401 (error_body "unauthorized"))
  else if existing then
    SeedAnswer (json_ok (JObj [("ok", JBool true); ("created", JBool false); ("email", JStr SEED_EMAIL)]))
  else SeedSignUp (post_json (origin +:+ "/api/auth/sign-up/email")
         (JObj [("name", JStr "Analyst"); ("email", JStr SEED_EMAIL); ("password", JStr "analyst-dev")])).

(** ** Tokens for the trace WebSocket ([app/api/auth/ws-token/route.ts]) *)

Definition DEFAULT_TENANT : string := "default".
Definition getWsSecret (configured : option string) : string :=
  default "dev-ws-jwt-secret-change-me-min-32-chars!" configured.

(** The claims and the life time of a token, in seconds. *)
Record ws_claims := mkClaims {
  wc_sub : string;
  wc_email : string;
  wc_tenant_id : string;
  wc_case_id : string;
  wc_expires : Z
}.

Section WsToken.
(** [SignJWT(...).sign(secret)], HS256. *)
Variable sign : ws_claims → string → string.

(** [session] is the session library's answer; [body.case_id?.trim()] fails
    on a value that is not a string. *)
Definition ws_token (configured : option string) (session : option session_user) (body : option jsval) :
    res response :=
  match session with
  | None => Ok (RJson 401 (error_body "unauthorized"))
  | Some user =>
      match body with
      | None => Ok (RJson 400 (error_body "invalid JSON"))
      | Some b =>
          if is_nullish b then Throw (member_error "case_id" b)
          else
            let issue case_id :=
              let claims := mkClaims (su_id user) (default EmptyString (su_email user)) DEFAULT_TENANT case_id 60 in
              Ok (json_ok (JObj [("token", JStr (sign claims (getWsSecret configured)));
                                 ("expires_in", JNum (of_Z 60))])) in
            match prop "case_id" b with
            | JStr s => let c := trim s in
                        if String.eqb c EmptyString then Ok (RJson 400 (error_body "case_id required")) else issue c
            | JUndef | JNull => Ok (RJson 400 (error_body "case_id required"))
            | _ => Throw (mkErr "TypeError" "body.case_id?.trim is not a function")
            end
      end
  end.

(** A trace token is issued only to a signed-in user, names that user,
    the default tenant and the trimmed, non-empty case id the user asked
    for, and lives for a minute; in every other case the answer is 401 or
    400 and carries no token. *)
Theorem ws_token_claims configured session body r :
  ws_token configured session body = Ok r →
  (∃ user b s, session = Some user ∧ body = Some b ∧ prop "case_id" b = JStr s ∧ trim s ≠ EmptyString ∧
     r = json_ok (JObj [("token", JStr (sign (mkClaims (su_id user) (default EmptyString (su_email user))
                                               "default" (trim s) 60) (getWsSecret configured)));
                        ("expires_in", JNum (of_Z 60))])) ∨
  (response_status r ∈ [400; 401] ∧ ∃ m, r = RJson (response_status r) (error_body m)).
Proof.
  unfold ws_token. destruct session as [user|]; [|intros [= <-]; right; split; [set_solver|by eexists]].
  destruct body as [b|]; [|intros [= <-]; right; split; [set_solver|by eexists]].
  destruct (is_nullish b); [done|].
  destruct (prop "case_id" b) as [| | | |s| |] eqn:Ep; try done;
    try (intros [= <-]; right; split; [set_solver|by eexists]).
  destruct (String.eqb (trim s) EmptyString) eqn:Et; intros [= <-].
  - right. split; [set_solver|by eexists].
  - left. exists user, b, s. apply String.eqb_neq in Et. done.
Qed.
End WsToken.

Lemma ws_token_claims_witness :
  ∃ user, (∃ b s, Some user = Some (mkUser "u1" None) ∧ Some (JObj [("case_id", JStr " c1 ")]) = Some b ∧
     prop "case_id" b = JStr s ∧ trim s = "c1").
Proof.
  destruct (ws_token_claims (λ c _, wc_case_id c) None (Some (mkUser "u1" None))
    (Some (JObj [("case_id", JStr " c1 ")])) _ eq_refl) as [(user & b & s & Hu & Hb & Hs & _ & _)|[H _]].
  - exists user, b, s. split; [symmetry; exact Hu|]. split; [exact Hb|]. split; [exact Hs|].
    injection Hb as <-. injection Hs as <-. vm_compute. reflexivity.
  - exfalso. vm_compute in H. repeat (apply elem_of_cons in H as [H|H]; [discriminate H|]).
    by apply elem_of_nil in H.
Defined.
