(* ===== verification/Waitlist.v ===== *)
(** * The waitlist ([lib/waitlist.ts], [app/api/waitlist/route.ts])

    Validation of the form, the notification mail, and the public route that
    sends it through Resend. The email format check is the validation
    library's and is a parameter; lengths are byte lengths, which are the
    code's UTF-16 lengths on ASCII text. *)
From Stdlib Require Import Ascii.
From S2P Require Import Prelude JsObject JsNum JsString JsValue Types Effects.
From S2P Require Import RateLimit DemoRun.

Open Scope eff_scope.

Definition WAITLIST_ROLES : list string :=
  ["security_engineer"; "ciso"; "founder"; "investor"; "researcher"; "other"].

Record WaitlistInput := mkInput {
  wi_name : string;
  wi_email : string;
  wi_company : option string;
  wi_role : string;
  wi_message : string;
  wi_website : option string
}.

Definition len_between (lo hi : nat) (s : string) : bool :=
  (lo <=? String.length s)%nat && (String.length s <=? hi)%nat.

Section Schema.
Variable is_email : string → bool.

(** [z.string().trim().min(lo).max(hi)] *)
Definition trimmed_string (lo hi : nat) (v : jsval) : option string :=
  match v with
  | JStr s => let t := trim s in if len_between lo hi t then Some t else None
  | _ => None
  end.

(** [s.optional().or(z.literal(...))]: absent, or what [s] accepts, or the empty string. *)
Definition optional_or_empty (s : jsval → option string) (v : jsval) : option (option string) :=
  match v with
  | JUndef => Some None
  | _ => match s v with
         | Some t => Some (Some t)
         | None => if is_str EmptyString v then Some (Some EmptyString) else None
         end
  end.

(** [waitlistSchema.safeParse] *)
Definition waitlistSchema (body : jsval) : option WaitlistInput :=
  match body with
  | JObj o =>
      name ← trimmed_string 2 80 (prop "name" body);
      email ← (match prop "email" body with
               | JStr s => if is_email s && len_between 0 160 s then Some s else None
               | _ => None
               end);
      company ← optional_or_empty (trimmed_string 0 120) (prop "company" body);
      role ← (match prop "role" body with
              | JStr s => if bool_decide (s ∈ WAITLIST_ROLES) then Some s else None
              | _ => None
              end);
      message ← trimmed_string 10 2000 (prop "message" body);
      website ← optional_or_empty (λ v, match v with
                                        | JStr s => if len_between 0 200 s then Some s else None
                                        | _ => None
                                        end) (prop "website" body);
      Some (mkInput name email company role message website)
  | _ => None
  end.
End Schema.

Definition ROLE_LABELS (role : string) : string :=
  if String.eqb role "security_engineer" then "Security engineer"
  else if String.eqb role "ciso" then "CISO / security leader"
  else if String.eqb role "founder" then "Founder / operator"
  else if String.eqb role "investor" then "Investor"
  else if String.eqb role "researcher" then "Researcher"
  else if String.eqb role "other" then "Other" else "undefined".

Definition company_of (input : WaitlistInput) : string :=
  let c := trim (default EmptyString (wi_company input)) in
  if String.eqb c EmptyString then "—" else c.

(** Subject and text. *)
Definition formatWaitlistEmail (input : WaitlistInput) (ip : string) : string * string :=
  let company := company_of input in
  ("Attest waitlist: " +:+ wi_name input +:+ " (" +:+ company +:+ ")",
   join newline [
     "Someone requested access to Attest.";
     EmptyString;
     "Name:     " +:+ wi_name input;
     "Email:    " +:+ wi_email input;
     "Company:  " +:+ company;
     "Role:     " +:+ ROLE_LABELS (wi_role input);
     "IP:       " +:+ ip;
     EmptyString;
     "Why they want to try it:";
     wi_message input;
     EmptyString;
     "Reply to this email to reach them."]).

(** ** The route *)

Definition WINDOW_MS : Z := 60 * 60 * 1000.
Definition PER_IP_LIMIT : nat := 3.
Definition GLOBAL_LIMIT : nat := 30.

(** The environment variables read. *)
Record wl_env := mkWlEnv {
  we_api_key : option string;
  we_from : option string;
  we_to : option string;
  we_production : bool
}.

(** [process.env.X?.trim() || d] *)
Definition trimmed_or (v : option string) (d : string) : string :=
  let t := trim (default EmptyString v) in if String.eqb t EmptyString then d else t.

Definition FALLBACK_FROM : string := "Attest Waitlist <onboarding@resend.dev>".

Definition refused (m : string) : jsval := JObj [("ok", JBool false); ("error", JStr m)].

Definition send_failed : response := RJson 502 (refused "Could not send the request. Try again shortly.").

Definition mail_request (apiKey from to reply_to subject text : string) : request :=
  mkRequest "POST" "https://api.resend.com/emails"
    [("Authorization", "Bearer " +:+ apiKey); ("Content-Type", "application/json")]
    (Some (JObj [("from", JStr from); ("to", JArr [JStr to]); ("reply_to", JStr reply_to);
                 ("subject", JStr subject); ("text", JStr text)])) None.

Definition delivered : response := json_ok (JObj [("ok", JBool true); ("delivered", JBool true)]).

(** [if (!res.ok) { ... }] *)
Definition finish_send (res : fetched) : M response :=
  if ft_ok res then ret delivered
  else let! _ := read_text res in log "[waitlist] resend failed" ;; ret send_failed.

Definition send_mail (p : wl_env) (apiKey : string) (input : WaitlistInput) (ip : string) : M response :=
  let from := trimmed_or (we_from p) "Attest Waitlist <admin@homaid.dev>" in
  let to := trimmed_or (we_to p) "mohamed@homaid.dev" in
  let '(subject, text) := formatWaitlistEmail input ip in
  let! res := fetch (mail_request apiKey from to (wi_email input) subject text) in
  if negb (ft_ok res) && negb (String.eqb from FALLBACK_FROM) then
    let! detail := read_text res in
    if includes "domain is not verified" detail || includes "not verified" detail then
      let! res2 := fetch (mail_request apiKey FALLBACK_FROM to (wi_email input) subject text) in
      finish_send res2
    else log "[waitlist] resend failed" ;; ret send_failed
  else finish_send res.

Section Route.
Variable is_email : string → bool.

(** After the rate limiter. *)
Definition waitlist_submit (p : wl_env) (ip : string) (body : option jsval) : M response :=
  match body with
  | None => ret (RJson 400 (refused "Invalid JSON"))
  | Some b =>
      match waitlistSchema is_email b with
      | None => ret (RJson 400 (refused "Check the form and try again."))
      | Some input =>
          if match wi_website input with Some s => negb (String.eqb s EmptyString) | None => false end then
            ret (json_ok (JObj [("ok", JBool true)]))
          else
            let apiKey := trim (default EmptyString (we_api_key p)) in
            if String.eqb apiKey EmptyString then
              if we_production p then ret (RJson 503 (refused "Waitlist email is not configured yet."))
              else log "[waitlist] RESEND_API_KEY unset — local accept" ;;
                   ret (json_ok (JObj [("ok", JBool true); ("delivered", JBool false)]))
            else send_mail p apiKey input ip
      end
  end.

Definition waitlist_post (p : wl_env) (forwarded_for : option string) (body : option jsval)
    (hits : gmap string (list Z)) : M (response * gmap string (list Z)) :=
  let! t := now in
  let ip := client_ip forwarded_for in
  let '(over, hits') := rateLimited WINDOW_MS PER_IP_LIMIT GLOBAL_LIMIT t ip hits in
  if over : bool then ret (RJson 429 (refused "Too many requests. Try again in an hour."), hits')
  else let! r := waitlist_submit p ip body in ret (r, hits').
End Route.

(** ** Validation *)

(** What the mail relies on. *)
Definition input_ok (is_email : string → bool) (i : WaitlistInput) : Prop :=
  (2 ≤ String.length (wi_name i) ≤ 80)%nat ∧
  is_email (wi_email i) = true ∧ (String.length (wi_email i) ≤ 160)%nat ∧
  (String.length (default EmptyString (wi_company i)) ≤ 120)%nat ∧
  wi_role i ∈ WAITLIST_ROLES ∧
  (10 ≤ String.length (wi_message i) ≤ 2000)%nat ∧
  (String.length (default EmptyString (wi_website i)) ≤ 200)%nat.

Lemma len_between_spec lo hi s : len_between lo hi s = true ↔ (lo ≤ String.length s ≤ hi)%nat.
Proof. unfold len_between. rewrite andb_true_iff, !Nat.leb_le. lia. Qed.

Lemma trimmed_string_ok lo hi v s : trimmed_string lo hi v = Some s → (lo ≤ String.length s ≤ hi)%nat.
Proof.
  destruct v; simpl; try done. destruct (len_between lo hi (trim s0)) eqn:E; [|done].
  intros [= <-]. by apply len_between_spec.
Qed.

Lemma optional_or_empty_ok (P : string → Prop) s v o :
  P EmptyString → (∀ v t, s v = Some t → P t) → optional_or_empty s v = Some o → P (default EmptyString o).
Proof.
  intros H0 Hs. unfold optional_or_empty.
  destruct v; try (by intros [= <-]); (destruct (s _) eqn:E; [intros [= <-]; by eapply Hs|]); simpl;
    repeat case_match; intros; by simplify_eq.
Qed.

Lemma waitlistSchema_ok is_email b i : waitlistSchema is_email b = Some i → input_ok is_email i.
Proof.
  destruct b as [| | | | | |o]; simpl; try done. intros E.
  apply bind_Some in E as (name & En & E). apply bind_Some in E as (email & Ee & E).
  apply bind_Some in E as (company & Ec & E). apply bind_Some in E as (role & Er & E).
  apply bind_Some in E as (message & Em & E). apply bind_Some in E as (website & Ew & E).
  injection E as <-. unfold input_ok. simpl. split_and!.
  1-2: apply trimmed_string_ok in En; lia.
  1-2: destruct (default JUndef (obj_get "email" o)) as [| | | |s| |]; try done;
    destruct (is_email s) eqn:Hs; simpl in Ee; try done; destruct (len_between 0 160 s) eqn:El; try done;
    injection Ee as <-; first [done|apply len_between_spec in El; lia].
  - apply (optional_or_empty_ok (λ t, (String.length t ≤ 120)%nat)) in Ec; [done|simpl; lia|].
    intros ? ? H%trimmed_string_ok; lia.
  - destruct (default JUndef (obj_get "role" o)); try done; case_bool_decide; by simplify_eq.
  - apply trimmed_string_ok in Em; lia.
  - apply trimmed_string_ok in Em; lia.
  - apply (optional_or_empty_ok (λ t, (String.length t ≤ 200)%nat)) in Ew; [done|simpl; lia|].
    intros [| | | |s| |] t; try done. destruct (len_between 0 200 s) eqn:El; [|done].
    intros [= <-]. apply len_between_spec in El. lia.
Qed.

(** ** What is sent *)

(** A mail for the submission [input]. *)
Definition mail_for (p : wl_env) (ip : string) (input : WaitlistInput) (rq : request) : Prop :=
  ∃ key from, key ≠ EmptyString ∧ key = trim (default EmptyString (we_api_key p)) ∧
    rq = mail_request key from (trimmed_or (we_to p) "mohamed@homaid.dev") (wi_email input)
           (formatWaitlistEmail input ip).1 (formatWaitlistEmail input ip).2.

(** At most two mails, and a delivery only when Resend accepted one. *)
Definition sent_ok (P : request → Prop) (w : env) (l0 : list effect) (r : res response) (l : list effect) : Prop :=
  ∃ rqs, fetches l = fetches l0 ++ rqs ∧ Forall P rqs ∧ (length rqs ≤ 2)%nat ∧
    (r = Ok delivered → ∃ rq x, rq ∈ rqs ∧ answered w l rq (Ok x) ∧ ft_ok x = true).

Lemma sent_nothing P w l0 r l :
  fetches l = fetches l0 → r ≠ Ok delivered → sent_ok P w l0 r l.
Proof. intros E Hr. exists []. rewrite app_nil_r. split; [done|]. split; [done|]. split; [simpl; lia|done]. Qed.

(** The end of the handler, after the mails [rqs], the last of which was answered [x]. *)
Lemma finish_send_ok (P : request → Prop) w l0 l rqs rq x :
  fetches l = fetches l0 ++ rqs → Forall P rqs → (length rqs ≤ 2)%nat → rq ∈ rqs → answered w l rq (Ok x) →
  wp (finish_send x) (sent_ok P w l0) w l.
Proof.
  intros Hf HP Hl Hin Ha. unfold finish_send. destruct (ft_ok x) eqn:Hok.
  - apply wp_ret. exists rqs. split_and!; [done..|]. intros _. by exists rq, x.
  - exists rqs. split; [simpl; by rewrite fetches_app, app_nil_r|]. split_and!; [done..|]. done.
Qed.

Lemma send_mail_ok p key input ip w l0 :
  key ≠ EmptyString → key = trim (default EmptyString (we_api_key p)) →
  wp (send_mail p key input ip) (sent_ok (mail_for p ip input) w l0) w l0.
Proof.
  intros Hk Hke. unfold send_mail. destruct (formatWaitlistEmail input ip) as [subject text] eqn:Ef.
  set (from := trimmed_or (we_from p) _). set (to := trimmed_or (we_to p) _).
  assert (HP : ∀ f, mail_for p ip input (mail_request key f to (wi_email input) subject text)).
  { intros f. exists key, f. by rewrite Ef. }
  set (rq1 := mail_request key from to (wi_email input) subject text).
  set (rq2 := mail_request key FALLBACK_FROM to (wi_email input) subject text).
  assert (H1 : fetches (l0 ++ [EFetch rq1]) = fetches l0 ++ [rq1]) by (by rewrite fetches_app).
  assert (H2 : fetches ((l0 ++ [EFetch rq1]) ++ [EFetch rq2]) = fetches l0 ++ [rq1; rq2])
    by (by rewrite !fetches_app, <- app_assoc).
  assert (F1 : Forall (mail_for p ip input) [rq1]) by (repeat constructor; apply HP).
  assert (F2 : Forall (mail_for p ip input) [rq1; rq2]) by (repeat constructor; apply HP).
  assert (Hbad : ∀ r l, fetches l = fetches l0 ++ [rq1] → r ≠ Ok delivered →
    sent_ok (mail_for p ip input) w l0 r l) by (intros r l E Hr; exists [rq1]; split_and!; try done; simpl; lia).
  assert (Hbad2 : ∀ r l, fetches l = fetches l0 ++ [rq1; rq2] → r ≠ Ok delivered →
    sent_ok (mail_for p ip input) w l0 r l) by (intros r l E Hr; exists [rq1; rq2]; split_and!; try done; simpl; lia).
  apply wp_bind, wp_fetch. destruct (env_fetch w (length l0) rq1) as [x|e] eqn:E1; [|by apply Hbad].
  assert (A1 : answered w (l0 ++ [EFetch rq1]) rq1 (Ok x)) by (rewrite <- E1; apply answered_last).
  case_match; [|by eapply finish_send_ok; [exact H1|exact F1|simpl; lia|left|exact A1]].
  apply wp_bind, wp_ret. case_match.
  - apply wp_bind, wp_fetch. destruct (env_fetch w _ rq2) as [y|e] eqn:E2; [|by apply Hbad2].
    eapply finish_send_ok; [exact H2|exact F2|simpl; lia|right; left|].
    rewrite <- E2. apply answered_last.
  - apply wp_bind, wp_log, wp_ret. apply Hbad; [|done]. by rewrite fetches_app, app_nil_r.
Qed.

(** A mail for the validated submission in [body]. *)
Definition mail_of (is_email : string → bool) (p : wl_env) (ip : string) (body : option jsval) (rq : request) : Prop :=
  ∃ b input, body = Some b ∧ waitlistSchema is_email b = Some input ∧
    input_ok is_email input ∧ default EmptyString (wi_website input) = EmptyString ∧ mail_for p ip input rq.

Lemma waitlist_submit_sent is_email p ip body w l0 :
  wp (waitlist_submit is_email p ip body) (sent_ok (mail_of is_email p ip body) w l0) w l0.
Proof.
  unfold waitlist_submit. destruct body as [b|]; [|by apply wp_ret, sent_nothing].
  destruct (waitlistSchema is_email b) as [input|] eqn:Hv; [|by apply wp_ret, sent_nothing].
  case_match eqn:Hw; [by apply wp_ret, sent_nothing|].
  destruct (String.eqb (trim _) EmptyString) eqn:Hk.
  - destruct (we_production p); [by apply wp_ret, sent_nothing|].
    apply wp_bind, wp_log, wp_ret, sent_nothing; [|done]. rewrite fetches_app. simpl. by rewrite app_nil_r.
  - apply String.eqb_neq in Hk. eapply wp_mono; [by apply send_mail_ok|].
    intros r l (rqs & Hf & HP & Hl & Hd). exists rqs. split; [done|]. split; [|done].
    eapply Forall_impl; [exact HP|]. intros rq Hrq. exists b, input. split_and!; [done..| | |done].
    + by eapply waitlistSchema_ok.
    + destruct (wi_website input) as [s|]; [|done]. simpl. by apply negb_false_iff, String.eqb_eq in Hw.
Qed.

(** what the waitlist route sends. Every mail goes out for a submission
    that passed validation (bounded lengths, a known role, an email the
    library accepts), whose hidden field is empty, with a configured key, to
    the configured inbox with the submitter as reply address; at most two
    are sent per call, none for a call over the limit; and the route claims
    a delivery only when Resend accepted one of them. *)
Theorem waitlist_sends is_email p forwarded_for body hits w :
  let ip := client_ip forwarded_for in
  let over := (rateLimited WINDOW_MS PER_IP_LIMIT GLOBAL_LIMIT (env_now w 0) ip hits).1 in
  let out := run (waitlist_post is_email p forwarded_for body hits) w in
  (over = true → response_status <$> (match out.1 with Ok (r, _) => Some r | Throw _ => None end) = Some 429 ∧
                 fetches out.2 = []) ∧
  (length (fetches out.2) ≤ 2)%nat ∧
  (∀ rq, rq ∈ fetches out.2 → ∃ b input, body = Some b ∧ waitlistSchema is_email b = Some input ∧
     input_ok is_email input ∧ default EmptyString (wi_website input) = EmptyString ∧ mail_for p ip input rq) ∧
  (∀ h, out.1 = Ok (delivered, h) →
     ∃ rq x, rq ∈ fetches out.2 ∧ answered w out.2 rq (Ok x) ∧ ft_ok x = true).
Proof.
  intros ip over out.
  pose proof (waitlist_submit_sent is_email p ip body w [ENow]) as Hs.
  unfold out, run, waitlist_post. fold ip. rewrite !(bind_ok now _ w [] _ _ eq_refl). cbn [app length].
  unfold over. destruct (rateLimited _ _ _ _ _ _) as [o h1]. destruct o; simpl.
  - split; [by intros _; split|]. split; [lia|]. split; [by intros rq ?%elem_of_nil|done].
  - unfold bind. unfold wp in Hs. destruct (waitlist_submit is_email p ip body w [ENow]) as [r l].
    destruct Hs as (rqs & Hf & HP & Hl & Hd). simpl in Hf. destruct r as [r|e]; simpl; rewrite Hf.
    + split; [done|]. split; [done|]. split; [by apply Forall_forall|]. intros h [= -> _]. by apply Hd.
    + split; [done|]. split; [done|]. split; [by apply Forall_forall|done].
Qed.

Definition sample_form : jsval :=
  JObj [("name", JStr " Ada Lovelace "); ("email", JStr "ada@example.com"); ("role", JStr "ciso");
        ("message", JStr "I want to try the signed triage loop.")].

Lemma waitlist_sends_witness :
  let p := mkWlEnv (Some "key") None None true in
  let w := mkEnv (λ _ _, Ok (mkFetched 200 (Some (JObj [])) EmptyString)) (λ _, 0) in
  let out := run (waitlist_post (includes "@") p None (Some sample_form) ∅) w in
  length (fetches out.2) = 1%nat ∧
  ∃ rq x, rq ∈ fetches out.2 ∧ answered w out.2 rq (Ok x) ∧ ft_ok x = true.
Proof.
  intros p w out. split; [vm_compute; reflexivity|].
  assert (E : ∃ h, out.1 = Ok (delivered, h)) by (eexists; vm_compute; reflexivity).
  destruct E as [h E].
  exact (proj2 (proj2 (proj2 (waitlist_sends (includes "@") p None (Some sample_form) ∅ w))) h E).
Defined.
