(* ===== verification/TestVectors.v ===== *)
(** * The repository's unit tests

    The cases of [lib/stores/case-store.test.ts], [lib/alert-mappers.test.ts]
    and [lib/waitlist.test.ts], evaluated on the definitions of
    [CaseStore], [AlertMappers] and [Waitlist]: the model gives what the
    tests expect of the code. One example per test; times are milliseconds
    after the tests' system time. *)
From Stdlib Require Import Ascii.
From S2P Require Import Prelude JsObject JsNum JsString JsValue Types AlertMappers CaseStore Waitlist.

(** ** Case store *)

Definition test_event (id severity : string) : Ocsf.OcsfEvent :=
  Ocsf.mkOcsfEvent id None None None None None None None (Some severity) None None None.

Definition test_verdict (caseId : string) : TriageVerdict :=
  mkTriageVerdict "a1" caseId "benign" "classifier" (dec 97 2) (dec 1 1) false None (of_Z 3) None.

Definition test_step (kind : string) (ts : Z) : KafkaTraceStep :=
  mkKafkaTraceStep "c1" "t1" "a1" "triager" "classifier" kind kind (of_Z ts).

(** Calls at increasing times. *)
Definition calls (t0 : Z) (l : list Action) (s : Cases) : Cases :=
  (foldl (λ ts a, (ts.1 + 1, run_action ts.1 a ts.2)) (t0, s) l).2.

Definition reinitialised : Cases := calls 0 [
  AInit "c1" (test_event "c1" "high") None; AVerdict "c1" (test_verdict "c1"); AAppend "c1" (test_step "envelope" 1);
  AOverride "c1" "false_positive"; AInit "c1" (test_event "c1" "low") (Some (Some ["us-east-1"]))] [].

Example test_reinit :
  (λ e, (Ocsf.oe_severity (en_event e), en_baseline e, tv_verdict <$> en_verdict e, en_triageStatus e,
         length (en_traceSteps e), en_disposition e, en_overrideLabel e)) <$> obj_get "c1" reinitialised =
  Some (Some "low", Some (Some ["us-east-1"]), Some "benign", TComplete, 1%nat, DispOverride, Some "false_positive").
Proof. vm_compute. reflexivity. Qed.

Example test_lifecycle :
  let s0 := initCase 0 "c1" (test_event "c1" "high") None [] in
  let s1 := startTriage 7 7 "c1" s0 in
  let s2 := failTriage 7 "c1" "HTTP 502" s1 in
  let s3 := startTriage 7 7 "c1" s2 in
  let s4 := setVerdict 7 "c1" (test_verdict "c1") s3 in
  ((λ e, (en_triageStatus e, en_triageStartedAt e)) <$> obj_get "c1" s1) = Some (TRunning, Some 7) ∧
  ((λ e, (en_triageStatus e, en_triageError e)) <$> obj_get "c1" s2) = Some (TFailed, Some "HTTP 502") ∧
  (en_triageError <$> obj_get "c1" s3) = Some None ∧
  (en_triageStatus <$> obj_get "c1" s4) = Some TComplete.
Proof. vm_compute. auto. Qed.

Definition traced : Cases := calls 0 [
  AInit "c1" (test_event "c1" "high") None; AAppend "c1" (test_step "classifier_complete" 1);
  AAppend "c1" (test_step "envelope" 2); AAppend "c1" (test_step "envelope" 2)] [].

Example test_trace :
  ks_step_kind <$> selectTraceSteps "c1" traced = ["envelope"; "classifier_complete"] ∧
  selectTraceSteps "c1" (clearTraceSteps 9 "c1" traced) = [].
Proof. vm_compute. auto. Qed.

Example test_unknown_case :
  calls 0 [AOverride "missing" "false_positive"; AVerdict "missing" (test_verdict "missing"); AAppend "missing" (test_step "envelope" 1)] [] = [].
Proof. reflexivity. Qed.

Definition case_id (i : nat) : string := "c" +:+ string_of_Z (Z.of_nat i).

(** Fifty cases, one a second. *)
Definition fifty : Cases :=
  foldl (λ s i, initCase (1000 * Z.of_nat i) (case_id i) (test_event (case_id i) "high") None s) [] (seq 0 50).

Example test_eviction :
  let s := initCase 60000 "new" (test_event "new" "high") None (setApproved 60000 "c0" fifty) in
  (length (obj_keys s), obj_has "new" s, obj_has "c0" s, obj_has "c1" s) = (50%nat, true, true, false).
Proof. vm_compute. reflexivity. Qed.

Example test_reopen :
  let s := initCase 49000 "c25" (test_event "c25" "high") None fifty in
  (length (obj_keys s), obj_has "c0" s) = (50%nat, true).
Proof. vm_compute. reflexivity. Qed.

(** ** Fired detections *)

Definition test_row (detection actor region severity : string) : jsval := JObj [
  ("detection_id", JStr detection); ("event_id", JStr "e-123"); ("actor_user_name", JStr actor);
  ("cloud_region", JStr region); ("severity", JStr severity); ("fired_at", JStr "2026-04-27 05:36:45.785834+00:00")].

Definition geo_row : jsval := test_row "aws_console_login_from_anomalous_geolocation" "alice@corp.com" "ap-southeast-1" "HIGH".

Example test_known_detection :
  (λ a, (al_id a, al_caseId a, al_title a, al_technique a, al_severity a, al_entity a, al_region a, al_state a)) ∘
    Detection.firedDetectionToAlert <$> Detection.as_fired geo_row =
  Some ("e-123", "e-123", "Console Login from Anomalous Region", "T1078.004", SevHigh, "alice@corp.com", "ap-southeast-1", AwaitingReview).
Proof. vm_compute. reflexivity. Qed.

Example test_unknown_detection :
  (λ a, (al_title a, al_technique a, al_severity a, al_entity a, al_region a)) ∘ Detection.firedDetectionToAlert <$>
    Detection.as_fired (test_row "custom_rule_x" EmptyString EmptyString "urgent") =
  Some ("Custom Rule X", EmptyString, SevMedium, "unknown", "unknown").
Proof. vm_compute. reflexivity. Qed.

Example test_parse_fired :
  Detection.parseFiredDetections (JObj [("error", JStr "boom")]) = Some [] ∧
  length <$> Detection.parseFiredDetections (JArr [geo_row]) = Some 1%nat.
Proof. vm_compute. auto. Qed.

(** ** Events *)

(** The locale plays no part: the events have no time. *)
Definition to_alert (fields : list (string * string)) (index : nat) : option Alert :=
  (λ ev, Ocsf.ocsfEventToAlert (λ s, s) ev index) <$> Ocsf.as_ocsf (JObj ((λ f, (f.1, JStr f.2)) <$> fields)).

Example test_authentication :
  (λ a, (al_title a, al_technique a)) <$>
    to_alert [("event_id", "abcdef1234"); ("class_uid", "3002"); ("auth_status", "Success"); ("cloud_region", "us-east-1")] 0
    = Some ("successful console login (us-east-1)", "T1078.004") ∧
  al_title <$> to_alert [("event_id", "abcdef1234"); ("class_uid", "3002")] 0 = Some "failed console login".
Proof. vm_compute. auto. Qed.

Example test_api_activity :
  al_title <$> to_alert [("event_id", "e1"); ("api_operation", "PutBucketPolicy"); ("api_service", "s3")] 0
    = Some "PutBucketPolicy via s3" ∧
  al_title <$> to_alert [("event_id", "abcdef1234")] 0 = Some "OCSF event abcdef12".
Proof. vm_compute. auto. Qed.

Example test_event_defaults :
  (λ a, (al_severity a, al_entity a, al_updatedAt a)) <$>
    to_alert [("event_id", "e1"); ("severity", "bogus"); ("actor_user_uid", "u-1"); ("actor_user_name", "bob")] 4
  = Some (SevLow, "bob", "event 5").
Proof. vm_compute. reflexivity. Qed.

Example test_parse_events :
  let parse v := length <$> Ocsf.parseEventsResponse (λ s, s) v in
  parse (JArr [JObj [("event_id", JStr "a")]; JObj [("event_id", JStr "b")]]) = Some 2%nat ∧
  parse (JObj [("event_id", JStr "a")]) = Some 1%nat ∧ parse (JObj [("nope", JBool true)]) = Some 0%nat ∧ parse JNull = Some 0%nat.
Proof. vm_compute. auto. Qed.

(** ** Waitlist *)

Definition ada (message website : string) : jsval := JObj [
  ("name", JStr "Ada Lovelace"); ("email", JStr "ada@example.com"); ("company", JStr "Analytical Engines");
  ("role", JStr "security_engineer"); ("message", JStr message); ("website", JStr website)].

Definition long_message : string := "I want to try the signed triage loop on our CloudTrail.".

(** The addresses of the tests are accepted. *)
Definition any_email (s : string) : bool := includes "@" s.

Example test_waitlist_accepts : wi_email <$> waitlistSchema any_email (ada long_message EmptyString) = Some "ada@example.com".
Proof. vm_compute. reflexivity. Qed.

Example test_waitlist_honeypot :
  waitlistSchema any_email (ada long_message "https://spam.test") ≫= wi_website = Some "https://spam.test".
Proof. vm_compute. reflexivity. Qed.

Example test_waitlist_short : waitlistSchema any_email (ada "hi" EmptyString) = None.
Proof. vm_compute. reflexivity. Qed.

Example test_waitlist_email :
  match waitlistSchema any_email (ada long_message EmptyString) with
  | Some i => let '(subject, text) := formatWaitlistEmail i "203.0.113.4" in
              includes "Ada Lovelace" subject && includes "ada@example.com" text && includes "203.0.113.4" text = true
  | None => False
  end.
Proof. vm_compute. reflexivity. Qed.
