(* ===== verification/CaseRepository.v ===== *)
(** * Durable case storage ([lib/server/case-repository.ts])

    The repository issues SQL statements against two Postgres tables whose
    definitions are in [ensureCaseSchema].  Postgres is reached through the
    class [CaseTables], one operation per statement, whose laws
    [CaseTablesLaws] state the documented meaning of those statements on
    tables with these keys and constraints; [MemTables] is an instance.
    The routes are proved against the class.  A connection failure can make
    any statement reject: that is the business of the callers' models. *)
From S2P Require Import Prelude JsObject JsNum JsString JsValue JsDate Types Effects.

(** The columns of [UNIQUE (case_id, agent_action_id, step_kind, ts)]. *)
Definition trace_ukey (r : TraceRow) : string * string * string * Z :=
  (tw_case_id r, tw_agent_action_id r, tw_step_kind r, tw_ts r).

(** ** The interface to the database *)

Class CaseTables (Db : Type) := {
  (** [SELECT * FROM workbench_cases WHERE case_id = $1] *)
  db_case : Db → string → option CaseRow;
  (** [SELECT * FROM workbench_cases WHERE case_id IN ($1, ...)] *)
  db_cases_in : Db → list string → list CaseRow;
  (** [INSERT ... ON CONFLICT (case_id) DO UPDATE SET ...] *)
  db_insert_case : CaseRow → (CaseRow → CaseRow) → Db → Db;
  (** [UPDATE workbench_cases SET ... WHERE case_id = $1] *)
  db_update_case : string → (CaseRow → CaseRow) → Db → Db;
  (** the trace row with a given primary key *)
  db_trace_row : Db → string → option TraceRow;
  (** [SELECT * ... WHERE case_id = $1 ORDER BY ts ASC] *)
  db_traces : Db → string → list TraceRow;
  (** one row of [INSERT ... ON CONFLICT (id) DO NOTHING]; [None] is a
      constraint violation *)
  db_insert_trace : TraceRow → Db → option Db
}.

Class CaseTablesLaws (Db : Type) `{CaseTables Db} := {
  case_key d c r : db_case d c = Some r → cw_case_id r = c;
  cases_in_spec d ids r : r ∈ db_cases_in d ids ↔ ∃ c, c ∈ ids ∧ db_case d c = Some r;
  insert_case_new r f d c :
    db_case d (cw_case_id r) = None →
    db_case (db_insert_case r f d) c = if decide (c = cw_case_id r) then Some r else db_case d c;
  insert_case_conflict r f d c r0 :
    db_case d (cw_case_id r) = Some r0 → cw_case_id (f r0) = cw_case_id r0 →
    db_case (db_insert_case r f d) c = if decide (c = cw_case_id r) then Some (f r0) else db_case d c;
  insert_case_trace r f d i : db_trace_row (db_insert_case r f d) i = db_trace_row d i;
  update_case_spec c f d c' :
    (∀ r, cw_case_id (f r) = cw_case_id r) →
    db_case (db_update_case c f d) c' = if decide (c' = c) then f <$> db_case d c else db_case d c';
  update_case_trace c f d i : db_trace_row (db_update_case c f d) i = db_trace_row d i;
  trace_key d i r : db_trace_row d i = Some r → tw_id r = i;
  traces_sorted d c : StronglySorted (λ a b, tw_ts a ≤ tw_ts b) (db_traces d c);
  traces_spec d c r : r ∈ db_traces d c ↔ db_trace_row d (tw_id r) = Some r ∧ tw_case_id r = c;
  traces_nodup d c : NoDup (db_traces d c);
  insert_trace_conflict r d : is_Some (db_trace_row d (tw_id r)) → db_insert_trace r d = Some d;
  insert_trace_unique r d r' :
    db_trace_row d (tw_id r) = None → db_trace_row d (tw_id r') = Some r' →
    trace_ukey r' = trace_ukey r → db_insert_trace r d = None;
  insert_trace_fk r d :
    db_trace_row d (tw_id r) = None → db_case d (tw_case_id r) = None → db_insert_trace r d = None;
  insert_trace_ok r d :
    db_trace_row d (tw_id r) = None → is_Some (db_case d (tw_case_id r)) →
    (∀ r', db_trace_row d (tw_id r') = Some r' → trace_ukey r' ≠ trace_ukey r) →
    ∃ d', db_insert_trace r d = Some d' ∧ (∀ c, db_case d' c = db_case d c) ∧
          ∀ i, db_trace_row d' i = if decide (i = tw_id r) then Some r else db_trace_row d i
}.

(** ** Trace timestamps *)

Inductive TraceTs := TsNumber (n : num) | TsString (s : string) | TsDate (t : option Z).

Record CaseTraceStepInput := mkTraceInput {
  ti_case_id : string;
  ti_agent_action_id : string;
  ti_agent_id : string;
  ti_execution_path : string;
  ti_step_kind : string;
  ti_summary : string;
  ti_ts : TraceTs
}.

Definition range_error : err := mkErr "RangeError" "Invalid time value".
Definition constraint_error : err := mkErr "error" "violates constraint".

Section Repository.
Context {Db : Type} `{CaseTables Db}.
(** [Date.parse], implementation-defined outside the ISO format. *)
Variable date_parse : string → option Z.

(** [upsertCaseSnapshot] *)
Definition upsertCaseSnapshot (now1 now2 now3 : Z) (caseId : string) (tenantId : option string)
    (event baseline detection : jsval) (d : Db) : Db :=
  db_insert_case {|
    cw_case_id := caseId;
    cw_tenant_id := default "default" tenantId;
    cw_event := event;
    cw_baseline := nullish baseline JNull;
    cw_detection := nullish detection JNull;
    cw_triage_status := TIdle;
    cw_triage_started_at := None;
    cw_triage_completed_at := None;
    cw_verdict := JNull;
    cw_error := None;
    cw_created_at := now1;
    cw_updated_at := now2
  |} (λ r, {|
    cw_case_id := cw_case_id r;
    cw_tenant_id := cw_tenant_id r;
    cw_event := event;
    cw_baseline := nullish baseline JNull;
    cw_detection := nullish detection JNull;
    cw_triage_status := cw_triage_status r;
    cw_triage_started_at := cw_triage_started_at r;
    cw_triage_completed_at := cw_triage_completed_at r;
    cw_verdict := cw_verdict r;
    cw_error := cw_error r;
    cw_created_at := cw_created_at r;
    cw_updated_at := now3
  |}) d.

Definition getCase (d : Db) (caseId : string) : option CaseRow := db_case d caseId.

Definition getCases (d : Db) (caseIds : list string) : gmap string CaseRow :=
  match caseIds with
  | [] => ∅
  | _ => foldl (λ m row, <[cw_case_id row := row]> m) ∅ (db_cases_in d caseIds)
  end.

Definition running_row (now1 now2 : Z) (r : CaseRow) : CaseRow := {|
  cw_case_id := cw_case_id r; cw_tenant_id := cw_tenant_id r; cw_event := cw_event r;
  cw_baseline := cw_baseline r; cw_detection := cw_detection r;
  cw_triage_status := TRunning; cw_triage_started_at := Some now1;
  cw_triage_completed_at := cw_triage_completed_at r; cw_verdict := cw_verdict r;
  cw_error := None; cw_created_at := cw_created_at r; cw_updated_at := now2 |}.

Definition markTriageRunning (now1 now2 : Z) (caseId : string) (d : Db) : Db :=
  db_update_case caseId (running_row now1 now2) d.

Definition complete_row (now1 now2 : Z) (verdict : jsval) (r : CaseRow) : CaseRow := {|
  cw_case_id := cw_case_id r; cw_tenant_id := cw_tenant_id r; cw_event := cw_event r;
  cw_baseline := cw_baseline r; cw_detection := cw_detection r;
  cw_triage_status := TComplete; cw_triage_started_at := cw_triage_started_at r;
  cw_triage_completed_at := Some now1; cw_verdict := verdict;
  cw_error := None; cw_created_at := cw_created_at r; cw_updated_at := now2 |}.

Definition markTriageComplete (now1 now2 : Z) (caseId : string) (verdict : jsval) (d : Db) : Db :=
  db_update_case caseId (complete_row now1 now2 verdict) d.

Definition failed_row (now : Z) (error : string) (r : CaseRow) : CaseRow := {|
  cw_case_id := cw_case_id r; cw_tenant_id := cw_tenant_id r; cw_event := cw_event r;
  cw_baseline := cw_baseline r; cw_detection := cw_detection r;
  cw_triage_status := TFailed; cw_triage_started_at := cw_triage_started_at r;
  cw_triage_completed_at := cw_triage_completed_at r; cw_verdict := cw_verdict r;
  cw_error := Some error; cw_created_at := cw_created_at r; cw_updated_at := now |}.

Definition markTriageFailed (now : Z) (caseId error : string) (d : Db) : Db :=
  db_update_case caseId (failed_row now error) d.

(** [normalizeTraceTimestamp]: seconds below 1e10, milliseconds above. *)
Definition normalizeTraceTimestamp (ts : TraceTs) : option Z :=
  match ts with
  | TsDate t => t
  | TsNumber n =>
      date_of_num (if num_ltb (of_Z 10000000000) n then n else num_mul n (of_Z 1000))
  | TsString s => date_parse s
  end.

Definition trace_id (caseId action kind : string) (ts : Z) : string :=
  caseId +:+ ":" +:+ action +:+ ":" +:+ kind +:+ ":" +:+ to_iso_string ts.

Definition trace_row_of (now : Z) (caseId : string) (step : CaseTraceStepInput) : res TraceRow :=
  match normalizeTraceTimestamp (ti_ts step) with
  | None => Throw range_error  (* ts.toISOString() on an invalid date *)
  | Some ts => Ok {|
      tw_id := trace_id caseId (ti_agent_action_id step) (ti_step_kind step) ts;
      tw_case_id := caseId;
      tw_agent_action_id := ti_agent_action_id step;
      tw_agent_id := ti_agent_id step;
      tw_execution_path := ti_execution_path step;
      tw_step_kind := ti_step_kind step;
      tw_summary := ti_summary step;
      tw_ts := ts;
      tw_created_at := now
    |}
  end.

Fixpoint trace_rows (now : Z) (caseId : string) (steps : list CaseTraceStepInput) : res (list TraceRow) :=
  match steps with
  | [] => Ok []
  | s :: steps' =>
      res_bind (λ r, res_bind (λ rs, Ok (r :: rs)) (trace_rows now caseId steps'))
        (trace_row_of now caseId s)
  end.

(** One statement: all the rows or none. *)
Fixpoint insert_traces (rows : list TraceRow) (d : Db) : option Db :=
  match rows with
  | [] => Some d
  | r :: rows' => db_insert_trace r d ≫= insert_traces rows'
  end.

(** [appendTraceSteps]; a thrown error leaves the database as it was. *)
Definition appendTraceSteps (now : Z) (caseId : string) (steps : list CaseTraceStepInput) (d : Db)
    : res Db :=
  match steps with
  | [] => Ok d
  | _ => res_bind (λ rows, match insert_traces rows d with
                           | Some d' => Ok d'
                           | None => Throw constraint_error
                           end) (trace_rows now caseId steps)
  end.

Definition listTraceSteps (d : Db) (caseId : string) : list TraceRow := db_traces d caseId.
End Repository.

(** ** An instance: the tables in memory *)

Record MemDb := mkMemDb { mem_cases : gmap string CaseRow; mem_traces : gmap string TraceRow }.

Definition by_ts (a b : string * TraceRow) : bool := tw_ts a.2 <=? tw_ts b.2.

Definition mem_case (d : MemDb) (c : string) : option CaseRow :=
  r ← mem_cases d !! c; if decide (cw_case_id r = c) then Some r else None.

Definition mem_trace (d : MemDb) (i : string) : option TraceRow :=
  r ← mem_traces d !! i; if decide (tw_id r = i) then Some r else None.

#[export] Instance MemTables : CaseTables MemDb := {
  db_case := mem_case;
  db_cases_in d ids := omap (mem_case d) (remove_dups ids);
  db_insert_case r f d :=
    mkMemDb (<[cw_case_id r := match mem_case d (cw_case_id r) with Some r0 => f r0 | None => r end]>
               (mem_cases d)) (mem_traces d);
  db_update_case c f d := mkMemDb (alter f c (mem_cases d)) (mem_traces d);
  db_trace_row := mem_trace;
  db_traces d c :=
    (sort_by by_ts (filter (λ kv, tw_id kv.2 = kv.1 ∧ tw_case_id kv.2 = c) (map_to_list (mem_traces d)))).*2;
  db_insert_trace r d :=
    match mem_trace d (tw_id r) with
    | Some _ => Some d
    | None =>
        if existsb (λ kv, bool_decide (tw_id kv.2 = kv.1 ∧ trace_ukey kv.2 = trace_ukey r))
             (map_to_list (mem_traces d)) then None
        else match mem_case d (tw_case_id r) with
             | None => None
             | Some _ => Some (mkMemDb (mem_cases d) (<[tw_id r := r]> (mem_traces d)))
             end
    end
}.

Lemma mem_trace_spec d i r : mem_trace d i = Some r ↔ mem_traces d !! i = Some r ∧ tw_id r = i.
Proof.
  unfold mem_trace. destruct (mem_traces d !! i) as [r'|]; simpl; [case_decide|]; naive_solver.
Qed.

Lemma by_ts_total a b : by_ts a b = true ∨ by_ts b a = true.
Proof. unfold by_ts. rewrite !Z.leb_le. lia. Qed.
Lemma by_ts_trans a b c : by_ts a b = true → by_ts b c = true → by_ts a c = true.
Proof. unfold by_ts. rewrite !Z.leb_le. lia. Qed.

Lemma mem_traces_elem d c kv :
  kv ∈ sort_by by_ts (filter (λ kv, tw_id kv.2 = kv.1 ∧ tw_case_id kv.2 = c) (map_to_list (mem_traces d)))
  ↔ mem_trace d kv.1 = Some kv.2 ∧ tw_case_id kv.2 = c.
Proof.
  rewrite sort_by_perm, list_elem_of_filter, mem_trace_spec. destruct kv as [k r]; simpl.
  rewrite elem_of_map_to_list. tauto.
Qed.

Lemma StronglySorted_fmap {A B} (f : A → B) (R : B → B → Prop) l :
  StronglySorted (λ a b, R (f a) (f b)) l → StronglySorted R (f <$> l).
Proof. induction 1; csimpl; constructor; [done|]. by apply Forall_fmap. Qed.

Lemma mem_case_key d c r : mem_case d c = Some r → cw_case_id r = c.
Proof. unfold mem_case. destruct (mem_cases d !! c) as [r'|]; simpl; [case_decide|]; naive_solver. Qed.

#[export] Instance MemTablesLaws : CaseTablesLaws MemDb.
Proof.
  split; simpl.
  - exact mem_case_key.
  - intros d ids r. rewrite list_elem_of_omap. split.
    + intros (c & Hc & E). exists c. by rewrite elem_of_remove_dups in Hc.
    + intros (c & Hc & E). exists c. by rewrite elem_of_remove_dups.
  - intros r f d c E. rewrite E. unfold mem_case; simpl. case_decide as D; subst.
    + rewrite lookup_insert_eq. simpl. by rewrite decide_True.
    + by rewrite lookup_insert_ne.
  - intros r f d c r0 E K. rewrite E. unfold mem_case at 1; simpl. case_decide as D; subst.
    + rewrite lookup_insert_eq. simpl. apply mem_case_key in E. rewrite decide_True; congruence.
    + by rewrite lookup_insert_ne.
  - done.
  - intros c f d c' K. unfold mem_case; simpl. case_decide as D; subst.
    + rewrite lookup_alter_eq. destruct (mem_cases d !! c) as [r|]; simpl; [|done].
      rewrite K. by case_decide.
    + by rewrite lookup_alter_ne.
  - done.
  - intros d i r E%mem_trace_spec. tauto.
  - intros d c. apply StronglySorted_fmap.
    eapply StronglySorted_ind with (P := λ l, StronglySorted (λ a b, tw_ts a.2 ≤ tw_ts b.2) l);
      [constructor| |apply (sort_by_sorted by_ts by_ts_total by_ts_trans)].
    intros a l _ IH F. constructor; [done|]. eapply Forall_impl; [exact F|].
    intros b Hb. by apply Z.leb_le.
  - intros d c r. rewrite list_elem_of_fmap. split.
    + intros ([k r'] & -> & E%mem_traces_elem). simpl in *. destruct E as [E ?].
      pose proof E as [_ <-]%mem_trace_spec. done.
    + intros [E Hc]. exists (tw_id r, r). split; [done|]. by apply mem_traces_elem.
  - intros d c. apply NoDup_fmap_2_strong.
    + intros [k1 r1] [k2 r2] [E1 _]%mem_traces_elem [E2 _]%mem_traces_elem ?. simpl in *. subst.
      apply mem_trace_spec in E1 as [_ <-]. apply mem_trace_spec in E2 as [_ <-]. done.
    + rewrite sort_by_perm. apply NoDup_filter, NoDup_map_to_list.
  - intros r d [r' ->]. done.
  - intros r d r' -> E K. rewrite (proj2 (existsb_exists _ _)); [done|].
    exists (tw_id r', r'). apply mem_trace_spec in E as [E _]. split.
    + by apply list_elem_of_In, elem_of_map_to_list.
    + by apply bool_decide_eq_true.
  - intros r d -> ->. by case_match.
  - intros r d E [c Hc] Hu. rewrite E, Hc.
    destruct (existsb _ _) eqn:X.
    + apply existsb_exists in X as ([k r'] & Hin & [Hk Hu']%bool_decide_eq_true). simpl in *.
      apply list_elem_of_In, elem_of_map_to_list in Hin. exfalso. apply (Hu r'); [|done].
      apply mem_trace_spec. by rewrite Hk.
    + eexists. split_and!; [done..|]. intros i. unfold mem_trace; simpl. case_decide as D; subst.
      * rewrite lookup_insert_eq. simpl. by rewrite decide_True.
      * by rewrite lookup_insert_ne.
Qed.

(** ** The triage life cycle of a row *)

Section Facts.
Context {Db : Type} `{CaseTablesLaws Db}.

Lemma update_case_eq c f d :
  (∀ r, cw_case_id (f r) = cw_case_id r) → db_case (db_update_case c f d) c = f <$> db_case d c.
Proof. intros Hf. rewrite update_case_spec by done. by rewrite decide_True. Qed.

Lemma update_case_ne c c' f d :
  (∀ r, cw_case_id (f r) = cw_case_id r) → c' ≠ c →
  db_case (db_update_case c f d) c' = db_case d c'.
Proof. intros Hf Hne. rewrite update_case_spec by done. by rewrite decide_False. Qed.

Lemma upsert_get n1 n2 n3 c t ev b de d :
  ∃ r, db_case (upsertCaseSnapshot n1 n2 n3 c t ev b de d) c = Some r ∧ cw_event r = ev ∧
       match db_case d c with
       | Some r0 => cw_triage_status r = cw_triage_status r0 ∧ cw_verdict r = cw_verdict r0
                    ∧ cw_error r = cw_error r0 ∧ cw_tenant_id r = cw_tenant_id r0
                    ∧ cw_triage_started_at r = cw_triage_started_at r0
       | None => cw_triage_status r = TIdle ∧ cw_verdict r = JNull ∧ cw_error r = None
                 ∧ cw_tenant_id r = default "default" t ∧ cw_triage_started_at r = None
       end.
Proof.
  unfold upsertCaseSnapshot. destruct (db_case d c) as [r0|] eqn:E.
  - erewrite insert_case_conflict; [|exact E|done]. rewrite decide_True by done. eauto 10.
  - rewrite insert_case_new by done. rewrite decide_True by done. eauto 10.
Qed.

Lemma upsert_other n1 n2 n3 c t ev b de d c' :
  c' ≠ c → db_case (upsertCaseSnapshot n1 n2 n3 c t ev b de d) c' = db_case d c'.
Proof.
  intros Hne. unfold upsertCaseSnapshot. destruct (db_case d c) as [r0|] eqn:E.
  - erewrite insert_case_conflict; [|exact E|done]. by rewrite decide_False.
  - rewrite insert_case_new by done. by rewrite decide_False.
Qed.

Lemma getCases_lookup d ids c :
  getCases d ids !! c = if decide (c ∈ ids) then db_case d c else None.
Proof.
  destruct ids as [|i ids].
  { simpl. rewrite lookup_empty. destruct (decide (c ∈ [])) as [D|]; [by apply elem_of_nil in D|done]. }
  unfold getCases. set (l := i :: ids).
  assert (G : ∀ rows (m : gmap string CaseRow),
    (∀ r, r ∈ rows → db_case d (cw_case_id r) = Some r) →
    (∀ k r, m !! k = Some r → db_case d k = Some r) →
    foldl (λ m row, <[cw_case_id row := row]> m) m rows !! c =
    if decide (c ∈ cw_case_id <$> rows) then db_case d c else m !! c).
  { induction rows as [|r rows IH]; intros m Hr Hm; simpl; [done|].
    rewrite IH.
    - csimpl. destruct (decide (c ∈ cw_case_id <$> rows)).
      + rewrite decide_True; [done|by right].
      + destruct (decide (c = cw_case_id r)) as [->|].
        * rewrite decide_True, lookup_insert_eq, Hr; [done|left|left].
        * rewrite decide_False, lookup_insert_ne; [done|done|]. rewrite elem_of_cons. tauto.
    - intros r' Hr'. apply Hr. by right.
    - intros k r'. destruct (decide (k = cw_case_id r)) as [->|].
      + rewrite lookup_insert_eq. intros [= ->]. apply Hr. left.
      + rewrite lookup_insert_ne by done. apply Hm. }
  rewrite G.
  - rewrite lookup_empty. destruct (decide (c ∈ l)) as [Hl|Hl].
    + case_decide as D; [done|]. destruct (db_case d c) as [r|] eqn:E; [|done]. exfalso. apply D.
      apply list_elem_of_fmap. exists r. split; [symmetry; by eapply case_key|].
      apply cases_in_spec. eauto.
    + rewrite decide_False; [done|]. intros (r & -> & Hr)%list_elem_of_fmap. apply Hl.
      apply cases_in_spec in Hr as (c' & Hc & E). by rewrite (case_key _ _ _ E).
  - intros r (c' & _ & E)%cases_in_spec. by rewrite (case_key _ _ _ E).
  - intros k r. by rewrite lookup_empty.
Qed.

(** ** Trace rows: what the database may hold

    The repository is the only writer of the trace table: every row's key
    is the one computed from its columns and its case exists. *)
Definition trace_wf (d : Db) : Prop :=
  ∀ i r, db_trace_row d i = Some r →
    tw_id r = trace_id (tw_case_id r) (tw_agent_action_id r) (tw_step_kind r) (tw_ts r) ∧
    is_Some (db_case d (tw_case_id r)).

Definition keyed (r : TraceRow) : Prop :=
  tw_id r = trace_id (tw_case_id r) (tw_agent_action_id r) (tw_step_kind r) (tw_ts r).

(** Inserting one row whose key is computed from its columns, for an
    existing case: no constraint can refuse it. *)
Lemma insert_trace_keyed r d :
  trace_wf d → keyed r → is_Some (db_case d (tw_case_id r)) →
  ∃ d', db_insert_trace r d = Some d' ∧ (∀ c, db_case d' c = db_case d c) ∧ trace_wf d' ∧
    ∀ i, db_trace_row d' i = match db_trace_row d i with
                             | Some r0 => Some r0
                             | None => if decide (i = tw_id r) then Some r else None
                             end.
Proof.
  intros W K Hc. destruct (db_trace_row d (tw_id r)) as [r0|] eqn:E.
  - exists d. split_and!; [apply insert_trace_conflict; eauto|done..|].
    intros i. destruct (db_trace_row d i) eqn:Ei; [done|]. case_decide; congruence.
  - destruct (insert_trace_ok r d E Hc) as (d' & Hi & Hcs & Hr).
    { intros r' E' U. destruct (W _ _ E') as [K' _]. unfold keyed, trace_ukey in *.
      injection U as U1 U2 U3 U4. rewrite U1, U2, U3, U4, <- K in K'. congruence. }
    exists d'. split_and!; [done..| |].
    + intros i r'. rewrite Hr, Hcs. case_decide as D; [|apply W]. intros [= <-]. done.
    + intros i. rewrite Hr. case_decide as D; [by rewrite D, E|]. by destruct (db_trace_row d i).
Qed.

(** The first row of a batch with a given key. *)
Definition find_row (rows : list TraceRow) (i : string) : option TraceRow :=
  head (filter (λ r, tw_id r = i) rows).

Lemma insert_traces_keyed c rows d :
  trace_wf d → is_Some (db_case d c) → Forall (λ r, keyed r ∧ tw_case_id r = c) rows →
  ∃ d', insert_traces rows d = Some d' ∧ (∀ c', db_case d' c' = db_case d c') ∧ trace_wf d' ∧
    ∀ i, db_trace_row d' i = match db_trace_row d i with
                             | Some r0 => Some r0
                             | None => find_row rows i
                             end.
Proof.
  intros W Hc F. revert d W Hc. induction F as [|r rows [K Hr] F IH]; intros d W Hc; simpl.
  - exists d. split_and!; [done..|]. intros i. by destruct (db_trace_row d i).
  - rewrite <- Hr in Hc. destruct (insert_trace_keyed r d W K Hc) as (d1 & -> & Hcs & W1 & Hrow).
    simpl. destruct (IH d1 W1) as (d2 & -> & Hcs2 & W2 & Hrow2); [by rewrite Hcs, <- Hr|].
    exists d2. split_and!; [done|intros c'; by rewrite Hcs2|done|].
    intros i. rewrite Hrow2, Hrow. unfold find_row. rewrite filter_cons.
    destruct (db_trace_row d i); [done|].
    destruct (decide (i = tw_id r)) as [->|]; [by rewrite decide_True|by rewrite decide_False].
Qed.

Variable date_parse : string → option Z.

Lemma trace_rows_keyed now c steps rows :
  trace_rows date_parse now c steps = Ok rows → Forall (λ r, keyed r ∧ tw_case_id r = c) rows.
Proof.
  revert rows; induction steps as [|s steps IH]; intros rows; simpl; [by intros [= <-]|].
  destruct (trace_row_of date_parse now c s) as [r|e] eqn:Er; simpl; [|done].
  destruct (trace_rows date_parse now c steps) as [rs|e] eqn:Ers; simpl; [|done].
  intros [= <-]. constructor; [|by apply IH]. unfold trace_row_of in Er. case_match; [|done].
  by injection Er as <-.
Qed.

Lemma trace_rows_throw now c steps e :
  trace_rows date_parse now c steps = Throw e →
  e = range_error ∧ Exists (λ s, normalizeTraceTimestamp date_parse (ti_ts s) = None) steps.
Proof.
  induction steps as [|s steps IH]; simpl; [done|].
  destruct (trace_row_of date_parse now c s) as [r|e'] eqn:Er; simpl.
  - destruct (trace_rows date_parse now c steps) as [rs|e'] eqn:Ers; simpl; [done|].
    intros [= ->]. destruct (IH eq_refl). split; [done|by right].
  - intros [= ->]. unfold trace_row_of in Er. case_match eqn:Hn; [done|].
    injection Er as <-. split; [done|by left].
Qed.

Lemma trace_rows_ok now c steps :
  Forall (λ s, is_Some (normalizeTraceTimestamp date_parse (ti_ts s))) steps →
  ∃ rows, trace_rows date_parse now c steps = Ok rows.
Proof.
  intros F. destruct (trace_rows date_parse now c steps) as [rows|e] eqn:E; [eauto|].
  apply trace_rows_throw in E as [_ X]. exfalso.
  apply Exists_exists in X as (s & Hin & Hs). rewrite Forall_forall in F.
  destruct (F s Hin). congruence.
Qed.
End Facts.

(** ** Keys determine rows *)

Lemma trace_id_inj c a k t a' k' t' :
  no_colon a → no_colon k → no_colon a' → no_colon k' → time_ok t = true → time_ok t' = true →
  trace_id c a k t = trace_id c a' k' t' → a = a' ∧ k = k' ∧ t = t'.
Proof.
  unfold trace_id. intros ? ? ? ? ? ? E.
  apply string_app_inj_l in E as [_ E]; [|done].
  apply (string_app_inj_l ":" ":") in E as [_ E]; [|done].
  apply split_at_colon in E as [-> E]; [|done..].
  apply split_at_colon in E as [-> E]; [|done..].
  apply to_iso_string_inj in E; [|done..]. done.
Qed.

(** ** Properties *)

Section Properties.
Context {Db : Type} `{CaseTablesLaws Db}.
Variable date_parse : string → option Z.

Lemma appendTraceSteps_keyed now c steps d :
  trace_wf d → is_Some (db_case d c) →
  match trace_rows date_parse now c steps with
  | Throw e => appendTraceSteps date_parse now c steps d = Throw range_error
  | Ok rows =>
      ∃ d', appendTraceSteps date_parse now c steps d = Ok d' ∧ trace_wf d' ∧
        (∀ c', db_case d' c' = db_case d c') ∧
        ∀ i, db_trace_row d' i = match db_trace_row d i with
                                 | Some r0 => Some r0
                                 | None => find_row rows i
                                 end
  end.
Proof.
  intros W Hc. destruct (trace_rows date_parse now c steps) as [rows|e] eqn:E.
  - destruct (insert_traces_keyed c rows d W Hc (trace_rows_keyed _ _ _ _ _ E))
      as (d' & Hi & Hcs & W' & Hr).
    exists d'. split_and!; [|done..]. unfold appendTraceSteps. rewrite E. simpl. rewrite Hi.
    destruct steps; [|done]. simpl in E. injection E as <-. simpl in Hi. by injection Hi as ->.
  - destruct (trace_rows_throw date_parse now c steps e E) as [-> _].
    unfold appendTraceSteps. rewrite E. by destruct steps.
Qed.

(** Appending trace steps to an existing case. The statement inserts,
    for every step whose identity (case, action, kind, time) is not stored
    yet, the first step of the batch with that identity, and keeps every
    stored row; it never fails on the UNIQUE or foreign-key constraint.
    The only failure is a timestamp that is not a valid date, and then
    nothing is inserted. *)
Theorem appendTraceSteps_spec now c steps d :
  trace_wf d → is_Some (db_case d c) →
  match trace_rows date_parse now c steps with
  | Throw e => appendTraceSteps date_parse now c steps d = Throw range_error
  | Ok rows =>
      ∃ d', appendTraceSteps date_parse now c steps d = Ok d' ∧ trace_wf d' ∧
        (∀ c', db_case d' c' = db_case d c') ∧
        ∀ i, db_trace_row d' i = match db_trace_row d i with
                                 | Some r0 => Some r0
                                 | None => find_row rows i
                                 end
  end.
Proof. apply appendTraceSteps_keyed. Qed.
End Properties.

Definition sample_row (c : string) (st : TriageStatus) (v : jsval) : CaseRow :=
  mkCaseRow c "default" (JObj []) JNull JNull st None None v None 0 0.

Definition sample_db : MemDb := mkMemDb {["c1" := sample_row "c1" TIdle JNull]} ∅.

Definition sample_input (k : string) (ts : Z) : CaseTraceStepInput :=
  mkTraceInput "c1" "a1" "triager" "llm" k "s" (TsNumber (of_Z ts)).

Lemma sample_db_wf : trace_wf sample_db.
Proof. intros i r. unfold sample_db; simpl. unfold mem_trace; simpl. by rewrite lookup_empty. Qed.

Lemma appendTraceSteps_spec_witness :
  trace_wf sample_db ∧ is_Some (db_case sample_db "c1") ∧
  ∃ d', appendTraceSteps (λ _, None) 9 "c1" [sample_input "tool_call" 1700000000; sample_input "tool_call" 1700000000000]
          sample_db = Ok d' ∧
        db_trace_row d' "c1:a1:tool_call:2023-11-14T22:13:20.000Z" ≠ None.
Proof.
  assert (Hs : is_Some (db_case sample_db "c1")) by (eexists; vm_compute; reflexivity).
  split; [apply sample_db_wf|]. split; [exact Hs|].
  destruct (appendTraceSteps_spec (λ _, None) 9 "c1"
    [sample_input "tool_call" 1700000000; sample_input "tool_call" 1700000000000] sample_db sample_db_wf Hs)
    as (d' & E & _ & _ & R).
  exists d'. split; [exact E|]. rewrite R. vm_compute. discriminate.
Defined.

(** Two steps of one case share a primary key exactly when they are the
    same (action, kind, time), provided action ids and step kinds contain no
    colon; so [ON CONFLICT (id) DO NOTHING] drops repetitions only. *)
Theorem trace_id_identity c a k t a' k' t' :
  no_colon a → no_colon k → no_colon a' → no_colon k' → time_ok t = true → time_ok t' = true →
  trace_id c a k t = trace_id c a' k' t' ↔ a = a' ∧ k = k' ∧ t = t'.
Proof.
  intros. split; [by apply trace_id_inj|]. by intros (-> & -> & ->).
Qed.

Lemma trace_id_identity_witness :
  trace_id "c1" "a1" "tool_call" 5 = trace_id "c1" "a1" "tool_call" 5 ∧
  trace_id "c1" "a1" "tool_call" 5 ≠ trace_id "c1" "a1" "tool_call" 6.
Proof.
  split; [reflexivity|]. intros E.
  apply (trace_id_identity "c1" "a1" "tool_call" 5 "a1" "tool_call" 6) in E;
    [|apply no_colon_dec; vm_compute; reflexivity..|vm_compute; reflexivity|vm_compute; reflexivity].
  destruct E as (_ & _ & E). discriminate E.
Defined.
