(* ===== verification/DbSchema.v ===== *)
(** * The tables

    - [lib/server/case-repository.ts], [ensureCaseSchema]: the statements that
      make the tables of the repository and the promise that runs them once;
    - [types/db.ts]: the columns as the program types them;
    - [infra/db/sql/0001_auth.sql], [0004_workbench_cases.sql]: the columns as
      the migrations make them;
    - [lib/auth.ts]: the tables and columns the session library is told to
      use, its origins, and when it lets anyone sign up. *)
From Stdlib Require Import Ascii.
From S2P Require Import Prelude JsObject JsNum JsString JsValue Types Effects ProxyRoutes Auth CaseRepository.

(** ** Tables in SQL *)

Inductive sql_type := SqlText | SqlBoolean | SqlTimestamptz | SqlJsonb.
#[export] Instance sql_type_eq : EqDecision sql_type. Proof. solve_decision. Defined.

(** Whether a column is required, and its default. *)
Record sql_column := mkSql { sc_name : string; sc_type : sql_type; sc_not_null : bool; sc_default : option string }.
#[export] Instance sql_column_eq : EqDecision sql_column. Proof. solve_decision. Defined.

(** References: column, table and column; rows are deleted with theirs. *)
Record sql_table := mkTable {
  st_name : string;
  st_columns : list sql_column;
  st_primary : string;
  st_uniques : list (list string);
  st_references : list (string * string * string)
}.
#[export] Instance sql_table_eq : EqDecision sql_table. Proof. solve_decision. Defined.

Definition text_required (n : string) : sql_column := mkSql n SqlText true None.
Definition text_optional (n : string) : sql_column := mkSql n SqlText false None.
Definition time_required (n : string) : sql_column := mkSql n SqlTimestamptz true None.
Definition time_optional (n : string) : sql_column := mkSql n SqlTimestamptz false None.
Definition time_now (n : string) : sql_column := mkSql n SqlTimestamptz true (Some "now()").

Definition auth_users : sql_table :=
  mkTable "auth_users"
    [text_required "id"; text_required "name"; text_required "email"; mkSql "email_verified" SqlBoolean true (Some "false");
     text_optional "image"; time_now "created_at"; time_now "updated_at"]
    "id" [["email"]] [].

Definition auth_sessions : sql_table :=
  mkTable "auth_sessions"
    [text_required "id"; text_required "user_id"; text_required "token"; time_required "expires_at";
     text_optional "ip_address"; text_optional "user_agent"; time_now "created_at"; time_now "updated_at"]
    "id" [["token"]] [("user_id", "auth_users", "id")].

Definition auth_accounts : sql_table :=
  mkTable "auth_accounts"
    [text_required "id"; text_required "user_id"; text_required "account_id"; text_required "provider_id";
     text_optional "access_token"; text_optional "refresh_token"; time_optional "access_token_expires_at";
     time_optional "refresh_token_expires_at"; text_optional "scope"; text_optional "id_token"; text_optional "password";
     time_now "created_at"; time_now "updated_at"]
    "id" [] [("user_id", "auth_users", "id")].

Definition auth_verifications : sql_table :=
  mkTable "auth_verifications"
    [text_required "id"; text_required "identifier"; text_required "value"; time_required "expires_at";
     time_now "created_at"; time_now "updated_at"]
    "id" [] [].

(** The tables of [0001_auth.sql]. *)
Definition auth_migration : list sql_table := [auth_users; auth_sessions; auth_accounts; auth_verifications].

(** The two tables of [0004_workbench_cases.sql]. *)
Definition cases_migration : list sql_table := [
  mkTable "workbench_cases"
    [text_required "case_id"; mkSql "tenant_id" SqlText true (Some "'default'"); mkSql "event" SqlJsonb true None;
     mkSql "baseline" SqlJsonb false None; mkSql "detection" SqlJsonb false None;
     mkSql "triage_status" SqlText true (Some "'idle'"); time_optional "triage_started_at";
     time_optional "triage_completed_at"; mkSql "verdict" SqlJsonb false None; text_optional "error";
     time_now "created_at"; time_now "updated_at"]
    "case_id" [] [];
  mkTable "workbench_case_trace_steps"
    [text_required "id"; text_required "case_id"; text_required "agent_action_id"; text_required "agent_id";
     text_required "execution_path"; text_required "step_kind"; text_required "summary"; time_required "ts";
     time_now "created_at"]
    "id" [["case_id"; "agent_action_id"; "step_kind"; "ts"]] [("case_id", "workbench_cases", "case_id")]].

(** ** [ensureCaseSchema] *)
Module EnsureSchema.

Inductive statement := CreateTable (t : sql_table) | CreateIndex (name table : string) (columns : list string).

(** Each is [IF NOT EXISTS]. *)
Definition statements : list statement := [
  CreateTable (mkTable "workbench_cases"
    [text_required "case_id"; mkSql "tenant_id" SqlText true (Some "'default'"); mkSql "event" SqlJsonb true None;
     mkSql "baseline" SqlJsonb false None; mkSql "detection" SqlJsonb false None;
     mkSql "triage_status" SqlText true (Some "'idle'"); time_optional "triage_started_at";
     time_optional "triage_completed_at"; mkSql "verdict" SqlJsonb false None; text_optional "error";
     time_now "created_at"; time_now "updated_at"]
    "case_id" [] []);
  CreateTable (mkTable "workbench_case_trace_steps"
    [text_required "id"; text_required "case_id"; text_required "agent_action_id"; text_required "agent_id";
     text_required "execution_path"; text_required "step_kind"; text_required "summary"; time_required "ts";
     time_now "created_at"]
    "id" [["case_id"; "agent_action_id"; "step_kind"; "ts"]] [("case_id", "workbench_cases", "case_id")]);
  CreateIndex "workbench_case_trace_steps_case_ts_idx" "workbench_case_trace_steps" ["case_id"; "ts"]].

(** The promise of the module: the number of statements that were executed
    while the next one is under way, or its outcome. *)
Inductive promise := Pending (executed : nat) | Settled (r : res unit).

(** [schemaReady], and the statements sent to the database. *)
Record schema := mkSchema { sm_ready : option promise; sm_sent : list statement }.
Definition schema_init : schema := mkSchema None [].

(** A call: the first one starts the statements, the others get its promise. *)
Definition ensureCaseSchema (s : schema) : schema :=
  match sm_ready s with
  | None => mkSchema (Some (Pending 0)) (sm_sent s ++ take 1 statements)
  | Some _ => s
  end.

(** The database's answer to the statement under way. *)
Definition statement_answered (r : res unit) (s : schema) : option schema :=
  match sm_ready s with
  | Some (Pending n) =>
      Some match r with
           | Throw e => mkSchema (Some (Settled (Throw e))) (sm_sent s)
           | Ok _ => match drop (S n) statements with
                     | [] => mkSchema (Some (Settled (Ok tt))) (sm_sent s)
                     | next :: _ => mkSchema (Some (Pending (S n))) (sm_sent s ++ [next])
                     end
           end
  | _ => None
  end.

Inductive schema_event := CallEnsure | Answered (r : res unit).

Definition schema_handle (e : schema_event) (s : schema) : option schema :=
  match e with CallEnsure => Some (ensureCaseSchema s) | Answered r => statement_answered r s end.

Definition schema_step (s s' : schema) : Prop := ∃ e, schema_handle e s = Some s'.

(** An operation of the repository awaits the promise first. [None]: it
    still waits. *)
Definition after_schema {A} (op : res A) (s : schema) : option (res A) :=
  match sm_ready s with
  | Some (Settled (Ok _)) => Some op
  | Some (Settled (Throw e)) => Some (Throw e)
  | _ => None
  end.
End EnsureSchema.

(** ** Tables as the program types them *)

Inductive ts_type := TsText | TsBoolean | TsDate | TsUnknown | TsOneOf (values : list string).
#[export] Instance ts_type_eq : EqDecision ts_type. Proof. solve_decision. Defined.

(** Name, type, and whether [null] is in the type. *)
Definition ts_column : Type := string * ts_type * bool.

Definition AuthUsersTable : list ts_column := [
  ("id", TsText, false); ("name", TsText, false); ("email", TsText, false); ("email_verified", TsBoolean, false);
  ("image", TsText, true); ("created_at", TsDate, false); ("updated_at", TsDate, false)].

Definition AuthSessionsTable : list ts_column := [
  ("id", TsText, false); ("user_id", TsText, false); ("token", TsText, false); ("expires_at", TsDate, false);
  ("ip_address", TsText, true); ("user_agent", TsText, true); ("created_at", TsDate, false); ("updated_at", TsDate, false)].

Definition AuthAccountsTable : list ts_column := [
  ("id", TsText, false); ("user_id", TsText, false); ("account_id", TsText, false); ("provider_id", TsText, false);
  ("access_token", TsText, true); ("refresh_token", TsText, true); ("access_token_expires_at", TsDate, true);
  ("refresh_token_expires_at", TsDate, true); ("scope", TsText, true); ("id_token", TsText, true); ("password", TsText, true);
  ("created_at", TsDate, false); ("updated_at", TsDate, false)].

Definition AuthVerificationsTable : list ts_column := [
  ("id", TsText, false); ("identifier", TsText, false); ("value", TsText, false); ("expires_at", TsDate, false);
  ("created_at", TsDate, false); ("updated_at", TsDate, false)].

Definition WorkbenchCasesTable : list ts_column := [
  ("case_id", TsText, false); ("tenant_id", TsText, false); ("event", TsUnknown, false); ("baseline", TsUnknown, true);
  ("detection", TsUnknown, true); ("triage_status", TsOneOf ["idle"; "running"; "complete"; "failed"], false);
  ("triage_started_at", TsDate, true); ("triage_completed_at", TsDate, true); ("verdict", TsUnknown, true);
  ("error", TsText, true); ("created_at", TsDate, false); ("updated_at", TsDate, false)].

Definition WorkbenchCaseTraceStepsTable : list ts_column := [
  ("id", TsText, false); ("case_id", TsText, false); ("agent_action_id", TsText, false); ("agent_id", TsText, false);
  ("execution_path", TsText, false); ("step_kind", TsText, false); ("summary", TsText, false); ("ts", TsDate, false);
  ("created_at", TsDate, false)].

Definition DB : jsobj (list ts_column) := [
  ("auth_users", AuthUsersTable); ("auth_sessions", AuthSessionsTable); ("auth_accounts", AuthAccountsTable);
  ("auth_verifications", AuthVerificationsTable); ("workbench_cases", WorkbenchCasesTable);
  ("workbench_case_trace_steps", WorkbenchCaseTraceStepsTable)].

(** ** The configuration of the session library *)

(** Table and renamed columns of a model. *)
Record auth_model := mkAuthModel { am_modelName : string; am_fields : list (string * string) }.

Definition auth_models : list (string * auth_model) := [
  ("user", mkAuthModel "auth_users"
     [("emailVerified", "email_verified"); ("createdAt", "created_at"); ("updatedAt", "updated_at")]);
  ("session", mkAuthModel "auth_sessions"
     [("userId", "user_id"); ("expiresAt", "expires_at"); ("ipAddress", "ip_address"); ("userAgent", "user_agent");
      ("createdAt", "created_at"); ("updatedAt", "updated_at")]);
  ("account", mkAuthModel "auth_accounts"
     [("userId", "user_id"); ("accountId", "account_id"); ("providerId", "provider_id"); ("accessToken", "access_token");
      ("refreshToken", "refresh_token"); ("accessTokenExpiresAt", "access_token_expires_at");
      ("refreshTokenExpiresAt", "refresh_token_expires_at"); ("idToken", "id_token"); ("createdAt", "created_at");
      ("updatedAt", "updated_at")]);
  ("verification", mkAuthModel "auth_verifications"
     [("expiresAt", "expires_at"); ("createdAt", "created_at"); ("updatedAt", "updated_at")])].

Definition auth_baseURL (better_auth_url app_url : option string) : string :=
  default (default "http://localhost:3000" app_url) better_auth_url.

Record auth_config := mkAuthConfig {
  ac_baseURL : string;
  ac_secret : string;
  ac_models : list (string * auth_model);
  ac_emailAndPassword : bool;
  ac_requireEmailVerification : bool;
  ac_minPasswordLength : Z;
  ac_disableSignUp : bool;
  ac_trustedOrigins : list string
}.

Definition disableSignUp (allow_auth_seed : option string) : bool := negb (opt_is "1" allow_auth_seed).

(** The module: it throws without a usable secret. *)
Definition auth (p : process_env) (better_auth_url app_url allow_auth_seed : option string) : res auth_config :=
  match resolveAuthSecret p with
  | Throw e => Throw e
  | Ok secret =>
      let baseURL := auth_baseURL better_auth_url app_url in
      Ok (mkAuthConfig baseURL secret auth_models true false 8 (disableSignUp allow_auth_seed)
            [baseURL; "https://attest.homaid.dev"; "https://attest-wb.up.railway.app"])
  end.

(** ** The tables agree *)

(** The values a column holds are the values its type has. *)
Definition type_agrees (t : ts_type) (c : sql_column) : bool :=
  match t, sc_type c with
  | TsText, SqlText | TsBoolean, SqlBoolean | TsDate, SqlTimestamptz | TsUnknown, SqlJsonb => true
  | TsOneOf values, SqlText =>
      match sc_default c with Some d => existsb (λ v, String.eqb d ("'" +:+ v +:+ "'")) values | None => true end
  | _, _ => false
  end.

Definition column_agrees (t : ts_column) (c : sql_column) : bool :=
  String.eqb t.1.1 (sc_name c) && type_agrees t.1.2 c && Bool.eqb t.2 (negb (sc_not_null c)).

Fixpoint all_agree (ts : list ts_column) (cs : list sql_column) : bool :=
  match ts, cs with
  | [], [] => true
  | t :: ts', c :: cs' => column_agrees t c && all_agree ts' cs'
  | _, _ => false
  end.

Definition migrations : list sql_table := auth_migration ++ cases_migration.

Lemma all_agree_names ts cs : all_agree ts cs = true → (λ t : ts_column, t.1.1) <$> ts = sc_name <$> cs.
Proof.
  revert cs. induction ts as [|t ts IH]; intros [|c cs]; try done. cbn [all_agree].
  intros [[[H _]%andb_true_iff _]%andb_true_iff Hr]%andb_true_iff. apply String.eqb_eq in H.
  rewrite !fmap_cons, H. f_equal. by apply IH.
Qed.

(** The name of a column from the name of a field: a capital letter becomes
    an underscore and the small letter. *)
Fixpoint snake_case (s : string) : string :=
  match s with
  | EmptyString => EmptyString
  | String c s' => if is_upper c then String "_"%char (String (lower_char c) (snake_case s')) else String c (snake_case s')
  end.

(** C40: the tables the program types, the ones the migrations make and the
    ones the repository makes itself are the same. Every table of the typed
    database is made by a migration, with the same columns in the same order,
    of corresponding types and nullable exactly where the type has [null];
    the repository's own statements make the tables of its migration; every
    state of a triage is in the type of its column, and no other; and the
    session library is told, for each of its models, a table that exists and
    for each renamed field the snake-case column, which the table has. *)
Theorem tables_agree :
  (∀ name cols, (name, cols) ∈ DB →
     ∃ t, t ∈ migrations ∧ st_name t = name ∧ all_agree cols (st_columns t) = true) ∧
  omap (λ s, match s with EnsureSchema.CreateTable t => Some t | _ => None end) EnsureSchema.statements = cases_migration ∧
  (∀ values, ("triage_status", TsOneOf values, false) ∈ WorkbenchCasesTable →
     ∀ v, v ∈ values ↔ ∃ st, triage_status_string st = v) ∧
  (∀ p u a s cfg, auth p u a s = Ok cfg → ∀ model m, (model, m) ∈ ac_models cfg →
     ∃ t, t ∈ migrations ∧ st_name t = am_modelName m ∧
       ∀ field column, (field, column) ∈ am_fields m → column = snake_case field ∧ column ∈ sc_name <$> st_columns t).
Proof.
  split; [|split; [reflexivity|split]].
  - intros name cols Hin.
    assert (A : forallb (λ e : string * list ts_column, existsb (λ t, String.eqb (st_name t) e.1 && all_agree e.2 (st_columns t)) migrations) DB = true)
      by (vm_compute; reflexivity).
    rewrite forallb_forall in A. apply list_elem_of_In in Hin. specialize (A _ Hin). apply existsb_exists in A as (t & Ht & [E1 E2]%andb_true_iff).
    exists t. split; [by apply list_elem_of_In|]. split; [by apply String.eqb_eq|done].
  - intros values Hin v.
    assert (values = ["idle"; "running"; "complete"; "failed"]) as ->.
    { unfold WorkbenchCasesTable in Hin. rewrite !elem_of_cons, elem_of_nil in Hin. naive_solver. }
    rewrite !elem_of_cons, elem_of_nil. split.
    + intros [->|[->|[->|[->|[]]]]]; [by exists TIdle|by exists TRunning|by exists TComplete|by exists TFailed].
    + intros [[] <-]; cbn; auto.
  - intros p u a s cfg E model m Hin. unfold auth in E. destruct (resolveAuthSecret p); [|done]. injection E as <-. cbn [ac_models] in Hin.
    assert (A : forallb (λ e : string * auth_model, existsb (λ t, String.eqb (st_name t) (am_modelName e.2) &&
        forallb (λ f, String.eqb f.2 (snake_case f.1) && bool_decide (f.2 ∈ sc_name <$> st_columns t)) (am_fields e.2)) migrations) auth_models = true)
      by (vm_compute; reflexivity).
    rewrite forallb_forall in A. apply list_elem_of_In in Hin. specialize (A _ Hin). apply existsb_exists in A as (t & Ht & [E1 E2]%andb_true_iff).
    exists t. split; [by apply list_elem_of_In|]. split; [by apply String.eqb_eq|]. intros field column Hf.
    rewrite forallb_forall in E2. apply list_elem_of_In in Hf. specialize (E2 _ Hf). apply andb_true_iff in E2 as [F1 F2].
    split; [by apply String.eqb_eq|by apply bool_decide_eq_true_1 in F2].
Qed.

Lemma tables_agree_witness :
  ∃ t, t ∈ migrations ∧ st_name t = "auth_users" ∧ all_agree AuthUsersTable (st_columns t) = true.
Proof.
  destruct tables_agree as [H _]. apply H. left.
Defined.

(** The constraint the repository's interface states about traces is the
    unique one of the table: two rows have the same key exactly when they
    agree on its columns. *)
Definition trace_key_column (c : string) (r : TraceRow) : option (string + Z) :=
  if String.eqb c "case_id" then Some (inl (tw_case_id r))
  else if String.eqb c "agent_action_id" then Some (inl (tw_agent_action_id r))
  else if String.eqb c "step_kind" then Some (inl (tw_step_kind r))
  else if String.eqb c "ts" then Some (inr (tw_ts r))
  else None.

Lemma trace_ukey_columns t r r' :
  t ∈ cases_migration → st_name t = "workbench_case_trace_steps" →
  ∃ u, st_uniques t = [u] ∧ Forall (λ c, is_Some (trace_key_column c r)) u ∧
    (trace_ukey r = trace_ukey r' ↔ Forall (λ c, trace_key_column c r = trace_key_column c r') u).
Proof.
  unfold cases_migration. rewrite !elem_of_cons, elem_of_nil. intros [->|[->|[]]] Hn; [done|].
  eexists. split; [reflexivity|]. split; [repeat apply Forall_cons_2; try apply Forall_nil_2; by eexists|].
  unfold trace_ukey. rewrite !Forall_cons. cbn. split; [|by intros ([= ->] & [= ->] & [= ->] & [= ->] & _)].
  intros [= -> -> -> ->]. repeat (split; [done|]). apply Forall_nil_2.
Qed.

(** ** Making the tables, once *)
Section EnsureFacts.
Import EnsureSchema.

Definition schema_inv (s : schema) : Prop :=
  match sm_ready s with
  | None => sm_sent s = []
  | Some (Pending n) => (n < length statements)%nat ∧ sm_sent s = take (S n) statements
  | Some (Settled (Ok _)) => sm_sent s = statements
  | Some (Settled (Throw _)) => ∃ n, sm_sent s = take n statements
  end.

Lemma schema_step_inv s s' : schema_inv s → schema_step s s' → schema_inv s'.
Proof.
  destruct s as [ready sent]. intros I [[|r] E]; cbn [schema_handle] in E.
  - injection E as <-. unfold ensureCaseSchema, schema_inv in *. cbn [sm_ready sm_sent] in *.
    destruct ready; [done|]. rewrite I. split; [cbn; lia|done].
  - unfold statement_answered in E. cbn [sm_ready sm_sent] in E. destruct ready as [[n|?]|]; try done. injection E as <-.
    unfold schema_inv in I. cbn [sm_ready sm_sent] in I. destruct I as [Hn ->]. destruct r as [[]|e]; [|by exists (S n)].
    do 3 (destruct n as [|n]; [first [done|split; [cbn; lia|done]]|]). cbn in Hn. lia.
Qed.

Lemma settled_stays s s' e :
  sm_ready s = Some (Settled (Throw e)) → star schema_step s s' → s' = s.
Proof.
  intros Hs R. refine (star_invariant _ (λ x, x = s) s s' eq_refl _ R). intros a b -> [[|r] E]; cbn in E.
  - injection E as <-. unfold ensureCaseSchema. by rewrite Hs.
  - unfold statement_answered in E. by rewrite Hs in E.
Qed.

(** C20: the tables are made once, and a failure to make them is for good.
    However many calls and answers there are, the statements are sent in
    order, each at most once, and all of them before any operation of the
    repository runs; and once one of them has failed, because the database
    could not be reached at the first call, every later operation of this
    process fails with that same error, and no statement is tried again. *)
Theorem ensure_schema_once s :
  star schema_step schema_init s →
  (∃ n, sm_sent s = take n statements) ∧
  (∀ A (op : res A) x, after_schema op s = Some x →
     sm_sent s = statements ∧ x = op ∨
     ∃ e, x = Throw e ∧ ∀ s' B (op' : res B), star schema_step s s' → after_schema op' s' = Some (Throw e) ∧ sm_sent s' = sm_sent s).
Proof.
  intros R. assert (I : schema_inv s) by (by apply (star_invariant _ schema_inv schema_init s eq_refl schema_step_inv)).
  unfold schema_inv in I. split.
  - destruct (sm_ready s) as [[n|[[]|e]]|]; [exists (S n); apply I|by exists (length statements)|done|by exists 0%nat].
  - intros A op x Hx. unfold after_schema in Hx. destruct (sm_ready s) as [[n|[[]|e]]|] eqn:Er; try done; injection Hx as <-.
    + by left.
    + right. exists e. split; [done|]. intros s' B op' R'. pose proof (settled_stays s s' e Er R') as ->.
      unfold after_schema. by rewrite Er.
Qed.

Definition down : schema := mkSchema (Some (Settled (Throw (Error "ECONNREFUSED")))) (take 1 statements).

Lemma ensure_schema_once_witness : after_schema (Ok 7) (ensureCaseSchema down) = Some (Throw (Error "ECONNREFUSED")).
Proof.
  assert (R : star schema_step schema_init down).
  { eapply star_snoc; [eapply star_snoc; [constructor|]|].
    - by exists CallEnsure.
    - by exists (Answered (Throw (Error "ECONNREFUSED"))). }
  destruct (ensure_schema_once down R) as [_ H].
  destruct (H Z (Ok 7) (Throw (Error "ECONNREFUSED")) eq_refl) as [[E _]|(e & E & F)]; [by vm_compute in E|].
  injection E as <-. apply F. eapply star_snoc; [constructor|]. by exists CallEnsure.
Defined.
End EnsureFacts.

(** ** Signing up *)

(** C23: the secret of the seed protects nothing: whenever the seed can make its
    account, the session library is configured to let anyone sign up, on a
    path that the page guard does not cover; in production the flag still opens the sign-up,
    although the seed itself is refused. Without the flag the sign-up is
    closed. *)
Theorem seed_opens_sign_up p q u a :
  (∀ origin secret existing rq, seed_analyst p origin secret existing = SeedSignUp rq →
     rq_url rq = origin +:+ "/api/auth/sign-up/email" ∧
     ∀ cfg, auth q u a (se_allow p) = Ok cfg → ac_emailAndPassword cfg = true ∧ ac_disableSignUp cfg = false) ∧
  (∀ get origin jar, proxy get origin "/api/auth/sign-up/email" jar = RNext) ∧
  (se_allow p = Some "1" → se_node_env p = Some "production" →
     (∀ origin secret existing, seed_analyst p origin secret existing = SeedAnswer (RJson 404 (error_body "not found"))) ∧
     ∀ cfg, auth q u a (se_allow p) = Ok cfg → ac_disableSignUp cfg = false) ∧
  (se_allow p ≠ Some "1" → ∀ cfg, auth q u a (se_allow p) = Ok cfg → ac_disableSignUp cfg = true).
Proof.
  assert (Hc : ∀ allow cfg, auth q u a allow = Ok cfg → ac_emailAndPassword cfg = true ∧ ac_disableSignUp cfg = disableSignUp allow)
    by (intros allow cfg; unfold auth; destruct (resolveAuthSecret q); [by intros [= <-]|done]).
  assert (Hd : ∀ allow, disableSignUp allow = negb (bool_decide (allow = Some "1"))).
  { intros [s|]; [|done]. unfold disableSignUp, opt_is. f_equal. destruct (String.eqb_spec s "1"); case_bool_decide; congruence. }
  split; [|split; [done|split]].
  - intros origin secret existing rq. unfold seed_analyst.
    destruct (opt_is "production" _ || _) eqn:G; [done|]. apply orb_false_iff in G as [_ G%negb_false_iff].
    case_match; [done|]. destruct existing; [done|]. intros [= <-]. split; [done|]. intros cfg [H1 H2]%Hc. split; [done|].
    rewrite H2. unfold disableSignUp. by rewrite G.
  - intros Ha Hn. split; [intros; unfold seed_analyst; by rewrite Hn|]. intros cfg [_ ->]%Hc. rewrite Hd. by rewrite Ha.
  - intros Ha cfg [_ ->]%Hc. rewrite Hd. by rewrite bool_decide_eq_false_2.
Qed.

Definition seeding : seed_env := mkSeedEnv None (Some "1") (Some "secret").

Lemma seed_opens_sign_up_witness : ∃ cfg, auth (mkProcess None None None) None None (Some "1") = Ok cfg ∧ ac_disableSignUp cfg = false.
Proof.
  eexists. split; [reflexivity|].
  destruct (seed_opens_sign_up seeding (mkProcess None None None) None None) as [H _].
  destruct (H "http://h" (Some "secret") false _ eq_refl) as [_ H2]. by apply (H2 _ eq_refl).
Defined.
