(* ===== verification/TraceRoutes.v ===== *)
(** * Trace routes ([app/api/cases/[caseId]/trace/route.ts])

    [GET] lists the stored steps of a case, or one synthetic step made from
    the verdict of a case without steps; [POST] validates a batch of steps
    and appends it. The handlers are proved against the repository's
    interface; a failing read is an argument. *)
From S2P Require Import Prelude JsObject JsNum JsString JsValue JsDate Types Effects.
From S2P Require Import CaseRepository.

(** [TracePostBody["steps"]], as declared. *)
Record PostStep := mkPostStep {
  ps_agent_action_id : option string;
  ps_agent_id : option string;
  ps_execution_path : option string;
  ps_step_kind : option string;
  ps_summary : option string;
  ps_ts : option TraceTs
}.

Definition str_given (s : option string) : bool :=
  match s with Some x => negb (String.eqb x EmptyString) | None => false end.

(** [s.ts] in a boolean position: not 0, NaN or the empty string. *)
Definition ts_given (t : option TraceTs) : bool :=
  match t with
  | Some (TsNumber n) => num_truthy n
  | Some (TsString s) => negb (String.eqb s EmptyString)
  | Some (TsDate _) => true
  | None => false
  end.

Definition step_accepted (s : PostStep) : bool :=
  str_given (ps_agent_action_id s) && str_given (ps_step_kind s) && ts_given (ps_ts s).

Definition input_of (caseId : string) (s : PostStep) : CaseTraceStepInput := {|
  ti_case_id := caseId;
  ti_agent_action_id := default EmptyString (ps_agent_action_id s);
  ti_agent_id := default "unknown" (ps_agent_id s);
  ti_execution_path := default "unknown" (ps_execution_path s);
  ti_step_kind := default EmptyString (ps_step_kind s);
  ti_summary := default EmptyString (ps_summary s);
  ti_ts := default (TsNumber zero) (ps_ts s)
|}.

Definition accepted_steps (caseId : string) (raw : list PostStep) : list CaseTraceStepInput :=
  input_of caseId <$> filter (λ s, step_accepted s = true) raw.

(** One step of the [GET] answer. *)
Definition step_json (kind action agent path verdict : string) (tools beliefs : Z) : jsval :=
  JObj [("kind", JStr kind); ("agent_action_id", JStr action); ("agent_id", JStr agent);
        ("execution_path", JStr path); ("verdict", JStr verdict);
        ("tool_call_count", JNum (of_Z tools)); ("belief_count", JNum (of_Z beliefs))].

Definition step_of_row (row : TraceRow) : jsval :=
  step_json (tw_step_kind row) (tw_agent_action_id row) (tw_agent_id row) (tw_execution_path row) (tw_summary row)
    (if String.eqb (tw_step_kind row) "tool_call" then 1 else 0)
    (if String.eqb (tw_step_kind row) "intermediate_belief" then 1 else 0).

(** The synthetic step of a case with a verdict and no trace. *)
Definition verdict_step (verdict : jsval) : jsval :=
  let text k := to_string (nullish (prop k verdict) (JStr "unknown")) in
  step_json "triage_complete" (text "action_id") "triager-hybrid-v1" (text "execution_path")
    (text "verdict" +:+ " · novelty " +:+
     to_fixed 3 (to_number (nullish (prop "novelty_score" verdict) (JNum zero))) +:+
     " · latency " +:+ text "latency_ms" +:+ "ms") 0 0.

Section Routes.
Context {Db : Type} `{CaseTables Db}.
Variable date_parse : string → option Z.

(** A read of the database that may fail. *)
Definition read_db {A} (failure : option err) (x : A) : res A :=
  match failure with Some e => Throw e | None => Ok x end.

Definition trace_steps (fail2 : option err) (d : Db) (caseId : string) (rows : list TraceRow) : res (list jsval) :=
  match step_of_row <$> rows with
  | [] =>
      res_bind (λ persisted,
        match persisted with
        | Some r => Ok (if truthy (cw_verdict r) then [verdict_step (cw_verdict r)] else [])
        | None => Ok []
        end) (read_db fail2 (getCase d caseId))
  | steps => Ok steps
  end.

(** [GET] *)
Definition trace_get (fail1 fail2 : option err) (d : Db) (caseId : string) : response :=
  match res_bind (trace_steps fail2 d caseId) (read_db fail1 (listTraceSteps d caseId)) with
  | Ok steps => json_ok (JObj [("case_id", JStr caseId); ("steps", JArr steps)])
  | Throw e => RJson 500 (JObj [("error", JStr (err_message e))])
  end.

(** [POST]: [steps] is [None] when the body has none or is not JSON. *)
Definition trace_post (now : Z) (caseId : string) (steps : option (list PostStep)) (d : Db) : res (response * Db) :=
  let accepted := accepted_steps caseId (default [] steps) in
  res_bind (λ d', Ok (json_ok (JObj [("ok", JBool true);
                                     ("inserted", JNum (of_Z (Z.of_nat (length accepted))))]), d'))
    (appendTraceSteps date_parse now caseId accepted d).
End Routes.

Section Facts.
Context {Db : Type} `{CaseTablesLaws Db}.
Variable date_parse : string → option Z.

(** The row a step becomes. *)
Definition row_for (now : Z) (caseId : string) (s : CaseTraceStepInput) (t : Z) : TraceRow :=
  mkTraceRow (trace_id caseId (ti_agent_action_id s) (ti_step_kind s) t) caseId (ti_agent_action_id s)
    (ti_agent_id s) (ti_execution_path s) (ti_step_kind s) (ti_summary s) t now.

Lemma trace_rows_elem now c steps rows r :
  trace_rows date_parse now c steps = Ok rows →
  r ∈ rows → ∃ s t, s ∈ steps ∧ normalizeTraceTimestamp date_parse (ti_ts s) = Some t ∧ r = row_for now c s t.
Proof.
  revert rows; induction steps as [|s steps IH]; intros rows; simpl; [intros [= <-] E; by apply elem_of_nil in E|].
  unfold trace_row_of at 1. destruct (normalizeTraceTimestamp date_parse (ti_ts s)) as [t|] eqn:Et; simpl; [|done].
  destruct (trace_rows date_parse now c steps) as [rs|e]; simpl; [|done]. intros [= <-].
  intros [->|Hr]%elem_of_cons.
  - exists s, t. split; [left|]. split; [done|]. reflexivity.
  - destruct (IH rs eq_refl Hr) as (s' & t' & ? & ? & ?). exists s', t'. split; [by right|done].
Qed.

Lemma trace_rows_complete now c steps rows s :
  trace_rows date_parse now c steps = Ok rows → s ∈ steps →
  ∃ t, normalizeTraceTimestamp date_parse (ti_ts s) = Some t ∧ row_for now c s t ∈ rows.
Proof.
  revert rows; induction steps as [|s' steps IH]; intros rows; simpl; [intros _ E; by apply elem_of_nil in E|].
  unfold trace_row_of at 1. destruct (normalizeTraceTimestamp date_parse (ti_ts s')) as [t|] eqn:Et; simpl; [|done].
  destruct (trace_rows date_parse now c steps) as [rs|e]; simpl; [|done]. intros [= <-].
  intros [->|Hr]%elem_of_cons.
  - exists t. split; [done|left].
  - destruct (IH rs eq_refl Hr) as (t' & ? & ?). exists t'. split; [done|by right].
Qed.

Lemma find_row_some rows i r : find_row rows i = Some r → r ∈ rows ∧ tw_id r = i.
Proof. unfold find_row. intros E%head_Some_elem_of. by apply list_elem_of_filter in E as [? ?]. Qed.

Lemma find_row_exists rows r : r ∈ rows → ∃ r', find_row rows (tw_id r) = Some r'.
Proof.
  intros Hr. unfold find_row. destruct (filter (λ x, tw_id x = tw_id r) rows) as [|r' l] eqn:E; [|eauto].
  exfalso. assert (Hin : r ∈ filter (λ x, tw_id x = tw_id r) rows) by (by apply list_elem_of_filter).
  rewrite E in Hin. by apply elem_of_nil in Hin.
Qed.

(** What a listed step shows of a row. *)
Definition listed (d : Db) (caseId : string) (j : jsval) : Prop :=
  ∃ r, j = step_of_row r ∧ tw_case_id r = caseId ∧ db_trace_row d (tw_id r) = Some r.

(** Case ids without a colon keep the keys of different cases apart. *)
Definition plain_cases (d : Db) : Prop := ∀ i r, db_trace_row d i = Some r → no_colon (tw_case_id r).

Lemma trace_id_case c a k t c' a' k' t' :
  no_colon c → no_colon c' → trace_id c a k t = trace_id c' a' k' t' → c = c'.
Proof. unfold trace_id. intros H1 H2 E. by apply split_at_colon in E as [-> _]. Qed.

(** After an append every step of the batch has its row in the case's list. *)
Lemma appended_listed now c steps rows d d' s :
  trace_wf d → plain_cases d → no_colon c → trace_rows date_parse now c steps = Ok rows →
  (∀ i, db_trace_row d' i = match db_trace_row d i with Some r0 => Some r0 | None => find_row rows i end) →
  s ∈ steps →
  ∃ t row, normalizeTraceTimestamp date_parse (ti_ts s) = Some t ∧ row ∈ listTraceSteps d' c ∧
    tw_id row = trace_id c (ti_agent_action_id s) (ti_step_kind s) t.
Proof.
  intros W Hp Hc Er Hrows Hs. destruct (trace_rows_complete now c _ rows s Er Hs) as (t & Et & Hin).
  set (i := trace_id c (ti_agent_action_id s) (ti_step_kind s) t).
  assert (Hi : ∃ row, db_trace_row d' i = Some row).
  { rewrite Hrows. destruct (db_trace_row d i) as [r0|]; [eauto|]. apply (find_row_exists rows _ Hin). }
  destruct Hi as [row Hrow]. exists t, row. split; [done|].
  pose proof (trace_key d' i row Hrow) as Hid. split; [|done]. apply traces_spec. rewrite Hid. split; [done|].
  rewrite Hrows in Hrow. destruct (db_trace_row d i) as [r0|] eqn:E0.
  - injection Hrow as ->. destruct (W _ _ E0) as [Hk _]. rewrite Hid in Hk.
    symmetry. eapply trace_id_case; [done|by apply (Hp i)|exact Hk].
  - apply find_row_some in Hrow as [Hrow _].
    by destruct (trace_rows_elem now c _ rows row Er Hrow) as (? & ? & _ & _ & ->).
Qed.

Lemma trace_get_rows d c : listTraceSteps d c ≠ [] →
  trace_get None None d c = json_ok (JObj [("case_id", JStr c); ("steps", JArr (step_of_row <$> listTraceSteps d c))]).
Proof. unfold trace_get, trace_steps. simpl. by destruct (listTraceSteps d c). Qed.

(** One post: the invariants are kept, every accepted step has its row, no
    stored row is lost and no other row appears. A refused post is one with
    an invalid time. *)
Lemma trace_post_rows now c steps d :
  trace_wf d → plain_cases d → no_colon c → is_Some (db_case d c) →
  match trace_post date_parse now c (Some steps) d with
  | Throw e => e = range_error ∧
      Exists (λ s, normalizeTraceTimestamp date_parse (ti_ts s) = None) (accepted_steps c steps)
  | Ok (r, d') =>
      r = json_ok (JObj [("ok", JBool true);
                         ("inserted", JNum (of_Z (Z.of_nat (length (accepted_steps c steps)))))]) ∧
      trace_wf d' ∧ plain_cases d' ∧ (∀ c', db_case d' c' = db_case d c') ∧
      (∀ row, row ∈ listTraceSteps d c → row ∈ listTraceSteps d' c) ∧
      (∀ s, s ∈ accepted_steps c steps → ∃ t row,
         normalizeTraceTimestamp date_parse (ti_ts s) = Some t ∧ row ∈ listTraceSteps d' c ∧
         tw_id row = trace_id c (ti_agent_action_id s) (ti_step_kind s) t) ∧
      (∀ row, row ∈ listTraceSteps d' c → row ∈ listTraceSteps d c ∨
         ∃ s t, s ∈ accepted_steps c steps ∧ normalizeTraceTimestamp date_parse (ti_ts s) = Some t ∧
                row = row_for now c s t)
  end.
Proof.
  intros W Hp Hnc Hc.
  pose proof (appendTraceSteps_keyed date_parse now c (accepted_steps c steps) d W Hc) as Ha.
  unfold trace_post. simpl. destruct (trace_rows date_parse now c (accepted_steps c steps)) as [rows|e] eqn:Er.
  2: { rewrite Ha. simpl. by apply trace_rows_throw in Er as [_ ?]. }
  destruct Ha as (d' & -> & W' & Hcs & Hrows). simpl.
  assert (Hnew : ∀ i row, db_trace_row d' i = Some row → db_trace_row d i = Some row ∨
    ∃ s t, s ∈ accepted_steps c steps ∧ normalizeTraceTimestamp date_parse (ti_ts s) = Some t ∧ row = row_for now c s t).
  { intros i row. rewrite Hrows. destruct (db_trace_row d i); [by left|]. intros [Hr _]%find_row_some. right.
    by eapply trace_rows_elem. }
  split; [done|]. split; [done|]. split; [|split; [done|split; [|split]]].
  - intros i row Hrow. destruct (Hnew i row Hrow) as [Hold|(s & t & _ & _ & ->)]; [by eapply Hp|done].
  - intros row. unfold listTraceSteps. rewrite !traces_spec. intros [Hr ?]. rewrite Hrows, Hr. done.
  - intros s Hs. exact (appended_listed now c _ rows d d' s W Hp Hnc Er Hrows Hs).
  - intros row. unfold listTraceSteps. rewrite !traces_spec. intros [Hr Hcase].
    destruct (Hnew _ _ Hr) as [Hold|Hx]; [by left|by right].
Qed.

(** What is posted can be read back. Posting a batch to an existing case
    answers ok and counts the valid steps (action id, kind and time given);
    afterwards a read lists every one of them, in order of time among all
    stored rows of the case, and nothing that was stored is lost. A post
    fails only on a time that is no date, and then stores nothing. *)
Theorem trace_post_get now c steps d :
  trace_wf d → plain_cases d → no_colon c → is_Some (db_case d c) →
  match trace_post date_parse now c (Some steps) d with
  | Throw e => e = range_error
  | Ok (r, d') =>
      r = json_ok (JObj [("ok", JBool true);
                         ("inserted", JNum (of_Z (Z.of_nat (length (accepted_steps c steps)))))]) ∧
      (∀ row, row ∈ listTraceSteps d c → row ∈ listTraceSteps d' c) ∧
      (∀ s, s ∈ accepted_steps c steps → ∃ t row,
         normalizeTraceTimestamp date_parse (ti_ts s) = Some t ∧ row ∈ listTraceSteps d' c ∧
         tw_id row = trace_id c (ti_agent_action_id s) (ti_step_kind s) t) ∧
      StronglySorted (λ a b, tw_ts a ≤ tw_ts b) (listTraceSteps d' c) ∧
      (accepted_steps c steps ≠ [] → trace_get None None d' c =
         json_ok (JObj [("case_id", JStr c); ("steps", JArr (step_of_row <$> listTraceSteps d' c))]))
  end.
Proof.
  intros W Hp Hnc Hc. pose proof (trace_post_rows now c steps d W Hp Hnc Hc) as T.
  destruct (trace_post date_parse now c (Some steps) d) as [[r d']|e]; [|by destruct T].
  destruct T as (-> & _ & _ & _ & Hkeep & Hread & _).
  split; [done|]. split; [done|]. split; [done|]. split; [apply traces_sorted|].
  intros Hne. apply trace_get_rows. destruct (accepted_steps c steps) as [|s l]; [done|].
  destruct (Hread s ltac:(left)) as (t & row & _ & Hin & _). intros E. rewrite E in Hin. by apply elem_of_nil in Hin.
Qed.
End Facts.

Definition sample_post : list PostStep :=
  [mkPostStep (Some "a1") None None (Some "tool_call") None (Some (TsNumber (of_Z 1700000000)));
   mkPostStep (Some "a1") None None None None (Some (TsNumber (of_Z 1700000001)))].

Lemma trace_post_get_witness :
  length (accepted_steps "c1" sample_post) = 1%nat ∧
  match trace_post (λ _, None) 9 "c1" (Some sample_post) sample_db with
  | Throw _ => False
  | Ok (_, d') => ∀ s, s ∈ accepted_steps "c1" sample_post → ∃ t row,
         normalizeTraceTimestamp (λ _, None) (ti_ts s) = Some t ∧ row ∈ listTraceSteps d' "c1" ∧
         tw_id row = trace_id "c1" (ti_agent_action_id s) (ti_step_kind s) t
  end.
Proof.
  split; [vm_compute; reflexivity|].
  assert (Hs : is_Some (db_case sample_db "c1")) by (eexists; vm_compute; reflexivity).
  assert (Hp : plain_cases sample_db).
  { intros i r. unfold sample_db; simpl. unfold mem_trace; simpl. by rewrite lookup_empty. }
  assert (Hc : no_colon "c1") by (apply no_colon_dec; reflexivity).
  pose proof (trace_post_get (λ _, None) 9 "c1" sample_post sample_db sample_db_wf Hp Hc Hs) as H.
  destruct (trace_post (λ _, None) 9 "c1" (Some sample_post) sample_db) as [[r d']|e] eqn:E.
  - exact (proj1 (proj2 (proj2 H))).
  - apply (f_equal (λ r, match r with Ok _ => true | Throw _ => false end)) in E. vm_compute in E. discriminate E.
Defined.
