(* ===== verification/TracePanels.v ===== *)
(** * The trace views of a case

    The logic behind the panels that show trace steps:
    - [components/workbench/case-workbench.tsx]: the merge of live and stored
      steps;
    - [components/workbench/attestation-trace-panel.tsx]: the table;
    - [components/workbench/reasoning-trace-viewer.tsx]: the timeline;
    - [components/workbench/investigator-trace-stepper.tsx]: the two steppers.

    [steps.sort((a, b) => a.ts - b.ts)] sorts by [by_ts]: the difference of
    two numbers is positive exactly when the first is greater, and a NaN
    difference counts as equal. *)
From Stdlib Require Import Ascii.
From S2P Require Import Prelude JsObject JsNum JsString JsValue Types.

(** A step of the trace route's answer. *)
Record HttpTraceStep := mkHttpStep {
  hs_kind : string;
  hs_agent_action_id : string;
  hs_agent_id : string;
  hs_execution_path : string;
  hs_verdict : string;
  hs_tool_call_count : num;
  hs_belief_count : num
}.

(** ** The merge of the case view *)

Definition httpTraceToKafkaStep (caseId : string) (step : HttpTraceStep) : KafkaTraceStep :=
  mkKafkaTraceStep caseId "default" (hs_agent_action_id step) (hs_agent_id step) (hs_execution_path step)
    (hs_kind step) (hs_verdict step) zero.

Definition merge_key (t : KafkaTraceStep) : string :=
  ks_agent_action_id t +:+ ":" +:+ ks_step_kind t +:+ ":" +:+ num_to_string (ks_ts t) +:+ ":" +:+ ks_summary t.

Definition mergeTraceSteps (caseId : string) (liveSteps : list KafkaTraceStep) (httpSteps : list HttpTraceStep) :
    list KafkaTraceStep :=
  dedup_by merge_key ∅ (liveSteps ++ (httpTraceToKafkaStep caseId <$> httpSteps)).

(** ** The attestation table *)

Definition kafkaToDisplay (s : KafkaTraceStep) : HttpTraceStep :=
  mkHttpStep (ks_step_kind s) (ks_agent_action_id s) (ks_agent_id s) (ks_execution_path s) (ks_summary s) zero zero.

Record PanelRow := mkPanelRow {
  pr_id : string;
  pr_kind : string;
  pr_summary : string;
  pr_agent_id : string;
  pr_execution_path : string;
  pr_tool_call_count : num;
  pr_belief_count : num;
  pr_agent_action_id : string
}.

Definition toTraceRow (index : nat) (s : HttpTraceStep) : PanelRow :=
  mkPanelRow (hs_agent_action_id s +:+ "-" +:+ hs_kind s +:+ "-" +:+ string_of_Z (Z.of_nat index))
    (hs_kind s) (hs_verdict s) (hs_agent_id s) (hs_execution_path s) (hs_tool_call_count s) (hs_belief_count s)
    (hs_agent_action_id s).

Definition panel_key (s : HttpTraceStep) : string := hs_agent_action_id s +:+ "-" +:+ hs_kind s.

Definition panel_merged (http : list HttpTraceStep) (liveSteps : list KafkaTraceStep) : list HttpTraceStep :=
  dedup_by panel_key ∅ ((kafkaToDisplay <$> liveSteps) ++ http).

Definition panel_rows (http : list HttpTraceStep) (liveSteps : list KafkaTraceStep) : list PanelRow :=
  imap toTraceRow (panel_merged http liveSteps).

Definition panelPrettyKind (kind : string) : string :=
  capitalize_words (replace_char "_"%char " "%char kind).

Definition panelFormatPath (path : string) : string :=
  if String.eqb path "llm" then "LLM"
  else if String.eqb path "hybrid" then "Hybrid"
  else if String.eqb path "classifier" then "Classifier"
  else path.

Definition traceGlobalFilter (filterValue : string) (r : PanelRow) : bool :=
  let q := to_lower filterValue in
  String.eqb q EmptyString ||
  existsb (λ v, includes q (to_lower v))
    [pr_kind r; pr_summary r; pr_agent_id r; pr_execution_path r; pr_agent_action_id r;
     num_to_string (pr_tool_call_count r); num_to_string (pr_belief_count r)].

(** ** The reasoning timeline *)

Record TimelineRow := mkTimelineRow {
  tr_key : string;
  tr_kind : string;
  tr_summary : string;
  tr_agent_id : string;
  tr_execution_path : string;
  tr_agent_action_id : string;
  tr_expandable : bool
}.

Definition TERMINAL_KINDS : list string := ["final_verdict"; "envelope"; "triage_complete"].
Definition terminal_kind (k : string) : bool := existsb (String.eqb k) TERMINAL_KINDS.

Definition expandable_kind (k : string) : bool := String.eqb k "tool_call" || String.eqb k "intermediate_belief".

Definition live_row (s : KafkaTraceStep) : TimelineRow :=
  mkTimelineRow ("live-" +:+ ks_agent_action_id s +:+ "-" +:+ ks_step_kind s +:+ "-" +:+ num_to_string (ks_ts s))
    (ks_step_kind s) (ks_summary s) (ks_agent_id s) (ks_execution_path s) (ks_agent_action_id s)
    (expandable_kind (ks_step_kind s)).

Definition http_row (index : nat) (s : HttpTraceStep) : TimelineRow :=
  mkTimelineRow ("http-" +:+ hs_agent_action_id s +:+ "-" +:+ hs_kind s +:+ "-" +:+ string_of_Z (Z.of_nat index))
    (hs_kind s) (hs_verdict s) (hs_agent_id s) (hs_execution_path s) (hs_agent_action_id s)
    (expandable_kind (hs_kind s)).

Definition fingerprint (r : TimelineRow) : string :=
  tr_agent_action_id r +:+ ":" +:+ tr_kind r +:+ ":" +:+ tr_summary r.

Definition timeline_rows (httpSteps : list HttpTraceStep) (liveSteps : list KafkaTraceStep) : list TimelineRow :=
  dedup_by fingerprint ∅
    (imap http_row (filter (λ s, hs_kind s ≠ "classifier_complete") httpSteps) ++
     (live_row <$> filter (λ s, ks_step_kind s ≠ "classifier_complete") liveSteps)).

(** Whether the row at [index] is shown as completed. *)
Definition row_completed (rows : list TimelineRow) (index : nat) : bool :=
  negb (Nat.eqb index (length rows - 1)) ||
  terminal_kind (default EmptyString (tr_kind <$> last rows)).

Definition viewerPrettyKind (kind : string) : string :=
  if String.eqb kind "intermediate_belief" then "Reasoning"
  else if String.eqb kind "tool_call" then "Tool call"
  else if String.eqb kind "final_verdict" then "Final verdict"
  else if String.eqb kind "envelope" then "Signed envelope"
  else if String.eqb kind "triage_complete" then "Triage complete"
  else if String.eqb kind "classifier_complete" then "Classifier complete"
  else replace_char "_"%char " "%char kind.

(** ** The steppers *)

Definition normPath (p : string) : string := to_lower p.

Definition is_llm_step (s : KafkaTraceStep) : bool :=
  let p := normPath (ks_execution_path s) in String.eqb p "llm" || String.eqb p "hybrid".

Definition phaseOf (kind : string) : Z :=
  if String.eqb kind "intermediate_belief" then 1
  else if String.eqb kind "tool_call" then 2
  else if String.eqb kind "final_verdict" || String.eqb kind "envelope" || String.eqb kind "triage_complete" then 3
  else 0.

Definition by_ts (a b : KafkaTraceStep) : bool := negb (num_ltb (ks_ts b) (ks_ts a)).

Record StepState := mkStepState {
  ss_activeStep : Z;
  ss_loadingStep : option Z;
  ss_step1Done : bool;
  ss_step2Done : bool;
  ss_step3Done : bool
}.

Definition has_kind (kinds : list string) (s : KafkaTraceStep) : bool := existsb (String.eqb (ks_step_kind s)) kinds.

Definition deriveStepState (llmSteps : list KafkaTraceStep) : StepState :=
  let sorted := sort_by by_ts llmSteps in
  match last sorted with
  | None => mkStepState 1 (Some 1) false false false
  | Some last_step =>
      let lk := ks_step_kind last_step in
      let step1Done := existsb (λ s, 2 <=? phaseOf (ks_step_kind s)) sorted in
      let step2Done := existsb (has_kind ["final_verdict"; "envelope"; "triage_complete"]) sorted in
      let step3Done := existsb (has_kind ["envelope"; "triage_complete"]) sorted in
      let '(activeStep, loadingStep) :=
        if step3Done then (3, None)
        else if String.eqb lk "final_verdict" then (3, Some 3)
        else if String.eqb lk "tool_call" then (2, Some 2)
        else if String.eqb lk "intermediate_belief" then (1, Some 1)
        else let a := Z.min 3 (Z.max 1 (if phaseOf lk =? 0 then 1 else phaseOf lk)) in (a, Some a) in
      mkStepState activeStep loadingStep step1Done step2Done step3Done
  end.

(** [InvestigatorTraceStepper]: [None] renders nothing; otherwise the state
    and the three completed flags. *)
Definition investigator_stepper (liveSteps : list KafkaTraceStep) (executionPath verdict : string) :
    option (StepState * (bool * bool * bool)) :=
  let llmSteps := filter (λ s, is_llm_step s = true) liveSteps in
  if String.eqb verdict "needs_investigation" || String.eqb executionPath "llm" || (0 <? length llmSteps)%nat then
    let st := deriveStepState llmSteps in
    Some (st, (ss_step1Done st || ss_step3Done st, ss_step2Done st || ss_step3Done st, ss_step3Done st))
  else None.

Record PipelineState := mkPipelineState {
  pl_activeStep : Z;
  pl_loadingStep : option Z;
  pl_done : bool * bool * bool * bool
}.

(** [TriagePipelineStepper], [elapsed] milliseconds after its start. *)
Definition pipeline_state (liveSteps : list KafkaTraceStep) (elapsed : Z) : PipelineState :=
  let hasLlmSteps := existsb is_llm_step liveSteps in
  let hasFinalVerdict := existsb (has_kind ["final_verdict"; "triage_complete"]) liveSteps in
  let hasEnvelope := existsb (has_kind ["envelope"; "triage_complete"]) liveSteps in
  let hasClassifierStep := existsb (has_kind ["classifier_complete"]) liveSteps in
  let classifierLikelyDone := hasClassifierStep || (5000 <? elapsed) in
  let step2Done := hasLlmSteps || hasEnvelope || classifierLikelyDone in
  let step3Done := hasEnvelope || hasFinalVerdict in
  let step4Done := hasEnvelope in
  mkPipelineState
    (if step4Done then 4 else if step3Done then 4 else if step2Done then 3 else 2)
    (if step4Done then None else if step3Done then Some 4 else if step2Done then Some 3 else Some 2)
    (true, step2Done, step3Done, step4Done).

Definition formatElapsed (ms : Z) : string :=
  if ms <? 1000 then string_of_Z ms +:+ "ms" else to_fixed 1 (num_div (of_Z ms) (of_Z 1000)) +:+ "s".

(** [STEP_META] labels *)
Definition step_label (kind : string) : string :=
  if String.eqb kind "tool_call" then "Tool call"
  else if String.eqb kind "intermediate_belief" then "Reasoning"
  else if String.eqb kind "classifier_complete" then "Classifier"
  else if String.eqb kind "final_verdict" then "Verdict"
  else if String.eqb kind "envelope" then "Attested"
  else kind.

(** ** Facts *)

Lemma existsb_elem {A} (P : A → bool) (l : list A) : existsb P l = true ↔ ∃ x, x ∈ l ∧ P x = true.
Proof. rewrite existsb_exists. by setoid_rewrite list_elem_of_In. Qed.

Lemma existsb_mono {A} (P Q : A → bool) (l l' : list A) :
  (∀ x, P x = true → Q x = true) → l ⊆ l' → existsb P l = true → existsb Q l' = true.
Proof. rewrite !existsb_elem. intros HPQ Hl (x & Hx & HP). exists x. auto. Qed.

Lemma sorted_elem l x : x ∈ sort_by by_ts l ↔ x ∈ l.
Proof. by rewrite sort_by_perm. Qed.

(** The flags, without the sort. *)
Lemma deriveStepState_flags l :
  ss_step1Done (deriveStepState l) = existsb (λ s, 2 <=? phaseOf (ks_step_kind s)) (sort_by by_ts l) ∧
  ss_step2Done (deriveStepState l) = existsb (has_kind ["final_verdict"; "envelope"; "triage_complete"]) (sort_by by_ts l) ∧
  ss_step3Done (deriveStepState l) = existsb (has_kind ["envelope"; "triage_complete"]) (sort_by by_ts l).
Proof.
  unfold deriveStepState. destruct (last (sort_by by_ts l)) as [t|] eqn:E.
  - by repeat case_match.
  - apply last_None in E. by rewrite E.
Qed.

Lemma sorted_subset l l' : l ⊆ l' → sort_by by_ts l ⊆ sort_by by_ts l'.
Proof. intros H x. rewrite !sorted_elem. apply H. Qed.

Lemma has_kind_more k ks s : has_kind ks s = true → has_kind (k :: ks) s = true.
Proof. simpl. intros ->. by rewrite orb_true_r. Qed.

Lemma terminal_phase s : has_kind ["final_verdict"; "envelope"; "triage_complete"] s = true → (2 <=? phaseOf (ks_step_kind s)) = true.
Proof.
  unfold has_kind. simpl. rewrite !orb_true_iff.
  intros [E|[E|[E|E]]]; [..|done]; apply String.eqb_eq in E; by rewrite E.
Qed.

(** The active step of the pipeline, from its flags. *)
Definition pipeline_active (d2 d3 d4 : bool) : Z := if d4 then 4 else if d3 then 4 else if d2 then 3 else 2.

Lemma pipeline_active_mono d2 d3 d4 d2' d3' d4' :
  (d2 = true → d2' = true) → (d3 = true → d3' = true) → (d4 = true → d4' = true) →
  2 ≤ pipeline_active d2 d3 d4 ≤ pipeline_active d2' d3' d4'.
Proof. intros H2 H3 H4. destruct d2, d3, d4, d2', d3', d4'; simpl; try lia; naive_solver. Qed.

(** The second and third flag. *)
Definition pl_done2 (l : list KafkaTraceStep) (e : Z) : bool :=
  existsb is_llm_step l || existsb (has_kind ["envelope"; "triage_complete"]) l ||
  (existsb (has_kind ["classifier_complete"]) l || (5000 <? e)).
Definition pl_done3 (l : list KafkaTraceStep) : bool :=
  existsb (has_kind ["envelope"; "triage_complete"]) l || existsb (has_kind ["final_verdict"; "triage_complete"]) l.

Lemma or_mono (a b a' b' : bool) :
  (a = true → a' = true) → (b = true → b' = true) → a || b = true → a' || b' = true.
Proof. rewrite !orb_true_iff. tauto. Qed.

Lemma deriveStepState_active l :
  let st := deriveStepState l in
  1 ≤ ss_activeStep st ≤ 3 ∧ ss_loadingStep st = if ss_step3Done st then None else Some (ss_activeStep st).
Proof.
  unfold deriveStepState. destruct (last (sort_by by_ts l)) as [t|]; simpl; [|split; [lia|done]].
  destruct (existsb (has_kind ["envelope"; "triage_complete"]) _); simpl; [split; [lia|done]|].
  repeat (destruct (String.eqb (ks_step_kind t) _); simpl; [split; [lia|done]|]). split; [lia|done].
Qed.

Definition sample_run : list KafkaTraceStep :=
  [mkKafkaTraceStep "c1" "default" "a1" "investigator" "llm" "tool_call" "query" (of_Z 5);
   mkKafkaTraceStep "c1" "default" "a1" "investigator" "llm" "intermediate_belief" "odd region" (of_Z 4)].
Definition sample_envelope : KafkaTraceStep :=
  mkKafkaTraceStep "c1" "default" "a1" "investigator" "llm" "envelope" "signed" (of_Z 9).

(** the progress shown for a case is consistent. In the investigator's
    stepper a later step is never done before an earlier one, the active step
    is one of the three and is the one loading until the envelope is there;
    in the pipeline the last step being done means all are. In both, nothing
    that was shown as done is undone when more steps, in any order, or more
    time arrive. *)
Theorem stepper_progress l l' e e' :
  l ⊆ l' → e ≤ e' →
  let st := deriveStepState l in
  let st' := deriveStepState l' in
  (ss_step3Done st = true → ss_step2Done st = true) ∧ (ss_step2Done st = true → ss_step1Done st = true) ∧
  (1 ≤ ss_activeStep st ≤ 3 ∧ ss_loadingStep st = if ss_step3Done st then None else Some (ss_activeStep st)) ∧
  (ss_step1Done st = true → ss_step1Done st' = true) ∧ (ss_step2Done st = true → ss_step2Done st' = true) ∧
  (ss_step3Done st = true → ss_step3Done st' = true) ∧
  let '(d1, d2, d3, d4) := pl_done (pipeline_state l e) in
  let '(d1', d2', d3', d4') := pl_done (pipeline_state l' e') in
  (d4 = true → d1 = true ∧ d2 = true ∧ d3 = true) ∧
  (d2 = true → d2' = true) ∧ (d3 = true → d3' = true) ∧ (d4 = true → d4' = true) ∧
  2 ≤ pl_activeStep (pipeline_state l e) ≤ pl_activeStep (pipeline_state l' e').
Proof.
  intros Hl He st st'.
  destruct (deriveStepState_flags l) as (F1 & F2 & F3). destruct (deriveStepState_flags l') as (F1' & F2' & F3').
  pose proof (sorted_subset l l' Hl) as Hs. subst st st'. rewrite F1, F2, F3, F1', F2', F3'.
  split; [by apply existsb_mono; [apply has_kind_more|]|].
  split; [apply existsb_mono; [apply terminal_phase|done]|].
  split; [|split; [by apply existsb_mono|split; [by apply existsb_mono|split; [by apply existsb_mono|]]]].
  - rewrite <- F3. apply deriveStepState_active.
  - assert (M : ∀ P, existsb P l = true → existsb P l' = true) by (intros P; by apply existsb_mono).
    assert (Ht : (5000 <? e) = true → (5000 <? e') = true) by (rewrite !Z.ltb_lt; lia).
    simpl. split; [intros ->; by rewrite orb_true_r|].
    assert (M2 : pl_done2 l e = true → pl_done2 l' e' = true) by (repeat (apply or_mono; auto)).
    assert (M3 : pl_done3 l = true → pl_done3 l' = true) by (apply or_mono; auto).
    split; [done|]. split; [done|]. split; [apply M|]. by apply pipeline_active_mono; [|..|apply M].
Qed.

Lemma stepper_progress_witness :
  ss_step3Done (deriveStepState (sample_run ++ [sample_envelope])) = true ∧
  1 ≤ ss_activeStep (deriveStepState sample_run) ≤ 3.
Proof.
  split; [vm_compute; reflexivity|].
  apply (stepper_progress sample_run (sample_run ++ [sample_envelope]) 10 20); [|lia].
  intros x Hx. apply elem_of_app. by left.
Defined.

(** ** What the attestation table hides *)

Lemma NoDup_lookup_key {A} (f : A → string) (l : list A) i j x y :
  NoDup (f <$> l) → l !! i = Some x → l !! j = Some y → f x = f y → i = j.
Proof.
  intros Hn Hi Hj E. eapply (NoDup_lookup _ i j (f x)); [exact Hn| |]; rewrite list_lookup_fmap.
  - by rewrite Hi.
  - by rewrite Hj, E.
Qed.

Lemma panel_row_inv http live i r :
  panel_rows http live !! i = Some r → ∃ s, panel_merged http live !! i = Some s ∧ r = toTraceRow i s.
Proof. unfold panel_rows. rewrite list_lookup_imap. intros (s & E & ->)%fmap_Some. by exists s. Qed.

(** The attestation table shows at most one row per action and kind, the
    first in the order it is given: live steps, which the store keeps newest
    first, before stored ones. An investigation that makes several tool calls
    under one action id shows only one of them. Every other step has a row
    with its key, and every row is one of the steps. *)
Theorem attestation_panel_rows http live :
  let rows := panel_rows http live in
  let steps := (kafkaToDisplay <$> live) ++ http in
  (∀ i j r1 r2, rows !! i = Some r1 → rows !! j = Some r2 →
     pr_agent_action_id r1 = pr_agent_action_id r2 → pr_kind r1 = pr_kind r2 → i = j) ∧
  (∀ l1 s l2, steps = l1 ++ s :: l2 → panel_key s ∉ panel_key <$> l1 → ∃ i, rows !! i = Some (toTraceRow i s)) ∧
  (∀ i r, rows !! i = Some r → ∃ s, s ∈ steps ∧ r = toTraceRow i s).
Proof.
  intros rows steps. split; [|split].
  - intros i j r1 r2 (s1 & E1 & ->)%panel_row_inv (s2 & E2 & ->)%panel_row_inv Ha Hk. simpl in *.
    eapply (NoDup_lookup_key panel_key (panel_merged http live)); [apply dedup_by_NoDup|exact E1|exact E2|].
    unfold panel_key. by rewrite Ha, Hk.
  - intros l1 s l2 Hsteps Hfirst.
    assert (Hin : s ∈ panel_merged http live).
    { unfold panel_merged. fold steps. rewrite Hsteps. apply dedup_by_first; [set_solver|done]. }
    apply list_elem_of_lookup in Hin as [i E]. exists i. unfold rows, panel_rows. by rewrite list_lookup_imap, E.
  - intros i r (s & E & ->)%panel_row_inv. exists s. split; [|done].
    apply (dedup_by_subset panel_key ∅). by eapply list_elem_of_lookup_2.
Qed.

(** Every step is represented in the table, by a row of its key. *)
Lemma panel_rows_cover http live s :
  s ∈ (kafkaToDisplay <$> live) ++ http →
  ∃ r, r ∈ panel_rows http live ∧ pr_agent_action_id r +:+ "-" +:+ pr_kind r = panel_key s.
Proof.
  intros Hs. assert (Hk : panel_key s ∈ panel_key <$> panel_merged http live).
  { unfold panel_merged. rewrite dedup_by_keys. split; [by apply list_elem_of_fmap_2|set_solver]. }
  apply list_elem_of_fmap in Hk as (t & Hk & [i Hi]%list_elem_of_lookup). exists (toTraceRow i t).
  split; [|by rewrite Hk]. apply (list_elem_of_lookup_2 _ i). unfold panel_rows. by rewrite list_lookup_imap, Hi.
Qed.

Definition two_tool_calls : list KafkaTraceStep :=
  [mkKafkaTraceStep "c1" "default" "a1" "investigator" "llm" "tool_call" "second query" (of_Z 7);
   mkKafkaTraceStep "c1" "default" "a1" "investigator" "llm" "tool_call" "first query" (of_Z 5)].

Example two_tool_calls_one_row : pr_summary <$> panel_rows [] two_tool_calls = ["second query"].
Proof. vm_compute. reflexivity. Qed.

(** A stored step is converted with [ts = 0], so a step that is both live and
    stored is kept twice by the case view's merge. *)
Definition stored_copy (t : KafkaTraceStep) : HttpTraceStep := kafkaToDisplay t.

Example merge_keeps_both :
  ks_summary <$> mergeTraceSteps "c1" sample_run (stored_copy <$> sample_run) =
  ["query"; "odd region"; "query"; "odd region"].
Proof. vm_compute. reflexivity. Qed.
