(* ===== verification/TraceLoads.v ===== *)
(** * Stored steps on a case page

    The requests for the stored trace of a case and what becomes of their
    answers:
    - [components/workbench/attestation-trace-panel.tsx]: the panel's fetch
      state, its view and the filters of its table;
    - [components/workbench/case-workbench.tsx]: [loadTrace] and the effects
      that call it.
    Both send requests that may overlap and take every answer when it comes;
    [Loader] is that discipline, with the facts both use. *)
From S2P Require Import Prelude JsObject JsNum JsString JsValue Types Effects TracePanels.

(** ** Overlapping requests *)
Section Loader.
Context {K A : Type}.

(** The state variable an answer is written to, the requests under way (by
    number, with what was asked), and two histories: the questions of all
    requests and the request whose answer is held. *)
Record loader := mkLoader {
  ld_data : A;
  ld_pending : list (nat * K);
  ld_sent : list K;
  ld_from : option nat
}.

Definition loader_init (a : A) : loader := mkLoader a [] [] None.

Definition load (k : K) (l : loader) : loader :=
  mkLoader (ld_data l) (ld_pending l ++ [(length (ld_sent l), k)]) (ld_sent l ++ [k]) (ld_from l).

(** Request [i] is answered with [a]. *)
Definition answer (i : nat) (a : A) (l : loader) : option loader :=
  match list_find (λ p, p.1 = i) (ld_pending l) with
  | Some (j, _) => Some (mkLoader a (delete j (ld_pending l)) (ld_sent l) (Some i))
  | None => None
  end.

Record loader_inv (l : loader) : Prop := {
  li_sorted : StronglySorted lt (ld_pending l).*1;
  li_asked : ∀ i k, (i, k) ∈ ld_pending l → ld_sent l !! i = Some k;
  li_from : ∀ i, ld_from l = Some i → (i < length (ld_sent l))%nat ∧ i ∉ (ld_pending l).*1;
  li_none : ld_from l = None → length (ld_pending l) = length (ld_sent l)
}.

(** The answers came in the order of their requests: what is under way is
    newer than the request whose answer is held. *)
Definition in_order (l : loader) : Prop :=
  ∀ n, n ∈ (ld_pending l).*1 ↔ (n < length (ld_sent l))%nat ∧ ∀ f, ld_from l = Some f → (f < n)%nat.

Lemma loader_init_inv a : loader_inv (loader_init a).
Proof. constructor; simpl; [constructor|by intros ?? ?%elem_of_nil|done|done]. Qed.

Lemma sorted_snoc (l : list nat) n : StronglySorted lt l → (∀ x, x ∈ l → (x < n)%nat) → StronglySorted lt (l ++ [n]).
Proof.
  induction 1 as [|x l Hs IH Hx]; intros Hn; simpl; [by repeat constructor|].
  constructor; [apply IH; intros y Hy; apply Hn; by right|].
  apply Forall_app. split; [done|]. repeat constructor. apply Hn. left.
Qed.

Lemma load_inv k l : loader_inv l → loader_inv (load k l).
Proof.
  intros [Hs Ha Hf Hn]. unfold load. constructor; simpl.
  - rewrite fmap_app. apply sorted_snoc; [done|]. intros x ([i k'] & -> & Hin)%list_elem_of_fmap. simpl.
    apply Ha in Hin. by eapply lookup_lt_Some.
  - intros i k' [Hin|Hin]%elem_of_app.
    + apply lookup_app_l_Some. by apply Ha.
    + apply list_elem_of_singleton in Hin as [= -> ->]. by rewrite lookup_app_r, Nat.sub_diag by lia.
  - intros i Hi. destruct (Hf i Hi) as [Hl Hp]. rewrite length_app, fmap_app. simpl. split; [lia|].
    rewrite not_elem_of_app, list_elem_of_singleton. split; [done|lia].
  - intros Hi. rewrite !length_app. simpl. by rewrite Hn.
Qed.

Lemma load_in_order k l : loader_inv l → in_order l → in_order (load k l).
Proof.
  intros I O n. unfold load. simpl. rewrite fmap_app, elem_of_app, (O n), length_app. csimpl. rewrite list_elem_of_singleton.
  split.
  - intros [[Hn Hf]| ->]; (split; [lia|]); [done|]. intros f Hf. by destruct (li_from _ I f Hf).
  - intros [Hn Hf]. destruct (decide (n = length (ld_sent l))); [by right|left]. split; [lia|done].
Qed.

Lemma sublist_sorted (l k : list nat) : l `sublist_of` k → StronglySorted lt k → StronglySorted lt l.
Proof.
  induction 1 as [|x l k Hs IH|x l k Hs IH]; intros S; [done|..]; apply StronglySorted_inv in S as [S F]; [|by apply IH].
  constructor; [by apply IH|]. rewrite Forall_forall in F |- *. intros y Hy. apply F. by eapply elem_of_sublist.
Qed.

Lemma answer_cases i a l l' :
  answer i a l = Some l' →
  ∃ j k, ld_pending l !! j = Some (i, k) ∧ l' = mkLoader a (delete j (ld_pending l)) (ld_sent l) (Some i).
Proof.
  unfold answer. destruct (list_find _ _) as [[j [i' k]]|] eqn:E; [|done]. intros [= <-].
  apply list_find_Some in E as (E & Hi & _). simpl in Hi. subst i'. by exists j, k.
Qed.

Lemma delete_other (l : list nat) j i x : StronglySorted lt l → l !! j = Some i → x ∈ delete j l → x ∈ l ∧ x ≠ i.
Proof.
  intros S Hj Hx. split; [eapply elem_of_sublist; [done|apply sublist_delete]|]. intros ->.
  revert j Hj Hx. induction S as [|y l S IH F]; intros [|j] Hj Hx; [done..|simpl in *|simpl in *].
  - injection Hj as ->. rewrite Forall_forall in F. specialize (F i Hx). lia.
  - apply elem_of_cons in Hx as [->|Hx]; [|by apply (IH j)].
    rewrite Forall_forall in F. apply list_elem_of_lookup_2 in Hj. specialize (F y Hj). lia.
Qed.

Lemma delete_keeps (l : list nat) j i x : l !! j = Some i → x ∈ l → x ≠ i → x ∈ delete j l.
Proof.
  revert j. induction l as [|y l IH]; intros [|j] Hj Hx Hne; [done..|simpl in *|simpl in *].
  - injection Hj as ->. by apply elem_of_cons in Hx as [->|Hx].
  - apply elem_of_cons in Hx as [->|Hx]; [left|right]. by apply IH.
Qed.

Lemma answer_inv i a l l' : answer i a l = Some l' → loader_inv l → loader_inv l'.
Proof.
  intros (j & k & Hj & ->)%answer_cases [Hs Ha Hf Hn].
  assert (Hjf : (ld_pending l).*1 !! j = Some i) by (by rewrite list_lookup_fmap, Hj).
  constructor; simpl; rewrite ?list_fmap_delete.
  - eapply sublist_sorted; [apply sublist_delete|done].
  - intros i' k' Hin. apply Ha. eapply elem_of_sublist; [done|apply sublist_delete].
  - intros ? [= <-]. split.
    + apply list_elem_of_lookup_2, Ha in Hj. by eapply lookup_lt_Some.
    + intros Hin. by apply (delete_other _ j i i Hs Hjf) in Hin as [_ ?].
  - done.
Qed.

(** The oldest request is answered first: the order is kept. *)
Lemma answer_head_in_order i a k p l l' :
  loader_inv l → in_order l → ld_pending l = (i, k) :: p → answer i a l = Some l' → in_order l'.
Proof.
  intros I O Hp (j & k' & Hj & ->)%answer_cases n. simpl. rewrite list_fmap_delete.
  pose proof (li_sorted _ I) as S. assert (Hjf : (ld_pending l).*1 !! j = Some i) by (by rewrite list_lookup_fmap, Hj).
  assert (Hi : ∀ x, x ∈ (ld_pending l).*1 → x ≠ i → (i < x)%nat).
  { intros x Hx Hne. rewrite Hp in S, Hx. csimpl. csimpl in S. csimpl in Hx. apply StronglySorted_inv in S as [_ F].
    rewrite Forall_forall in F. apply elem_of_cons in Hx as [->|Hx]; [done|by apply F]. }
  assert (Hin : i ∈ (ld_pending l).*1) by (by eapply list_elem_of_lookup_2).
  split.
  - intros Hn. destruct (delete_other _ j i n S Hjf Hn) as [Hn' Hne]. pose proof (Hi n Hn' Hne).
    apply (O n) in Hn' as [? _]. split; [done|]. by intros f [= <-].
  - intros [Hn Hf]. specialize (Hf i eq_refl). apply delete_keeps with (i := i); [done| |lia].
    apply (O n). split; [done|]. intros f Hf'. apply (O i) in Hin as [_ Hin]. specialize (Hin f Hf'). lia.
Qed.

(** When nothing is under way and the answers came in order, what is held is
    the answer to the last request. *)
Lemma settled_last l :
  loader_inv l → in_order l → ld_pending l = [] → ld_sent l ≠ [] →
  ld_from l = Some (pred (length (ld_sent l))).
Proof.
  intros I O E Hs. assert (length (ld_sent l) ≠ 0%nat) by (by destruct (ld_sent l)).
  pose proof (O (pred (length (ld_sent l)))) as [_ H1]. rewrite E in H1. destruct (ld_from l) as [f|] eqn:Ef.
  - destruct (li_from _ I f Ef) as [Hf _]. destruct (decide (f < pred (length (ld_sent l)))%nat) as [Hlt|].
    + exfalso. assert (Hin : pred (length (ld_sent l)) ∈ ([] : list nat)); [|by apply elem_of_nil in Hin].
      apply H1. split; [lia|]. by intros ? [= <-].
    + f_equal. lia.
  - exfalso. assert (Hin : pred (length (ld_sent l)) ∈ ([] : list nat)); [|by apply elem_of_nil in Hin].
    apply H1. split; [lia|done].
Qed.

Lemma loader_init_in_order a : in_order (loader_init a).
Proof. intros n. simpl. rewrite elem_of_nil. split; [done|lia]. Qed.
End Loader.
Arguments loader : clear implicits.

(** ** Answers of the trace route *)

(** A JSON object read as an [HttpTraceStep]. *)
Definition as_step (v : jsval) : option HttpTraceStep :=
  match prop "kind" v, prop "agent_action_id" v, prop "agent_id" v, prop "execution_path" v, prop "verdict" v,
        prop "tool_call_count" v, prop "belief_count" v with
  | JStr k, JStr a, JStr g, JStr p, JStr d, JNum t, JNum b => Some (mkHttpStep k a g p d t b)
  | _, _, _, _, _, _, _ => None
  end.

(** [j?.steps]: absent, or a list of the declared type. *)
Definition as_steps (j : jsval) : option (option (list HttpTraceStep)) :=
  match prop "steps" j with
  | JUndef | JNull => Some None
  | JArr l => Some <$> mapM as_step l
  | _ => None
  end.

(** ** The attestation panel *)
Module Panel.

Record TraceResponse := mkTraceResponse {
  tp_steps : option (list HttpTraceStep);
  tp_error : option string
}.

(** What [fetchCaseTrace] and its two continuations pass to [setData]; the
    status is not looked at. [None] for an answer of another type. *)
Definition read_trace (r : res fetched) : option (option TraceResponse) :=
  let failed := Some (Some (mkTraceResponse None (Some "Failed to load trace"))) in
  match r with
  | Throw _ => failed
  | Ok x =>
      match ft_json x with
      | None => failed
      | Some JNull => Some None
      | Some (JObj o) =>
          match as_steps (JObj o), prop "error" (JObj o) with
          | Some steps, (JUndef | JNull) => Some (Some (mkTraceResponse steps None))
          | Some steps, JStr e => Some (Some (mkTraceResponse steps (Some e)))
          | _, _ => None
          end
      | Some _ => None
      end
  end.

Record panel := mkPanel {
  pn_caseId : string;                          (** the prop *)
  pn_loading : bool;
  pn_microtasks : list string;                 (** queued calls of [load], by case *)
  pn_trace : loader string (option TraceResponse)
}.

Definition panel_mount (caseId : string) : panel := mkPanel caseId true [caseId] (loader_init None).

(** [load], as made for [caseId]. *)
Definition panel_load (caseId : string) (s : panel) : panel :=
  mkPanel (pn_caseId s) true (pn_microtasks s) (load caseId (pn_trace s)).

Inductive panel_event :=
| PnMicrotask                                           (** the queued [load] runs *)
| PnRefresh                                             (** the button *)
| PnCase (caseId : string)                              (** a new prop: a new [load], so the effect *)
| PnAnswer (i : nat) (d : option TraceResponse).

Definition panel_handle (e : panel_event) (s : panel) : option panel :=
  match e with
  | PnMicrotask =>
      match pn_microtasks s with
      | c :: q => Some (panel_load c (mkPanel (pn_caseId s) (pn_loading s) q (pn_trace s)))
      | [] => None
      end
  | PnRefresh => Some (panel_load (pn_caseId s) s)
  | PnCase c =>
      Some (mkPanel c (pn_loading s) (if String.eqb c (pn_caseId s) then pn_microtasks s else pn_microtasks s ++ [c]) (pn_trace s))
  | PnAnswer i d => (λ l, mkPanel (pn_caseId s) false (pn_microtasks s) l) <$> answer i d (pn_trace s)
  end.

Inductive panel_view :=
| PvLoading
| PvError (e : string)
| PvEmpty (caseId : string)
| PvTable (rows : list PanelRow).

Definition panel_rows_of (live : list KafkaTraceStep) (s : panel) : list PanelRow :=
  panel_rows (default [] (ld_data (pn_trace s) ≫= tp_steps)) live.

Definition view (live : list KafkaTraceStep) (s : panel) : panel_view :=
  match ld_data (pn_trace s), pn_loading s with
  | None, true => PvLoading
  | d, _ =>
      match d ≫= tp_error with
      | Some (String _ _ as e) => PvError e
      | _ => match panel_rows_of live s with [] => PvEmpty (pn_caseId s) | rows => PvTable rows end
      end
  end.

(** The filters of the columns, by accessor. *)
Definition kind_filter (value : string) (r : PanelRow) : bool := includes (to_lower value) (to_lower (pr_kind r)).
Definition summary_filter (value : string) (r : PanelRow) : bool := includes (to_lower value) (to_lower (pr_summary r)).
Definition agent_filter (value : string) (r : PanelRow) : bool :=
  includes (to_lower value) (to_lower (pr_agent_id r)) || includes (to_lower value) (to_lower (pr_execution_path r)).
Definition tools_filter (value : string) (r : PanelRow) : bool := includes value (num_to_string (pr_tool_call_count r)).
Definition action_filter (value : string) (r : PanelRow) : bool :=
  includes (to_lower value) (to_lower (pr_agent_action_id r)).

(** The rows that pass the two inputs of the toolbar, before sorting. *)
Definition visible_rows (globalFilter kind : string) (rows : list PanelRow) : list PanelRow :=
  filter (λ r, traceGlobalFilter globalFilter r && kind_filter kind r = true) rows.

Definition plural (n : nat) : string := if Nat.eqb n 1 then EmptyString else "s".
Definition string_of_nat' (n : nat) : string := string_of_Z (Z.of_nat n).
Definition toolbar_count (visible : nat) : string := string_of_nat' visible +:+ " step" +:+ plural visible.
Definition footer_count (visible total : nat) : string :=
  string_of_nat' visible +:+ " / " +:+ string_of_nat' total +:+ " step" +:+ plural total.

(** *** Facts *)

Definition panel_step (s s' : panel) : Prop := ∃ e, panel_handle e s = Some s'.

(** The next answer is the one to the oldest request. *)
Definition ordered_step (s s' : panel) : Prop :=
  ∃ e, panel_handle e s = Some s' ∧
    match e with PnAnswer i _ => head (ld_pending (pn_trace s)).*1 = Some i | _ => True end.

Record panel_inv (s : panel) : Prop := {
  pi_loader : loader_inv (pn_trace s);
  pi_current : last (ld_sent (pn_trace s) ++ pn_microtasks s) = Some (pn_caseId s);
  pi_loading : ld_sent (pn_trace s) ≠ [] → ld_pending (pn_trace s) = [] → pn_loading s = false;
  pi_first : ld_from (pn_trace s) = None → pn_loading s = true ∧ ld_data (pn_trace s) = None
}.

Lemma panel_mount_inv c : panel_inv (panel_mount c).
Proof. constructor; simpl; [apply loader_init_inv|done..]. Qed.

Lemma panel_handle_inv e s s' : panel_handle e s = Some s' → panel_inv s → panel_inv s'.
Proof.
  intros E [Il Ic Iw If]. destruct e as [| |c|i d]; cbn [panel_handle] in E.
  - destruct (pn_microtasks s) as [|c q] eqn:Eq; [done|]. injection E as <-. constructor; simpl.
    + by apply load_inv.
    + by rewrite <- app_assoc.
    + intros _ H. by apply app_eq_nil in H as [_ ?].
    + intros Hf. by destruct (If Hf).
  - injection E as <-. constructor; simpl.
    + by apply load_inv.
    + rewrite <- app_assoc. simpl. destruct (pn_microtasks s) as [|c q] eqn:Eq; [by rewrite last_snoc|].
      rewrite last_app_cons in Ic |- *. by rewrite last_cons_cons.
    + intros _ H. by apply app_eq_nil in H as [_ ?].
    + intros Hf. by destruct (If Hf).
  - injection E as <-. destruct (String.eqb_spec c (pn_caseId s)) as [->|Hc]; constructor; simpl; try done.
    by rewrite app_assoc, last_snoc.
  - apply fmap_Some in E as (l & E & ->). pose proof (answer_inv _ _ _ _ E Il) as Il'.
    apply answer_cases in E as (j & k & _ & ->). by constructor.
Qed.

Lemma panel_reach_inv c s : star panel_step (panel_mount c) s → panel_inv s.
Proof.
  intros R. refine (star_invariant _ panel_inv _ _ (panel_mount_inv c) _ R).
  intros a b I [e E]. by eapply panel_handle_inv.
Qed.

(** The spinner ends: whenever the panel is loading, a request or a queued
    load is under way. *)
Lemma loading_pending c s :
  star panel_step (panel_mount c) s → pn_loading s = true → ld_pending (pn_trace s) ≠ [] ∨ pn_microtasks s ≠ [].
Proof.
  intros R Hl. destruct (panel_reach_inv c s R) as [Il Ic Iw _].
  destruct (pn_microtasks s) as [|m q]; [left|by right]. intros Hp. rewrite app_nil_r in Ic.
  rewrite Iw in Hl; [done| |done]. intros E. by rewrite E in Ic.
Qed.

Lemma ordered_inv c s : star ordered_step (panel_mount c) s → star panel_step (panel_mount c) s ∧ in_order (pn_trace s).
Proof.
  intros R. assert (P : panel_inv s ∧ in_order (pn_trace s) ∧ star panel_step (panel_mount c) s).
  { refine (star_invariant _ (λ s, panel_inv s ∧ in_order (pn_trace s) ∧ star panel_step (panel_mount c) s) _ _ _ _ R).
    { split; [apply panel_mount_inv|split; [apply loader_init_in_order|constructor]]. }
    intros a b (I & O & Rab) (e & E & H). split; [by eapply panel_handle_inv|].
    split; [|econstructor; [done|by exists e]]. pose proof (pi_loader _ I) as Il.
    destruct e as [| |k|i d]; cbn [panel_handle] in E.
    - destruct (pn_microtasks a); [done|]. injection E as <-. by apply load_in_order.
    - injection E as <-. by apply load_in_order.
    - by injection E as <-.
    - apply fmap_Some in E as (l & E & ->). simpl.
      destruct (ld_pending (pn_trace a)) as [|[i' k] p] eqn:Ep; [done|]. injection H as ->. by eapply answer_head_in_order. }
  tauto.
Qed.

(** When the answers arrive in the order of their requests, what a settled
    panel shows is the answer to its last request, and that request asked
    for the case the panel is for; nothing is loading any more. *)
Theorem panel_shows_current c s :
  star ordered_step (panel_mount c) s → ld_pending (pn_trace s) = [] → pn_microtasks s = [] →
  pn_loading s = false ∧
  ∃ i, ld_from (pn_trace s) = Some i ∧ ld_sent (pn_trace s) !! i = Some (pn_caseId s) ∧
       S i = length (ld_sent (pn_trace s)).
Proof.
  intros R Hp Hm. apply ordered_inv in R as [R O]. destruct (panel_reach_inv c s R) as [Il Ic Iw _].
  rewrite Hm, app_nil_r in Ic.
  assert (Hs : ld_sent (pn_trace s) ≠ []) by (intros E; by rewrite E in Ic).
  split; [by apply Iw|]. eexists. split; [by apply settled_last|]. rewrite <- last_lookup. split; [done|].
  by destruct (ld_sent (pn_trace s)).
Qed.

Definition row_for_case (c : string) : HttpTraceStep := mkHttpStep "tool_call" c "investigator" "llm" "s" (of_Z 1) zero.
Definition answer_for (c : string) : option TraceResponse := Some (mkTraceResponse (Some [row_for_case c]) None).

Definition run_panel (es : list panel_event) (s : panel) : option panel := foldl (λ o e, o ≫= panel_handle e) (Some s) es.

Definition settled_panel : panel :=
  mkPanel "c1" false [] (mkLoader (answer_for "c1") [] ["c1"; "c1"] (Some 1%nat)).

Lemma settled_panel_reached : star ordered_step (panel_mount "c1") settled_panel.
Proof.
  eapply star_snoc; [eapply star_snoc; [eapply star_snoc; [eapply star_snoc; [apply star_refl|]|]|]|].
  - exists PnMicrotask. split; [vm_compute; reflexivity|exact I].
  - exists (PnAnswer 0 (answer_for "c1")). split; vm_compute; reflexivity.
  - exists PnRefresh. split; [vm_compute; reflexivity|exact I].
  - exists (PnAnswer 1 (answer_for "c1")). split; vm_compute; reflexivity.
Qed.

Lemma panel_shows_current_witness :
  pn_loading settled_panel = false ∧
  ∃ i, ld_from (pn_trace settled_panel) = Some i ∧ ld_sent (pn_trace settled_panel) !! i = Some (pn_caseId settled_panel) ∧
       S i = length (ld_sent (pn_trace settled_panel)).
Proof. exact (panel_shows_current "c1" settled_panel settled_panel_reached eq_refl eq_refl). Defined.

(** Out of order, an older answer replaces a newer one: after a change of
    case the rows of the old one can stay, and after two refreshes those of
    the first; the spinner stops with the first answer of two. *)
Example stale_case :
  view [] <$> run_panel [PnMicrotask; PnCase "c2"; PnMicrotask; PnAnswer 1 (answer_for "c2"); PnAnswer 0 (answer_for "c1")]
                (panel_mount "c1")
  = Some (PvTable (panel_rows [row_for_case "c1"] [])).
Proof. vm_compute. reflexivity. Qed.

Example spinner_stops_early :
  pn_loading <$> run_panel [PnMicrotask; PnRefresh; PnAnswer 0 (answer_for "c1")] (panel_mount "c1") = Some false.
Proof. reflexivity. Qed.

(** A failed request hides the live steps as well. *)
Example error_hides_live :
  match read_trace (Throw json_error) with
  | Some d => view two_tool_calls <$> run_panel [PnMicrotask; PnAnswer 0 d] (panel_mount "c1") = Some (PvError "Failed to load trace")
  | None => False
  end.
Proof. vm_compute. reflexivity. Qed.

(** What is visible passes both inputs, in the order of the table; empty
    inputs hide nothing, and filtering by a row's own kind shows it. *)
Lemma visible_rows_spec g k rows :
  visible_rows g k rows `sublist_of` rows ∧
  (∀ r, r ∈ visible_rows g k rows ↔ r ∈ rows ∧ traceGlobalFilter g r = true ∧ kind_filter k r = true) ∧
  visible_rows EmptyString EmptyString rows = rows.
Proof.
  assert (Hall : ∀ r, traceGlobalFilter EmptyString r && kind_filter EmptyString r = true).
  { intros r. unfold traceGlobalFilter, kind_filter. simpl. by destruct (to_lower (pr_kind r)). }
  unfold visible_rows. split; [|split].
  - apply sublist_filter.
  - intros r. rewrite list_elem_of_filter, andb_true_iff. tauto.
  - induction rows as [|r rows IH]; [done|]. rewrite filter_cons, decide_True by done. by rewrite IH.
Qed.
End Panel.

(** ** The trace of [CaseWorkbench] *)
Module CaseTrace.

(** What [loadTrace] passes to [setHttpSteps]: nothing for a failed request,
    a body that is not JSON or one without steps. *)
Definition read_http_steps (r : res fetched) : option (list HttpTraceStep) :=
  match r with
  | Throw _ => Some []
  | Ok x => match ft_json x with None => Some [] | Some j => default [] <$> as_steps j end
  end.

(** A request is kept with the case it asks for and [triageLoading] when it
    was sent. *)
Record case_trace := mkCaseTrace {
  ct_oid : string;
  ct_triageLoading : bool;
  ct_trace : loader (string * bool) (list HttpTraceStep)
}.

(** [loadTrace], as made for [oid]. *)
Definition loadTrace (oid : string) (s : case_trace) : case_trace :=
  if String.eqb oid EmptyString then s
  else mkCaseTrace (ct_oid s) (ct_triageLoading s) (load (oid, ct_triageLoading s) (ct_trace s)).

(** The two effects after a render: which of them run depends on what
    changed. *)
Definition effects (oid_changed loading_changed : bool) (s : case_trace) : case_trace :=
  let s1 := if oid_changed then loadTrace (ct_oid s) s else s in
  if (oid_changed || loading_changed) && negb (ct_triageLoading s1) then loadTrace (ct_oid s1) s1 else s1.

Definition case_trace_mount (oid : string) (triageLoading : bool) : case_trace :=
  effects true true (mkCaseTrace oid triageLoading (loader_init [])).

Inductive case_trace_event :=
| CtProps (oid : string) (triageLoading : bool)         (** a render with these props *)
| CtOverridden (oid : string)                           (** an override sent for [oid] was accepted *)
| CtAnswer (i : nat) (steps : list HttpTraceStep).

Definition case_trace_handle (e : case_trace_event) (s : case_trace) : option case_trace :=
  match e with
  | CtProps oid tl =>
      Some (effects (negb (String.eqb oid (ct_oid s))) (negb (Bool.eqb tl (ct_triageLoading s)))
              (mkCaseTrace oid tl (ct_trace s)))
  | CtOverridden oid => Some (loadTrace oid s)
  | CtAnswer i steps => mkCaseTrace (ct_oid s) (ct_triageLoading s) <$> answer i steps (ct_trace s)
  end.

(** Answers in the order of their requests, and overrides of the case shown. *)
Definition ordered_step (s s' : case_trace) : Prop :=
  ∃ e, case_trace_handle e s = Some s' ∧
    match e with
    | CtAnswer i _ => head (ld_pending (ct_trace s)).*1 = Some i
    | CtOverridden oid => oid = ct_oid s
    | CtProps _ _ => True
    end.

(** *** Facts *)

Record case_trace_inv (s : case_trace) : Prop := {
  ci_loader : loader_inv (ct_trace s);
  ci_order : in_order (ct_trace s);
  ci_last : ct_oid s ≠ EmptyString → ∃ tl, last (ld_sent (ct_trace s)) = Some (ct_oid s, tl) ∧
              (ct_triageLoading s = false → tl = false)
}.

Lemma loadTrace_fields oid s :
  ct_oid (loadTrace oid s) = ct_oid s ∧ ct_triageLoading (loadTrace oid s) = ct_triageLoading s.
Proof. unfold loadTrace. by destruct (String.eqb oid EmptyString). Qed.

Lemma loadTrace_loader oid s :
  loader_inv (ct_trace s) → in_order (ct_trace s) → loader_inv (ct_trace (loadTrace oid s)) ∧ in_order (ct_trace (loadTrace oid s)).
Proof.
  intros I O. unfold loadTrace. destruct (String.eqb oid EmptyString); [done|].
  split; [by apply load_inv|by apply load_in_order].
Qed.

(** After [loadTrace] for the case shown, the last request is for it. *)
Lemma loadTrace_inv s :
  loader_inv (ct_trace s) → in_order (ct_trace s) → case_trace_inv (loadTrace (ct_oid s) s).
Proof.
  intros I O. destruct (loadTrace_loader (ct_oid s) s I O). destruct (loadTrace_fields (ct_oid s) s) as [E1 E2].
  constructor; [done..|]. rewrite E1, E2. intros Hne. exists (ct_triageLoading s). unfold loadTrace.
  apply String.eqb_neq in Hne as ->. simpl. by rewrite last_snoc.
Qed.

Lemma effects_inv oc lc s :
  loader_inv (ct_trace s) → in_order (ct_trace s) → (oc = false → ct_oid s ≠ EmptyString → ∃ tl,
    last (ld_sent (ct_trace s)) = Some (ct_oid s, tl) ∧ (lc = false → ct_triageLoading s = false → tl = false)) →
  case_trace_inv (effects oc lc s).
Proof.
  intros I O Hl. unfold effects. destruct oc; simpl.
  - pose proof (loadTrace_inv s I O) as L1. destruct (ct_triageLoading (loadTrace (ct_oid s) s)) eqn:E; simpl; [done|].
    destruct L1 as [I1 O1 _]. by apply loadTrace_inv.
  - destruct (ct_triageLoading s) eqn:E; simpl; rewrite ?andb_false_r, ?andb_true_r.
    + constructor; [done..|]. intros Hne. destruct (Hl eq_refl Hne) as (tl & ? & _). exists tl. by rewrite E.
    + destruct lc; [by apply loadTrace_inv|]. constructor; [done..|].
      intros Hne. destruct (Hl eq_refl Hne) as (tl & ? & Hf). exists tl. split; [done|]. intros _. by apply Hf.
Qed.

Lemma case_trace_reach oid tl s : star ordered_step (case_trace_mount oid tl) s → case_trace_inv s.
Proof.
  intros R. refine (star_invariant _ case_trace_inv _ _ _ _ R).
  { apply effects_inv; [apply loader_init_inv|apply loader_init_in_order|done]. }
  intros a b [I O L] (e & E & H). destruct e as [o t|o|i steps]; cbn [case_trace_handle] in E.
  - injection E as <-. apply effects_inv; [done..|]. cbn [ct_oid ct_trace ct_triageLoading].
    intros Ho Hne. apply negb_false_iff, String.eqb_eq in Ho as ->. destruct (L Hne) as (t' & ? & Hf). exists t'.
    split; [done|]. intros Ht Ht'. apply negb_false_iff, Bool.eqb_prop in Ht as ->. by apply Hf.
  - injection E as <-. subst o. by apply loadTrace_inv.
  - apply fmap_Some in E as (l & E & ->). constructor; simpl; [by eapply answer_inv| |].
    + destruct (ld_pending (ct_trace a)) as [|[i' k] p] eqn:Ep; [done|]. injection H as ->. by eapply answer_head_in_order.
    + by apply answer_cases in E as (? & ? & _ & ->).
Qed.

(** With answers in the order of their requests, once the triage is finished
    and nothing is under way, the stored steps shown are the answer to a
    request for this case that was sent after the triage had finished. *)
Theorem case_trace_fresh oid tl s :
  star ordered_step (case_trace_mount oid tl) s → ld_pending (ct_trace s) = [] →
  ct_triageLoading s = false → ct_oid s ≠ EmptyString →
  ∃ i, ld_from (ct_trace s) = Some i ∧ ld_sent (ct_trace s) !! i = Some (ct_oid s, false).
Proof.
  intros R Hp Ht Hne. destruct (case_trace_reach oid tl s R) as [I O L]. destruct (L Hne) as (t & Hl & Hf).
  rewrite (Hf Ht) in Hl. eexists. split.
  - apply settled_last; [done..|]. intros E. by rewrite E in Hl.
  - by rewrite <- last_lookup.
Qed.

(** A page whose triage is already finished asks for the same trace twice
    when it is mounted. *)
Example mount_asks_twice : ld_sent (ct_trace (case_trace_mount "c1" false)) = [("c1", false); ("c1", false)].
Proof. reflexivity. Qed.

(** A request that fails empties the steps that were shown. *)
Example failure_clears :
  match foldl (λ o e, o ≫= case_trace_handle e) (Some (case_trace_mount "c1" false))
          [CtAnswer 0 [Panel.row_for_case "c1"]; CtAnswer 1 (default [Panel.row_for_case "c1"] (read_http_steps (Throw json_error)))] with
  | Some s => ld_data (ct_trace s) = []
  | None => False
  end.
Proof. reflexivity. Qed.

Definition triaged : case_trace :=
  mkCaseTrace "c1" false (mkLoader [Panel.row_for_case "c1"] [] [("c1", true); ("c1", false)] (Some 1%nat)).

Lemma triaged_reached : star ordered_step (case_trace_mount "c1" true) triaged.
Proof.
  eapply star_snoc; [eapply star_snoc; [eapply star_snoc; [apply star_refl|]|]|].
  - exists (CtProps "c1" false). split; [vm_compute; reflexivity|exact I].
  - exists (CtAnswer 0 []). split; vm_compute; reflexivity.
  - exists (CtAnswer 1 [Panel.row_for_case "c1"]). split; vm_compute; reflexivity.
Qed.

Lemma case_trace_fresh_witness :
  ∃ i, ld_from (ct_trace triaged) = Some i ∧ ld_sent (ct_trace triaged) !! i = Some (ct_oid triaged, false).
Proof. refine (case_trace_fresh "c1" true triaged triaged_reached eq_refl eq_refl _). discriminate. Defined.
End CaseTrace.
