(* ===== verification/TraceTable.v ===== *)
(** * The table of trace steps ([components/workbench/attestation-trace-panel.tsx])

    Columns, cells and controls of [TraceTable] over the table library's
    interface ([DataGrid]), and the panel with its table: [TraceLoads.Panel]
    says which rows there are, the table which of them are shown. The filters
    are in [TracePanels] and [TraceLoads]. *)
From S2P Require Import Prelude JsObject JsNum JsString JsValue Types Effects TracePanels TraceLoads DataGrid.

(** ** Columns *)
Inductive trace_column := TcIndex | TcKind | TcSummary | TcAgent | TcTools | TcAction.
#[export] Instance trace_column_eq : EqDecision trace_column. Proof. solve_decision. Defined.

Definition trace_key (c : trace_column) : string :=
  match c with
  | TcIndex => "index" | TcKind => "kind" | TcSummary => "summary" | TcAgent => "agent_id"
  | TcTools => "tool_call_count" | TcAction => "agent_action_id"
  end.

Definition trace_size (c : trace_column) : Z :=
  match c with TcIndex => 44 | TcKind => 170 | TcSummary => 340 | TcAgent => 160 | TcTools => 90 | TcAction => 120 end.

(** The header's text, and whether it is a button that sorts. *)
Definition trace_header (c : trace_column) : string * bool :=
  match c with
  | TcIndex => ("#", false) | TcKind => ("Kind", true) | TcSummary => ("Summary / Verdict", true)
  | TcAgent => ("Agent", false) | TcTools => ("Tools", true) | TcAction => ("Action ID", false)
  end.

Definition trace_filter (c : trace_column) : option (string → PanelRow → bool) :=
  match c with
  | TcIndex => None
  | TcKind => Some Panel.kind_filter
  | TcSummary => Some Panel.summary_filter
  | TcAgent => Some Panel.agent_filter
  | TcTools => Some Panel.tools_filter
  | TcAction => Some Panel.action_filter
  end.

Definition trace_column_def (c : trace_column) : ColumnDef PanelRow :=
  mkColumn (trace_key c) (trace_size c) (bool_decide (c ≠ TcIndex)) true (trace_filter c) None.

Definition traceColumns : list (ColumnDef PanelRow) :=
  trace_column_def <$> [TcIndex; TcKind; TcSummary; TcAgent; TcTools; TcAction].

(** ** Cells *)

Definition kindIcon (kind : string) : string :=
  if String.eqb kind "intermediate_belief" then "BrainIcon"
  else if String.eqb kind "tool_call" then "WrenchIcon"
  else if String.eqb kind "final_verdict" then "GavelIcon"
  else if String.eqb kind "envelope" then "ShieldIcon"
  else if String.eqb kind "classifier_complete" then "CpuIcon"
  else "SearchIcon".

Definition kindVariant (kind : string) : string :=
  if String.eqb kind "tool_call" then "primary-light"
  else if String.eqb kind "final_verdict" || String.eqb kind "triage_complete" then "success-light"
  else "secondary".

Definition path_class (path : string) : string :=
  if String.eqb path "llm" then "text-primary/70"
  else if String.eqb path "hybrid" then "text-severity-medium/70"
  else "text-muted-foreground".

Definition or_dash (s : string) : string := if String.eqb s EmptyString then "—" else s.

Inductive trace_cell :=
| CellIndex (n : string)
| CellKind (icon variant text : string)
| CellSummary (title text : string)
| CellAgent (title agent class path : string)
| CellTools (calls beliefs : string)
| CellAction (title head tail : string).

(** [row.index] is the position in the table's data. *)
Definition trace_cell_of (row : GridRow PanelRow) (c : trace_column) : trace_cell :=
  let r := row.2 in
  match c with
  | TcIndex => CellIndex (string_of_Z (Z.of_nat row.1 + 1))
  | TcKind => CellKind (kindIcon (pr_kind r)) (kindVariant (pr_kind r)) (panelPrettyKind (pr_kind r))
  | TcSummary => CellSummary (pr_summary r) (or_dash (pr_summary r))
  | TcAgent => CellAgent (pr_agent_id r) (or_dash (pr_agent_id r)) (path_class (pr_execution_path r)) (panelFormatPath (pr_execution_path r))
  | TcTools => CellTools (num_to_string (pr_tool_call_count r)) (num_to_string (pr_belief_count r) +:+ " beliefs")
  | TcAction => CellAction (pr_agent_action_id r) (slice 0 8 (pr_agent_action_id r)) (slice 8 16 (pr_agent_action_id r) +:+ "…")
  end.

Section Table.
Context `{TableLib}.

(** ** The table *)

(** The three pieces of state of [TraceTable]; the library keeps the
    visibility and has no pages here. *)
Definition trace_mount : TableState := mkTable [] [] [] EmptyString 0 10.

Inductive trace_event :=
| SearchSteps (value : string)
| FilterKind (value : string)
| SortSteps (c : trace_column).

Definition trace_handle (e : trace_event) (st : TableState) : TableState :=
  match e with
  | SearchSteps v => set_globalFilter v st
  | FilterKind v => setFilterValue "kind" v st
  | SortSteps c =>
      if snd (trace_header c) then toggleSorting (trace_key c) (bool_decide (getIsSorted (trace_key c) st = Some false)) st
      else st
  end.

Definition visibleRows (st : TableState) (rows : list PanelRow) : list (GridRow PanelRow) :=
  all_rows traceColumns traceGlobalFilter st rows.

(** The body, the count of the toolbar and that of the footer. *)
Record trace_view := mkTraceView { vw_body : list (list trace_cell) + string; vw_count : string; vw_footer : string }.

Definition TraceTable (st : TableState) (rows : list PanelRow) : trace_view :=
  let visible := visibleRows st rows in
  mkTraceView
    (match visible with
     | [] => inr "No trace steps match the current filter."
     | _ => inl ((λ row, trace_cell_of row <$> [TcIndex; TcKind; TcSummary; TcAgent; TcTools; TcAction]) <$> visible)
     end)
    (Panel.toolbar_count (length visible)) (Panel.footer_count (length visible) (length rows)).

(** ** The panel with its table *)

Record shown_panel := mkShown {
  sh_panel : Panel.panel;
  sh_live : list KafkaTraceStep;
  sh_table : option TableState       (** while the table is mounted *)
}.

Definition shown_render (p : Panel.panel) (liveSteps : list KafkaTraceStep) (table : option TableState) : shown_panel :=
  mkShown p liveSteps
    (match Panel.view liveSteps p with Panel.PvTable _ => Some (default trace_mount table) | _ => None end).

Definition shown_mount (caseId : string) (liveSteps : list KafkaTraceStep) : shown_panel :=
  shown_render (Panel.panel_mount caseId) liveSteps None.

Inductive shown_step : shown_panel → shown_panel → Prop :=
| shown_event e p p' liveSteps t : Panel.panel_handle e p = Some p' → shown_step (mkShown p liveSteps t) (shown_render p' liveSteps t)
| shown_live p liveSteps liveSteps' t : shown_step (mkShown p liveSteps t) (shown_render p liveSteps' t)
| shown_table e p liveSteps st : shown_step (mkShown p liveSteps (Some st)) (mkShown p liveSteps (Some (trace_handle e st))).

(** ** Facts *)

Context `{!TableLaws}.

Record trace_wf (st : TableState) : Prop := {
  tc_sorting : (length (sorting st) ≤ 1)%nat;
  tc_inputs : ∀ c, c ≠ TcKind → filter_text (trace_key c) st = EmptyString
}.

Lemma trace_mount_wf : trace_wf trace_mount.
Proof. split; [simpl; lia|]. intros c _. unfold filter_text. by rewrite getFilterValue_spec. Qed.

Lemma trace_handle_wf e st : trace_wf st → trace_wf (trace_handle e st).
Proof.
  intros [W1 W2]. destruct e as [v|v|c]; simpl.
  - split; [done|]. intros c Hc. rewrite <- (filter_text_frame _ st) by done. by apply W2.
  - split; [by rewrite setFilterValue_spec|]. intros c Hc. rewrite filter_text_other; [by apply W2|by destruct c].
  - destruct (snd (trace_header c)); [|by split]. rewrite toggleSorting_spec by done. split; [simpl; lia|].
    intros k Hk. rewrite <- (filter_text_frame _ st) by done. by apply W2.
Qed.

Lemma trace_known st : trace_wf st → filters_known traceColumns st.
Proof.
  intros W c Hc N. unfold traceColumns in Hc. apply list_elem_of_fmap in Hc as (k & -> & _).
  apply (tc_inputs _ W). by destruct k.
Qed.

Definition step_matches (st : TableState) (r : PanelRow) : bool :=
  traceGlobalFilter (globalFilter st) r && Panel.kind_filter (filter_text "kind" st) r.

Lemma trace_passes st r : trace_wf st → passes traceColumns traceGlobalFilter st r = step_matches st r.
Proof.
  intros W. unfold passes, step_matches.
  assert (G : String.eqb (globalFilter st) EmptyString || traceGlobalFilter (globalFilter st) r = traceGlobalFilter (globalFilter st) r).
  { destruct (String.eqb_spec (globalFilter st) EmptyString) as [->|]; done. }
  rewrite G. f_equal.
  assert (P : ∀ c, c ≠ TcKind → passes_column st r (trace_column_def c) = true).
  { intros c Hc. unfold passes_column. change (col_id (trace_column_def c)) with (trace_key c). rewrite (tc_inputs _ W c Hc). by destruct (col_filterFn _). }
  unfold traceColumns. cbn [fmap list_fmap forallb].
  rewrite (P TcIndex), (P TcSummary), (P TcAgent), (P TcTools), (P TcAction) by done. rewrite !andb_true_l, andb_true_r.
  change (passes_column st r (trace_column_def TcKind)) with
    (String.eqb (filter_text "kind" st) EmptyString || Panel.kind_filter (filter_text "kind" st) r).
  destruct (String.eqb_spec (filter_text "kind" st) EmptyString) as [->|]; [|done].
  unfold Panel.kind_filter. symmetry. apply includes_spec. by exists EmptyString, (to_lower (pr_kind r)).
Qed.

Lemma visibleRows_elem st rows i r :
  trace_wf st → (i, r) ∈ visibleRows st rows ↔ rows !! i = Some r ∧ step_matches st r = true.
Proof. intros W. unfold visibleRows. rewrite all_rows_elem by (by apply trace_known). by rewrite trace_passes. Qed.
Definition shown_ok (s : shown_panel) : Prop :=
  match Panel.view (sh_live s) (sh_panel s), sh_table s with
  | Panel.PvTable _, Some st => trace_wf st
  | Panel.PvTable _, None | _, Some _ => False
  | _, None => True
  end.

Lemma shown_render_ok p liveSteps t : (∀ st, t = Some st → trace_wf st) → shown_ok (shown_render p liveSteps t).
Proof.
  intros W. unfold shown_ok, shown_render. simpl. destruct (Panel.view liveSteps p); [done..|].
  destruct t as [st|]; simpl; [by apply W|apply trace_mount_wf].
Qed.

Lemma shown_step_ok s s' : shown_ok s → shown_step s s' → shown_ok s'.
Proof.
  assert (W : ∀ p ls t st, shown_ok (mkShown p ls t) → t = Some st → trace_wf st).
  { intros p ls t st O ->. unfold shown_ok in O. simpl in O. by destruct (Panel.view ls p). }
  intros O S. destruct S as [e p p' ls t E|p ls ls' t|e p ls st]; [apply shown_render_ok; eauto..|].
  pose proof (W p ls _ st O eq_refl) as Wst. unfold shown_ok in *. simpl in *.
  destruct (Panel.view ls p); [done..|]. by apply trace_handle_wf.
Qed.

(** The table is mounted exactly when there are rows, no error to report and
    it is not the first loading; its rows are those of the panel. *)
Lemma view_table ls p :
  (∃ rows, Panel.view ls p = Panel.PvTable rows) ↔
  Panel.panel_rows_of ls p ≠ [] ∧ ¬ (ld_data (Panel.pn_trace p) = None ∧ Panel.pn_loading p = true) ∧
  default EmptyString (ld_data (Panel.pn_trace p) ≫= Panel.tp_error) = EmptyString.
Proof.
  unfold Panel.view. destruct (ld_data (Panel.pn_trace p)) as [d|]; [|destruct (Panel.pn_loading p)]; simpl.
  - destruct (Panel.tp_error d) as [[|c e]|]; simpl; destruct (Panel.panel_rows_of ls p); split; naive_solver.
  - split; naive_solver.
  - destruct (Panel.panel_rows_of ls p); split; naive_solver.
Qed.

Lemma view_table_rows ls p rows : Panel.view ls p = Panel.PvTable rows → rows = Panel.panel_rows_of ls p.
Proof.
  unfold Panel.view. destruct (ld_data (Panel.pn_trace p)) as [d|], (Panel.pn_loading p); simpl;
    repeat case_match; naive_solver.
Qed.

(** C33: the panel and its table, after any sequence of requests, answers, live
    steps and inputs: the table is there exactly when the panel has rows,
    stored or live, the last answer brought no error text and the panel is not
    loading for the first time; an error and the first loading hide the live
    rows too. The table shows, in some order and each once, the rows that have
    the text searched for and the kind entered; the number in the first
    column is the row's place in the merged trace, whatever the order of the
    table; the message for no match is shown exactly when no row matches. *)
Theorem trace_table_shows caseId live0 s :
  star shown_step (shown_mount caseId live0) s →
  let p := sh_panel s in let rows := Panel.panel_rows_of (sh_live s) p in
  star Panel.panel_step (Panel.panel_mount caseId) p ∧
  (is_Some (sh_table s) ↔
     rows ≠ [] ∧ ¬ (ld_data (Panel.pn_trace p) = None ∧ Panel.pn_loading p = true) ∧
     default EmptyString (ld_data (Panel.pn_trace p) ≫= Panel.tp_error) = EmptyString) ∧
  ∀ st, sh_table s = Some st →
    (∀ i r, (i, r) ∈ visibleRows st rows ↔ rows !! i = Some r ∧ step_matches st r = true) ∧
    NoDup (visibleRows st rows) ∧ (length (visibleRows st rows) ≤ length rows)%nat ∧
    (vw_body (TraceTable st rows) = inr "No trace steps match the current filter." ↔
     ∀ r, r ∈ rows → step_matches st r = false).
Proof.
  intros R p rows. assert (I : star Panel.panel_step (Panel.panel_mount caseId) p ∧ shown_ok s).
  { refine (star_invariant _ (λ s, star Panel.panel_step (Panel.panel_mount caseId) (sh_panel s) ∧ shown_ok s) _ _ _ _ R).
    - split; [constructor|]. by apply shown_render_ok.
    - intros a b [Ra Oa] S. split; [|by eapply shown_step_ok].
      destruct S as [e p1 p' ls t E|p1 ls ls' t|e p1 ls st]; [|done..]. simpl. eapply star_snoc; [exact Ra|]. by exists e. }
  destruct I as [Rp O]. split; [done|]. unfold shown_ok in O. fold p in O. split.
  { unfold rows. rewrite <- view_table. destruct (Panel.view _ _), (sh_table s); naive_solver. }
  intros st Et. rewrite Et in O. assert (W : trace_wf st) by (by destruct (Panel.view (sh_live s) p)).
  assert (M : ∀ i r, (i, r) ∈ visibleRows st rows ↔ rows !! i = Some r ∧ step_matches st r = true) by (intros; by apply visibleRows_elem).
  splits; [done|by apply all_rows_NoDup, trace_known|by apply all_rows_length, trace_known|].
  unfold TraceTable. simpl. destruct (visibleRows st rows) as [|[j x] v] eqn:V.
  - split; [|done]. intros _ r [i Hi]%list_elem_of_lookup. destruct (step_matches st r) eqn:E; [|done].
    assert (Hx : (i, r) ∈ []) by (by apply M). by apply elem_of_nil in Hx.
  - split; [done|]. intros Hall. assert (Hx : x ∈ rows ∧ step_matches st x = true).
    { destruct (M j x) as [M1 _]. destruct M1 as [Hj E]; [left|]. split; [by eapply list_elem_of_lookup_2|done]. }
    destruct Hx as [Hx E]. by rewrite Hall in E.
Qed.
End Table.

(** The panel loads one stored step; the analyst filters by kind. *)
Definition sample_panel : Panel.panel := default (Panel.panel_mount "c1")
  (Panel.run_panel [Panel.PnMicrotask; Panel.PnAnswer 0 (Panel.answer_for "c1")] (Panel.panel_mount "c1")).

Definition sample_shown : shown_panel := mkShown sample_panel [] (Some (trace_handle (FilterKind "TOOL") trace_mount)).

Lemma sample_shown_star : star shown_step (shown_mount "c1" []) sample_shown.
Proof.
  eapply star_snoc; [eapply star_snoc; [eapply star_snoc; [apply star_refl|]|]|].
  - apply (shown_event Panel.PnMicrotask). vm_compute. reflexivity.
  - apply (shown_event (Panel.PnAnswer 0 (Panel.answer_for "c1"))). vm_compute. reflexivity.
  - apply (shown_table (FilterKind "TOOL")).
Qed.

Lemma trace_table_shows_witness :
  star Panel.panel_step (Panel.panel_mount "c1") (sh_panel sample_shown) ∧
  length (visibleRows (trace_handle (FilterKind "TOOL") trace_mount) (Panel.panel_rows_of [] sample_panel)) = 1%nat.
Proof.
  split; [exact (proj1 (trace_table_shows "c1" [] sample_shown sample_shown_star))|vm_compute; reflexivity].
Defined.
