(* ===== verification/Citations.v ===== *)
(** * Evidence citations ([components/workbench/reasoning-trace-viewer.tsx])

    How the text of a step is split into plain pieces and the chips of the
    evidence it cites ([renderWithCitations]), and what a chip does when it
    is opened ([CitationChip]). *)
From Stdlib Require Import Ascii.
From S2P Require Import Prelude JsObject JsNum JsString JsValue Effects.

(** ** The pattern [/\[evidence:([a-f0-9-]{36})\]/gi] *)

(** [[a-f0-9-]], ignoring case. *)
Definition ref_char (c : ascii) : bool :=
  is_digit c || in_range 97 102 c || in_range 65 70 c || Ascii.eqb c "-".

Fixpoint all_chars (P : ascii → bool) (s : string) : bool :=
  match s with EmptyString => true | String c s' => P c && all_chars P s' end.

(** The first [n] characters and the others; [None] when there are fewer. *)
Fixpoint split_at (n : nat) (s : string) : option (string * string) :=
  match n, s with
  | O, _ => Some (EmptyString, s)
  | S n', String c s' => '(a, b) ← split_at n' s'; Some (String c a, b)
  | S _, EmptyString => None
  end.

Definition REF_OPEN : string := "[evidence:".

(** A match at the beginning of [s]: the captured id. *)
Definition match_ref (s : string) : option string :=
  '(pre, s1) ← split_at 10 s;
  '(id, s2) ← split_at 36 s1;
  match s2 with
  | String c _ => if String.eqb (to_lower pre) REF_OPEN && all_chars ref_char id && Ascii.eqb c "]" then Some id else None
  | EmptyString => None
  end.

(** The length of a match. *)
Definition REF_LENGTH : nat := 47.

(** ** [renderWithCitations] *)

Inductive part := Text (s : string) | Chip (id : string).

(** [text.slice(last, m.index)], when it is not empty. *)
Definition push_text (t : string) (k : list part) : list part :=
  match t with EmptyString => k | _ => Text t :: k end.

(** The loop over the matches from left to right: [skip] characters belong to
    the match just found, [acc] is the text since the end of the last one. *)
Fixpoint scan (s : string) (skip : nat) (acc : string) : list part :=
  match s with
  | EmptyString => push_text acc []
  | String c s' =>
      match skip with
      | S k => scan s' k acc
      | O => match match_ref s with
             | Some id => push_text acc (Chip id :: scan s' (pred REF_LENGTH) EmptyString)
             | None => scan s' 0 (acc +:+ String c EmptyString)
             end
      end
  end.

(** The parts, or [None] for the text itself when there are none. *)
Definition renderWithCitations (text : string) : option (list part) :=
  match scan text 0 EmptyString with [] => None | ps => Some ps end.

(** ** A chip *)

(** [data] is the event when one was loaded; what is shown is its
    [api_operation] or a fixed text. *)
Record chip := mkChip {
  ch_id : string;
  ch_data : jsval;
  ch_loaded : bool;
  ch_requests : list request;    (** all requests sent *)
  ch_answers : nat               (** requests under way *)
}.

Definition chip_mount (id : string) : chip := mkChip id JNull false [] 0.

Definition chip_load (s : chip) : chip :=
  if ch_loaded s then s
  else mkChip (ch_id s) (ch_data s) true (ch_requests s ++ [get_req ("/api/events?id=" +:+ encode_uri_component (ch_id s))])
         (S (ch_answers s)).

Definition chip_answered (r : res fetched) (s : chip) : chip :=
  mkChip (ch_id s) (match r with Ok x => default JNull (ft_json x) | Throw _ => JNull end) (ch_loaded s) (ch_requests s)
    (pred (ch_answers s)).

(** [data?.api_operation ? ... : ...], of the declared type. *)
Definition chip_text (s : chip) : string :=
  match prop "api_operation" (ch_data s) with
  | JStr (String _ _ as op) => op
  | _ => "Event metadata"
  end.

Inductive chip_event := ChOpenChange (open : bool) | ChAnswer (r : res fetched).

Definition chip_handle (e : chip_event) (s : chip) : option chip :=
  match e with
  | ChOpenChange o => Some (if o then chip_load s else s)
  | ChAnswer r => match ch_answers s with O => None | S _ => Some (chip_answered r s) end
  end.

(** ** Reference definition *)

(** The ids of the matches at every position of the text. *)
Fixpoint all_refs (s : string) : list string :=
  match s with
  | EmptyString => []
  | String _ s' => match match_ref s with Some id => [id] | None => [] end ++ all_refs s'
  end.

Definition chips (ps : list part) : list string := omap (λ p, match p with Chip id => Some id | Text _ => None end) ps.

(** The piece of the text a part stands for. *)
Definition stands_for (p : part) (t : string) : Prop :=
  match p with
  | Text s => t = s ∧ s ≠ EmptyString
  | Chip id => ∃ pre, t = pre +:+ id +:+ "]" ∧ to_lower pre = REF_OPEN ∧ String.length id = 36%nat ∧ all_chars ref_char id = true
  end.

Definition concat_strings (ts : list string) : string := foldr (λ a b, a +:+ b) EmptyString ts.

(** ** Facts *)

Lemma split_at_spec n s a b : split_at n s = Some (a, b) ↔ s = a +:+ b ∧ String.length a = n.
Proof.
  revert s a b. induction n as [|n IH]; intros s a b; simpl.
  - split; [by intros [= <- <-]|]. intros [-> Ha]. by destruct a.
  - destruct s as [|c s]; simpl.
    + split; [done|]. intros [E Ha]. by destruct a.
    + split.
      * intros E. apply bind_Some in E as ([a' b'] & E & [= <- <-]). apply IH in E as [-> <-]. done.
      * intros [E Ha]. destruct a as [|c' a]; [done|]. simpl in E, Ha. injection E as -> ->.
        destruct (IH (a +:+ b) a b) as [_ H]. rewrite H; [done|]. split; [done|]. lia.
Qed.

Lemma map_string_length f s : String.length (map_string f s) = String.length s.
Proof. induction s; simpl; congruence. Qed.

Lemma match_ref_spec s id :
  match_ref s = Some id ↔
  ∃ pre rest, s = pre +:+ id +:+ String "]" rest ∧ to_lower pre = REF_OPEN ∧ String.length id = 36%nat ∧ all_chars ref_char id = true.
Proof.
  unfold match_ref. split.
  - intros E. apply bind_Some in E as ([pre s1] & E1 & E). apply bind_Some in E as ([id' s2] & E2 & E).
    apply split_at_spec in E1 as [-> _], E2 as [-> Hid]. destruct s2 as [|c rest]; [done|].
    destruct (_ && _ && _) eqn:B; [|done]. injection E as <-. bool_to_prop. apply Ascii.eqb_eq in H0 as ->. eauto 10.
  - intros (pre & rest & -> & Hp & Hl & Hc). assert (Hpl : String.length pre = 10%nat).
    { apply (f_equal String.length) in Hp. unfold to_lower in Hp. rewrite map_string_length in Hp. by rewrite Hp. }
    rewrite (proj2 (split_at_spec 10 _ pre _)) by done. cbn [mbind option_bind].
    rewrite (proj2 (split_at_spec 36 _ id (String "]" rest))) by done. cbn [mbind option_bind]. by rewrite Hp, Hc.
Qed.

Lemma match_ref_head c s id : match_ref (String c s) = Some id → c = "["%char.
Proof.
  intros (pre & rest & E & Hp & _)%match_ref_spec. destruct pre as [|c' pre]; [done|]. simpl in E. injection E as -> _.
  injection Hp as Hc _. revert Hc. clear. destruct c' as [[] [] [] [] [] [] [] []]; vm_compute; done.
Qed.

Definition not_open (c : ascii) : bool := negb (Ascii.eqb c "[").

Lemma all_refs_skip u rest : all_chars not_open u = true → all_refs (u +:+ rest) = all_refs rest.
Proof.
  induction u as [|c u IH]; simpl; [done|]. intros [Hc Hu]%andb_true_iff. rewrite IH by done.
  destruct (match_ref _) as [id|] eqn:E; [|done]. apply match_ref_head in E as ->. done.
Qed.

Lemma scan_skip u rest acc : scan (u +:+ rest) (String.length u) acc = scan rest 0 acc.
Proof. induction u as [|c u IH]; simpl; [by destruct rest|done]. Qed.

Lemma all_chars_app P u v : all_chars P (u +:+ v) = all_chars P u && all_chars P v.
Proof. induction u as [|c u IH]; simpl; [done|]. by rewrite IH, andb_assoc. Qed.

Lemma all_chars_impl (P Q : ascii → bool) s : (∀ c, P c = true → Q c = true) → all_chars P s = true → all_chars Q s = true.
Proof. intros H. induction s as [|c s IH]; simpl; [done|]. intros [??]%andb_true_iff. by rewrite H, IH. Qed.

Lemma lower_not_open s : all_chars not_open (to_lower s) = true → all_chars not_open s = true.
Proof.
  unfold to_lower. induction s as [|c s IH]; simpl; [done|]. intros [Hc Hs]%andb_true_iff. rewrite IH by done.
  revert Hc. clear. destruct c as [[] [] [] [] [] [] [] []]; vm_compute; done.
Qed.

(** A match starts with a bracket and has no other. *)
Lemma match_ref_split s id :
  match_ref s = Some id →
  ∃ pre rest u, s = pre +:+ id +:+ String "]" rest ∧ s = String "[" (u +:+ rest) ∧ String.length u = pred REF_LENGTH ∧
    all_chars not_open u = true ∧ to_lower pre = REF_OPEN ∧ String.length id = 36%nat ∧ all_chars ref_char id = true.
Proof.
  intros E. pose proof E as (pre & rest & -> & Hp & Hl & Hc)%match_ref_spec.
  destruct pre as [|c pre]; [done|]. pose proof (match_ref_head _ _ _ E) as ->.
  injection Hp as Hp. exists (String "[" pre), rest, (pre +:+ id +:+ "]").
  assert (Hpl : String.length pre = 9%nat) by (apply (f_equal String.length) in Hp; by rewrite map_string_length in Hp).
  split; [done|]. split; [simpl; by rewrite !string_app_assoc|]. split.
  { rewrite !string_app_length, Hl, Hpl. done. }
  rewrite !all_chars_app. simpl. split; [|unfold to_lower; simpl; by rewrite Hp].
  rewrite andb_true_iff, andb_true_iff. split; [|split; [|done]].
  - apply lower_not_open. unfold to_lower. by rewrite Hp.
  - revert Hc. apply all_chars_impl. intros c. destruct c as [[] [] [] [] [] [] [] []]; vm_compute; done.
Qed.

Lemma push_text_spec acc k toks s :
  concat_strings toks = s → Forall2 stands_for k toks →
  ∃ toks', concat_strings toks' = acc +:+ s ∧ Forall2 stands_for (push_text acc k) toks' ∧ chips (push_text acc k) = chips k.
Proof.
  intros <- F. destruct acc as [|c acc]; [by exists toks|].
  exists (String c acc :: toks). split; [done|]. split; [|done]. by constructor.
Qed.

Lemma scan_spec s acc :
  ∃ toks, concat_strings toks = acc +:+ s ∧ Forall2 stands_for (scan s 0 acc) toks ∧ chips (scan s 0 acc) = all_refs s.
Proof.
  remember (String.length s) as n eqn:En. revert s acc En.
  induction n as [n IH] using lt_wf_ind; intros s acc En. destruct s as [|c s].
  - destruct (push_text_spec acc [] [] EmptyString eq_refl) as (toks & ? & ? & ?); [constructor|]. by exists toks.
  - cbn [scan all_refs]. destruct (match_ref (String c s)) as [id|] eqn:E.
    + destruct (match_ref_split _ _ E) as (pre & rest & u & E1 & E2 & Hu & Ho & Hp & Hl & Hc).
      injection E2 as -> ->. rewrite <- Hu, scan_skip, all_refs_skip by done.
      destruct (IH (String.length rest)) with (s := rest) (acc := EmptyString) as (toks & Hcat & F & Hch); [|done|].
      { rewrite En. simpl. rewrite string_app_length. lia. }
      destruct (push_text_spec acc (Chip id :: scan rest 0 EmptyString) ((pre +:+ id +:+ "]") :: toks) (String "[" (u +:+ rest)))
        as (toks' & ? & ? & Hch').
      * simpl. rewrite Hcat, E1, !string_app_assoc. done.
      * constructor; [|done]. by exists pre.
      * exists toks'. split_and!; [done|done|]. rewrite Hch'. simpl. by rewrite Hch.
    + destruct (IH (String.length s)) with (s := s) (acc := acc +:+ String c EmptyString) as (toks & Hcat & F & Hch); [|done|].
      { rewrite En. simpl. lia. }
      exists toks. split_and!; [|done|done]. rewrite Hcat, string_app_assoc. done.
Qed.

(** C36: the text of a step is shown whole and its citations are all found: the
    parts stand, in order, for consecutive pieces that make up the text, no
    text part is empty, and the chips are exactly the references a search at
    every position finds; the empty text is shown as it is. *)
Theorem citations_lossless text :
  match renderWithCitations text with
  | Some ps => ∃ toks, concat_strings toks = text ∧ Forall2 stands_for ps toks ∧ chips ps = all_refs text
  | None => text = EmptyString
  end.
Proof.
  unfold renderWithCitations. destruct (scan_spec text EmptyString) as (toks & Hcat & F & Hch). simpl in Hcat.
  destruct (scan text 0 EmptyString) as [|p ps]; [|by exists toks]. inversion F; subst. done.
Qed.

Definition cited : string := "see [Evidence:11111111-1111-4111-8111-11111111111A], [evidence:short] and more".

Example cited_parts :
  renderWithCitations cited = Some [Text "see "; Chip "11111111-1111-4111-8111-11111111111A"; Text ", [evidence:short] and more"].
Proof. vm_compute. reflexivity. Qed.

Definition chip_step (s s' : chip) : Prop := ∃ e, chip_handle e s = Some s'.

(** A chip asks for its evidence once, when it is first opened, and never
    again, also not when that request fails; it then shows the fixed text. *)
Theorem chip_asks_once id s :
  star chip_step (chip_mount id) s →
  ch_requests s = (if ch_loaded s then [get_req ("/api/events?id=" +:+ encode_uri_component id)] else []) ∧
  (ch_loaded s = false → chip_text s = "Event metadata") ∧
  chip_text (chip_answered (Throw json_error) s) = "Event metadata".
Proof.
  intros R. assert (P : ch_id s = id ∧ (ch_loaded s = false → ch_data s = JNull ∧ ch_answers s = 0%nat) ∧
    ch_requests s = (if ch_loaded s then [get_req ("/api/events?id=" +:+ encode_uri_component id)] else [])).
  { refine (star_invariant _ (λ s, ch_id s = id ∧ (ch_loaded s = false → ch_data s = JNull ∧ ch_answers s = 0%nat) ∧
      ch_requests s = (if ch_loaded s then [get_req ("/api/events?id=" +:+ encode_uri_component id)] else [])) _ _ _ _ R); [done|].
    intros a b (Hi & Hd & Hr) [e E]. destruct e as [[]|r]; cbn [chip_handle] in E.
    - injection E as <-. unfold chip_load. destruct (ch_loaded a) eqn:El; simpl; [by rewrite El|].
      rewrite Hr, Hi. done.
    - by injection E as <-.
    - destruct (ch_answers a) eqn:Ea; [done|]. injection E as <-. simpl. split_and!; [done| |done].
      intros Hl. by destruct (Hd Hl). }
  destruct P as (_ & Hd & Hr). split_and!; [done| |done]. intros Hl. unfold chip_text. by destruct (Hd Hl) as [-> _].
Qed.
