(* ===== verification/Stepper.v ===== *)
(** * The stepper ([components/reui/stepper.tsx])

    The widget behind the progress displays: the active step, controlled by
    its parent or kept by the widget, the registered triggers and the focus,
    the state of each item, which content and which indicator are shown; and
    what the two steppers of [investigator-trace-stepper.tsx] show with it. *)
From S2P Require Import Prelude JsObject JsNum JsString JsValue Types Effects CaseStore TracePanels.

(** ** The widget *)

Inductive ItemState := ItActive | ItCompleted | ItInactive.
#[export] Instance ItemState_eq : EqDecision ItemState. Proof. solve_decision. Defined.

Record stepper := mkStepper {
  st_value : option Z;          (** the prop [value] *)
  st_activeStep : Z;            (** the state [activeStep] *)
  st_triggers : list nat;       (** [triggerNodes], by node *)
  st_mounted : gset nat;        (** the trigger nodes in the document *)
  st_focus : option nat;
  st_changes : list Z           (** calls of [onValueChange] *)
}.

Definition stepper_mount (defaultValue : Z) (value : option Z) : stepper := mkStepper value defaultValue [] ∅ None [].

Definition currentStep (s : stepper) : Z := default (st_activeStep s) (st_value s).

(** The ref callback of a trigger: a node, or [null] when it is removed. *)
Definition registerTrigger (node : option nat) (s : stepper) : stepper :=
  match node with
  | None => s
  | Some n => mkStepper (st_value s) (st_activeStep s)
                (if decide (n ∈ st_triggers s) then st_triggers s else st_triggers s ++ [n])
                (st_mounted s) (st_focus s) (st_changes s)
  end.

Definition handleSetActiveStep (step : Z) (s : stepper) : stepper :=
  mkStepper (st_value s) (match st_value s with None => step | Some _ => st_activeStep s end)
    (st_triggers s) (st_mounted s) (st_focus s) (st_changes s ++ [step]).

(** [node.focus()] has no effect on a node outside the document; an index
    out of range, or NaN when there is no trigger, has no node. *)
Definition focusTrigger (idx : option nat) (s : stepper) : stepper :=
  match idx ≫= (st_triggers s !!.) with
  | Some n => if decide (n ∈ st_mounted s)
              then mkStepper (st_value s) (st_activeStep s) (st_triggers s) (st_mounted s) (Some n) (st_changes s) else s
  | None => s
  end.

Definition remainder (i n : nat) : option nat := match n with O => None | _ => Some (i mod n)%nat end.

Definition focusNext (i : nat) (s : stepper) : stepper := focusTrigger (remainder (i + 1) (length (st_triggers s))) s.
Definition focusPrev (i : nat) (s : stepper) : stepper :=
  let n := length (st_triggers s) in focusTrigger (remainder (i + n - 1) n) s.
Definition focusFirst (s : stepper) : stepper := focusTrigger (Some 0%nat) s.
Definition focusLast (s : stepper) : stepper :=
  match length (st_triggers s) with O => s | S k => focusTrigger (Some k) s end.

(** [handleKeyDown] of the trigger [node] of step [step]. *)
Definition handleKeyDown (node : nat) (step : Z) (key : string) (s : stepper) : stepper :=
  let myIdx := fst <$> list_find (λ n, n = node) (st_triggers s) in
  if String.eqb key "ArrowRight" || String.eqb key "ArrowDown" then
    match myIdx with Some i => focusNext i s | None => s end
  else if String.eqb key "ArrowLeft" || String.eqb key "ArrowUp" then
    match myIdx with Some i => focusPrev i s | None => s end
  else if String.eqb key "Home" then focusFirst s
  else if String.eqb key "End" then focusLast s
  else if String.eqb key "Enter" || String.eqb key " " then handleSetActiveStep step s
  else s.

(** An item. *)
Definition item_state (activeStep : Z) (completed : bool) (step : Z) : ItemState :=
  if completed || (step <? activeStep) then ItCompleted else if activeStep =? step then ItActive else ItInactive.

Definition item_loading (activeStep : Z) (loading : bool) (step : Z) : bool := loading && (step =? activeStep).

Definition tab_index (tabIndex : option Z) (activeStep step : Z) : Z :=
  default (if activeStep =? step then 0 else -1) tabIndex.

(** Which indicator is shown: one of the given ones, or the children. *)
Record StepIndicators := mkIndicators {
  in_active : option string; in_completed : option string; in_inactive : option string; in_loading : option string
}.

Definition indicator (i : StepIndicators) (state : ItemState) (isLoading : bool) (children : string) : string :=
  let own := match state with ItActive => in_active i | ItCompleted => in_completed i | ItInactive => in_inactive i end in
  default children (if isLoading then match in_loading i with Some x => Some x | None => own end else own).

(** [StepperContent]: not rendered, hidden or shown. *)
Inductive content := CNone | CHidden | CShown.
Definition step_content (value : Z) (forceMount : bool) (activeStep : Z) : content :=
  if value =? activeStep then CShown else if forceMount then CHidden else CNone.

Inductive stepper_event :=
| StKey (node : nat) (step : Z) (key : string)
| StClick (step : Z)
| StMountTrigger (n : nat)
| StRemoveTrigger (n : nat)
| StValue (v : Z).  (** a new value of a controlled stepper *)

Definition stepper_handle (e : stepper_event) (s : stepper) : option stepper :=
  match e with
  | StKey node step key => if decide (st_focus s = Some node ∧ node ∈ st_mounted s) then Some (handleKeyDown node step key s) else None
  | StClick step => Some (handleSetActiveStep step s)
  | StMountTrigger n =>
      Some (registerTrigger (Some n)
        (mkStepper (st_value s) (st_activeStep s) (st_triggers s) ({[n]} ∪ st_mounted s) (st_focus s) (st_changes s)))
  | StRemoveTrigger n =>
      Some (registerTrigger None
        (mkStepper (st_value s) (st_activeStep s) (st_triggers s) (st_mounted s ∖ {[n]})
           (if decide (st_focus s = Some n) then None else st_focus s) (st_changes s)))
  | StValue v => match st_value s with
                 | Some _ => Some (mkStepper (Some v) (st_activeStep s) (st_triggers s) (st_mounted s) (st_focus s) (st_changes s))
                 | None => None
                 end
  end.

Definition stepper_step (s s' : stepper) : Prop := ∃ e, stepper_handle e s = Some s'.

(** ** Properties *)

Record stepper_inv (s : stepper) : Prop := {
  si_distinct : NoDup (st_triggers s);
  si_mounted : ∀ n, n ∈ st_mounted s → n ∈ st_triggers s;
  si_focus : ∀ n, st_focus s = Some n → n ∈ st_mounted s
}.

Lemma focusTrigger_inv idx s : stepper_inv s → stepper_inv (focusTrigger idx s).
Proof.
  intros [I1 I2 I3]. unfold focusTrigger. destruct (idx ≫= _) as [n|]; [|by constructor].
  case_decide; constructor; simpl; try done. by intros ? [= <-].
Qed.

Lemma registerTrigger_inv n s :
  NoDup (st_triggers s) → (∀ k, k ∈ st_mounted s → k = n ∨ k ∈ st_triggers s) →
  (∀ k, st_focus s = Some k → k ∈ st_mounted s) → stepper_inv (registerTrigger (Some n) s).
Proof.
  intros I1 I2 I3. unfold registerTrigger. constructor; simpl; [| |done].
  - case_decide; [done|]. apply NoDup_app. split; [done|]. split; [|apply NoDup_singleton]. set_solver.
  - intros k Hk. destruct (I2 k Hk) as [->|?]; case_decide; set_solver.
Qed.

Lemma stepper_step_inv s s' : stepper_inv s → stepper_step s s' → stepper_inv s'.
Proof.
  intros I [e E]. destruct e as [node step key|step|n|n|v]; cbn [stepper_handle] in E.
  - case_decide; [|done]. injection E as <-. unfold handleKeyDown, focusNext, focusPrev, focusFirst, focusLast.
    repeat case_match; auto using focusTrigger_inv; by destruct I.
  - injection E as <-. by destruct I.
  - apply (inj Some) in E as <-. destruct I as [I1 I2 I3].
    apply (registerTrigger_inv n (mkStepper (st_value s) (st_activeStep s) (st_triggers s) ({[n]} ∪ st_mounted s)
             (st_focus s) (st_changes s))); simpl; [done| |].
    + intros k. rewrite elem_of_union, elem_of_singleton. naive_solver.
    + intros k Hk. apply elem_of_union. right. by apply I3.
  - injection E as <-. destruct I as [I1 I2 I3]. constructor; simpl; [done| |].
    + intros k Hk. apply I2. set_solver.
    + intros k Hk. case_decide as Hd; [done|]. apply elem_of_difference. split; [by apply I3|].
      rewrite elem_of_singleton. intros ->. by apply Hd.
  - destruct (st_value s); [|done]. injection E as <-. by destruct I.
Qed.

Lemma focus_at s i n :
  st_triggers s !! i = Some n → n ∈ st_mounted s → st_focus (focusTrigger (Some i) s) = Some n.
Proof. intros Hi Hn. unfold focusTrigger. simpl. rewrite Hi. by rewrite decide_True. Qed.

Lemma find_index s i n : NoDup (st_triggers s) → st_triggers s !! i = Some n → fst <$> list_find (λ k, k = n) (st_triggers s) = Some i.
Proof.
  intros Hd Hi. destruct (list_find_elem_of (λ k, k = n) (st_triggers s) n) as [[j k] E]; [by eapply list_elem_of_lookup_2|done|].
  rewrite E. simpl. f_equal. apply list_find_Some in E as (Hj & -> & _). by eapply NoDup_lookup.
Qed.

(** The arrow keys go round. In any state the widget can reach, while no
    trigger was removed, the focused trigger's neighbours in order of
    registration get the focus, the last one being followed by the first;
    going forth and back returns; Home and End go to the ends. *)
Theorem stepper_keys defaultValue value s i n step :
  star stepper_step (stepper_mount defaultValue value) s →
  (∀ k, k ∈ st_triggers s → k ∈ st_mounted s) → st_triggers s !! i = Some n → st_focus s = Some n →
  let N := length (st_triggers s) in
  let press key s := handleKeyDown (default 0%nat (st_focus s)) step key s in
  st_focus (press "ArrowRight" s) = st_triggers s !! ((i + 1) mod N)%nat ∧
  st_focus (press "ArrowLeft" (press "ArrowRight" s)) = Some n ∧
  st_focus (press "Home" s) = head (st_triggers s) ∧ st_focus (press "End" s) = last (st_triggers s).
Proof.
  intros R Hall Hi Hf N press. assert (I : stepper_inv s).
  { refine (star_invariant _ stepper_inv _ _ _ stepper_step_inv R). constructor; simpl; [constructor|set_solver|done]. }
  assert (Hi' : (i < N)%nat) by (by eapply lookup_lt_Some).
  assert (At : ∀ j, (j < N)%nat → ∃ k, st_triggers s !! j = Some k ∧ k ∈ st_mounted s).
  { intros j Hj. destruct (lookup_lt_is_Some_2 _ _ Hj) as [k Hk]. exists k. split; [done|].
    by apply Hall; eapply list_elem_of_lookup_2. }
  assert (Right : ∀ s' j k, st_triggers s' = st_triggers s → st_mounted s' = st_mounted s → st_focus s' = Some k →
    st_triggers s !! j = Some k → press "ArrowRight" s' = focusTrigger (Some ((j + 1) mod N)%nat) s' ∧
                                  press "ArrowLeft" s' = focusTrigger (Some ((j + N - 1) mod N)%nat) s').
  { intros s' j k Ht Hm Hk Hj. unfold press, handleKeyDown. rewrite Hk. simpl.
    rewrite (find_index s' j k); [|rewrite Ht; by destruct I|by rewrite Ht]. unfold focusNext, focusPrev, remainder. rewrite Ht. fold N.
    by destruct N; [lia|]. }
  destruct (Right s i n eq_refl eq_refl Hf Hi) as [HR _].
  destruct (At ((i + 1) mod N)%nat) as (k & Hk & Hkm); [apply Nat.mod_upper_bound; lia|].
  assert (Hfk : st_focus (press "ArrowRight" s) = Some k) by (rewrite HR; by apply focus_at).
  split; [by rewrite Hfk, Hk|]. split; [|split].
  - destruct (Right (press "ArrowRight" s) ((i + 1) mod N)%nat k) as [_ HL]; try done.
    1-2: rewrite HR; unfold focusTrigger; simpl; rewrite Hk; by case_decide.
    rewrite HL. assert (Hback : (((i + 1) mod N + N - 1) mod N = i)%nat).
    { destruct (decide (i + 1 = N)%nat) as [E|E].
      - rewrite E, Nat.Div0.mod_same. rewrite Nat.mod_small; lia.
      - rewrite (Nat.mod_small (i + 1)) by lia. replace (i + 1 + N - 1)%nat with (i + 1 * N)%nat by lia.
        rewrite Nat.Div0.mod_add, Nat.mod_small; lia. }
    rewrite Hback. apply focus_at; rewrite HR; unfold focusTrigger; simpl; rewrite Hk; (case_decide; [|done]); simpl; [done|].
    destruct (At i Hi') as (k' & Hk' & ?). congruence.
  - unfold press, handleKeyDown. simpl. unfold focusFirst. destruct (At 0%nat) as (k' & Hk' & ?); [lia|].
    rewrite (focus_at s 0 k') by done. by destruct (st_triggers s).
  - unfold press, handleKeyDown. simpl. unfold focusLast. fold N. destruct N as [|N'] eqn:EN; [lia|].
    destruct (At N') as (k' & Hk' & ?); [lia|]. rewrite (focus_at s N' k') by done.
    rewrite last_lookup. unfold N in EN. rewrite EN. done.
Qed.

(** ** The progress of a triage *)

(** The items of [TriagePipelineStepper]: state and spinner. *)
Definition pipeline_items (st : PipelineState) : list (ItemState * bool) :=
  let '(d1, d2, d3, d4) := pl_done st in
  imap (λ i done, let n := Z.of_nat i + 1 in
    (item_state (pl_activeStep st) done n, item_loading (pl_activeStep st) (bool_decide (pl_loadingStep st = Some n)) n))
    [d1; d2; d3; d4].

(** The items of [InvestigatorTraceStepper]. *)
Definition investigator_items (st : StepState) (flags : bool * bool * bool) : list (ItemState * bool) :=
  let '(d1, d2, d3) := flags in
  imap (λ i done, let n := Z.of_nat i + 1 in
    (item_state (ss_activeStep st) done n, item_loading (ss_activeStep st) (bool_decide (ss_loadingStep st = Some n)) n))
    [d1; d2; d3].

(** The pipeline is shown as one bar: all steps before the current one are
    completed, the current one is active and the only one with a spinner,
    those after it are inactive; once the envelope is there all four are
    completed and nothing spins. *)
Theorem pipeline_bar steps elapsed :
  let items := pipeline_items (pipeline_state steps elapsed) in
  items = replicate 4 (ItCompleted, false) ∨
  ∃ k, (1 ≤ k ≤ 3)%nat ∧
    items = replicate k (ItCompleted, false) ++ (ItActive, true) :: replicate (3 - k) (ItInactive, false).
Proof.
  unfold pipeline_items, pipeline_state. cbn [pl_done pl_activeStep pl_loadingStep].
  set (llm := existsb is_llm_step steps). set (fin := existsb (has_kind ["final_verdict"; _]) steps).
  set (env := existsb (has_kind ["envelope"; _]) steps). set (cls := existsb (has_kind ["classifier_complete"]) steps || _).
  destruct env; [left; by destruct llm, cls|]. right.
  destruct fin; [exists 3%nat; split; [lia|]; by destruct llm, cls|].
  destruct llm; [exists 2%nat; split; [lia|]; by destruct cls|]. destruct cls; [exists 2%nat|exists 1%nat]; (split; [lia|done]).
Qed.

(** In the compact stepper a step can be completed and spin at once: after a
    tool call the investigator reasons again, so the first step is both done
    and the current one. *)
Example reasoning_again :
  let step kind ts := mkKafkaTraceStep "c1" "default" "a1" "investigator" "llm" kind "s" (of_Z ts) in
  match investigator_stepper [step "tool_call" 1; step "intermediate_belief" 2] "classifier" "pending" with
  | Some (st, flags) => investigator_items st flags = [(ItCompleted, true); (ItInactive, false); (ItInactive, false)]
  | None => False
  end.
Proof. vm_compute. reflexivity. Qed.

(** A trigger that was removed stays registered: the arrow key at its left
    neighbour does nothing any more. *)
Example removed_trigger :
  let s := mkStepper None 1 [1%nat; 2%nat; 3%nat] ({[1%nat]} ∪ {[3%nat]}) (Some 1%nat) [] in
  handleKeyDown 1 1 "ArrowRight" s = s ∧ st_focus (handleKeyDown 1 1 "End" s) = Some 3%nat.
Proof. split; vm_compute; reflexivity. Qed.

(** A controlled stepper never moves by itself; every click and Enter is
    reported once, in order. *)
Lemma stepper_controlled v step s :
  st_value s = Some v →
  currentStep (handleSetActiveStep step s) = v ∧ st_changes (handleSetActiveStep step s) = st_changes s ++ [step].
Proof. intros Hv. unfold currentStep, handleSetActiveStep. simpl. by rewrite Hv. Qed.

(** Uncontrolled, it moves to the step; of the contents without [forceMount]
    exactly the active step's is rendered. *)
Lemma stepper_uncontrolled step value s :
  st_value s = None →
  currentStep (handleSetActiveStep step s) = step ∧
  (step_content value false (currentStep (handleSetActiveStep step s)) = CShown ↔ value = step) ∧
  (step_content value false (currentStep (handleSetActiveStep step s)) = CNone ↔ value ≠ step).
Proof.
  intros Hv. unfold currentStep, handleSetActiveStep, step_content. simpl. rewrite Hv. simpl.
  destruct (Z.eqb_spec value step); naive_solver.
Qed.
