(* ===== verification/CaseClient.v ===== *)
(** * The case view in the browser

    - [components/workbench/case-investigation-client.tsx]: the case record
      derived from event, baseline and verdict, the feature impacts, and the
      effect that sends live trace steps to the trace route;
    - [components/workbench/case-workbench.tsx]: approving and overriding a
      verdict;
    - [components/workbench/case-store-fallback.tsx]: what is shown when the
      server has no event;
    - [components/workbench/classifier-evidence-panel.tsx]: the numbers of
      the bars. *)
From Stdlib Require Import Ascii.
From S2P Require Import Prelude JsObject JsNum JsString JsValue Types AlertMappers CaseStore Effects.

(** ** Feature impacts *)

(** [Math.abs(b[1]) - Math.abs(a[1]) <= 0] *)
Definition by_impact (a b : string * num) : bool := negb (num_ltb (num_abs a.2) (num_abs b.2)).

Definition top_features (o : jsobj num) : list (string * num) := take 8 (sort_by by_impact (obj_entries o)).

Definition feature_name (name : string) : string := replace_char "_"%char " "%char name.

Definition classifierEvidenceToFeatureImpacts (evidence : option ClassifierEvidence) : list FeatureImpact :=
  match evidence with
  | None => []
  | Some ev =>
      match obj_entries (ce_shap_values ev) with
      | _ :: _ =>
          (λ e, mkFeatureImpact (feature_name e.1) (to_fixed 2 (default zero (obj_get e.1 (ce_input_features ev)))) e.2)
          <$> top_features (ce_shap_values ev)
      | [] =>
          (λ e, mkFeatureImpact (feature_name e.1) (to_fixed 2 e.2) zero) <$> top_features (ce_input_features ev)
      end
  end.

(** ** The bars *)

Definition max_impact (features : list FeatureImpact) : num :=
  foldr (λ f m, num_max (num_abs (fi_impact f)) m) (dec 1 6) features.

(** [Math.max(8, |impact| / maxImpact * 100)], in percent *)
Definition bar_width (features : list FeatureImpact) (f : FeatureImpact) : num :=
  num_max (of_Z 8) (num_mul (num_div (num_abs (fi_impact f)) (max_impact features)) (of_Z 100)).

Definition impact_label (f : FeatureImpact) : string :=
  if num_eqb (fi_impact f) zero then "0.00"
  else (if num_leb zero (fi_impact f) then "+" else EmptyString) +:+ to_fixed 2 (fi_impact f).

Definition allNearZero (features : list FeatureImpact) : bool :=
  negb (Nat.eqb (length features) 0) && forallb (λ f, num_ltb (num_abs (fi_impact f)) (dec 1 2)) features.

(** [Math.max(...l)] *)
Definition math_max (l : list num) : num := foldr num_max (SpecFloat.S754_infinity true) l.

(** A bar of the list: name, value, label, sign and width in percent; a bar
    of the chart: name, colour and length. *)
Record evidence_bar := mkEvidenceBar { eb_name : string; eb_value : string; eb_label : string; eb_positive : bool; eb_width : num }.
Record chart_bar := mkChartBar { cb_name : string; cb_fill : string; cb_length : num }.

Record evidence_panel := mkEvidencePanel {
  ep_empty : bool; ep_near_zero : option string; ep_bars : list evidence_bar; ep_chart : list chart_bar; ep_chart_hidden : bool
}.

Definition evidence_bar_of (features : list FeatureImpact) (f : FeatureImpact) : evidence_bar :=
  mkEvidenceBar (fi_name f) (fi_value f) (impact_label f) (num_leb zero (fi_impact f)) (bar_width features f).

Definition chart_bar_of (features : list FeatureImpact) (f : FeatureImpact) : chart_bar :=
  mkChartBar (fi_name f)
    (if num_leb zero (fi_impact f) then "hsl(var(--severity-high))" else "hsl(var(--signal-good))")
    (num_mul (num_div (num_abs (fi_impact f)) (max_impact features)) (of_Z 100)).

Definition ClassifierEvidencePanel (features : list FeatureImpact) : evidence_panel :=
  let isEmpty := Nat.eqb (length features) 0 in
  mkEvidencePanel isEmpty
    (if allNearZero features then Some ("max Δ " +:+ to_fixed 4 (math_max ((λ f, num_abs (fi_impact f)) <$> features))) else None)
    (evidence_bar_of features <$> features) (chart_bar_of features <$> features) (allNearZero features || isEmpty).

(** ** The case record *)

Definition given (s : option string) : bool := Ocsf.str_truthy s.

(** [now] is the local time of day. *)
Definition case_timeline (now : string) (ev : Ocsf.OcsfEvent) (liveBaseline : Baseline) (verdict : option TriageVerdict) :
    list TimelineEntry :=
  [mkTimelineEntry now "Collector" ("Normalized CloudTrail " +:+ default "event" (Ocsf.oe_api_operation ev) +:+ " to OCSF.")]
  ++ match liveBaseline with
     | Some _ => [mkTimelineEntry now "RisingWave" "User baseline fetched from entity_baselines view."]
     | None => []
     end
  ++ match verdict with
     | Some v => [
         mkTimelineEntry now "Orchestrator"
           (tv_execution_path v +:+ " path — " +:+ tv_verdict v +:+ " verdict in " +:+ num_to_string (tv_latency_ms v) +:+ "ms.");
         mkTimelineEntry now "Attestation" ("Ed25519 signed envelope. Action ID: " +:+ tv_action_id v +:+ ".")]
     | None => []
     end.

Definition case_evidence (ev : Ocsf.OcsfEvent) (liveBaseline : Baseline) (verdict : option TriageVerdict) :
    list EvidenceItem :=
  [mkEvidenceItem "Event ID" (Ocsf.oe_event_id ev) EvOcsf;
   mkEvidenceItem "API operation" (default "—" (Ocsf.oe_api_operation ev)) EvOcsf;
   mkEvidenceItem "Service" (default "—" (Ocsf.oe_api_service ev)) EvOcsf;
   mkEvidenceItem "Region" (default "—" (Ocsf.oe_cloud_region ev)) EvOcsf]
  ++ match liveBaseline with
     | Some (Some regions) => [mkEvidenceItem "Baseline regions (30d)" (join ", " regions) EvAsset]
     | _ => []
     end
  ++ match verdict with
     | Some v => [mkEvidenceItem "Triage action ID" (tv_action_id v) EvAsset;
                  mkEvidenceItem "Novelty score" (to_fixed 3 (tv_novelty_score v)) EvAsset]
     | None => []
     end.

Definition caseRecord (now : string) (ev : Ocsf.OcsfEvent) (liveBaseline : Baseline) (verdict : option TriageVerdict) :
    CaseRecord := {|
  cr_id := Ocsf.oe_event_id ev;
  cr_title :=
    if given (Ocsf.oe_api_operation ev) then
      default EmptyString (Ocsf.oe_api_operation ev) +:+
      (if given (Ocsf.oe_api_service ev) then " via " +:+ default EmptyString (Ocsf.oe_api_service ev) else EmptyString)
    else "Cloud Activity Event";
  cr_severity := default "medium" (Ocsf.oe_severity ev);
  cr_state := AwaitingReview;
  cr_entity := default "unknown" (Ocsf.oe_actor_user_name ev);
  cr_source := "AWS CloudTrail (live)";
  cr_verdict := match verdict with Some v => to_lower (tv_verdict v) | None => "investigating" end;
  cr_confidence := match verdict with Some v => tv_calibrated_confidence v | None => zero end;
  cr_executionPath := match verdict with Some v => tv_execution_path v | None => "classifier" end;
  cr_timeline := case_timeline now ev liveBaseline verdict;
  cr_evidence := case_evidence ev liveBaseline verdict;
  cr_featureImpacts := classifierEvidenceToFeatureImpacts (verdict ≫= tv_classifier_evidence)
|}.

(** ** Persisting the live trace *)

(** The ref [persistedTraceKeys] and the batches sent so far. *)
Record persister := mkPersister { pt_keys : gset string; pt_posts : list (list KafkaTraceStep) }.

Definition persister_init : persister := mkPersister ∅ [].

(** The effect, run for every new value of [liveSteps]; the answer of the
    request is never looked at. *)
Definition persist_effect (s : persister) (liveSteps : list KafkaTraceStep) : persister :=
  let fresh := dedup_by step_key (pt_keys s) liveSteps in
  mkPersister (dedup_seen step_key (pt_keys s) liveSteps)
    (match fresh with [] => pt_posts s | _ => pt_posts s ++ [fresh] end).

Definition persist_all (renders : list (list KafkaTraceStep)) : persister :=
  foldl persist_effect persister_init renders.

(** ** Approving and overriding *)

Record workbench := mkWorkbench {
  wb_store : Cases;
  wb_approved : bool;
  wb_local : option string;      (** [localOverrideLabel] *)
  wb_dialog : bool;              (** [overrideOpen] *)
  wb_toasts : list string;
  wb_requests : list jsval;      (** bodies of the override requests, in order *)
  wb_traceLoads : nat
}.

Definition workbench_mount (store : Cases) : workbench := mkWorkbench store false None false [] [] 0.

Section Workbench.
(** [orchestratorCaseId ?? ""] *)
Variable oid : string.

Definition toast (m : string) (s : workbench) : workbench :=
  mkWorkbench (wb_store s) (wb_approved s) (wb_local s) (wb_dialog s) (wb_toasts s ++ [m]) (wb_requests s) (wb_traceLoads s).

Definition handleApprove (now : Z) (s : workbench) : workbench :=
  toast "Verdict approved"
    (mkWorkbench (if String.eqb oid EmptyString then wb_store s else setApproved now oid (wb_store s)) true
       (wb_local s) (wb_dialog s) (wb_toasts s) (wb_requests s) (wb_traceLoads s)).

Definition open_dialog (b : bool) (s : workbench) : workbench :=
  mkWorkbench (wb_store s) (wb_approved s) (wb_local s) b (wb_toasts s) (wb_requests s) (wb_traceLoads s).

Definition handleOverrideSubmit (now : Z) (label reason : string) (s : workbench) : workbench :=
  if String.eqb oid EmptyString then s
  else
    mkWorkbench (setOverride now oid label (wb_store s)) (wb_approved s) (Some label) false
      (wb_toasts s ++ ["Override submitted"])
      (wb_requests s ++ [JObj [("label", JStr label); ("reason", JStr reason)]]) (wb_traceLoads s).

(** [VerdictDialog]'s [handleSubmit] *)
Definition dialog_submit (now : Z) (label reason : string) (s : workbench) : workbench :=
  if String.eqb (trim reason) EmptyString then s else handleOverrideSubmit now label reason s.

(** The answer of the override route. *)
Definition override_answered (r : res fetched) (s : workbench) : workbench :=
  match r with
  | Ok x =>
      if ft_ok x then
        mkWorkbench (wb_store s) (wb_approved s) (wb_local s) (wb_dialog s) (wb_toasts s) (wb_requests s) (S (wb_traceLoads s))
      else
        let j := match ft_json x with Some v => v | None => JObj [] end in
        toast (if is_string (prop "error" j) then to_string (prop "error" j) else "Override failed") s
  | Throw _ => toast "Override failed" s
  end.

Definition overrideApplied (s : workbench) : bool :=
  bool_decide (is_Some (wb_local s)) || bool_decide (selectDisposition oid (wb_store s) = DispOverride).

Definition approvedUi (s : workbench) : bool :=
  wb_approved s || bool_decide (selectDisposition oid (wb_store s) = DispApproved).

Definition overrideLabel (s : workbench) : string :=
  match wb_local s with
  | Some l => l
  | None => default EmptyString (obj_get oid (wb_store s) ≫= en_overrideLabel)
  end.

Definition statusLabel (record : CaseRecord) (s : workbench) : string :=
  if overrideApplied s then "Override: " +:+ replace_char "_"%char " "%char (overrideLabel s)
  else if approvedUi s then "Approved"
  else replace_first_char "-"%char " "%char (state_string (cr_state record)).

(** The buttons are there only before a decision. *)
Definition can_decide (s : workbench) : bool :=
  negb (String.eqb oid EmptyString) && negb (overrideApplied s) && negb (approvedUi s).

Inductive wb_event :=
| WbApprove (now : Z)
| WbDialog (b : bool)
| WbSubmit (now : Z) (label reason : string)
| WbAnswer (r : res fetched).

Definition wb_handle (e : wb_event) (s : workbench) : option workbench :=
  match e with
  | WbApprove now => if can_decide s then Some (handleApprove now s) else None
  | WbDialog true => if can_decide s then Some (open_dialog true s) else None
  | WbDialog false => if wb_dialog s then Some (open_dialog false s) else None
  | WbSubmit now label reason => if wb_dialog s then Some (dialog_submit now label reason s) else None
  | WbAnswer r => if (0 <? length (wb_requests s))%nat then Some (override_answered r s) else None
  end.

Definition wb_step (s s' : workbench) : Prop := ∃ e, wb_handle e s = Some s'.
End Workbench.

(** ** The fallback *)

Inductive fallback := FbLoading | FbCase (event : Ocsf.OcsfEvent) (baseline : Baseline) | FbExpired.

Definition CaseStoreFallback (hydrated : bool) (caseId : string) (s : Cases) : fallback :=
  if negb hydrated then FbLoading
  else match selectCase caseId s with
       | Some entry => FbCase (en_event entry) (en_baseline entry)
       | None => FbExpired
       end.

(** ** Properties *)

Lemma persist_effect_posts s l :
  concat (pt_posts (persist_effect s l)) = concat (pt_posts s) ++ dedup_by step_key (pt_keys s) l.
Proof.
  unfold persist_effect. cbn [pt_posts]. destruct (dedup_by step_key (pt_keys s) l) as [|t ts].
  - by rewrite app_nil_r.
  - rewrite concat_app. simpl. by rewrite app_nil_r.
Qed.

Lemma persist_all_spec renders :
  pt_keys (persist_all renders) = dedup_seen step_key ∅ (concat renders) ∧
  concat (pt_posts (persist_all renders)) = dedup_by step_key ∅ (concat renders) ∧
  [] ∉ pt_posts (persist_all renders).
Proof.
  unfold persist_all. induction renders as [|l renders IH] using rev_ind; [by repeat split; [..|apply not_elem_of_nil]|].
  rewrite foldl_app, concat_app. change (concat [l]) with (l ++ []). rewrite app_nil_r. cbn [foldl].
  set (s := foldl persist_effect persister_init renders) in *. destruct IH as (IH1 & IH2 & IH3).
  assert (Hk : dedup_seen step_key ∅ (concat renders ++ l) = dedup_seen step_key (pt_keys s) l).
  { rewrite IH1. apply dedup_seen_app. }
  split; [by rewrite Hk|]. split.
  - rewrite persist_effect_posts, IH2, dedup_by_app, IH1. done.
  - unfold persist_effect. simpl. destruct (dedup_by step_key (pt_keys s) l) as [|t ts]; [done|].
    rewrite elem_of_app, list_elem_of_singleton. by intros [?|?].
Qed.

(** Each live step is sent to the trace route exactly once per page. For
    any sequence of values of the live trace, the batches sent, put
    together, are the distinct steps in order of appearance; no batch is
    empty and no identity is in two batches. As answers are ignored, the
    steps of a batch that fails are never sent again by this page. *)
Theorem trace_persist_once renders :
  let posts := pt_posts (persist_all renders) in
  concat posts = dedup_by step_key ∅ (concat renders) ∧ [] ∉ posts ∧
  NoDup (step_key <$> concat posts) ∧
  (∀ t, t ∈ concat renders → step_key t ∈ step_key <$> concat posts) ∧
  (∀ i j b1 b2 t1 t2, posts !! i = Some b1 → posts !! j = Some b2 → t1 ∈ b1 → t2 ∈ b2 →
     step_key t1 = step_key t2 → i = j).
Proof.
  intros posts. destruct (persist_all_spec renders) as (_ & E & Hne). fold posts in E, Hne.
  split; [done|]. split; [done|]. rewrite E. split; [apply dedup_by_NoDup|]. split.
  - intros t Ht. rewrite dedup_by_keys. split; [by apply list_elem_of_fmap_2|set_solver].
  - apply (NoDup_concat_batches step_key). rewrite E. apply dedup_by_NoDup.
Qed.

(** What holds once an override was submitted. *)
Record wb_inv (oid : string) (store : Cases) (s : workbench) : Prop := {
  wi_once : (length (wb_requests s) ≤ 1)%nat;
  wi_closed : wb_requests s ≠ [] → wb_dialog s = false;
  wi_domain : is_Some (obj_get oid (wb_store s)) ↔ is_Some (obj_get oid store);
  wi_shown : ∀ body, body ∈ wb_requests s →
    ∃ label reason, body = JObj [("label", JStr label); ("reason", JStr reason)] ∧ trim reason ≠ EmptyString ∧
      wb_local s = Some label ∧ oid ≠ EmptyString ∧
      (is_Some (obj_get oid store) → selectDisposition oid (wb_store s) = DispOverride)
}.

Lemma overridden_undecidable oid store s body :
  wb_inv oid store s → body ∈ wb_requests s → can_decide oid s = false.
Proof.
  intros I Hb. destruct (wi_shown _ _ _ I body Hb) as (label & reason & _ & _ & Hl & _).
  unfold can_decide, overrideApplied. rewrite Hl, bool_decide_eq_true_2 by by eexists.
  by rewrite !andb_false_r.
Qed.

Lemma update_entry_domain c k f (s : Cases) : is_Some (obj_get k (update_entry c f s)) ↔ is_Some (obj_get k s).
Proof.
  unfold update_entry. destruct (obj_get c s) as [e|] eqn:E; [|done]. destruct (decide (k = c)) as [->|].
  - rewrite obj_get_set_eq, E. split; eauto.
  - by rewrite obj_get_set_ne.
Qed.

Lemma setOverride_disposition now oid label st :
  is_Some (obj_get oid st) → selectDisposition oid (setOverride now oid label st) = DispOverride.
Proof. intros [e E]. unfold selectDisposition, setOverride, update_entry. by rewrite E, obj_get_set_eq. Qed.

(** Events that neither decide nor send keep the invariant. *)
Lemma wb_inv_frame oid store s s' :
  wb_store s' = wb_store s → wb_local s' = wb_local s → wb_requests s' = wb_requests s →
  (wb_requests s ≠ [] → wb_dialog s' = false) → wb_inv oid store s → wb_inv oid store s'.
Proof. intros E1 E2 E3 E4 [I1 I2 I3 I4]. constructor; rewrite ?E1, ?E2, ?E3; done. Qed.

Lemma wb_submit_inv oid store now label reason s :
  wb_dialog s = true → wb_inv oid store s → wb_inv oid store (dialog_submit oid now label reason s).
Proof.
  intros Hd I. unfold dialog_submit, handleOverrideSubmit. case_match eqn:Er; [done|]. case_match eqn:Eo; [done|].
  assert (Hnil : wb_requests s = []).
  { destruct (wb_requests s) eqn:E; [done|]. rewrite (wi_closed _ _ _ I) in Hd; [done|by rewrite E]. }
  apply String.eqb_neq in Er, Eo. constructor; simpl; rewrite ?Hnil; simpl; [lia|done| |].
  - unfold setOverride. rewrite update_entry_domain. apply I.
  - intros body ->%list_elem_of_singleton. exists label, reason. split_and!; try done.
    intros Hs. apply setOverride_disposition. by apply (wi_domain _ _ _ I).
Qed.

Lemma wb_step_inv oid store s s' : wb_inv oid store s → wb_step oid s s' → wb_inv oid store s'.
Proof.
  intros I [[now|[]|now label reason|r] E]; simpl in E; case_match eqn:Hc; simplify_eq.
  - assert (Hnil : wb_requests s = []).
    { destruct (wb_requests s) as [|b l] eqn:Er; [done|].
      rewrite (overridden_undecidable oid store s b I) in Hc; [done|rewrite Er; left]. }
    constructor; simpl; rewrite ?Hnil; simpl; [lia|done| |by intros ? ?%elem_of_nil].
    case_match; [apply I|]. unfold setApproved. rewrite update_entry_domain. apply I.
  - apply (wb_inv_frame oid store s); try done. simpl. intros Hne.
    destruct (wb_requests s) as [|b l] eqn:Er; [done|].
    rewrite (overridden_undecidable oid store s b I) in Hc; [done|rewrite Er; left].
  - by apply (wb_inv_frame oid store s).
  - by apply wb_submit_inv.
  - pose proof (wi_closed _ _ _ I). destruct r as [x|e]; simpl; [destruct (ft_ok x)|]; by apply (wb_inv_frame oid store s).
Qed.

(** An override is shown as recorded whatever the server says. A mounted
    case view sends at most one override request, always with a reason; from
    then on, even if the request fails, the case is labelled with the
    override, neither decision can be made again, and, when the case is in
    the store, not after leaving and reopening it either. *)
Theorem override_optimistic oid store s record body :
  star (wb_step oid) (workbench_mount store) s → body ∈ wb_requests s →
  (length (wb_requests s) = 1)%nat ∧
  ∃ label reason, body = JObj [("label", JStr label); ("reason", JStr reason)] ∧ trim reason ≠ EmptyString ∧
    statusLabel oid record s = "Override: " +:+ replace_char "_"%char " "%char label ∧
    can_decide oid s = false ∧
    (is_Some (obj_get oid store) → can_decide oid (workbench_mount (wb_store s)) = false).
Proof.
  intros R Hb. assert (I : wb_inv oid store s).
  { eapply (star_invariant _ (wb_inv oid store)); [|intros ? ?; apply wb_step_inv|exact R].
    constructor; simpl; [lia|done|done|by intros ? ?%elem_of_nil]. }
  split.
  { pose proof (wi_once _ _ _ I). destruct (wb_requests s) as [|? []]; [by apply elem_of_nil in Hb|done|simpl in *; lia]. }
  pose proof (overridden_undecidable oid store s body I Hb) as Hdec.
  destruct (wi_shown _ _ _ I body Hb) as (label & reason & -> & Hr & Hl & Ho & Hd). exists label, reason.
  split; [done|]. split; [done|]. split; [|split; [done|]].
  - unfold statusLabel, overrideApplied, overrideLabel. rewrite Hl. rewrite bool_decide_eq_true_2 by by eexists. done.
  - intros Hs. unfold can_decide, overrideApplied. simpl. rewrite Hd by done.
    rewrite (bool_decide_eq_true_2 (DispOverride = DispOverride)) by done. by rewrite ?orb_true_r, !andb_false_r.
Qed.

Definition submitted_override : workbench :=
  dialog_submit "c1" 9 "benign" "travel" (open_dialog true (workbench_mount sample_store)).

Definition rejected_override : workbench :=
  override_answered (Ok (mkFetched 401 None EmptyString)) submitted_override.

Lemma rejected_override_star : star (wb_step "c1") (workbench_mount sample_store) rejected_override.
Proof.
  apply (star_snoc _ _ submitted_override); [|by exists (WbAnswer (Ok (mkFetched 401 None EmptyString)))].
  apply (star_snoc _ _ (open_dialog true (workbench_mount sample_store))).
  - eapply star_snoc; [constructor|exists (WbDialog true); vm_compute; reflexivity].
  - by exists (WbSubmit 9 "benign" "travel").
Qed.

Lemma override_optimistic_witness :
  wb_toasts rejected_override = ["Override submitted"; "Override failed"] ∧ can_decide "c1" rejected_override = false.
Proof.
  split; [reflexivity|].
  destruct (override_optimistic "c1" sample_store rejected_override (caseRecord "10:00" (sample_event "c1") None None)
    (JObj [("label", JStr "benign"); ("reason", JStr "travel")]) rejected_override_star) as (_ & l & r & _ & _ & _ & E & _).
  - vm_compute. left.
  - exact E.
Defined.
