(* ===== verification/SimulatePage.v ===== *)
(** * The simulation page in the browser

    - [app/workbench/simulate/page.tsx]: the page's state, a simulation with
      the polling of the slower stages that follows it, the batch mode and
      the state each stage is shown in;
    - [lib/stores/simulate-store.ts]: the history of runs.

    One mount of the page is a step relation over [page].  Its environment is
    the user (who may press what is enabled), the answers of the simulation
    and verification routes, which arrive in any order, and the browser's
    intervals.  An interval's k-th tick happens at least k periods after it
    was started; times of events never go back. *)
From Stdlib Require Import Ascii SpecFloat.
From S2P Require Import Prelude JsObject JsNum JsString JsValue Types Effects Scenarios SimulateRoute CaseClient.

(** ** The store *)

Record SimRun := mkSimRun {
  sr_ts : Z;
  sr_scenarioId : string;
  sr_verdict : jsval;
  sr_latencyMs : jsval;
  sr_confidence : jsval
}.

Definition pushRun (entry : SimRun) (history : list SimRun) : list SimRun := take 10 (entry :: history).
Definition clearHistory (history : list SimRun) : list SimRun := [].

(** ** The page's data *)

Inductive RunState := RIdle | RRunning | RDone | RError.
Inductive PollState := PIdle | PPolling | PFinished.
#[export] Instance RunState_eq : EqDecision RunState. Proof. solve_decision. Defined.
#[export] Instance PollState_eq : EqDecision PollState. Proof. solve_decision. Defined.

Definition POLL_TIMEOUT_MS : Z := 90000.
Definition POLL_PERIOD : Z := 2500.

Definition MEMORY_STAGES : list string := ["risingwave"; "detection"; "iceberg"; "mcp"].
Definition HOT_PATH_STAGES : list string := ["collector"; "orchestrator"; "calibration"; "attestation"].

(** The state hooks a scenario's run writes. *)
Record view := mkView {
  vw_selected : string;          (** id of the selected scenario *)
  vw_params : jsval;
  vw_runState : RunState;
  vw_hot : jsval;                (** [JNull] before the answer *)
  vw_memory : jsval;
  vw_pollState : PollState;
  vw_error : option string
}.

(** The variables a run's [poll] closes over. *)
Record poll_args := mkPollArgs { pa_eventId : jsval; pa_username : jsval; pa_actionId : jsval }.

Record interval := mkInterval { iv_id : nat; iv_args : poll_args; iv_due : Z }.

(** A verification request under way; [pp_first]: it is the one its run awaits. *)
Record pending_poll := mkPending { pp_args : poll_args; pp_first : bool }.

Record page := mkPage {
  pg_mounted : bool;
  pg_view : view;
  pg_ref : option nat;           (** [pollRef] *)
  pg_start : Z;                  (** [pollStartRef] *)
  pg_intervals : list interval;  (** the live ones *)
  pg_runs : list (string * jsval);  (** simulations under way: scenario id and parameters *)
  pg_polls : list pending_poll;
  pg_history : list SimRun;
  pg_next : nat;                 (** next interval id *)
  pg_clock : Z
}.

Definition reset_run (rs : RunState) (v : view) : view :=
  mkView (vw_selected v) (vw_params v) rs JNull JNull PIdle None.

(** ** Values read from an answer *)

(** [v.k] *)
Definition get (k : string) (v : jsval) : res jsval := if is_nullish v then Throw (member_error k v) else Ok (prop k v).

Definition stage_flag (k : string) (v : jsval) : res bool :=
  res_bind (λ b : jsval, Ok (truthy b)) (res_bind (get "ok") (get k v)).

(** [a && b]: [b] is evaluated only when [a] holds. *)
Definition and_then (a b : res bool) : res bool := res_bind (λ x : bool, if x then b else Ok false) a.

Definition allOk (v : jsval) : res bool :=
  and_then (stage_flag "risingwave" v) (and_then (stage_flag "detection" v)
    (and_then (stage_flag "iceberg" v) (stage_flag "mcp" v))).

Definition hot_ok (data : jsval) : res bool := and_then (stage_flag "collector" data) (stage_flag "orchestrator" data).

(** ** Operations *)

Definition clear_interval (id : nat) (l : list interval) : list interval := filter (λ i, iv_id i ≠ id) l.

Definition set_view (v : view) (s : page) : page :=
  mkPage (pg_mounted s) v (pg_ref s) (pg_start s) (pg_intervals s) (pg_runs s) (pg_polls s) (pg_history s) (pg_next s) (pg_clock s).

(** [if (pollRef.current) { clearInterval(pollRef.current); pollRef.current = null; }] *)
Definition clear_ref (s : page) : page :=
  mkPage (pg_mounted s) (pg_view s) None (pg_start s)
    (match pg_ref s with Some id => clear_interval id (pg_intervals s) | None => pg_intervals s end)
    (pg_runs s) (pg_polls s) (pg_history s) (pg_next s) (pg_clock s).

Definition send_run (rq : string * jsval) (s : page) : page :=
  mkPage (pg_mounted s) (pg_view s) (pg_ref s) (pg_start s) (pg_intervals s) (pg_runs s ++ [rq]) (pg_polls s)
    (pg_history s) (pg_next s) (pg_clock s).

Definition send_poll (a : poll_args) (first : bool) (s : page) : page :=
  mkPage (pg_mounted s) (pg_view s) (pg_ref s) (pg_start s) (pg_intervals s) (pg_runs s)
    (pg_polls s ++ [mkPending a first]) (pg_history s) (pg_next s) (pg_clock s).

(** [pollRef.current = setInterval(poll, 2_500)] *)
Definition start_interval (a : poll_args) (now : Z) (s : page) : page :=
  mkPage (pg_mounted s) (pg_view s) (Some (pg_next s)) (pg_start s)
    (pg_intervals s ++ [mkInterval (pg_next s) a (now + POLL_PERIOD)])
    (pg_runs s) (pg_polls s) (pg_history s) (S (pg_next s)) (pg_clock s).

Definition set_start (now : Z) (s : page) : page :=
  mkPage (pg_mounted s) (pg_view s) (pg_ref s) now (pg_intervals s) (pg_runs s) (pg_polls s) (pg_history s) (pg_next s) (pg_clock s).

Definition push_run (e : SimRun) (s : page) : page :=
  mkPage (pg_mounted s) (pg_view s) (pg_ref s) (pg_start s) (pg_intervals s) (pg_runs s) (pg_polls s)
    (pushRun e (pg_history s)) (pg_next s) (pg_clock s).

Definition set_hot (data : jsval) (rs : RunState) (e : option string) (v : view) : view :=
  mkView (vw_selected v) (vw_params v) rs data (vw_memory v) (vw_pollState v) e.
Definition set_memory (m : jsval) (v : view) : view :=
  mkView (vw_selected v) (vw_params v) (vw_runState v) (vw_hot v) m (vw_pollState v) (vw_error v).
Definition set_pollState (p : PollState) (v : view) : view :=
  mkView (vw_selected v) (vw_params v) (vw_runState v) (vw_hot v) (vw_memory v) p (vw_error v).
Definition set_error (m : string) (v : view) : view :=
  mkView (vw_selected v) (vw_params v) RError (vw_hot v) (vw_memory v) (vw_pollState v) (Some m).

Definition page_mount (sc : Scenario) (history : list SimRun) (now : Z) : page :=
  mkPage true (mkView (sc_id sc) (sc_defaultParams sc) RIdle JNull JNull PIdle None) None 0 [] [] [] history 1 now.

Definition selectScenario (sc : Scenario) (s : page) : page :=
  clear_ref (set_view (mkView (sc_id sc) (sc_defaultParams sc) RIdle JNull JNull PIdle None) s).

(** [runSimulation] up to its first [await]. *)
Definition runSimulation (s : page) : page :=
  send_run (vw_selected (pg_view s), vw_params (pg_view s)) (clear_ref (set_view (reset_run RRunning (pg_view s)) s)).

(** [stopPolling] *)
Definition stopPolling (s : page) : page := set_view (set_pollState PFinished (pg_view s)) (clear_ref s).

(** What [runSimulation] does with the answer [data] after it was shown. *)
Definition run_follow (scenarioId : string) (data : jsval) (now : Z) (s : page) : page :=
  let s1 := push_run (mkSimRun now scenarioId (nullish (prop "verdict" data) (JStr "unknown"))
                        (nullish (prop "total_latency_ms" data) (JNum zero)) (prop "calibrated_confidence" data)) s in
  let ids := prop "event_ids" data in
  if is_nullish ids then set_view (set_error (err_message (member_error "0" ids)) (pg_view s1)) s1
  else if truthy (index0 ids) then
    let s2 := set_start now s1 in
    send_poll (mkPollArgs (index0 ids) (prop "username" data) (prop "action_id" data)) true
      (set_view (set_pollState PPolling (pg_view s2)) s2)
  else set_view (set_pollState PFinished (pg_view s1)) s1.

(** The rest of [runSimulation], once its request is answered. *)
Definition run_answered (scenarioId : string) (r : res fetched) (now : Z) (s : page) : page :=
  match r with
  | Throw e => set_view (set_error (err_message e) (pg_view s)) s
  | Ok ft =>
      match ft_json ft with
      | None => set_view (set_error (err_message json_error) (pg_view s)) s
      | Some data =>
          match hot_ok data with
          | Throw e => set_view (set_hot data RError (Some (err_message e)) (pg_view s)) s
          | Ok b =>
              run_follow scenarioId data now
                (set_view (set_hot data (if b then RDone else RError) (vw_error (pg_view s)) (pg_view s)) s)
          end
      end
  end.

Definition verify_url (a : poll_args) : string :=
  "/api/simulate/verify?event_id=" +:+ encode_uri_component (to_string (pa_eventId a)) +:+
  "&username=" +:+ encode_uri_component (to_string (pa_username a)) +:+
  "&action_id=" +:+ encode_uri_component (to_string (pa_actionId a)).

(** The rest of [poll], once its request is answered; the [catch] is empty. *)
Definition poll_done (r : res fetched) (now : Z) (s : page) : page :=
  match r with
  | Throw _ => s
  | Ok ft =>
      match ft_json ft with
      | None => s
      | Some v =>
          let s1 := set_view (set_memory v (pg_view s)) s in
          match allOk v with
          | Throw _ => s1
          | Ok ok => if ok || (POLL_TIMEOUT_MS <? now - pg_start s) then stopPolling s1 else s1
          end
      end
  end.

(** [await poll(); pollRef.current = setInterval(poll, 2_500)] for the first
    poll of a run, [poll] alone for the others. *)
Definition poll_answered (p : pending_poll) (r : res fetched) (now : Z) (s : page) : page :=
  let s1 := poll_done r now s in
  if pp_first p then start_interval (pp_args p) now s1 else s1.

Definition drop_run (i : nat) (s : page) : page :=
  mkPage (pg_mounted s) (pg_view s) (pg_ref s) (pg_start s) (pg_intervals s) (delete i (pg_runs s)) (pg_polls s)
    (pg_history s) (pg_next s) (pg_clock s).
Definition drop_poll (i : nat) (s : page) : page :=
  mkPage (pg_mounted s) (pg_view s) (pg_ref s) (pg_start s) (pg_intervals s) (pg_runs s) (delete i (pg_polls s))
    (pg_history s) (pg_next s) (pg_clock s).

Definition set_clock (now : Z) (s : page) : page :=
  mkPage (pg_mounted s) (pg_view s) (pg_ref s) (pg_start s) (pg_intervals s) (pg_runs s) (pg_polls s)
    (pg_history s) (pg_next s) now.

(** A tick of a live interval: one more poll. *)
Definition tick (id : nat) (now : Z) (s : page) : option page :=
  match list_find (λ i, iv_id i = id) (pg_intervals s) with
  | Some (k, iv) =>
      if iv_due iv <=? now then
        Some (send_poll (iv_args iv) false
          (mkPage (pg_mounted s) (pg_view s) (pg_ref s) (pg_start s)
             (<[k := mkInterval id (iv_args iv) (iv_due iv + POLL_PERIOD)]> (pg_intervals s))
             (pg_runs s) (pg_polls s) (pg_history s) (pg_next s) (pg_clock s)))
      else None
  | None => None
  end.

(** The cleanup of the mount effect. *)
Definition page_unmount (s : page) : page :=
  mkPage false (pg_view s) (pg_ref s) (pg_start s)
    (match pg_ref s with Some id => clear_interval id (pg_intervals s) | None => pg_intervals s end)
    (pg_runs s) (pg_polls s) (pg_history s) (pg_next s) (pg_clock s).

Definition set_params (p : jsval) (s : page) : page :=
  let v := pg_view s in
  set_view (mkView (vw_selected v) p (vw_runState v) (vw_hot v) (vw_memory v) (vw_pollState v) (vw_error v)) s.

Inductive page_event :=
| PgSelect (sc : Scenario)
| PgParams (p : jsval)
| PgRun
| PgRunAnswer (i : nat) (r : res fetched)
| PgTick (id : nat)
| PgPollAnswer (i : nat) (r : res fetched)
| PgUnmount.

(** Event [e] at time [now]. The run button is disabled while running. *)
Definition page_handle (e : page_event) (now : Z) (s0 : page) : option page :=
  let s := set_clock now s0 in
  if now <? pg_clock s0 then None
  else match e with
  | PgSelect sc => if pg_mounted s then Some (selectScenario sc s) else None
  | PgParams p => if pg_mounted s then Some (set_params p s) else None
  | PgRun => if pg_mounted s && negb (bool_decide (vw_runState (pg_view s) = RRunning)) then Some (runSimulation s) else None
  | PgRunAnswer i r => match pg_runs s !! i with Some (id, _) => Some (run_answered id r now (drop_run i s)) | None => None end
  | PgTick id => tick id now s
  | PgPollAnswer i r => match pg_polls s !! i with Some p => Some (poll_answered p r now (drop_poll i s)) | None => None end
  | PgUnmount => if pg_mounted s then Some (page_unmount s) else None
  end.

Definition page_step (s s' : page) : Prop := ∃ e now, page_handle e now s = Some s'.

(** ** What is shown *)

Inductive StageShown := ShPending | ShRunning | ShOk | ShFail.
#[export] Instance StageShown_eq : EqDecision StageShown. Proof. solve_decision. Defined.

Definition hotState (key : string) (v : view) : StageShown :=
  if bool_decide (vw_runState v = RIdle) then ShPending
  else if bool_decide (vw_runState v = RRunning) && negb (truthy (vw_hot v)) then ShRunning
  else
    let r := if truthy (vw_hot v) then prop key (vw_hot v) else JUndef in
    if is_nullish r then ShPending
    else if truthy (prop "ok" r) then ShOk
    else if truthy r then ShFail else ShPending.

Definition memoryState (key : string) (v : view) : StageShown :=
  if bool_decide (vw_runState v = RIdle) || negb (truthy (vw_hot v)) then ShPending
  else if negb (truthy (vw_memory v)) then ShRunning
  else
    let r := prop key (vw_memory v) in
    if negb (truthy r) then ShRunning
    else if truthy (prop "ok" r) then ShOk
    else if bool_decide (vw_pollState v = PPolling) then ShRunning else ShFail.

(** The number beside [verified], once polling has finished; a missing stage
    throws. *)
Fixpoint count_ok (keys : list string) (memory : jsval) : res nat :=
  match keys with
  | [] => Ok 0%nat
  | k :: keys' => res_bind (λ b : bool, res_bind (λ n, Ok (if b then S n else n)) (count_ok keys' memory)) (stage_flag k memory)
  end.

Definition verified_label (v : view) : res (option string) :=
  if truthy (vw_memory v) && bool_decide (vw_pollState v = PFinished) then
    res_bind (λ n : nat, Ok (Some ("verified " +:+ string_of_Z (Z.of_nat n) +:+ "/4 · polling stopped")))
      (count_ok MEMORY_STAGES (vw_memory v))
  else Ok None.

(** The panel with the verdict: whether it is shown. *)
Definition verdict_shown (v : view) : res bool :=
  if bool_decide (vw_runState v = RIdle) || (bool_decide (vw_runState v = RError) && negb (truthy (vw_hot v))) then Ok false
  else if truthy (vw_hot v) then stage_flag "orchestrator" (vw_hot v) else Ok false.

Definition shapToFeatureImpacts (shapValues inputFeatures : jsobj num) : list FeatureImpact :=
  (λ e, mkFeatureImpact (feature_name e.1) (to_fixed 3 (default zero (obj_get e.1 inputFeatures))) e.2)
  <$> take 8 (sort_by by_impact (obj_entries shapValues)).

Definition confidence_percent (value : num) : option Z := round_Z (num_mul value (of_Z 100)).
Definition confidence_color (value : num) : string :=
  if num_ltb (dec 7 1) value then "bg-severity-high" else if num_ltb (dec 4 1) value then "bg-yellow-500" else "bg-signal-good".

(** ** Batch mode *)

Definition BATCH_N : nat := 50.

Record BatchResult := mkBatch {
  br_n : Z; br_min : jsval; br_p50 : jsval; br_p95 : jsval; br_p99 : jsval; br_max : jsval; br_errors : Z
}.

Definition batch_job (r : res fetched) : jsval :=
  match r with
  | Throw _ => JNum (of_Z (-1))
  | Ok ft =>
      match ft_json ft with
      | None => JNum (of_Z (-1))
      | Some d => if is_nullish d then JNum (of_Z (-1)) else nullish (prop "total_latency_ms" d) (JNum zero)
      end
  end.

Definition by_latency (a b : jsval) : bool := negb (num_ltb (to_number b) (to_number a)).

Definition batch_ok (latencies : list jsval) : list jsval :=
  sort_by by_latency (filter (λ v, num_leb zero (to_number v) = true) latencies).

Definition pct_index (p : Z) (n : nat) : Z :=
  default 0 (round_Z (num_mul (num_div (of_Z p) (of_Z 100)) (of_Z (Z.of_nat n - 1)))).

Definition pct (ok : list jsval) (p : Z) : jsval :=
  let i := pct_index p (length ok) in
  nullish (if i <? 0 then JUndef else default JUndef (ok !! Z.to_nat i)) (JNum zero).

Definition batch_result (answers : list (res fetched)) : BatchResult :=
  let latencies := batch_job <$> answers in
  let ok := batch_ok latencies in
  mkBatch (Z.of_nat BATCH_N) (nullish (default JUndef (head ok)) (JNum zero)) (pct ok 50) (pct ok 95) (pct ok 99)
    (nullish (default JUndef (last ok)) (JNum zero))
    (Z.of_nat (length (filter (λ v, num_ltb (to_number v) zero = true) latencies))).

Inductive BatchState := BtIdle | BtRunning | BtDone.
Record batch := mkBatchPanel { bt_state : BatchState; bt_result : option BatchResult }.
Definition batch_mount : batch := mkBatchPanel BtIdle None.
(** [runBatch] and what follows its answers; the button is disabled while a
    batch or a simulation is running. *)
Definition run_batch (rs : RunState) (b : batch) : option batch :=
  match bt_state b with
  | BtRunning => None
  | _ => if bool_decide (rs = RRunning) then None else Some (mkBatchPanel BtRunning None)
  end.
Definition batch_answered (answers : list (res fetched)) (b : batch) : batch :=
  mkBatchPanel BtDone (Some (batch_result answers)).

(** ** The batch statistics *)

Definition good (v : jsval) : Prop := num_leb zero (to_number v) = true.
#[local] Instance good_dec v : Decision (good v). Proof. unfold good. apply _. Defined.

(** [v <= w] of the two values as numbers. *)
Definition lat_le (v w : jsval) : Prop := num_leb (to_number v) (to_number w) = true.

Definition key_le (v w : jsval) : bool := num_le_nan (to_number v) (to_number w).

Lemma good_not_nan v : good v → is_nan (to_number v) = false.
Proof. unfold good. by destruct (to_number v). Qed.

Lemma by_latency_good v w : good v → good w → by_latency v w = key_le v w.
Proof.
  intros Hv%good_not_nan Hw%good_not_nan. unfold by_latency, key_le, num_le_nan.
  by rewrite Hv, Hw, num_ltb_negb.
Qed.

Lemma batch_ok_elem l v : v ∈ batch_ok l ↔ v ∈ l ∧ good v.
Proof. unfold batch_ok. rewrite sort_by_perm, list_elem_of_filter. unfold good. tauto. Qed.

Lemma batch_ok_sorted l : StronglySorted lat_le (batch_ok l).
Proof.
  assert (E : batch_ok l = sort_by key_le (filter good l)).
  { apply sort_by_ext. intros x y [Hx _]%list_elem_of_filter [Hy _]%list_elem_of_filter. by apply by_latency_good. }
  assert (S : StronglySorted (λ a b, key_le a b = true) (batch_ok l)).
  { rewrite E. apply sort_by_sorted.
    - intros x y. apply num_le_nan_total.
    - intros x y z. apply num_le_nan_trans. }
  assert (G : ∀ v, v ∈ batch_ok l → good v) by (intros v; rewrite batch_ok_elem; tauto).
  clear E. induction S as [|x k S IH H]; [constructor|]. constructor; [apply IH; intros; apply G; by right|].
  rewrite Forall_forall in *. intros y Hy. specialize (H y Hy). unfold key_le, num_le_nan in H.
  rewrite (good_not_nan x), (good_not_nan y) in H by (apply G; first [by left|by right]). done.
Qed.

Lemma StronglySorted_lookup {A} (R : A → A → Prop) (l : list A) i j x y :
  StronglySorted R l → l !! i = Some x → l !! j = Some y → (i < j)%nat → R x y.
Proof.
  intros S. revert i j. induction S as [|z k S IH H]; intros i j Hi Hj Hij; [done|].
  destruct j as [|j]; [lia|]. destruct i as [|i]; simpl in *; [|eapply IH; eauto; lia].
  injection Hi as <-. rewrite Forall_forall in H. apply H. by eapply list_elem_of_lookup_2.
Qed.

Lemma batch_ok_le l i j v w : batch_ok l !! i = Some v → batch_ok l !! j = Some w → (i ≤ j)%nat → lat_le v w.
Proof.
  intros Hi Hj Hij. destruct (decide (i = j)) as [->|Hn].
  - simplify_eq. assert (G : good v) by (apply (batch_ok_elem l v); by eapply list_elem_of_lookup_2).
    apply good_not_nan in G. destruct (num_leb_total (to_number v) (to_number v) G G); done.
  - eapply (StronglySorted_lookup lat_le); [apply batch_ok_sorted|exact Hi|exact Hj|lia].
Qed.

(** The indices for every possible number of successes. *)
Definition pct_indices_ok (n : nat) : bool :=
  let i p := pct_index p n in
  (0 <=? i 50) && (i 50 <=? i 95) && (i 95 <=? i 99) && (i 99 <=? Z.of_nat n - 1).

Lemma pct_indices_batch : forallb pct_indices_ok (seq 1 BATCH_N) = true.
Proof. vm_compute. reflexivity. Qed.

Lemma pct_indices n :
  (1 ≤ n ≤ BATCH_N)%nat →
  0 ≤ pct_index 50 n ≤ pct_index 95 n ∧ pct_index 95 n ≤ pct_index 99 n ≤ Z.of_nat n - 1.
Proof.
  intros Hn. pose proof pct_indices_batch as H. rewrite forallb_forall in H.
  specialize (H n). rewrite in_seq in H. specialize (H ltac:(lia)).
  unfold pct_indices_ok in H. rewrite !andb_true_iff, !Z.leb_le in H. lia.
Qed.

Lemma batch_job_value r : is_nullish (batch_job r) = false.
Proof.
  destruct r as [ft|e]; [|done]. simpl. destruct (ft_json ft) as [d|]; [|done]. case_match; [done|].
  unfold nullish. case_match; done.
Qed.

Lemma batch_elem answers v : v ∈ batch_ok (batch_job <$> answers) → nullish v (JNum zero) = v.
Proof.
  rewrite batch_ok_elem, list_elem_of_fmap. intros [(r & -> & _) _]. unfold nullish. by rewrite batch_job_value.
Qed.

Lemma pct_lookup answers p :
  let ok := batch_ok (batch_job <$> answers) in
  0 ≤ pct_index p (length ok) < Z.of_nat (length ok) → ok !! Z.to_nat (pct_index p (length ok)) = Some (pct ok p).
Proof.
  intros ok Hp. unfold pct. rewrite (proj2 (Z.ltb_ge _ _)) by lia.
  destruct (lookup_lt_is_Some_2 ok (Z.to_nat (pct_index p (length ok)))) as [v E]; [lia|].
  rewrite E. simpl. f_equal. symmetry. eapply batch_elem. by eapply list_elem_of_lookup_2.
Qed.

Lemma filter_good l :
  (∀ v, v ∈ l → is_nan (to_number v) = false) →
  length (filter (λ v, ¬ num_ltb (to_number v) zero = true) l) = length (filter good l).
Proof.
  induction l as [|v k IH]; intros Hn; [done|]. rewrite !filter_cons.
  assert (Hv : is_nan (to_number v) = false) by (apply Hn; by left).
  pose proof (num_ltb_negb zero (to_number v) eq_refl Hv) as E. fold (good v) in E.
  specialize (IH (λ w Hw, Hn w (list_elem_of_further _ _ _ Hw))).
  repeat case_decide; unfold good in *; simpl; try congruence; destruct (num_ltb (to_number v) zero); simpl in *; congruence.
Qed.

(** the latency statistics of a batch. With at least one success the five
    numbers shown are latencies of successful requests, in the order
    [min <= p50 <= p95 <= p99 <= max], and every success lies between the
    first and the last; with none they are all 0. Requests count as errors or
    as successes, all of them when the latencies are numbers; an answer that
    is an error object without a latency counts as a success of 0 ms. *)
Theorem batch_statistics answers :
  length answers = BATCH_N →
  let latencies := batch_job <$> answers in
  let ok := filter good latencies in
  let r := batch_result answers in
  (ok = [] → [br_min r; br_p50 r; br_p95 r; br_p99 r; br_max r] = replicate 5 (JNum zero)) ∧
  (ok ≠ [] →
     [br_min r; br_p50 r; br_p95 r; br_p99 r; br_max r] ⊆ ok ∧
     lat_le (br_min r) (br_p50 r) ∧ lat_le (br_p50 r) (br_p95 r) ∧ lat_le (br_p95 r) (br_p99 r) ∧
     lat_le (br_p99 r) (br_max r) ∧ (∀ v, v ∈ ok → lat_le (br_min r) v ∧ lat_le v (br_max r))) ∧
  ((∀ v, v ∈ latencies → is_nan (to_number v) = false) → br_errors r + Z.of_nat (length ok) = br_n r) ∧
  (∀ status text d, is_nullish d = false → prop "total_latency_ms" d = JUndef →
     batch_job (Ok (mkFetched status (Some d) text)) = JNum zero).
Proof.
  intros Hlen latencies ok r. split; [|split; [|split]].
  - intros E. subst r. unfold batch_result. fold latencies.
    assert (En : batch_ok latencies = []) by (unfold batch_ok; change (filter _ latencies) with ok; by rewrite E).
    rewrite En. vm_compute. reflexivity.
  - intros Hne. subst r. unfold batch_result. fold latencies. set (so := batch_ok latencies).
    assert (Hperm : so ≡ₚ ok) by apply sort_by_perm.
    assert (Hl : (1 ≤ length so ≤ BATCH_N)%nat).
    { rewrite Hperm. split; [destruct ok; simpl; [done|lia]|]. rewrite <- Hlen.
      etransitivity; [apply length_filter|]. unfold latencies. by rewrite length_fmap. }
    pose proof (pct_indices _ Hl) as Hi.
    destruct (lookup_lt_is_Some_2 so 0) as [a Ea]; [lia|].
    destruct (lookup_lt_is_Some_2 so (pred (length so))) as [b Eb]; [lia|].
    assert (Hmin : nullish (default JUndef (head so)) (JNum zero) = a).
    { rewrite head_lookup, Ea. simpl. eapply batch_elem. by eapply list_elem_of_lookup_2. }
    assert (Hmax : nullish (default JUndef (last so)) (JNum zero) = b).
    { rewrite last_lookup, Eb. simpl. eapply batch_elem. by eapply list_elem_of_lookup_2. }
    cbn [br_min br_p50 br_p95 br_p99 br_max]. rewrite Hmin, Hmax.
    pose proof (pct_lookup answers 50 ltac:(fold latencies so; lia)) as P50.
    pose proof (pct_lookup answers 95 ltac:(fold latencies so; lia)) as P95.
    pose proof (pct_lookup answers 99 ltac:(fold latencies so; lia)) as P99.
    fold latencies so in P50, P95, P99. split.
    + intros v Hv. rewrite <- Hperm. rewrite !elem_of_cons in Hv.
      destruct Hv as [->|[->|[->|[->|[->|[]%elem_of_nil]]]]]; by eapply list_elem_of_lookup_2.
    + do 4 (split; [eapply (batch_ok_le latencies); [eassumption|eassumption|lia]|]).
      intros v. rewrite <- Hperm. intros [i Hv]%list_elem_of_lookup.
      pose proof (lookup_lt_Some _ _ _ Hv).
      split; eapply (batch_ok_le latencies); try eassumption; lia.
  - intros Hn. unfold r, batch_result. cbn [br_errors br_n]. fold latencies.
    replace (Z.of_nat BATCH_N) with (Z.of_nat (length latencies)) by (unfold latencies; by rewrite length_fmap, Hlen).
    rewrite <- (filter_length_split (λ v, num_ltb (to_number v) zero = true) latencies), Nat2Z.inj_add. do 2 f_equal.
    symmetry. by apply filter_good.
  - intros status text d Hd Hp. simpl. by rewrite Hd, Hp.
Qed.

Definition sample_answers : list (res fetched) :=
  Throw (Error "down") ::
  ((λ i, Ok (mkFetched 200 (Some (JObj [("total_latency_ms", JNum (of_Z (Z.of_nat i)))])) EmptyString)) <$> seq 1 49).

Lemma batch_statistics_witness :
  br_p95 (batch_result sample_answers) = JNum (of_Z 47) ∧
  lat_le (br_p50 (batch_result sample_answers)) (br_p95 (batch_result sample_answers)).
Proof.
  split; [vm_compute; reflexivity|].
  destruct (batch_statistics sample_answers eq_refl) as (_ & H & _).
  destruct H as (_ & _ & H & _); [|exact H]. intros E.
  assert (L : length (filter good (batch_job <$> sample_answers)) = 49%nat) by (vm_compute; reflexivity).
  rewrite E in L. discriminate L.
Defined.

(** ** Who owns the interval *)

(** No simulation and no first poll is under way. *)
Definition quiet (s : page) : Prop := pg_runs s = [] ∧ ∀ p, p ∈ pg_polls s → pp_first p = false.

(** The user selects, runs and leaves only when the page is quiet. *)
Definition calm (e : page_event) (s : page) : Prop :=
  match e with PgSelect _ | PgRun | PgUnmount => quiet s | _ => True end.

Definition calm_step (s s' : page) : Prop := ∃ e now, page_handle e now s = Some s' ∧ calm e s.

(** Simulations and first polls under way. *)
Definition pending_first (s : page) : nat :=
  (length (pg_runs s) + length (filter (λ p, pp_first p = true) (pg_polls s)))%nat.

Record owned (s : page) : Prop := {
  ow_single : (length (pg_intervals s) ≤ 1)%nat;
  ow_ref : ∀ iv, iv ∈ pg_intervals s → pg_ref s = Some (iv_id iv);
  ow_pending : (pending_first s ≤ 1)%nat;
  ow_exclusive : pending_first s ≠ 0%nat → pg_intervals s = [];
  ow_gone : pg_mounted s = false → pending_first s = 0%nat ∧ pg_intervals s = [];
  ow_start : pg_start s ≤ pg_clock s
}.

Lemma quiet_pending s : quiet s ↔ pending_first s = 0%nat.
Proof.
  unfold quiet, pending_first. split.
  - intros [-> H]. simpl. rewrite filter_nil; [done|]. intros p Hp. by rewrite H.
  - intros E. split; [by destruct (pg_runs s)|]. intros p Hp.
    assert (Hn : filter (λ p, pp_first p = true) (pg_polls s) = []) by (destruct (filter _ _); [done|simpl in *; lia]).
    apply not_true_iff_false. intros Hf. apply (not_elem_of_nil p). rewrite <- Hn. by apply list_elem_of_filter.
Qed.

Lemma clear_owned s : owned s →
  match pg_ref s with Some id => clear_interval id (pg_intervals s) | None => pg_intervals s end = [].
Proof.
  intros I. destruct (pg_intervals s) as [|iv [|iv' k]] eqn:E.
  - by destruct (pg_ref s).
  - rewrite (ow_ref _ I iv) by (rewrite E; left). unfold clear_interval. rewrite filter_cons.
    by case_decide.
  - pose proof (ow_single _ I) as H. rewrite E in H. simpl in H. lia.
Qed.

(** The parts of the state the invariant is about. *)
Definition same_core (s s' : page) : Prop :=
  pg_mounted s' = pg_mounted s ∧ pg_ref s' = pg_ref s ∧ pg_intervals s' = pg_intervals s ∧
  pg_runs s' = pg_runs s ∧ pg_polls s' = pg_polls s ∧ pg_start s' = pg_start s ∧ pg_clock s' = pg_clock s.

Lemma owned_core s s' : same_core s s' → owned s → owned s'.
Proof.
  intros (E1 & E2 & E3 & E4 & E5 & E6 & E7) [I1 I2 I3 I4 I5 I6].
  constructor; unfold pending_first in *; rewrite ?E1, ?E2, ?E3, ?E4, ?E5, ?E6, ?E7; done.
Qed.

Lemma owned_clock now s : pg_clock s ≤ now → owned s → owned (set_clock now s).
Proof. intros Hc [I1 I2 I3 I4 I5 I6]. constructor; try done. simpl. lia. Qed.

(** [stopPolling] and the clearing of the reference leave no interval. *)
Lemma owned_clear s : owned s → owned (clear_ref s) ∧ pg_intervals (clear_ref s) = [].
Proof.
  intros I. assert (E : pg_intervals (clear_ref s) = []) by apply (clear_owned s I).
  split; [|done]. destruct I as [I1 I2 I3 I4 I5 I6]. constructor; rewrite ?E; simpl; try done; try lia.
  - by intros iv ?%elem_of_nil.
  - intros H. by destruct (I5 H).
Qed.

Lemma owned_poll_done r now s : owned s → owned (poll_done r now s).
Proof.
  intros I. unfold poll_done. destruct r as [ft|]; [|done]. destruct (ft_json ft) as [v|]; [|done].
  assert (I' : owned (set_view (set_memory v (pg_view s)) s)) by (by eapply owned_core; [|exact I]).
  destruct (allOk v) as [ok|]; [|done]. case_match; [|done].
  unfold stopPolling. eapply owned_core; [|by apply owned_clear]. done.
Qed.

Lemma poll_done_pending r now s :
  pending_first (poll_done r now s) = pending_first s ∧ pg_mounted (poll_done r now s) = pg_mounted s ∧
  pg_start (poll_done r now s) = pg_start s ∧ pg_clock (poll_done r now s) = pg_clock s ∧
  pg_polls (poll_done r now s) = pg_polls s ∧ pg_next (poll_done r now s) = pg_next s.
Proof. unfold poll_done, stopPolling. by repeat case_match. Qed.

Lemma filter_delete_length {A} (P : A → Prop) `{!∀ x, Decision (P x)} (l : list A) i x :
  l !! i = Some x →
  (length (filter P (delete i l)) ≤ length (filter P l))%nat ∧
  (P x → length (filter P l) = S (length (filter P (delete i l)))).
Proof.
  intros E. rewrite (delete_Permutation l i x E) at 2 3. rewrite filter_cons. case_decide; simpl; split; try done; lia.
Qed.

Lemma owned_drop_run i rq s : owned s → pg_runs s !! i = Some rq → owned (drop_run i s) ∧ pending_first (drop_run i s) = 0%nat.
Proof.
  intros [I1 I2 I3 I4 I5 I6] E.
  assert (L : length (pg_runs s) = S (length (delete i (pg_runs s)))) by (by rewrite (delete_Permutation _ _ _ E) at 1).
  assert (P : pending_first (drop_run i s) = 0%nat) by (unfold pending_first in *; simpl in *; lia).
  split; [|done]. constructor; rewrite ?P; try done; simpl; try lia.
  intros H. by destruct (I5 H).
Qed.

Lemma owned_send_first a s :
  owned s → pending_first s = 0%nat → pg_mounted s = true → pg_intervals s = [] → owned (send_poll a true s).
Proof.
  intros [I1 I2 I3 I4 I5 I6] P Hm Hn.
  assert (P1 : pending_first (send_poll a true s) = 1%nat).
  { unfold pending_first in *. simpl. rewrite filter_app, length_app. simpl. lia. }
  constructor; rewrite ?P1; simpl; rewrite ?Hn, ?Hm; try done; simpl; try lia. by intros iv ?%elem_of_nil.
Qed.

Lemma run_follow_owned id data now s :
  owned s → pending_first s = 0%nat → pg_mounted s = true → pg_intervals s = [] → pg_clock s = now →
  owned (run_follow id data now s).
Proof.
  intros I P Hm Hn Hc. unfold run_follow. set (s1 := push_run _ s).
  assert (I1 : owned s1) by (by eapply owned_core; [|exact I]).
  case_match; [by eapply owned_core; [|exact I1]|]. case_match; [|by eapply owned_core; [|exact I1]].
  apply owned_send_first; try done. destruct I1 as [J1 J2 J3 J4 J5 J6]. constructor; try done. simpl. lia.
Qed.

Lemma run_answered_owned id r now s :
  owned s → pending_first s = 0%nat → pg_mounted s = true → pg_intervals s = [] → pg_clock s = now →
  owned (run_answered id r now s).
Proof.
  intros I P Hm Hn Hc. unfold run_answered.
  destruct r as [ft|e]; [|by eapply owned_core; [|exact I]].
  destruct (ft_json ft) as [data|]; [|by eapply owned_core; [|exact I]].
  destruct (hot_ok data) as [b|e]; [|by eapply owned_core; [|exact I]].
  apply run_follow_owned; try done. by eapply owned_core; [|exact I].
Qed.

Lemma owned_drop_poll i p s :
  owned s → pg_polls s !! i = Some p →
  owned (drop_poll i s) ∧ (pp_first p = true → pending_first s = 1%nat ∧ pending_first (drop_poll i s) = 0%nat).
Proof.
  intros [I1 I2 I3 I4 I5 I6] E.
  destruct (filter_delete_length (λ p, pp_first p = true) _ _ _ E) as [L1 L2].
  assert (P : (pending_first (drop_poll i s) ≤ pending_first s)%nat)
    by (unfold pending_first, drop_poll; cbn [pg_runs pg_polls]; lia).
  split.
  - constructor; try done; simpl; try lia.
    + intros H. apply I4. lia.
    + intros H. destruct (I5 H) as [H0 ->]. split; [lia|done].
  - intros Hf%L2. unfold pending_first, drop_poll in *. cbn [pg_runs pg_polls] in *. lia.
Qed.

Lemma start_interval_owned a now s :
  owned s → pending_first s = 0%nat → pg_mounted s = true → pg_intervals s = [] → owned (start_interval a now s).
Proof.
  intros [I1 I2 I3 I4 I5 I6] P Hm Hn. unfold pending_first in *. constructor; unfold pending_first; simpl; rewrite ?Hn, ?Hm; try done.
  by intros iv ->%list_elem_of_singleton.
Qed.

(** The effect of the first poll's answer: one interval, for this run. *)
Lemma first_poll_answered i p r now s :
  owned s → pg_polls s !! i = Some p → pp_first p = true →
  owned (poll_answered p r now (drop_poll i s)) ∧
  pg_intervals (poll_answered p r now (drop_poll i s)) = [mkInterval (pg_next s) (pp_args p) (now + POLL_PERIOD)].
Proof.
  intros I E Hf. destruct (owned_drop_poll i p s I E) as [I1 H]. destruct (H Hf) as [Hp Hp'].
  pose proof (owned_poll_done r now _ I1) as I2. destruct (poll_done_pending r now (drop_poll i s)) as (P & Pm & _ & _ & _ & Pn).
  assert (Hi : pg_intervals (poll_done r now (drop_poll i s)) = []).
  { assert (H0 : pg_intervals (drop_poll i s) = []) by (apply (ow_exclusive _ I); lia).
    change (pg_intervals s = []) in H0. unfold poll_done, stopPolling. repeat case_match; try done. simpl. rewrite H0. by case_match. }
  assert (Hm : pg_mounted s = true).
  { destruct (pg_mounted s) eqn:Em; [done|]. destruct (ow_gone _ I Em) as [H0 _]. lia. }
  unfold poll_answered. rewrite Hf. split.
  - apply start_interval_owned; [done|lia|by rewrite Pm|done].
  - unfold start_interval. simpl. by rewrite Hi, Pn.
Qed.

Lemma tick_inv id now s s' :
  tick id now s = Some s' →
  ∃ k iv, pg_intervals s !! k = Some iv ∧ iv_id iv = id ∧ iv_due iv ≤ now ∧
    pg_intervals s' = <[k := mkInterval id (iv_args iv) (iv_due iv + POLL_PERIOD)]> (pg_intervals s) ∧
    pg_polls s' = pg_polls s ++ [mkPending (iv_args iv) false] ∧
    pg_mounted s' = pg_mounted s ∧ pg_ref s' = pg_ref s ∧ pg_runs s' = pg_runs s ∧ pg_start s' = pg_start s ∧
    pg_clock s' = pg_clock s ∧ pg_next s' = pg_next s.
Proof.
  unfold tick. destruct (list_find _ _) as [[k iv]|] eqn:E; [|done]. apply list_find_Some in E as (E & Hid & _).
  case_match eqn:Ed; [|done]. intros ?. simplify_eq. exists k, iv. split_and!; try done. lia.
Qed.

Lemma tick_owned id now s s' : owned s → tick id now s = Some s' → owned s'.
Proof.
  intros [I1 I2 I3 I4 I5 I6] (k & iv & E & Hid & _ & Hi & Hp & Hm & Hr & Hrs & Hst & Hc & _)%tick_inv.
  assert (P : pending_first s' = pending_first s).
  { unfold pending_first. rewrite Hrs, Hp, filter_app, length_app. simpl. lia. }
  constructor; rewrite ?P, ?Hm, ?Hst, ?Hc; try done.
  - by rewrite Hi, length_insert.
  - intros iv' Hiv'. rewrite Hr. rewrite Hi in Hiv'. apply list_elem_of_lookup in Hiv' as [j Ej].
    destruct (decide (j = k)) as [->|Hn].
    + rewrite list_lookup_insert_eq in Ej by by eapply lookup_lt_Some. simplify_eq. simpl.
      apply I2. by eapply list_elem_of_lookup_2.
    + rewrite list_lookup_insert_ne in Ej by done. apply I2. by eapply list_elem_of_lookup_2.
  - intros H. rewrite (I4 H) in E. done.
  - intros H. destruct (I5 H) as [_ H0]. by rewrite H0 in E.
Qed.

Lemma calm_step_owned s s' : owned s → calm_step s s' → owned s'.
Proof.
  intros I (e & now & E & C). unfold page_handle in E. case_match eqn:Hc; [done|].
  assert (I0 : owned (set_clock now s)) by (apply owned_clock; [lia|done]).
  destruct e as [sc|p| |i r|id|i r|]; simpl in C.
  - case_match; simplify_eq. unfold selectScenario. apply owned_clear. by eapply owned_core; [|exact I0].
  - case_match; simplify_eq. by eapply owned_core; [|exact I0].
  - case_match eqn:Hg; simplify_eq. apply andb_true_iff in Hg as [Hm _].
    unfold runSimulation, send_run. set (s1 := set_view _ _).
    assert (I1 : owned s1) by (by eapply owned_core; [|exact I0]). destruct (owned_clear _ I1) as [[J1 J2 J3 J4 J5 J6] Hn].
    apply quiet_pending in C. assert (P : pending_first (clear_ref s1) = 0%nat) by exact C.
    constructor; try done; unfold pending_first in *; simpl in *; try rewrite length_app; simpl; try lia; try (by rewrite Hm).
  - case_match eqn:Ei; simplify_eq. destruct (owned_drop_run i _ _ I0 Ei) as [I1 P].
    assert (Hne : pending_first (set_clock now s) ≠ 0%nat).
    { unfold pending_first. simpl. simpl in Ei. destruct (pg_runs s); [done|simpl; lia]. }
    destruct p as [id q]; simplify_eq. apply run_answered_owned; try done; [|by apply (ow_exclusive _ I0)].
    destruct (pg_mounted s) eqn:Em; [done|]. by destruct (ow_gone _ I0 Em).
  - by eapply tick_owned; [exact I0|].
  - case_match eqn:Ei; simplify_eq. destruct (pp_first p) eqn:Hf; [by eapply first_poll_answered|].
    unfold poll_answered. rewrite Hf. apply owned_poll_done. by apply (owned_drop_poll i p).
  - case_match eqn:Hm; simplify_eq. apply quiet_pending in C.
    assert (P : pending_first (set_clock now s) = 0%nat) by exact C.
    pose proof (clear_owned _ I0) as E0. destruct I0 as [J1 J2 J3 J4 J5 J6].
    constructor; unfold page_unmount; cbn [pg_intervals pg_ref pg_mounted pg_clock pg_start]; rewrite ?E0;
      unfold pending_first in *; simpl in *; try done; try lia.
    by intros iv ?%elem_of_nil.
Qed.

Lemma page_mount_owned sc h now : 0 ≤ now → owned (page_mount sc h now).
Proof. intros H. constructor; simpl; try done; try (unfold pending_first; simpl; lia). by intros iv ?%elem_of_nil. Qed.

(** On a calm page the polling belongs to the page. If the user selects,
    runs and leaves only when no simulation and no first poll is under way,
    at most one interval is ever alive, [pollRef] refers to it, so every stop
    reaches it, at most one run is being followed, and nothing polls once the
    page is left. *)
Theorem polling_owned sc h t s :
  0 ≤ t → star calm_step (page_mount sc h t) s →
  (pg_intervals s = [] ∨ ∃ iv, pg_intervals s = [iv] ∧ pg_ref s = Some (iv_id iv) ∧ quiet s) ∧
  (length (pg_runs s) + length (filter (λ p, pp_first p = true) (pg_polls s)) ≤ 1)%nat ∧
  (pg_mounted s = false → pg_intervals s = [] ∧ ∀ id now, tick id now s = None).
Proof.
  intros Ht R. assert (I : owned s).
  { eapply (star_invariant _ owned); [by apply page_mount_owned|intros ? ?; apply calm_step_owned|exact R]. }
  split; [|split; [apply I|]].
  - destruct (pg_intervals s) as [|iv [|iv' k]] eqn:E; [by left| |].
    + right. exists iv. split; [done|]. split; [apply I; rewrite E; left|]. apply quiet_pending.
      destruct (decide (pending_first s = 0%nat)) as [|Hn]; [done|]. by rewrite (ow_exclusive _ I Hn) in E.
    + pose proof (ow_single _ I) as H. rewrite E in H. simpl in H. lia.
  - intros Hm. destruct (ow_gone _ I Hm) as [_ E]. split; [done|]. intros id now. unfold tick. by rewrite E.
Qed.

(** ** The interval nobody owns *)

Definition orphan (id : nat) (s : page) : Prop :=
  pg_ref s ≠ Some id ∧ (id < pg_next s)%nat ∧ ∃ iv, iv ∈ pg_intervals s ∧ iv_id iv = id.

Lemma clear_interval_keeps id id' l iv : iv ∈ l → iv_id iv = id → id ≠ id' → iv ∈ clear_interval id' l.
Proof. intros H E N. unfold clear_interval. apply list_elem_of_filter. by rewrite E. Qed.

Lemma orphan_core id s s' :
  pg_ref s' = pg_ref s → pg_intervals s' = pg_intervals s → pg_next s' = pg_next s → orphan id s → orphan id s'.
Proof. unfold orphan. by intros -> -> ->. Qed.

Lemma orphan_clear id s : orphan id s → orphan id (clear_ref s).
Proof.
  intros (Hr & Hn & iv & Hiv & E). split; [done|]. split; [done|]. exists iv. split; [|done]. simpl.
  destruct (pg_ref s) as [id'|]; [|done]. eapply clear_interval_keeps; [done|done|congruence].
Qed.

Lemma orphan_poll_done id r now s : orphan id s → orphan id (poll_done r now s).
Proof.
  intros O. unfold poll_done. destruct r as [ft|]; [|done]. destruct (ft_json ft) as [v|]; [|done].
  destruct (allOk v) as [ok|]; [|by eapply orphan_core; [..|exact O]].
  case_match; [|by eapply orphan_core; [..|exact O]].
  unfold stopPolling. eapply orphan_core; [..|apply orphan_clear, O]; done.
Qed.

Lemma orphan_step id s s' : orphan id s → page_step s s' → orphan id s'.
Proof.
  intros O (e & now & E). unfold page_handle in E. case_match; [done|].
  assert (O' : orphan id (set_clock now s)) by (by eapply orphan_core; [..|exact O]).
  destruct e as [sc|p| |i r|id'|i r|].
  - case_match; simplify_eq. apply orphan_clear. by eapply orphan_core; [..|exact O].
  - case_match; simplify_eq. by eapply orphan_core; [..|exact O].
  - case_match; simplify_eq. unfold runSimulation.
    eapply orphan_core; [..|apply orphan_clear]; [done..|]. by eapply orphan_core; [..|exact O].
  - destruct (pg_runs _ !! i) as [[id' q]|]; simplify_eq. unfold run_answered, run_follow. repeat case_match; by eapply orphan_core; [..|exact O].
  - apply tick_inv in E as (k & iv & Ek & Hid & _ & Hi & _ & _ & Hr & _ & _ & _ & Hn).
    destruct O' as (Or & On & iv0 & [j Ej]%list_elem_of_lookup & Eid).
    split; [by rewrite Hr|]. split; [by rewrite Hn|]. rewrite Hi. destruct (decide (j = k)) as [->|Hjk].
    + assert (Eiv : iv0 = iv) by congruence. exists (mkInterval id' (iv_args iv) (iv_due iv + POLL_PERIOD)).
      split; [|simpl; congruence].
      apply (list_elem_of_lookup_2 _ k). apply list_lookup_insert_eq. by eapply lookup_lt_Some.
    + exists iv0. split; [|done]. apply (list_elem_of_lookup_2 _ j). by rewrite list_lookup_insert_ne.
  - case_match; simplify_eq. unfold poll_answered.
    assert (O1 : orphan id (poll_done r now (drop_poll i (set_clock now s)))).
    { apply orphan_poll_done. by eapply orphan_core; [..|exact O]. }
    case_match; [|done]. destruct O1 as (Or & On & iv0 & Hiv & Eid). unfold start_interval.
    split; [simpl; intros ?; simplify_eq; lia|]. split; [simpl; lia|]. exists iv0. split; [|done]. simpl.
    apply elem_of_app. by left.
  - case_match; simplify_eq. destruct O' as (Or & On & iv & Hiv & Eid). split; [done|]. split; [done|].
    exists iv. split; [|done]. unfold page_unmount. cbn [pg_intervals]. destruct (pg_ref _) as [id'|]; [|done].
    eapply clear_interval_keeps; [done|done|congruence].
Qed.

Definition sample_scenario : Scenario :=
  mkScenario "geo_anomaly" EmptyString EmptyString EmptyString EmptyString SevHigh EmptyString
    (scenario_params "bob" "1.2.3.4" "eu-west-1" (dec 7 1)) ret ret.

Definition stage (b : bool) : jsval := JObj [("ok", JBool b)].

Definition sample_hot (id : string) : res fetched :=
  Ok (mkFetched 200 (Some (JObj [("collector", stage true); ("orchestrator", stage true);
    ("event_ids", JArr [JStr id]); ("username", JStr "bob"); ("action_id", JStr "a1")])) EmptyString).

Definition sample_verify (b : bool) : res fetched :=
  Ok (mkFetched 200 (Some (JObj [("risingwave", stage b); ("detection", stage b); ("iceberg", stage b); ("mcp", stage b)]))
    EmptyString).

(** Run the events of a list. *)
Fixpoint page_trace (l : list (page_event * Z)) (s : page) : option page :=
  match l with
  | [] => Some s
  | (e, now) :: l' => match page_handle e now s with Some s' => page_trace l' s' | None => None end
  end.

Lemma star_cons {S : Type} (step : S → S → Prop) s1 s2 s3 : step s1 s2 → star step s2 s3 → star step s1 s3.
Proof. intros H. apply star_trans. eapply star_snoc; [constructor|done]. Qed.

Lemma page_trace_star l s s' : page_trace l s = Some s' → star page_step s s'.
Proof.
  revert s. induction l as [|[e now] l IH]; intros s; simpl; [intros ?; simplify_eq; constructor|].
  case_match eqn:E; [|done]. intros H. eapply star_cons; [by exists e, now|by apply IH].
Qed.

(** Run twice, the second time while the first verification is awaited, and
    leave the page. *)
Definition double_run : list (page_event * Z) :=
  [(PgRun, 10); (PgRunAnswer 0 (sample_hot "e1"), 20); (PgRun, 30); (PgRunAnswer 0 (sample_hot "e2"), 40);
   (PgPollAnswer 0 (sample_verify false), 50); (PgPollAnswer 0 (sample_verify false), 60); (PgUnmount, 70)].

(** Two overlapping runs leave an interval that is never cleared. The
    interval of a run starts after its first verification is answered, and
    overwrites [pollRef] even if another run's interval is there: an interval
    [pollRef] does not refer to survives every later event and can always
    tick again, also after the page is left. *)
Theorem polling_leak sc h :
  (∃ s, star page_step (page_mount sc h 0) s ∧ pg_mounted s = false ∧ orphan 1 s) ∧
  (∀ id s s', orphan id s → star page_step s s' →
     ∃ iv, iv ∈ pg_intervals s' ∧ iv_id iv = id ∧ ∃ now s2, page_handle (PgTick id) now s' = Some s2).
Proof.
  split.
  - destruct (page_trace double_run (page_mount sc h 0)) as [s|] eqn:E; [|by vm_compute in E].
    exists s. split; [by eapply page_trace_star|]. vm_compute in E. simplify_eq. split; [done|].
    split; [done|]. split; [simpl; lia|]. eexists. split; [left|done].
  - intros id s s' O R. assert (O' : orphan id s').
    { eapply (star_invariant _ (orphan id)); [exact O|intros ? ?; apply orphan_step|exact R]. }
    destruct O' as (_ & _ & iv & Hiv & Hid). exists iv. split; [done|]. split; [done|].
    destruct (list_find (λ i, iv_id i = id) (pg_intervals s')) as [[k iv']|] eqn:E.
    + exists (Z.max (iv_due iv') (pg_clock s')). eexists. unfold page_handle.
      rewrite (proj2 (Z.ltb_ge _ _)) by lia. unfold tick. change (pg_intervals (set_clock _ s')) with (pg_intervals s').
      rewrite E, (proj2 (Z.leb_le _ _)) by lia. reflexivity.
    + exfalso. apply list_find_None in E. rewrite Forall_forall in E. by apply (E iv).
Qed.

(** ** Polling ends *)

(** The answer has the four stages the page reads. *)
Definition readable (r : res fetched) : Prop := ∃ ft v b, r = Ok ft ∧ ft_json ft = Some v ∧ allOk v = Ok b.

(** The polling of one run with prompt answers: the interval ticks only when
    no request is under way, and every answer is readable. The count is the
    number of ticks so far. *)
Inductive prompt : nat → page → page → Prop :=
| prompt_refl s : prompt 0 s s
| prompt_tick n s s1 s2 id now :
    prompt n s s1 → pg_polls s1 = [] → page_handle (PgTick id) now s1 = Some s2 → prompt (S n) s s2
| prompt_answer n s s1 s2 i r now :
    prompt n s s1 → readable r → page_handle (PgPollAnswer i r) now s1 = Some s2 → prompt n s s2.

(** Stopped, or [n] ticks after the interval was started at [t0]. *)
Definition polling_at (id : nat) (a : poll_args) (t0 st : Z) (n : nat) (s : page) : Prop :=
  (pg_intervals s = [] ∧ vw_pollState (pg_view s) = PFinished ∧ ∀ p, p ∈ pg_polls s → pp_first p = false) ∨
  (pg_intervals s = [mkInterval id a (t0 + POLL_PERIOD * (Z.of_nat n + 1))] ∧ pg_ref s = Some id ∧ pg_start s = st ∧
   (∀ p, p ∈ pg_polls s → pp_first p = false) ∧ t0 + POLL_PERIOD * Z.of_nat n ≤ pg_clock s ∧
   (pg_polls s ≠ [] ∨ n = 0%nat ∨ t0 + POLL_PERIOD * Z.of_nat n ≤ POLL_TIMEOUT_MS + st)).

Definition MAX_TICKS : nat := 37.

Definition bounded (n : nat) (s : page) : Prop := (n ≤ MAX_TICKS)%nat ∧ (pg_intervals s ≠ [] → pg_polls s = [] → (n < MAX_TICKS)%nat).

Lemma polling_tick id a t0 st n s s' id' now :
  st ≤ t0 → polling_at id a t0 st n s → pg_polls s = [] → page_handle (PgTick id') now s = Some s' →
  polling_at id a t0 st (S n) s' ∧ (n < MAX_TICKS)%nat.
Proof.
  intros Hst P Hp E. unfold page_handle in E. case_match eqn:Hc; [done|].
  apply tick_inv in E as (k & iv & Ek & Hid & Hdue & Hi & Hpl & _ & Hr & _ & Hs & Hcl & _).
  change (pg_intervals (set_clock now s)) with (pg_intervals s) in *.
  change (pg_polls (set_clock now s)) with (pg_polls s) in *. change (pg_clock (set_clock now s)) with now in *.
  change (pg_ref (set_clock now s)) with (pg_ref s) in *. change (pg_start (set_clock now s)) with (pg_start s) in *.
  destruct P as [[P _]|(P1 & P2 & P3 & P4 & P5 & P6)]; [by rewrite P in Ek|].
  rewrite P1 in Ek, Hi. destruct k as [|[|]]; [|done..]. simpl in Ek. injection Ek as <-. simpl in Hid, Hdue, Hi.
  split.
  - right. rewrite Hi, Hr, Hs, Hpl, Hp, Hcl, Hid. split_and!; try done.
    + do 2 f_equal. unfold POLL_PERIOD. lia.
    + congruence.
    + by intros p ->%list_elem_of_singleton.
    + unfold POLL_PERIOD in *. lia.
    + left. done.
  - destruct P6 as [|[->|P6]]; [done|unfold MAX_TICKS; lia|]. unfold MAX_TICKS, POLL_PERIOD, POLL_TIMEOUT_MS in *. lia.
Qed.

Lemma polling_answer id a t0 st n s s' i r now :
  polling_at id a t0 st n s → readable r → page_handle (PgPollAnswer i r) now s = Some s' →
  polling_at id a t0 st n s'.
Proof.
  intros P (ft & v & b & -> & Hj & Hb) E. unfold page_handle in E. case_match eqn:Hc; [done|].
  change (pg_polls (set_clock now s)) with (pg_polls s) in E. destruct (pg_polls s !! i) as [p|] eqn:Ei; [|done]. simplify_eq.
  assert (Hf : ∀ q, q ∈ delete i (pg_polls s) → q ∈ pg_polls s).
  { intros q. apply elem_of_subseteq. apply sublist_subseteq, sublist_delete. }
  assert (F : ∀ q, q ∈ pg_polls s → pp_first q = false) by (destruct P as [(_ & _ & P)|(_ & _ & _ & P & _)]; exact P).
  unfold poll_answered. rewrite (F p) by by eapply list_elem_of_lookup_2.
  unfold poll_done. rewrite Hj, Hb.
  case_match eqn:Hstop.
  - left. unfold stopPolling. split; [|split; [done|intros q Hq; by apply F, Hf]].
    unfold clear_ref, set_view, drop_poll, set_clock. cbn [pg_intervals pg_ref].
    destruct P as [(P & _)|(P1 & P2 & _)].
    + rewrite P. by case_match.
    + rewrite P1, P2. unfold clear_interval. rewrite filter_cons. by case_decide.
  - destruct P as [(P1 & P2 & P3)|(P1 & P2 & P3 & P4 & P5 & P6)].
    + left. split; [done|]. split; [done|]. intros q Hq. by apply F, Hf.
    + right. unfold set_view, drop_poll, set_clock in *. cbn [pg_intervals pg_ref pg_start pg_polls pg_clock] in *.
      split_and!; try done; [intros q Hq; by apply F, Hf|lia|]. right. right.
      apply orb_false_iff in Hstop as [_ Hstop]. apply Z.ltb_ge in Hstop. simpl in Hstop. rewrite P3 in Hstop. lia.
Qed.

Lemma prompt_polling id a t0 st n s0 s :
  st ≤ t0 → polling_at id a t0 st 0 s0 → prompt n s0 s → polling_at id a t0 st n s ∧ (n ≤ MAX_TICKS)%nat.
Proof.
  intros Hst P0. induction 1 as [s|n s s1 s2 id' now Hp IH Hn E|n s s1 s2 i r now Hp IH Hr E].
  - split; [done|lia].
  - destruct (IH P0) as [P _]. destruct (polling_tick _ _ _ _ _ _ _ _ _ Hst P Hn E). split; [done|lia].
  - destruct (IH P0) as [P ?]. split; [|done]. by eapply polling_answer.
Qed.

Lemma first_poll_polling sc h t s i p r now s0 :
  0 ≤ t → star calm_step (page_mount sc h t) s → pg_polls s !! i = Some p → pp_first p = true →
  page_handle (PgPollAnswer i r) now s = Some s0 →
  polling_at (pg_next s) (pp_args p) now (pg_start s0) 0 s0 ∧ pg_start s0 ≤ now.
Proof.
  intros Ht R Hi Hf E. assert (I : owned s).
  { eapply (star_invariant _ owned); [by apply page_mount_owned|intros ? ?; apply calm_step_owned|exact R]. }
  assert (I0 : owned s0) by (eapply calm_step_owned; [exact I|by exists (PgPollAnswer i r), now]).
  unfold page_handle in E. case_match eqn:Hc; [done|]. change (pg_polls (set_clock now s)) with (pg_polls s) in E.
  rewrite Hi in E. simplify_eq.
  destruct (first_poll_answered i p r now (set_clock now s)) as [_ Hiv];
    [by apply owned_clock; [lia|]|done|done|]. change (pg_next (set_clock now s)) with (pg_next s) in Hiv.
  set (s0 := poll_answered p r now (drop_poll i (set_clock now s))) in *.
  assert (Hck : pg_clock s0 = now).
  { unfold s0, poll_answered. rewrite Hf. simpl. by destruct (poll_done_pending r now (drop_poll i (set_clock now s))) as (_ & _ & _ & -> & _). }
  pose proof (ow_start _ I0) as Hs. rewrite Hck in Hs. split; [|done]. right.
  assert (Q : quiet s0).
  { apply quiet_pending. destruct (decide (pending_first s0 = 0%nat)) as [|Hn]; [done|].
    pose proof (ow_exclusive _ I0 Hn) as H0. by rewrite Hiv in H0. }
  split; [rewrite Hiv; do 2 f_equal; lia|]. split; [rewrite (ow_ref _ I0 (mkInterval (pg_next s) (pp_args p) (now + POLL_PERIOD))); [done|rewrite Hiv; left]|].
  split; [done|]. split; [by apply Q|]. split; [rewrite Hck; lia|]. right. by left.
Qed.

(** C35: the polling of a run ends. Consider a page on which runs do not
    overlap: while a run is under way or its first verification is unanswered
    the user starts no other, selects no scenario and does not leave
    ([calm_step]). After a run's first verification was answered, as long
    as only the interval ticks and requests are answered, every request before
    the next tick and with an answer that has the four stages ([prompt]), at
    most 37 more requests are sent, whatever the answers say; and when nothing
    more can happen the page shows that polling has finished and no interval is
    alive. An answer without the stages never ends it, however late. *)
Theorem polling_terminates sc h t s i p r now s0 n s' :
  0 ≤ t → star calm_step (page_mount sc h t) s → pg_polls s !! i = Some p → pp_first p = true →
  page_handle (PgPollAnswer i r) now s = Some s0 → prompt n s0 s' →
  (n ≤ MAX_TICKS)%nat ∧
  (pg_polls s' = [] → (∀ id now', page_handle (PgTick id) now' s' = None) →
     pg_intervals s' = [] ∧ vw_pollState (pg_view s') = PFinished) ∧
  (∀ r' now' x, ¬ readable r' → pg_intervals (poll_done r' now' x) = pg_intervals x).
Proof.
  intros Ht R Hi Hf E Hp. destruct (first_poll_polling _ _ _ _ _ _ _ _ _ Ht R Hi Hf E) as [P Hs].
  destruct (prompt_polling _ _ _ _ _ _ _ Hs P Hp) as [P' Hn]. split; [done|]. split.
  - intros _ Hstuck. destruct P' as [(? & ? & _)|(Hiv & _)]; [done|]. exfalso.
    specialize (Hstuck (pg_next s) (Z.max (now + POLL_PERIOD * (Z.of_nat n + 1)) (pg_clock s'))).
    unfold page_handle in Hstuck. rewrite (proj2 (Z.ltb_ge _ _)) in Hstuck by lia.
    unfold tick in Hstuck. change (pg_intervals (set_clock _ s')) with (pg_intervals s') in Hstuck.
    rewrite Hiv in Hstuck. simpl in Hstuck. rewrite decide_True in Hstuck by done.
    simpl in Hstuck. rewrite (proj2 (Z.leb_le _ _)) in Hstuck by lia. done.
  - intros r' now' x Hr. unfold poll_done. destruct r' as [ft|]; [|done]. destruct (ft_json ft) as [v|] eqn:Ej; [|done].
    destruct (allOk v) as [b|] eqn:Eb; [|done]. exfalso. apply Hr. by exists ft, v, b.
Qed.

Definition first_run : list (page_event * Z) := [(PgRun, 10); (PgRunAnswer 0 (sample_hot "e1"), 20)].

Lemma calm_trace_star sc :
  ∃ s, page_trace first_run (page_mount sc [] 0) = Some s ∧ star calm_step (page_mount sc [] 0) s.
Proof.
  eexists. split; [vm_compute; reflexivity|].
  eapply star_cons; [exists PgRun, 10; split; [reflexivity|split; [done|by intros ? ?%elem_of_nil]]|].
  eapply star_cons; [exists (PgRunAnswer 0 (sample_hot "e1")), 20; split; [vm_compute; reflexivity|done]|]. constructor.
Qed.

Definition mounted_page : page := page_mount sample_scenario [] 0.
Definition run_page : page := default mounted_page (page_trace first_run mounted_page).
Definition polling_page : page :=
  default run_page (page_handle (PgPollAnswer 0 (sample_verify false)) 30 run_page).

Lemma run_page_calm : star calm_step mounted_page run_page.
Proof.
  destruct (calm_trace_star sample_scenario) as (s & E & R). unfold run_page, mounted_page. rewrite E. exact R.
Qed.

Lemma polling_owned_witness : (length (pg_runs run_page) + length (pg_polls run_page) = 1)%nat ∧
  (pg_intervals run_page = [] ∨ ∃ iv, pg_intervals run_page = [iv] ∧ pg_ref run_page = Some (iv_id iv) ∧ quiet run_page).
Proof. split; [vm_compute; reflexivity|]. refine (proj1 (polling_owned sample_scenario [] 0 run_page _ run_page_calm)). lia. Defined.

(** Two ticks, each answered before the next; the second answer finds every
    stage. *)
Definition first_tick : page := default polling_page (page_handle (PgTick 1) 2530 polling_page).
Definition first_answer : page := default first_tick (page_handle (PgPollAnswer 0 (sample_verify false)) 2600 first_tick).
Definition second_tick : page := default first_answer (page_handle (PgTick 1) 5030 first_answer).
Definition polled_page : page := default second_tick (page_handle (PgPollAnswer 0 (sample_verify true)) 5100 second_tick).

Lemma sample_verify_readable b : readable (sample_verify b).
Proof.
  unfold readable, sample_verify. eexists _, _, b. split; [reflexivity|]. split; [reflexivity|].
  destruct b; vm_compute; reflexivity.
Qed.

Lemma polled_prompt : prompt 2 polling_page polled_page.
Proof.
  apply (prompt_answer 2 _ second_tick _ 0 (sample_verify true) 5100); [|apply sample_verify_readable|vm_compute; reflexivity].
  apply (prompt_tick 1 _ first_answer _ 1 5030); [|vm_compute; reflexivity|vm_compute; reflexivity].
  apply (prompt_answer 1 _ first_tick _ 0 (sample_verify false) 2600); [|apply sample_verify_readable|vm_compute; reflexivity].
  apply (prompt_tick 0 _ polling_page _ 1 2530); [apply prompt_refl|vm_compute; reflexivity|vm_compute; reflexivity].
Qed.

Lemma polled_stuck id now : page_handle (PgTick id) now polled_page = None.
Proof. unfold page_handle. case_match; [done|]. by vm_compute. Qed.

Lemma polling_terminates_witness :
  (2 ≤ MAX_TICKS)%nat ∧ pg_intervals polled_page = [] ∧ vw_pollState (pg_view polled_page) = PFinished.
Proof.
  destruct (polling_terminates sample_scenario [] 0 run_page 0
    (mkPending (mkPollArgs (JStr "e1") (JStr "bob") (JStr "a1")) true) (sample_verify false) 30 polling_page 2 polled_page)
    as (H1 & H2 & _); [lia|exact run_page_calm|vm_compute; reflexivity|reflexivity|vm_compute; reflexivity|exact polled_prompt|].
  split; [exact H1|]. apply H2; [vm_compute; reflexivity|exact polled_stuck].
Defined.

(** When the first verification already finds every stage, polling is reported
    as finished and the interval is started nevertheless. *)
Example finished_still_polls :
  let s := default run_page (page_handle (PgPollAnswer 0 (sample_verify true)) 30 run_page) in
  vw_pollState (pg_view s) = PFinished ∧ length (pg_intervals s) = 1%nat.
Proof. vm_compute. done. Qed.

(** The answer of a run is shown under the scenario selected meanwhile. *)
Definition other_scenario : Scenario :=
  mkScenario "brute_force" EmptyString EmptyString EmptyString EmptyString SevHigh EmptyString JNull ret ret.
Example stale_result_shown :
  let s := default mounted_page
    (page_trace [(PgRun, 10); (PgSelect other_scenario, 15); (PgRunAnswer 0 (sample_hot "e1"), 20)] mounted_page) in
  vw_selected (pg_view s) = "brute_force" ∧ vw_runState (pg_view s) = RDone.
Proof. vm_compute. done. Qed.
