(* ===== verification/SimulateView.v ===== *)
(** * What the simulation page renders ([app/workbench/simulate/page.tsx])

    The page as a function of the state of [SimulatePage]: the list of
    scenarios, the stages, the verdict, the batch panel. Rendering reads the
    services' answers without checks, so it can fail ([Throw]), which takes
    the page down; the theorems say for which answers of the routes it does
    not. *)
From Stdlib Require Import Ascii.
From S2P Require Import Prelude JsObject JsNum JsString JsValue Types AlertMappers CaseStore Effects CaseClient Scenarios SimulateRoute SimulatePage.

Definition try_let {A B} (m : res A) (f : A → res B) : res B := res_bind f m.
Notation "'let?' x ':=' m 'in' k" := (try_let m (λ x, k)) (at level 200, x pattern, m at level 100, k at level 200).

(** ** Rendering values *)

(** A value as a child of an element: booleans and missing values are
    nothing, arrays are their elements, an object throws. *)
Fixpoint child (v : jsval) : res string :=
  match v with
  | JUndef | JNull | JBool _ => Ok EmptyString
  | JNum n => Ok (num_to_string n)
  | JStr s => Ok s
  | JArr l =>
      (fix go l := match l with
                   | [] => Ok EmptyString
                   | x :: l' => let? a := child x in let? b := go l' in Ok (a +:+ b)
                   end) l
  | JObj _ => Throw (Error "Objects are not valid as a React child")
  end.

(** [v.slice(0, n)] *)
Definition js_slice (n : nat) (v : jsval) : res jsval :=
  match v with
  | JUndef | JNull => Throw (member_error "slice" v)
  | JStr s => Ok (JStr (slice 0 n s))
  | JArr l => Ok (JArr (take n l))
  | _ => Throw (mkErr "TypeError" "slice is not a function")
  end.

(** ** Stages *)

Record StageMeta := mkStageMeta { sm_key : string; sm_label : string; sm_service : string; sm_proves : string; sm_icon : string }.

Definition HOT_STAGES : list StageMeta := [
  mkStageMeta "collector" "Collector" "attest-collector :4000" "CloudTrail → OCSF normalized + published to Kafka" "Radio";
  mkStageMeta "orchestrator" "Orchestrator" "attest-orchestrator :4300" "Hybrid triage loop (XGBoost ONNX + Mahalanobis novelty)" "Cpu";
  mkStageMeta "calibration" "Calibration" "calibration-sidecar :5001" "Isotonic regression — raw score → calibrated probability" "Activity";
  mkStageMeta "attestation" "Attestation" "attest-attestation crate" "Ed25519 signed envelope appended to attestations.ndjson" "ShieldCheck"].

Definition MEMORY_META : list StageMeta := [
  mkStageMeta "risingwave" "RisingWave" "risingwave :4566" "Streaming MV update — user_baselines includes this event" "Database";
  mkStageMeta "detection" "Detection + ClickHouse" "detection-runtime + clickhouse :8123" "Detection rule matched, fired alert stored in ClickHouse" "Search";
  mkStageMeta "iceberg" "Iceberg / MinIO" "storage-iceberg + minio :9000" "Event flushed to warm Parquet (s3://attest-warm)" "Archive";
  mkStageMeta "mcp" "MCP Gateway" "attest-mcp-gateway :4242" "Attestation envelope queryable by external auditors" "Shield"].

(** The last word of a text (split at the spaces, then [pop]). *)
Fixpoint last_word_from (w s : string) : string :=
  match s with
  | EmptyString => w
  | String c s' => if Ascii.eqb c " "%char then last_word_from EmptyString s' else last_word_from (w +:+ String c EmptyString) s'
  end.
Definition last_word (s : string) : string := last_word_from EmptyString s.

Record stage_row := mkStageRow { rw_label : string; rw_state : StageShown; rw_icon : string; rw_right : string; rw_service : string; rw_text : string }.

Definition stage_icon (meta : StageMeta) (state : StageShown) : string :=
  match state with ShOk => "CheckCircle2" | ShFail => "AlertTriangle" | ShRunning => "Hourglass" | ShPending => sm_icon meta end.

Definition StageRow (meta : StageMeta) (state : StageShown) (result : jsval) (pendingLabel : option string) : res stage_row :=
  let right := match state with
               | ShOk | ShFail => to_string (nullish (prop "latency_ms" result) (JNum zero)) +:+ " ms"
               | ShRunning => "…"
               | ShPending => last_word (sm_service meta)
               end in
  let waiting := match pendingLabel with Some (String _ _ as l) => l | _ => sm_proves meta end in
  let? text := match state with
               | ShOk | ShFail => if truthy result then child (prop "artifact" result) else Ok waiting
               | ShRunning => Ok ("Verifying — " +:+ sm_proves meta +:+ "…")
               | ShPending => Ok waiting
               end in
  Ok (mkStageRow (sm_label meta) state (stage_icon meta state) right (sm_service meta) text).

Fixpoint stage_rows (row : StageMeta → res stage_row) (l : list StageMeta) : res (list stage_row) :=
  match l with
  | [] => Ok []
  | m :: l' => let? r := row m in let? rs := stage_rows row l' in Ok (r :: rs)
  end.

Definition hot_row (v : view) (meta : StageMeta) : res stage_row :=
  StageRow meta (hotState (sm_key meta) v) (if truthy (vw_hot v) then prop (sm_key meta) (vw_hot v) else JUndef) None.

Definition memory_row (v : view) (meta : StageMeta) : res stage_row :=
  StageRow meta (memoryState (sm_key meta) v) (if truthy (vw_memory v) then prop (sm_key meta) (vw_memory v) else JUndef)
    (Some ("Awaiting hot-path completion before verifying " +:+ sm_label meta +:+ "…")).

(** ** The verdict *)

Definition SEVERITY_COLORS (s : Severity) : string :=
  match s with
  | SevCritical => "bg-red-500/15 text-red-400 border-red-500/30"
  | SevHigh => "bg-orange-500/15 text-orange-400 border-orange-500/30"
  | SevMedium => "bg-yellow-500/15 text-yellow-400 border-yellow-500/30"
  | SevLow => "bg-blue-500/15 text-blue-400 border-blue-500/30"
  end.

Definition VERDICT_COLORS : jsobj string := [
  ("suspicious", "bg-orange-500/15 text-orange-300 border-orange-500/30");
  ("malicious", "bg-red-500/15 text-red-300 border-red-500/30");
  ("benign", "bg-emerald-500/15 text-emerald-300 border-emerald-500/30");
  ("escalated", "bg-purple-500/15 text-purple-300 border-purple-500/30");
  ("unknown", "bg-muted/40 text-muted-foreground border-border")].

Definition verdict_color (verdict : jsval) : string :=
  default "bg-muted/40 text-muted-foreground border-border" (obj_get (to_string verdict) VERDICT_COLORS).

(** [ConfidenceBar]: percentage, width and colour. *)
Record confidence_bar := mkBar { bar_label : string; bar_percent : string; bar_color : string }.

Definition ConfidenceBar (value : jsval) (label : string) : confidence_bar :=
  mkBar label (num_to_string (math_round (num_mul (to_number value) (of_Z 100))) +:+ "%") (confidence_color (to_number value)).

Record verdict_card := mkCard {
  vc_benign : bool; vc_verdict : string; vc_color : string; vc_escalated : bool; vc_line : string; vc_bars : list confidence_bar
}.

Definition VerdictCard (hot : jsval) : res verdict_card :=
  let? verdict := child (prop "verdict" hot) in
  let? path := child (prop "execution_path" hot) in
  let? action := js_slice 8 (prop "action_id" hot) in
  let? id := child action in
  Ok (mkCard (is_str "benign" (prop "verdict" hot)) verdict (verdict_color (prop "verdict" hot)) (truthy (prop "escalated" hot))
    (path +:+ " · action " +:+ id +:+ "…")
    [ConfidenceBar (prop "calibrated_confidence" hot) "Calibrated confidence";
     ConfidenceBar (prop "novelty_score" hot) "Novelty score (OOD)"]).

(** ** The classifier evidence *)

(** [Object.entries(v)] of a value other than null and undefined: of a text
    or an array, the indices; of a number or boolean, nothing. *)
Definition value_entries (v : jsval) : list (string * jsval) :=
  match v with
  | JObj o => obj_entries o
  | JArr l => imap (λ i x, (string_of_Z (Z.of_nat i), x)) l
  | JStr s => imap (λ i c, (string_of_Z (Z.of_nat i), JStr (String c EmptyString))) (String.list_ascii_of_string s)
  | _ => []
  end.

(** [Math.abs(b[1]) - Math.abs(a[1]) <= 0] on values of any type *)
Definition by_impact_of (a b : string * jsval) : bool := by_impact (a.1, to_number a.2) (b.1, to_number b.2).

(** A feature before its impact is read as a number. *)
Record raw_impact := mkRawImpact { ri_name : string; ri_value : string; ri_impact : jsval }.

(** [(inputFeatures[name] ?? 0).toFixed(3)] *)
Definition input_text (inputs : jsval) (name : string) : res string :=
  match nullish (prop name inputs) (JNum zero) with
  | JNum n => Ok (to_fixed 3 n)
  | _ => Throw (mkErr "TypeError" "toFixed is not a function")
  end.

Fixpoint raw_impacts (inputs : jsval) (l : list (string * jsval)) : res (list raw_impact) :=
  match l with
  | [] => Ok []
  | e :: l' =>
      let? value := input_text inputs e.1 in
      let? fs := raw_impacts inputs l' in
      Ok (mkRawImpact (feature_name e.1) value e.2 :: fs)
  end.

(** [featureImpacts], computed in every rendering. *)
Definition featureImpacts (hot : jsval) : res (option (list raw_impact)) :=
  let evidence := prop "classifier_evidence" hot in
  if truthy (prop "shap_values" evidence) then
    let? l := raw_impacts (nullish (prop "input_features" evidence) (JObj []))
                (take 8 (sort_by by_impact_of (value_entries (prop "shap_values" evidence)))) in
    Ok (Some l)
  else Ok None.

(** The list of the panel calls [toFixed] on every impact. *)
Fixpoint number_impacts (l : list raw_impact) : res (list FeatureImpact) :=
  match l with
  | [] => Ok []
  | f :: l' =>
      match ri_impact f with
      | JNum n => let? fs := number_impacts l' in Ok (mkFeatureImpact (ri_name f) (ri_value f) n :: fs)
      | _ => Throw (mkErr "TypeError" "toFixed is not a function")
      end
  end.

Definition evidence_section (features : option (list raw_impact)) : res (option evidence_panel) :=
  match features with
  | Some ((_ :: _) as l) => let? fs := number_impacts l in Ok (Some (ClassifierEvidencePanel fs))
  | _ => Ok None
  end.

(** ** The page *)

Record run_panel := mkRunPanel {
  rp_total : option string;
  rp_hot : list stage_row;
  rp_card : option (verdict_card * option evidence_panel);
  rp_polling : bool;
  rp_verified : option string;
  rp_memory : list stage_row
}.

Record sim_view := mkSimView {
  sv_header : option string;
  sv_scenarios : list (string * string * string * bool);
  sv_idle : bool;
  sv_error : option string;
  sv_run : option run_panel
}.

(** A scenario of the list: title, colour of its severity, technique, and
    whether it is the selected one. *)
Definition scenario_button (selected : string) (s : Scenario) : string * string * string * bool :=
  (sc_title s, SEVERITY_COLORS (sc_severity s), sc_mitre s, String.eqb selected (sc_id s)).

(** Beside the total: a result other than null that is not truthy would be
    shown itself. *)
Definition total_label (hot : jsval) (suffix : string) : res (option string) :=
  if truthy hot then let? t := child (prop "total_latency_ms" hot) in Ok (Some (t +:+ suffix)) else Ok None.

Definition run_section (features : option (list raw_impact)) (v : view) : res run_panel :=
  let? total := total_label (vw_hot v) " ms total" in
  let? hot := stage_rows (hot_row v) HOT_STAGES in
  let? shown := verdict_shown v in
  let? card := (if shown then let? c := VerdictCard (vw_hot v) in let? e := evidence_section features in Ok (Some (c, e)) else Ok None) in
  let? verified := verified_label v in
  let? memory := stage_rows (memory_row v) MEMORY_META in
  Ok (mkRunPanel total hot card (truthy (vw_memory v) && bool_decide (vw_pollState v = PPolling)) verified memory).

(** The section of a run is there once one was started and unless it failed
    before an answer. *)
Definition run_visible (v : view) : bool :=
  match vw_runState v with RIdle => false | RRunning | RDone => true | RError => truthy (vw_hot v) end.

Definition SimulateView (scenarios : list Scenario) (v : view) : res sim_view :=
  let? features := featureImpacts (vw_hot v) in
  let? header := total_label (vw_hot v) " ms" in
  let? section := (if run_visible v then let? s := run_section features v in Ok (Some s) else Ok None) in
  Ok (mkSimView header (scenario_button (vw_selected v) <$> scenarios) (bool_decide (vw_runState v = RIdle))
    (match vw_runState v, vw_error v with RError, Some (String _ _ as e) => Some e | _, _ => None end) section).

(** The panel of a batch, once it is done. *)
Definition batch_panel (b : BatchResult) : list (string * jsval) :=
  [("min", br_min b); ("p50", br_p50 b); ("p95", br_p95 b); ("p99", br_p99 b); ("max", br_max b)] ++
  (if 0 <? br_errors b then [("errors", JNum (of_Z (br_errors b)))] else []).

Definition batch_title (b : BatchResult) : string :=
  "Batch latency · " +:+ string_of_Z (br_n b - br_errors b) +:+ "/" +:+ string_of_Z (br_n b) +:+ " ok".

(** [disabled] of the two buttons, and their labels. *)
Definition run_button (rs : RunState) : bool * string :=
  if bool_decide (rs = RRunning) then (true, "Running…") else (false, "Run Simulation").
Definition batch_button (rs : RunState) (b : BatchState) : bool * string :=
  match b with
  | BtRunning => (true, "Running 50×…")
  | _ => (bool_decide (rs = RRunning), "Batch (50× concurrent)")
  end.

(** ** Facts *)

(** A value React can show. *)
Definition showable (v : jsval) : Prop := ∃ s, child v = Ok s.

(** A stage of a route's answer, once it arrived. *)
Lemma stage_arrived s : ∃ o, json_normal (stage_json s) = JObj o ∧ prop "ok" (JObj o) = JBool (st_ok s) ∧
  prop "artifact" (JObj o) = JStr (st_artifact s).
Proof. destruct s as [ok ms a [e|]]; eexists; split; [reflexivity|by split|reflexivity|by split]. Qed.

Lemma stage_row_ok meta state r label :
  (∀ x, truthy r = true → prop "artifact" r = x → showable x) → ∃ row, StageRow meta state r label = Ok row.
Proof.
  intros H. unfold StageRow. destruct state; simpl; try (by eexists).
  all: destruct (truthy r); simpl; [destruct (H _ eq_refl eq_refl) as [s ->]|]; by eexists.
Qed.

Lemma stage_rows_ok row l : (∀ m, m ∈ l → ∃ r, row m = Ok r) → ∃ rs, stage_rows row l = Ok rs.
Proof.
  induction l as [|m l IH]; intros H; simpl; [by eexists|].
  destruct (H m ltac:(left)) as [r ->]. destruct IH as [rs E]; [intros m' Hm; apply H; by right|]. simpl. rewrite E. by eexists.
Qed.

(** Answers with a stage under each key. *)
Definition staged (keys : list string) (v : jsval) : Prop := ∀ k, k ∈ keys → ∃ s, prop k v = json_normal (stage_json s).

Lemma staged_flag keys v k : staged keys v → truthy v = true → k ∈ keys → ∃ b, stage_flag k v = Ok b.
Proof.
  intros S T Hk. destruct (S k Hk) as [s E]. destruct (stage_arrived s) as (o & Eo & _). unfold stage_flag, get.
  assert (is_nullish v = false) as -> by (by destruct v). simpl. rewrite E, Eo. by eexists.
Qed.

Lemma staged_rows keys v k s : staged keys v → k ∈ keys → prop k v = json_normal (stage_json s) → showable (prop "artifact" (prop k v)).
Proof. intros _ _ E. rewrite E. destruct (stage_arrived s) as (o & -> & _ & ->). by eexists. Qed.

Lemma staged_showable keys v k : staged keys v → k ∈ keys → showable (prop "artifact" (if truthy v then prop k v else JUndef)).
Proof. intros S Hk. destruct (truthy v); [|by eexists]. destruct (S k Hk) as [s E]. by eapply staged_rows. Qed.

Lemma count_ok_staged keys' keys v :
  staged keys v → truthy v = true → (∀ k, k ∈ keys' → k ∈ keys) → ∃ n, count_ok keys' v = Ok n.
Proof.
  intros S T. induction keys' as [|k keys' IH]; intros H; simpl; [by eexists|].
  destruct (staged_flag keys v k S T (H k ltac:(left))) as [b ->]. simpl.
  destruct IH as [n ->]; [intros x Hx; apply H; by right|]. by eexists.
Qed.

(** Missing, or an object whose values are numbers. *)
Definition numeric (v : jsval) : Prop :=
  is_nullish v = true ∨ ∃ o, v = JObj o ∧ ∀ e, e ∈ o → ∃ n, e.2 = JNum n.

(** The evidence of an answer has numbers for values. *)
Definition numeric_evidence (hot : jsval) : Prop :=
  numeric (prop "shap_values" (prop "classifier_evidence" hot)) ∧ numeric (prop "input_features" (prop "classifier_evidence" hot)).

Lemma numeric_prop k v : numeric v → ∃ n, nullish (prop k v) (JNum zero) = JNum n.
Proof.
  intros [N|(o & -> & H)]; [by destruct v; try done; eexists|]. simpl.
  destruct (obj_get k o) as [x|] eqn:E; [|by eexists]. apply obj_get_elem in E. destruct (H _ E) as [n Hn].
  simpl in *. subst x. by eexists.
Qed.

Lemma raw_impacts_ok inputs l :
  numeric inputs → (∀ e, e ∈ l → ∃ n, e.2 = JNum n) →
  ∃ fs, raw_impacts inputs l = Ok fs ∧ ∃ ns, number_impacts fs = Ok ns.
Proof.
  intros Hi. induction l as [|e l IH]; intros H; [by repeat eexists|]. cbn [raw_impacts]. unfold input_text.
  destruct (numeric_prop e.1 inputs Hi) as [n ->]. cbn [try_let res_bind].
  destruct IH as (fs & -> & ns & Ens); [intros x Hx; apply H; by right|]. cbn [try_let res_bind].
  eexists. split; [reflexivity|]. destruct (H e ltac:(left)) as [k Hk]. cbn [number_impacts ri_impact]. rewrite Hk, Ens. by eexists.
Qed.

Lemma features_ok hot : numeric_evidence hot → ∃ f, featureImpacts hot = Ok f ∧ ∃ p, evidence_section f = Ok p.
Proof.
  intros [Hs Hi]. unfold featureImpacts. destruct (truthy _) eqn:T; [|by repeat eexists].
  destruct Hs as [N|(o & E & H)]; [by destruct (prop "shap_values" _)|]. rewrite E.
  destruct (raw_impacts_ok (nullish (prop "input_features" (prop "classifier_evidence" hot)) (JObj []))
    (take 8 (sort_by by_impact_of (value_entries (JObj o))))) as (fs & -> & ns & Ens).
  - destruct Hi as [N|(o' & -> & H')]; right; [|by exists o'].
    exists []. split; [by destruct (prop "input_features" _)|]. intros e He. by apply elem_of_nil in He.
  - intros e He. apply H. simpl in He. apply elem_of_take in He as (i & Hl & _). apply list_elem_of_lookup_2 in Hl.
    rewrite sort_by_perm, obj_entries_perm in Hl. exact Hl.
  - cbn [try_let res_bind]. eexists. split; [reflexivity|]. destruct fs as [|r fs]; [by eexists|].
    exists (Some (ClassifierEvidencePanel ns)). exact (f_equal (res_bind (λ fs, Ok (Some (ClassifierEvidencePanel fs)))) Ens).
Qed.

(** What the page needs of an answer of the simulation route. *)
Record hot_shape (hot : jsval) : Prop := {
  hs_object : truthy hot = true;
  hs_staged : staged HOT_PATH_STAGES hot;
  hs_total : showable (prop "total_latency_ms" hot);
  hs_verdict : showable (prop "verdict" hot);
  hs_path : showable (prop "execution_path" hot);
  hs_evidence : numeric_evidence hot;
  hs_action : truthy (prop "ok" (prop "orchestrator" hot)) = true →
    ∃ a s, js_slice 8 (prop "action_id" hot) = Ok a ∧ child a = Ok s
}.

Lemma verdict_card_ok hot : hot_shape hot → truthy (prop "ok" (prop "orchestrator" hot)) = true → ∃ c, VerdictCard hot = Ok c.
Proof.
  intros [T S Ht [v Hv] [p Hp] _ Ha] Ho. unfold VerdictCard. rewrite Hv, Hp. simpl.
  destruct (Ha Ho) as (a & s & -> & Es). simpl. rewrite Es. by eexists.
Qed.

Lemma run_section_ok features v :
  (∃ p, evidence_section features = Ok p) → hot_shape (vw_hot v) ∨ vw_hot v = JNull → staged MEMORY_STAGES (vw_memory v) ∨ vw_memory v = JNull →
  ∃ p, run_section features v = Ok p.
Proof.
  intros [ev Hev] Hh Hm. unfold run_section.
  assert (Total : ∃ t, total_label (vw_hot v) " ms total" = Ok t).
  { unfold total_label. destruct Hh as [[T _ [t Et] _ _ _ _]| ->]; [rewrite T, Et|]; by eexists. }
  destruct Total as [t ->]. cbn [try_let res_bind].
  assert (Hot : ∃ rs, stage_rows (hot_row v) HOT_STAGES = Ok rs).
  { apply stage_rows_ok. intros m Hin. apply stage_row_ok. intros x _ <-. destruct Hh as [H| ->]; [|by eexists].
    apply (staged_showable HOT_PATH_STAGES); [by destruct H|]. by apply (list_elem_of_fmap_2 sm_key) in Hin. }
  destruct Hot as [hot ->]. cbn [try_let res_bind].
  assert (Shown : ∃ b, verdict_shown v = Ok b ∧ (b = true → hot_shape (vw_hot v) ∧ truthy (prop "ok" (prop "orchestrator" (vw_hot v))) = true)).
  { unfold verdict_shown. destruct (_ || _); [by exists false|]. destruct Hh as [H| ->]; [|by exists false].
    rewrite (hs_object _ H). pose proof H as [T S _ _ _ _ _].
    destruct (S "orchestrator" ltac:(unfold HOT_PATH_STAGES; set_solver)) as [s E]. destruct (stage_arrived s) as (o & Eo & Ok_ & _).
    unfold stage_flag, get. assert (is_nullish (vw_hot v) = false) as -> by (by destruct (vw_hot v)). simpl. rewrite E, Eo.
    exists (truthy (prop "ok" (JObj o))). split; [reflexivity|]. by intros Hb. }
  destruct Shown as (b & -> & Hb). cbn [try_let res_bind].
  assert (Card : ∃ c, (if b then let? c := VerdictCard (vw_hot v) in let? e := evidence_section features in Ok (Some (c, e)) else Ok None) = Ok c).
  { destruct b; [|by eexists]. destruct (Hb eq_refl) as [H Ho]. destruct (verdict_card_ok _ H Ho) as [c ->].
    cbn [try_let res_bind]. rewrite Hev. by eexists. }
  destruct Card as [c ->]. cbn [try_let res_bind].
  assert (Ver : ∃ l, verified_label v = Ok l).
  { unfold verified_label. destruct (truthy (vw_memory v)) eqn:T; [|by eexists]. rewrite andb_true_l. case_bool_decide; [|by eexists].
    destruct Hm as [H'|E]; [|by rewrite E in T]. destruct (count_ok_staged MEMORY_STAGES MEMORY_STAGES _ H' T (λ k H, H)) as [n ->]. by eexists. }
  destruct Ver as [l ->]. cbn [try_let res_bind].
  assert (Mem : ∃ rs, stage_rows (memory_row v) MEMORY_META = Ok rs).
  { apply stage_rows_ok. intros m Hin. apply stage_row_ok. intros x _ <-. destruct Hm as [H| ->]; [|by eexists].
    apply (staged_showable MEMORY_STAGES); [done|]. by apply (list_elem_of_fmap_2 sm_key) in Hin. }
  destruct Mem as [rs ->]. by eexists.
Qed.

Lemma view_ok scenarios v :
  hot_shape (vw_hot v) ∨ vw_hot v = JNull → staged MEMORY_STAGES (vw_memory v) ∨ vw_memory v = JNull →
  ∃ sv, SimulateView scenarios v = Ok sv.
Proof.
  intros Hh Hm. unfold SimulateView.
  assert (Fs : ∃ f, featureImpacts (vw_hot v) = Ok f ∧ ∃ p, evidence_section f = Ok p).
  { destruct Hh as [H| ->]; [|by repeat eexists]. apply features_ok. by destruct H. }
  destruct Fs as (f & -> & Hf). cbn [try_let res_bind].
  assert (Total : ∃ t, total_label (vw_hot v) " ms" = Ok t).
  { unfold total_label. destruct Hh as [[T _ [t Et] _ _ _ _]| ->]; [rewrite T, Et|]; by eexists. }
  destruct Total as [t ->]. cbn [try_let res_bind]. destruct (run_section_ok f v Hf Hh Hm) as [p E].
  destruct (run_visible v); [rewrite E|]; by eexists.
Qed.

(** *** Answers of the simulation route *)

Lemma child_cons x l : child (JArr (x :: l)) = let? a := child x in let? b := child (JArr l) in Ok (a +:+ b).
Proof. reflexivity. Qed.

Lemma child_take n l : showable (JArr l) → showable (JArr (take n l)).
Proof.
  revert n. induction l as [|x l IH]; intros [|n]; [by eexists..|]. intros [s E]. cbn [take]. unfold showable.
  rewrite child_cons in E |- *. destruct (child x) as [a|e]; [|done]. cbn [try_let res_bind] in E |- *.
  destruct (child (JArr l)) as [b|e] eqn:El; [|done]. destruct (IH n) as [t ->]; [by exists b|by eexists].
Qed.

(** The calls of [sim_orchestrator] take the first eight characters of the
    action id, so a passed stage has one that can be sliced. *)
Lemma orchestrator_action orch s params w l triage a b c l' :
  sim_orchestrator orch s params w l = (Ok (triage, (a, b, c)), l') → st_ok a = true →
  is_nullish (prop "action_id" triage) = true ∨ is_string (prop "action_id" triage) = true ∨ is_array (prop "action_id" triage) = true.
Proof.
  unfold sim_orchestrator. intros E Ha. apply bind_inv in E as (t0 & l1 & _ & E).
  apply bind_inv in E as (r & l2 & _ & E). destruct r as [triage'|e].
  2: { apply bind_inv in E as (t & l3 & _ & E). injection E as _ <- _ _ _. done. }
  apply bind_inv in E as (x & l3 & Ex & E). apply attempt_inv in Ex. destruct x as [st|e].
  2: { apply bind_inv in E as (t & l4 & _ & E). injection E as _ <- _ _ _. done. }
  injection E as -> -> _. unfold sim_stages_ok in Ex. apply bind_inv in Ex as (ev & l4 & _ & Ex).
  apply bind_inv in Ex as (t & l5 & _ & Ex). apply bind_inv in Ex as (action & l6 & Es & _). unfold slice_val in Es.
  destruct (prop "action_id" triage); simpl; auto; done.
Qed.

Lemma prop_arrived k resp : (∃ o, resp = JObj o) → prop k (json_normal resp) = json_normal (prop k resp).
Proof. intros [o ->]. apply prop_json. Qed.

(** A 200 answer of the simulation route has what the page needs, as long as
    the texts the orchestrator sent can be shown and its evidence is numbers. *)
Lemma simulate_hot_shape getHours cu ou body w resp l :
  run (simulate getHours cu ou body) w = (Ok (RJson 200 resp), l) →
  (∀ k, k ∈ ["verdict"; "execution_path"; "action_id"] → showable (prop k (json_normal resp))) →
  numeric_evidence (json_normal resp) →
  hot_shape (json_normal resp).
Proof.
  unfold run, simulate. intros E Hs Hev.
  apply bind_inv in E as (t0 & l1 & _ & E). apply bind_inv in E as (b & l2 & _ & E).
  apply bind_inv in E as (sid & l3 & _ & E). apply bind_inv in E as (params & l4 & _ & E).
  destruct (getScenario getHours sid) as [s|]; [|done].
  apply bind_inv in E as ([ids col] & l5 & _ & E).
  apply bind_inv in E as ([triage [[a bb] c]] & l6 & Eo & E).
  apply bind_inv in E as (user & l7 & _ & E). apply bind_inv in E as (t & l8 & _ & E). injection E as <- _.
  cbn [fst snd] in *. set (resp := sim_response _ _ _ _ _ _ _ _) in *.
  assert (R : ∃ o, resp = JObj o) by (by eexists). constructor.
  - by destruct R as [o ->].
  - intros k Hk. rewrite prop_arrived by done. unfold HOT_PATH_STAGES in Hk. apply list_elem_of_In in Hk.
    destruct Hk as [<-|[<-|[<-|[<-|[]]]]]; by eexists.
  - rewrite prop_arrived by done. unfold resp, sim_response. simpl prop. unfold json_normal. case_match; [|by eexists]. by case_match; eexists.
  - apply Hs. left.
  - apply Hs. right. left.
  - done.
  - intros Ho. rewrite prop_arrived in Ho |- * by done. unfold resp, sim_response in Ho. simpl in Ho.
    destruct (stage_arrived a) as (o & Eq & Hok & _).
    assert (Ha : st_ok a = true).
    { change (truthy (prop "ok" (json_normal (stage_json a))) = true) in Ho. rewrite Eq, Hok in Ho. done. }
    pose proof (orchestrator_action _ _ _ _ _ _ _ _ _ _ Eo Ha) as Hact.
    specialize (Hs "action_id" ltac:(right; right; left)). rewrite prop_arrived in Hs by done.
    change (prop "action_id" resp) with (nullish (prop "action_id" triage) (JStr EmptyString)) in Hs |- *.
    destruct (prop "action_id" triage) as [| |?|n|str|arr|?]; simpl in Hact; try (by destruct Hact as [?|[?|?]]);
      [by do 2 eexists|by do 2 eexists|by do 2 eexists|].
    change (nullish (JArr arr) (JStr EmptyString)) with (JArr arr) in *. rewrite json_normal_arr in *.
    destruct (child_take 8 _ Hs) as [str Estr]. exists (JArr (take 8 (json_item <$> arr))), str. done.
Qed.

Lemma run_section_card features v p : run_section features v = Ok p → verdict_shown v = Ok (bool_decide (is_Some (rp_card p))).
Proof.
  unfold run_section. destruct (total_label _ _); [|done]. cbn [try_let res_bind]. destruct (stage_rows _ HOT_STAGES); [|done].
  cbn [try_let res_bind]. destruct (verdict_shown v) as [b|]; [|done]. cbn [try_let res_bind].
  assert (C : ∀ c, (if b then let? c := VerdictCard (vw_hot v) in let? e := evidence_section features in Ok (Some (c, e)) else Ok None) = Ok c →
    b = bool_decide (is_Some c)).
  { intros c. destruct b; [|by intros [= <-]]. destruct (VerdictCard _); [|done]. cbn [try_let res_bind].
    destruct (evidence_section _); [|done]. by intros [= <-]. }
  destruct (if b then _ else _) as [c|]; [|done]. cbn [try_let res_bind]. destruct (verified_label v); [|done]. cbn [try_let res_bind].
  destruct (stage_rows _ MEMORY_META); [|done]. intros [= <-]. f_equal. by apply C.
Qed.

Lemma view_section scenarios v sv : SimulateView scenarios v = Ok sv →
  if run_visible v then ∃ f p, run_section f v = Ok p ∧ sv_run sv = Some p else sv_run sv = None.
Proof.
  unfold SimulateView. destruct (featureImpacts _) as [f|]; [|done]. cbn [try_let res_bind]. destruct (total_label _ _); [|done]. cbn [try_let res_bind]. destruct (run_visible v).
  - destruct (run_section f v) as [p|] eqn:Ep; cbn [try_let res_bind]; [|done]. intros [= <-]. by exists f, p.
  - cbn [try_let res_bind]. by intros [= <-].
Qed.

(** An answer that is an object without stages, such as [{ error }], takes
    the page down: it is kept as the result of the run before it is read. *)
Lemma error_answer_throws scenarios scenarioId st text o now s :
  is_nullish (prop "collector" (JObj o)) = true → is_nullish (prop "orchestrator" (JObj o)) = true →
  showable (prop "total_latency_ms" (JObj o)) →
  ∃ e, SimulateView scenarios (pg_view (run_answered scenarioId (Ok (mkFetched st (Some (JObj o)) text)) now s)) = Throw e.
Proof.
  intros Hc Ho [t Ht]. unfold run_answered. cbn [ft_json].
  assert (E : ∃ e, hot_ok (JObj o) = Throw e) by (unfold hot_ok, stage_flag, get; simpl in Hc |- *; rewrite Hc; by eexists).
  destruct E as [e ->]. set (v := pg_view _).
  assert (Hv : vw_runState v = RError ∧ vw_hot v = JObj o) by done. destruct Hv as [Hr Hh].
  unfold SimulateView, run_visible, total_label. rewrite Hr, Hh.
  destruct (featureImpacts _) as [f|]; [|by eexists]. cbn [try_let res_bind truthy]. rewrite Ht. cbn [try_let res_bind].
  unfold run_section, total_label. rewrite Hh. cbn [truthy]. rewrite Ht. cbn [try_let res_bind].
  destruct (stage_rows (hot_row v) HOT_STAGES); [|by eexists]. cbn [try_let res_bind].
  assert (V : ∃ e', verdict_shown v = Throw e').
  { unfold verdict_shown. rewrite Hr, Hh. cbn [truthy]. unfold stage_flag, get. simpl in Ho |- *. rewrite Ho. by eexists. }
  destruct V as [e' ->]. by eexists.
Qed.
