(* ===== verification/LoadPage.v ===== *)
(** * The load page ([app/workbench/load/page.tsx])

    One mount of the page over the load store: the metrics socket with its
    reconnection, and the controls, which are what limits the order of the
    store's actions. The store outlives the page; its requests stay pending
    when the page is left. *)
From Stdlib Require Import Ascii SpecFloat.
From S2P Require Import Prelude JsObject JsNum JsString JsValue Types Effects AlertsWs LoadStore.

(** ** Values *)

Definition CP_WS_URL (cpBase : option string) (hostname : option string) : string :=
  strip_trailing_slash
    (match cpBase, hostname with
     | Some b, _ => b
     | None, Some h => "ws://" +:+ h +:+ ":8080"
     | None, None => "ws://localhost:8080"
     end) +:+ "/v1/metrics/stream".

Record Preset := mkPreset { ps_label : string; ps_description : string; ps_config : LoadConfig }.

Definition PRESETS : list Preset := [
  mkPreset "Smoke" "1k/sec · 30s" (mkLoadConfig (of_Z 1000) (of_Z 30) ScMixed (of_Z 2) true (of_Z 5));
  mkPreset "Sustained" "10k/sec · 60s" (mkLoadConfig (of_Z 10000) (of_Z 60) ScMixed (of_Z 3) true (of_Z 5));
  mkPreset "Burst" "100k/sec · 60s" (mkLoadConfig (of_Z 100000) (of_Z 60) ScMixed (of_Z 5) true (of_Z 1));
  mkPreset "1M Challenge" "100k/sec · 120s" (mkLoadConfig (of_Z 100000) (of_Z 120) ScMixed (of_Z 10) true zero)].

Definition preset_patch (p : Preset) : LoadConfigPatch :=
  let c := ps_config p in
  mkPatch (Some (lc_rate c)) (Some (lc_duration_secs c)) (Some (lc_scenario c)) (Some (lc_tenants c))
    (Some (lc_seed_baselines c)) (Some (lc_sampled_triage_pct c)).

Definition preset_selected (c : LoadConfig) (p : Preset) : bool :=
  num_eqb (lc_rate c) (lc_rate (ps_config p)) && num_eqb (lc_duration_secs c) (lc_duration_secs (ps_config p)).

Definition fmt (n : num) : string :=
  if num_leb (of_Z 1000000) n then to_fixed 1 (num_div n (of_Z 1000000)) +:+ "M"
  else if num_leb (of_Z 1000) n then to_fixed 1 (num_div n (of_Z 1000)) +:+ "k"
  else num_to_string n.

(** [parseInt(v)] on the value of a number input, which is a decimal number
    or empty; [None] is NaN. *)
Fixpoint int_prefix (acc : Z) (s : string) : Z :=
  match s with
  | String c s' => match digit_of c with Some d => int_prefix (10 * acc + Z.of_N d) s' | None => acc end
  | EmptyString => acc
  end.

Definition parse_int (v : string) : option Z :=
  let '(neg, ds) := match v with
                    | String "-"%char s => (true, s)
                    | String "+"%char s => (false, s)
                    | _ => (false, v)
                    end in
  match ds with
  | String c _ => match digit_of c with
                  | Some _ => Some (let n := int_prefix 0 ds in if neg : bool then - n else n)
                  | None => None
                  end
  | EmptyString => None
  end.

(** [parseInt(v) || d] *)
Definition int_or (v : string) (d : Z) : num :=
  match parse_int v with Some 0 | None => of_Z d | Some n => of_Z n end.

Definition no_patch : LoadConfigPatch := mkPatch None None None None None None.
Definition rate_field (v : string) : LoadConfigPatch := mkPatch (Some (int_or v 1000)) None None None None None.
Definition duration_field (v : string) : LoadConfigPatch := mkPatch None (Some (int_or v 30)) None None None None.
Definition tenants_field (v : string) : LoadConfigPatch := mkPatch None None None (Some (int_or v 1)) None None.
Definition scenario_field (s : LoadScenario) : LoadConfigPatch := mkPatch None None (Some s) None None None.
Definition baselines_field (b : bool) : LoadConfigPatch := mkPatch None None None None (Some b) None.
Definition sampled_field (v : string) : LoadConfigPatch :=
  mkPatch None None None None None (Some (match parse_int v with Some n => of_Z n | None => nan end)).

(** ** What is shown *)

Definition busy (st : LoadStatus) : bool := bool_decide (st = LdStarting) || bool_decide (st = LdStopping).
Definition reset_shown (st : LoadStatus) : bool :=
  bool_decide (st = LdIdle) || bool_decide (st = LdCompleted) || bool_decide (st = LdError).
Definition presets_disabled (st : LoadStatus) : bool := bool_decide (st = LdRunning) || bool_decide (st = LdStarting).
Definition fields_disabled (st : LoadStatus) : bool := bool_decide (st = LdRunning).

Definition latest (f : MetricsSnapshot → num) (s : LoadState) : num :=
  match ld_current s with Some m => f m | None => zero end.

Definition elapsed (s : LoadState) : option string :=
  (λ m, fmt (ms_total_events m) +:+ " events") <$> ld_current s.

Definition chart_data (f : MetricsSnapshot → num) (s : LoadState) : list (nat * num) :=
  imap (λ i m, (i, f m)) (ld_history s).

Definition charts_shown (s : LoadState) : bool := (0 <? length (ld_history s))%nat.
Definition empty_shown (s : LoadState) : bool :=
  Nat.eqb (length (ld_history s)) 0 &&
  match ld_errorMsg s with Some m => String.eqb m EmptyString | None => true end.

Definition sampling (s : LoadState) : bool := num_ltb zero (lc_sampled_triage_pct (ld_config s)).
Definition triage_p95 (s : LoadState) : option string :=
  if sampling s && num_ltb zero (latest ms_triage_p95_ms s)
  then Some (to_fixed 1 (latest ms_triage_p95_ms s) +:+ " ms") else None.
Definition accumulating (s : LoadState) : bool :=
  sampling s && num_eqb (latest ms_triage_p95_ms s) zero && bool_decide (ld_status s = LdRunning).

(** ** The page *)

Inductive load_request := RqStart (config : LoadConfig) | RqStop.

Record load_page := mkLoadPage {
  lp_mounted : bool;               (** [mountedRef] *)
  lp_connected : bool;             (** [wsConnected] *)
  lp_backoff : num;                (** [backoffRef] *)
  lp_sockets : list socket;        (** in order of creation *)
  lp_wsRef : option nat;
  lp_timers : list (num * bool);   (** delay, and whether the timer is pending *)
  lp_timerRef : option nat;        (** [reconnectTimerRef] *)
  lp_store : LoadState;
  lp_pending : list load_request
}.

Definition with_net (c : bool) (b : num) (sk : list socket) (r : option nat) (ts : list (num * bool)) (tr : option nat)
    (s : load_page) : load_page :=
  mkLoadPage (lp_mounted s) c b sk r ts tr (lp_store s) (lp_pending s).
Definition with_store (st : LoadState) (ps : list load_request) (s : load_page) : load_page :=
  mkLoadPage (lp_mounted s) (lp_connected s) (lp_backoff s) (lp_sockets s) (lp_wsRef s) (lp_timers s) (lp_timerRef s) st ps.

Definition cancel (t : option nat) (ts : list (num * bool)) : list (num * bool) :=
  match t with
  | Some i => match ts !! i with Some (d, _) => <[i := (d, false)]> ts | None => ts end
  | None => ts
  end.

(** [readyState < 2] *)
Definition opening (s : option socket) : bool :=
  match s with Some SkConnecting | Some SkOpen => true | _ => false end.

Section Page.
(** Whether [new WebSocket(url)] succeeds; it throws for a bad URL and for an
    insecure socket on a secure page. *)
Variable available : bool.

Definition connectWs (s : load_page) : load_page :=
  if negb (lp_mounted s) then s
  else if opening (lp_wsRef s ≫= λ i, lp_sockets s !! i) then s
  else if available then
    with_net (lp_connected s) (lp_backoff s) (lp_sockets s ++ [SkConnecting]) (Some (length (lp_sockets s)))
      (lp_timers s) (lp_timerRef s) s
  else s.

(** The mount effects. *)
Definition load_mount (store : LoadState) (pending : list load_request) : load_page :=
  connectWs (mkLoadPage true false (of_Z 1000) [] None [] None store pending).

Definition lp_onopen (i : nat) (s : load_page) : load_page :=
  if negb (lp_mounted s) then
    with_net (lp_connected s) (lp_backoff s) (close_socket i (<[i := SkOpen]> (lp_sockets s))) (lp_wsRef s)
      (lp_timers s) (lp_timerRef s) s
  else with_net true (of_Z 1000) (<[i := SkOpen]> (lp_sockets s)) (lp_wsRef s) (lp_timers s) (lp_timerRef s) s.

(** [None] is a frame that cannot be parsed. *)
Definition lp_onmessage (m : option MetricsSnapshot) (s : load_page) : load_page :=
  match m with Some x => with_store (ingestSnapshot x (lp_store s)) (lp_pending s) s | None => s end.

Definition lp_onclose (i : nat) (s : load_page) : load_page :=
  let sk := <[i := SkClosed]> (lp_sockets s) in
  if negb (lp_mounted s) then with_net (lp_connected s) (lp_backoff s) sk (lp_wsRef s) (lp_timers s) (lp_timerRef s) s
  else with_net false (lp_backoff s) sk (lp_wsRef s) (lp_timers s ++ [(lp_backoff s, true)]) (Some (length (lp_timers s))) s.

Definition lp_onerror (i : nat) (s : load_page) : load_page :=
  with_net (if lp_mounted s then false else lp_connected s) (lp_backoff s) (close_socket i (lp_sockets s)) (lp_wsRef s)
    (lp_timers s) (lp_timerRef s) s.

Definition next_backoff (b : num) : num :=
  let x := num_mul b (dec 15 1) in if num_ltb (of_Z 30000) x then of_Z 30000 else x.

Definition lp_ontimer (i : nat) (s : load_page) : load_page :=
  connectWs (with_net (lp_connected s) (next_backoff (lp_backoff s)) (lp_sockets s) (lp_wsRef s)
               (cancel (Some i) (lp_timers s)) (lp_timerRef s) s).

(** The cleanups, in the order of the effects. *)
Definition load_unmount (s : load_page) : load_page :=
  mkLoadPage false (lp_connected s) (lp_backoff s)
    (match lp_wsRef s with Some i => close_socket i (lp_sockets s) | None => lp_sockets s end) (lp_wsRef s)
    (cancel (lp_timerRef s) (lp_timers s)) (lp_timerRef s) (lp_store s) (lp_pending s).

(** The main button. *)
Definition main_button (now : Z) (s : load_page) : load_page :=
  let st := lp_store s in
  if bool_decide (ld_status st = LdRunning) then with_store (stopRun st) (lp_pending s ++ [RqStop]) s
  else with_store (startRun now st) (lp_pending s ++ [RqStart (ld_config st)]) s.

Inductive load_page_event :=
| LpOpen (i : nat)
| LpMessage (i : nat) (m : option MetricsSnapshot)
| LpError (i : nat)
| LpClose (i : nat)
| LpTimer (i : nat)
| LpUnmount
| LpMain (now : Z)
| LpReset
| LpPreset (p : Preset)
| LpField (c : LoadConfigPatch)
| LpAnswer (i : nat) (r : res fetched).

Definition lp_handle (e : load_page_event) (s : load_page) : option load_page :=
  let st := ld_status (lp_store s) in
  match e with
  | LpOpen i => match lp_sockets s !! i with Some SkConnecting => Some (lp_onopen i s) | _ => None end
  | LpMessage i m => match lp_sockets s !! i with Some SkOpen => Some (lp_onmessage m s) | _ => None end
  | LpError i => if opening (lp_sockets s !! i) then Some (lp_onerror i s) else None
  | LpClose i => match lp_sockets s !! i with Some SkClosed | None => None | _ => Some (lp_onclose i s) end
  | LpTimer i => match lp_timers s !! i with Some (_, true) => Some (lp_ontimer i s) | _ => None end
  | LpUnmount => if lp_mounted s then Some (load_unmount s) else None
  | LpMain now => if lp_mounted s && negb (busy st) then Some (main_button now s) else None
  | LpReset => if lp_mounted s && reset_shown st then Some (with_store (reset (lp_store s)) (lp_pending s) s) else None
  | LpPreset p => if lp_mounted s && negb (presets_disabled st)
                  then Some (with_store (setConfig (preset_patch p) (lp_store s)) (lp_pending s) s) else None
  | LpField c => if lp_mounted s && negb (fields_disabled st)
                 then Some (with_store (setConfig c (lp_store s)) (lp_pending s) s) else None
  | LpAnswer i r =>
      match lp_pending s !! i with
      | Some (RqStart _) => Some (with_store (start_answered r (lp_store s)) (delete i (lp_pending s)) s)
      | Some RqStop => Some (with_store (stop_answered r (lp_store s)) (delete i (lp_pending s)) s)
      | None => None
      end
  end.

Definition load_page_step (s s' : load_page) : Prop := ∃ e, lp_handle e s = Some s'.
End Page.

(** ** The controls *)

(** Which request can be under way in which status. *)
Definition serial (store : LoadState) (pending : list load_request) : Prop :=
  match pending with
  | [] => busy (ld_status store) = false
  | [RqStart _] => ld_status store = LdStarting
  | [RqStop] => ld_status store = LdStopping
  | _ => False
  end.

Lemma connectWs_store available s :
  lp_store (connectWs available s) = lp_store s ∧ lp_pending (connectWs available s) = lp_pending s.
Proof. unfold connectWs. by repeat case_match. Qed.

Lemma ingest_serial m st pending : serial st pending → serial (ingestSnapshot m st) pending.
Proof.
  unfold serial, ingestSnapshot. simpl. destruct (ld_status st) eqn:E; simpl; try done.
  destruct (negb _ && _); by destruct pending as [|[] []].
Qed.

Lemma serial_status st st' pending : ld_status st' = ld_status st → serial st pending → serial st' pending.
Proof. unfold serial. by intros ->. Qed.

Lemma answer_serial i r st pending q :
  serial st pending → pending !! i = Some q →
  serial (match q with RqStart _ => start_answered r st | RqStop => stop_answered r st end) (delete i pending).
Proof.
  intros H E. destruct pending as [|q' [|q'' k]]; [done| |by destruct q', q'']. destruct i as [|[|i]]; [|done..].
  simpl in E. simplify_eq. simpl. destruct q; simpl; unfold start_answered, stop_answered; by repeat case_match.
Qed.

Lemma serial_idle st pending : serial st pending → busy (ld_status st) = false → pending = [].
Proof.
  unfold serial, busy. destruct pending as [|[] []]; try done; intros -> H; by vm_compute in H.
Qed.

Lemma load_page_serial available s s' :
  serial (lp_store s) (lp_pending s) → load_page_step available s s' → serial (lp_store s') (lp_pending s').
Proof.
  intros H [e E]. destruct e as [i|i m|i|i|i| |now| |p|c|i r]; simpl in E.
  - case_match; [|done]. case_match; simplify_eq. unfold lp_onopen. by case_match.
  - case_match; [|done]. case_match; simplify_eq. destruct m; [|done]. by apply ingest_serial.
  - by case_match; simplify_eq.
  - unfold lp_onclose in E. repeat case_match; simplify_eq; done.
  - repeat case_match; simplify_eq. unfold lp_ontimer.
    destruct (connectWs_store available (with_net (lp_connected s) (next_backoff (lp_backoff s)) (lp_sockets s) (lp_wsRef s)
      (cancel (Some i) (lp_timers s)) (lp_timerRef s) s)) as [-> ->]. done.
  - by case_match; simplify_eq.
  - case_match eqn:Hg; simplify_eq. apply andb_true_iff in Hg as [_ Hb%negb_true_iff].
    pose proof (serial_idle _ _ H Hb) as Hp. unfold main_button. rewrite Hp. by case_match.
  - case_match eqn:Hg; simplify_eq. apply andb_true_iff in Hg as [_ Hb].
    assert (Hn : lp_pending s = []).
    { apply (serial_idle _ _ H). unfold reset_shown, busy in *. by destruct (ld_status (lp_store s)). }
    simpl. by rewrite Hn.
  - case_match; simplify_eq. by apply (serial_status (lp_store s)).
  - case_match; simplify_eq. by apply (serial_status (lp_store s)).
  - destruct (lp_pending s !! i) as [q|] eqn:Ei; [|done].
    pose proof (answer_serial i r _ _ q H Ei) as Ha. destruct q; by simplify_eq.
Qed.

(** the load page serialises the load store. Whatever the user, the
    socket and the answers do, at most one start or stop request is under
    way; while it is, the status is the one its action set, so every answer
    is applied to the run that asked for it and no reset, start or stop can
    come in between. The status is starting or stopping exactly then, and the
    page can be left and mounted again at any time. *)
Theorem load_requests_serial available store pending s :
  serial store pending → star (load_page_step available) (load_mount available store pending) s →
  (length (lp_pending s) ≤ 1)%nat ∧
  (∀ c, RqStart c ∈ lp_pending s ↔ ld_status (lp_store s) = LdStarting ∧ lp_pending s = [RqStart c]) ∧
  (RqStop ∈ lp_pending s ↔ ld_status (lp_store s) = LdStopping) ∧
  (busy (ld_status (lp_store s)) = true ↔ lp_pending s ≠ []) ∧
  (lp_pending s ≠ [] → (∀ now, lp_handle available (LpMain now) s = None) ∧ lp_handle available LpReset s = None) ∧
  serial (lp_store s) (lp_pending s).
Proof.
  intros H0 R. assert (H : serial (lp_store s) (lp_pending s)).
  { eapply (star_invariant _ (λ x, serial (lp_store x) (lp_pending x))); [|intros ? ?; apply load_page_serial|exact R].
    unfold load_mount. by destruct (connectWs_store available (mkLoadPage true false (of_Z 1000) [] None [] None store pending)) as [-> ->]. }
  unfold serial in H. destruct (lp_pending s) as [|q [|q' k]] eqn:E; [| |by destruct q, q'].
  - split; [simpl; lia|]. split; [intros c; split; [by intros ?%elem_of_nil|by intros [_ ?]]|].
    split; [split; [by intros ?%elem_of_nil|by intros Hs; rewrite Hs in H]|].
    split; [split; [by rewrite H|done]|]. split; [done|]. exact H.
  - assert (Hb : busy (ld_status (lp_store s)) = true ∧ reset_shown (ld_status (lp_store s)) = false) by (by destruct q; rewrite H).
    destruct Hb as [Hb Hr]. split; [simpl; lia|]. split.
    { intros c. rewrite list_elem_of_singleton. split; [intros <-; by rewrite H|by intros [_ [= ->]]]. }
    split; [rewrite list_elem_of_singleton; destruct q; rewrite H; split; done|].
    split; [by rewrite Hb|]. split; [|by destruct q].
    intros _. split; [intros now|]; simpl; rewrite ?Hb, ?Hr; by rewrite andb_false_r.
Qed.

(** ** The metrics socket *)

Definition pending_timer (t : num * bool) : nat := if t.2 then 1%nat else 0%nat.
Definition connections (s : load_page) : nat :=
  (sum_list_with live_socket (lp_sockets s) + sum_list_with pending_timer (lp_timers s))%nat.

(** Every delay the back-off takes. *)
Definition BACKOFFS : list num :=
  [of_Z 1000; of_Z 1500; of_Z 2250; of_Z 3375; dec 50625 1; dec 759375 2; dec 11390625 3; dec 170859375 4;
   dec 2562890625 5; of_Z 30000].

Lemma backoff_step b : b ∈ BACKOFFS → next_backoff b ∈ BACKOFFS.
Proof.
  assert (H : forallb (λ b, existsb (λ c, bool_decide (next_backoff b = c)) BACKOFFS) BACKOFFS = true) by (vm_compute; reflexivity).
  rewrite forallb_forall in H. setoid_rewrite existsb_exists in H. intros Hb%list_elem_of_In.
  destruct (H b Hb) as (c & Hc & E%bool_decide_eq_true). rewrite E. by apply list_elem_of_In.
Qed.

Record net_inv (available : bool) (s : load_page) : Prop := {
  ni_live : lp_mounted s = true → connections s = if available then 1%nat else 0%nat;
  ni_ref i sk : lp_sockets s !! i = Some sk → sk ≠ SkClosed → lp_wsRef s = Some i;
  ni_last i : lp_wsRef s = Some i → (i < length (lp_sockets s))%nat;
  ni_timer i d : lp_timers s !! i = Some (d, true) → lp_timerRef s = Some i;
  ni_connected : lp_mounted s = true → lp_connected s = true → ∃ i, lp_wsRef s = Some i ∧ lp_sockets s !! i = Some SkOpen;
  ni_backoff : lp_backoff s ∈ BACKOFFS ∧ Forall (λ t, t.1 ∈ BACKOFFS) (lp_timers s);
  ni_gone : lp_mounted s = false →
    (∀ i, opening (lp_sockets s !! i) = false) ∧ sum_list_with pending_timer (lp_timers s) = 0%nat
}.

(** The fields the invariant is about. *)
Definition net_eq (s s' : load_page) : Prop :=
  lp_mounted s' = lp_mounted s ∧ lp_connected s' = lp_connected s ∧ lp_backoff s' = lp_backoff s ∧
  lp_sockets s' = lp_sockets s ∧ lp_wsRef s' = lp_wsRef s ∧ lp_timers s' = lp_timers s ∧ lp_timerRef s' = lp_timerRef s.

Lemma net_inv_eq available s s' : net_eq s s' → net_inv available s → net_inv available s'.
Proof.
  intros (E1 & E2 & E3 & E4 & E5 & E6 & E7) [I1 I2 I3 I4 I5 I6 I7].
  constructor; unfold connections in *; rewrite ?E1, ?E2, ?E3, ?E4, ?E5, ?E6, ?E7; done.
Qed.

Lemma close_socket_lookup i j l sk :
  close_socket i l !! j = Some sk → sk = SkClosing ∧ i = j ∧ opening (l !! i) = true ∨ l !! j = Some sk ∧ (i = j → opening (Some sk) = false).
Proof.
  unfold close_socket. destruct (decide (i = j)) as [<-|Hn].
  - destruct (l !! i) as [[]|] eqn:E; rewrite ?list_lookup_insert_eq by (by eapply lookup_lt_Some); rewrite ?E;
      intros ?; simplify_eq; auto.
  - destruct (l !! i) as [[]|] eqn:E; rewrite ?list_lookup_insert_ne by done; intros ?; right; split; done.
Qed.

Lemma lp_close_socket_length i l : length (close_socket i l) = length l.
Proof. unfold close_socket. repeat case_match; by rewrite ?length_insert. Qed.

Lemma cancel_lookup i ts j d : cancel (Some i) ts !! j = Some (d, true) → ts !! j = Some (d, true) ∧ j ≠ i.
Proof.
  simpl. destruct (ts !! i) as [[d' b]|] eqn:E.
  - destruct (decide (i = j)) as [->|Hne]; [|rewrite list_lookup_insert_ne by done; auto].
    rewrite list_lookup_insert_eq by (by eapply lookup_lt_Some). done.
  - intros Ej. split; [done|]. intros ->. congruence.
Qed.

Lemma cancel_backoffs i ts : Forall (λ t, t.1 ∈ BACKOFFS) ts → Forall (λ t, t.1 ∈ BACKOFFS) (cancel i ts).
Proof.
  intros F. destruct i as [i|]; simpl; [|done]. destruct (ts !! i) as [[d b]|] eqn:E; [|done].
  apply Forall_insert; [done|]. rewrite Forall_lookup in F. by apply (F i (d, b)).
Qed.

Lemma sum_all_zero {A} (g : A → nat) (l : list A) : (∀ i x, l !! i = Some x → g x = 0%nat) → sum_list_with g l = 0%nat.
Proof.
  induction l as [|x l IH]; intros H; simpl; [done|]. rewrite (H 0%nat x eq_refl), IH; [done|].
  intros i y E. by apply (H (S i)).
Qed.

Lemma cancel_pending i d ts :
  ts !! i = Some (d, true) → S (sum_list_with pending_timer (cancel (Some i) ts)) = sum_list_with pending_timer ts.
Proof.
  intros E. simpl. rewrite E. pose proof (sum_set pending_timer ts i _ (d, false) E) as H.
  unfold pending_timer at 2 4 in H. simpl in H. lia.
Qed.

(** The cleanup's [clearTimeout] reaches the only pending timer. *)
Lemma cancel_all t ts :
  (∀ i d, ts !! i = Some (d, true) → t = Some i) → sum_list_with pending_timer (cancel t ts) = 0%nat.
Proof.
  intros H. apply sum_all_zero. intros i [d b] E. destruct b; [|done]. exfalso. destruct t as [k|].
  - apply cancel_lookup in E as [E Hn]. specialize (H i d E). congruence.
  - simpl in E. by specialize (H i d E).
Qed.

Lemma not_connected_sockets s :
  sum_list_with live_socket (lp_sockets s) = 0%nat → opening (lp_wsRef s ≫= λ i, lp_sockets s !! i) = false.
Proof.
  intros H. destruct (lp_wsRef s) as [i|]; simpl; [|done]. destruct (lp_sockets s !! i) as [sk|] eqn:E; [|done].
  pose proof (sum_zero _ _ _ _ H E) as H0. by destruct sk.
Qed.

(** A connection attempt when nothing is alive. *)
Lemma connectWs_inv available s :
  lp_mounted s = true → connections s = 0%nat → lp_connected s = false → lp_backoff s ∈ BACKOFFS →
  Forall (λ t, t.1 ∈ BACKOFFS) (lp_timers s) → (∀ i, lp_wsRef s = Some i → (i < length (lp_sockets s))%nat) →
  net_inv available (connectWs available s).
Proof.
  intros Hm Hc Hk Hb Hts Hr. unfold connections in Hc.
  assert (Hs0 : ∀ i sk, lp_sockets s !! i = Some sk → sk = SkClosed).
  { intros i sk E. assert (H0 : live_socket sk = 0%nat) by (eapply sum_zero; [|exact E]; lia). by destruct sk. }
  assert (Ht0 : ∀ i d, lp_timers s !! i = Some (d, true) → False).
  { intros i d E. assert (H0 : pending_timer (d, true) = 0%nat) by (eapply sum_zero; [|exact E]; lia). done. }
  unfold connectWs. rewrite Hm. simpl. rewrite not_connected_sockets by lia. destruct available.
  - constructor; simpl; try done.
    + intros _. unfold connections. simpl. rewrite sum_list_with_app. simpl. lia.
    + intros i sk [E|[Hi E]]%lookup_app_Some Hn; [by apply Hs0 in E|]. apply list_lookup_singleton_Some in E as [E _].
      f_equal. lia.
    + intros i [= <-]. rewrite length_app. simpl. lia.
    + intros i d E. by destruct (Ht0 i d E).
    + by rewrite Hk.
    + by rewrite Hm.
  - constructor; simpl; try done.
    + intros i sk E Hn. by apply Hs0 in E.
    + intros i d E. by destruct (Ht0 i d E).
    + by rewrite Hk.
    + by rewrite Hm.
Qed.

(** A live socket leaves no room for a pending timer. *)
Lemma one_connection available s i sk j d :
  net_inv available s → lp_mounted s = true → lp_sockets s !! i = Some sk → sk ≠ SkClosed →
  available = true ∧ (lp_timers s !! j = Some (d, true) → False).
Proof.
  intros I Hm Ei Hs. pose proof (ni_live _ _ I Hm) as Hl. unfold connections in Hl.
  pose proof (sum_set live_socket _ i _ SkClosed Ei) as H1. destruct available; [|destruct sk; simpl in *; try done; lia].
  split; [done|]. intros Ej. pose proof (sum_set pending_timer _ j _ (d, false) Ej) as H2.
  destruct sk; simpl in *; try done; unfold pending_timer in *; simpl in *; lia.
Qed.

Lemma mounted_opening available s i : net_inv available s → opening (lp_sockets s !! i) = true → lp_mounted s = true.
Proof.
  intros I H. destruct (lp_mounted s) eqn:E; [done|]. destruct (ni_gone _ _ I E) as [H0 _]. by rewrite H0 in H.
Qed.

Lemma lp_open_inv available i s :
  net_inv available s → lp_sockets s !! i = Some SkConnecting → net_inv available (lp_onopen i s).
Proof.
  intros I E. assert (Hm : lp_mounted s = true) by (apply (mounted_opening available s i I); by rewrite E).
  unfold lp_onopen. rewrite Hm. simpl. pose proof (ni_ref _ _ I i _ E ltac:(done)) as Hr. destruct I as [I1 I2 I3 I4 I5 I6 I7].
  pose proof (sum_set live_socket _ i _ SkOpen E) as Hs. simpl in Hs. constructor; simpl; try done.
  - intros _. unfold connections in *. simpl. rewrite <- (I1 Hm). lia.
  - intros j sk Ej Hn. destruct (decide (i = j)) as [<-|Hij]; [done|]. rewrite list_lookup_insert_ne in Ej by done. by eapply I2.
  - intros j Hj. rewrite length_insert. by apply I3.
  - intros _ _. exists i. split; [done|]. apply list_lookup_insert_eq. by eapply lookup_lt_Some.
  - split; [left|apply I6].
  - by rewrite Hm.
Qed.

Lemma lp_error_inv available i s :
  net_inv available s → opening (lp_sockets s !! i) = true → net_inv available (lp_onerror i s).
Proof.
  intros I E. pose proof (mounted_opening available s i I E) as Hm. unfold lp_onerror. rewrite Hm.
  destruct I as [I1 I2 I3 I4 I5 I6 I7]. constructor; simpl; try done.
  - intros _. unfold connections in *. simpl. rewrite live_close_socket. by apply I1.
  - intros j sk Ej Hn. apply close_socket_lookup in Ej as [(-> & <- & _)|[Ej _]]; [|by eapply I2].
    destruct (lp_sockets s !! i) as [sk|] eqn:Ei; [|done]. eapply I2; [exact Ei|]. by intros ->.
  - intros j Hj. rewrite lp_close_socket_length. by apply I3.
  - by rewrite Hm.
Qed.

Lemma lp_close_inv available i sk s :
  net_inv available s → lp_sockets s !! i = Some sk → sk ≠ SkClosed → net_inv available (lp_onclose i s).
Proof.
  intros I E Hsk. pose proof (one_connection available s i sk) as Hone.
  pose proof (sum_set live_socket _ i _ SkClosed E) as Hs.
  assert (Href : ∀ j x, <[i:=SkClosed]> (lp_sockets s) !! j = Some x → x ≠ SkClosed → lp_sockets s !! j = Some x).
  { intros j x Ej Hn. destruct (decide (i = j)) as [<-|Hij]; [|by rewrite list_lookup_insert_ne in Ej].
    rewrite list_lookup_insert_eq in Ej by (by eapply lookup_lt_Some). by simplify_eq. }
  unfold lp_onclose. destruct (lp_mounted s) eqn:Hm; simpl.
  - pose proof (Hone 0%nat zero I eq_refl E Hsk) as [-> _].
    assert (Ht : ∀ j d, lp_timers s !! j = Some (d, true) → False) by (intros j d; by apply (Hone j d I eq_refl E Hsk)).
    destruct I as [I1 I2 I3 I4 I5 I6 I7]. constructor; simpl; try done.
    + intros _. specialize (I1 Hm). unfold connections in *. simpl. rewrite sum_list_with_app. simpl.
      destruct sk; simpl in *; try done; lia.
    + intros j x Ej Hn. by eapply I2; [apply Href|].
    + intros j Hj. rewrite length_insert. by apply I3.
    + intros j d [Ej|[Hj Ej]]%lookup_app_Some; [by destruct (Ht j d)|].
      apply list_lookup_singleton_Some in Ej as [Ej _]. f_equal. lia.
    + split; [apply I6|]. apply Forall_app. split; [apply I6|]. constructor; [apply I6|done].
    + by rewrite Hm.
  - destruct I as [I1 I2 I3 I4 I5 I6 I7]. constructor; simpl; rewrite ?Hm; try done.
    + intros j x Ej Hn. by eapply I2; [apply Href|].
    + intros j Hj. rewrite length_insert. by apply I3.
    + intros _. destruct (I7 Hm) as [H1 H2]. split; [|done]. intros j.
      destruct (<[i:=SkClosed]> (lp_sockets s) !! j) as [x|] eqn:Ej; [|done].
      specialize (H1 j). destruct x; try done; by rewrite (Href j _ Ej) in H1.
Qed.

Lemma lp_timer_inv available i d s :
  net_inv available s → lp_timers s !! i = Some (d, true) → net_inv available (lp_ontimer available i s).
Proof.
  intros I E. pose proof (cancel_pending i d _ E) as Hc.
  assert (Hm : lp_mounted s = true).
  { destruct (lp_mounted s) eqn:Em; [done|]. destruct (ni_gone _ _ I Em) as [_ H]. lia. }
  assert (Hk : lp_connected s = false).
  { destruct (lp_connected s) eqn:Ek; [|done]. destruct (ni_connected _ _ I Hm Ek) as (k & _ & Eo).
    destruct (one_connection available s k SkOpen i d I Hm Eo) as [_ H]; [done|]. by destruct (H E). }
  pose proof (ni_live _ _ I Hm) as Hl. unfold connections in Hl.
  unfold lp_ontimer. apply connectWs_inv; try done.
  - unfold connections. cbn [with_net lp_sockets lp_timers]. destruct available; lia.
  - apply backoff_step, I.
  - apply (cancel_backoffs (Some i)), I.
  - apply (ni_last _ _ I).
Qed.

Lemma lp_unmount_inv available s : net_inv available s → net_inv available (load_unmount s).
Proof.
  intros [I1 I2 I3 I4 I5 I6 I7].
  assert (L : length (match lp_wsRef s with Some i => close_socket i (lp_sockets s) | None => lp_sockets s end) = length (lp_sockets s))
    by (destruct (lp_wsRef s); [apply lp_close_socket_length|done]).
  constructor; unfold load_unmount; cbn [lp_mounted lp_connected lp_backoff lp_sockets lp_wsRef lp_timers lp_timerRef]; rewrite ?L; try done.
  - intros j x Ej Hn. destruct (lp_wsRef s) as [i|] eqn:Er; [|by rewrite <- (I2 j x Ej Hn)].
    apply close_socket_lookup in Ej as [(_ & <- & _)|[Ej _]]; [done|]. by apply (I2 j x).
  - intros j d Ej. destruct (lp_timerRef s) as [k|]; [|by apply (I4 j d)]. apply cancel_lookup in Ej as [Ej _]. by apply (I4 j d).
  - split; [apply I6|]. apply cancel_backoffs, I6.
  - intros _. split; [|by apply cancel_all]. intros j.
    destruct (_ !! j) as [x|] eqn:Ej; [|done]. destruct (lp_wsRef s) as [i|] eqn:Er.
    + apply close_socket_lookup in Ej as [(-> & _)|[Ej Ho]]; [done|].
      destruct (opening (Some x)) eqn:Eo; [|done]. apply Ho.
      assert (Hx : Some i = Some j) by (apply (I2 j x Ej); by intros ->). congruence.
    + destruct (opening (Some x)) eqn:Eo; [|done]. assert (Hx : None = Some j) by (apply (I2 j x Ej); by intros ->). done.
Qed.

Lemma load_page_net available s s' : net_inv available s → load_page_step available s s' → net_inv available s'.
Proof.
  intros I [e E]. destruct e as [i|i m|i|i|i| |now| |p|c|i r]; simpl in E.
  - repeat case_match; simplify_eq. by apply lp_open_inv.
  - repeat case_match; simplify_eq. destruct m; [|done]. by eapply net_inv_eq; [|exact I].
  - case_match; simplify_eq. by apply lp_error_inv.
  - destruct (lp_sockets s !! i) as [sk|] eqn:Ei; [|done]. destruct sk; simplify_eq; by eapply lp_close_inv.
  - repeat case_match; simplify_eq. by eapply lp_timer_inv.
  - case_match; simplify_eq. by apply lp_unmount_inv.
  - case_match; simplify_eq. unfold main_button. case_match; by eapply net_inv_eq; [|exact I].
  - case_match; simplify_eq. by eapply net_inv_eq; [|exact I].
  - case_match; simplify_eq. by eapply net_inv_eq; [|exact I].
  - case_match; simplify_eq. by eapply net_inv_eq; [|exact I].
  - repeat case_match; simplify_eq; by eapply net_inv_eq; [|exact I].
Qed.

(** The metrics socket of the load page. While the page is mounted there
    is exactly one live socket or pending reconnection (none where sockets
    cannot be created), [WS live] is shown only for an open socket, and every
    delay is 1 second times a power of 1.5, at most 30 seconds. After the
    unmount nothing is left: no socket opens or delivers, no timer fires, so
    no reconnection and no snapshot can follow. *)
Theorem metrics_socket available store pending s :
  star (load_page_step available) (load_mount available store pending) s →
  (lp_mounted s = true → connections s = if available then 1%nat else 0%nat) ∧
  (lp_mounted s = true → lp_connected s = true → ∃ i, lp_wsRef s = Some i ∧ lp_sockets s !! i = Some SkOpen) ∧
  (lp_backoff s ∈ BACKOFFS ∧ Forall (λ t, t.1 ∈ BACKOFFS) (lp_timers s)) ∧
  (lp_mounted s = false → ∀ i m, lp_handle available (LpOpen i) s = None ∧
     lp_handle available (LpMessage i m) s = None ∧ lp_handle available (LpTimer i) s = None).
Proof.
  intros R. assert (I : net_inv available s).
  { eapply (star_invariant _ (net_inv available)); [|intros ? ?; apply load_page_net|exact R].
    apply connectWs_inv; try done. left. }
  destruct I as [I1 I2 I3 I4 I5 I6 I7]. do 3 (split; [done|]). intros Hm i m. destruct (I7 Hm) as [Ho Ht].
  specialize (Ho i). simpl. split_and!.
  - by destruct (lp_sockets s !! i) as [[]|].
  - by destruct (lp_sockets s !! i) as [[]|].
  - destruct (lp_timers s !! i) as [[d []]|] eqn:E; [|done|done]. pose proof (sum_zero _ _ _ _ Ht E) as H. done.
Qed.

Definition left_page : load_page := load_unmount (load_mount true initial_load []).
Lemma left_page_star : star (load_page_step true) (load_mount true initial_load []) left_page.
Proof. apply (star_snoc _ _ (load_mount true initial_load [])); [constructor|by exists LpUnmount]. Qed.

Lemma metrics_socket_witness : lp_sockets left_page = [SkClosing] ∧ lp_handle true (LpOpen 0) left_page = None.
Proof.
  split; [vm_compute; reflexivity|].
  destruct (metrics_socket true initial_load [] left_page left_page_star) as (_ & _ & _ & H).
  destruct (H eq_refl 0%nat None) as [H0 _]. exact H0.
Defined.

Definition started_page : load_page := main_button 5 (load_mount true initial_load []).
Lemma started_page_star : star (load_page_step true) (load_mount true initial_load []) started_page.
Proof. apply (star_snoc _ _ (load_mount true initial_load [])); [constructor|by exists (LpMain 5)]. Qed.

Lemma load_requests_serial_witness :
  lp_pending started_page = [RqStart DEFAULT_CONFIG] ∧ lp_handle true LpReset started_page = None.
Proof.
  split; [vm_compute; reflexivity|].
  destruct (load_requests_serial true initial_load [] started_page eq_refl started_page_star) as (_ & _ & _ & _ & H & _).
  destruct H as [_ H]; [discriminate|exact H].
Defined.
