(* ===== verification/LoadView.v ===== *)
(** * What the load page renders ([app/workbench/load/page.tsx])

    The page as a function of the state of [LoadPage]: the badges and buttons
    of the header, the presets and fields, the charts and totals. *)
From S2P Require Import Prelude JsObject JsNum JsString JsValue Types Effects LoadStore LoadPage.

(** ** Parts *)

Definition load_status_string (st : LoadStatus) : string :=
  match st with
  | LdIdle => "idle" | LdStarting => "starting" | LdRunning => "running" | LdStopping => "stopping"
  | LdCompleted => "completed" | LdError => "error"
  end.

Definition STATUS_STYLES : jsobj string := [
  ("idle", "bg-secondary text-muted-foreground");
  ("starting", "bg-blue-500/20 text-blue-400 animate-pulse");
  ("running", "bg-emerald-500/20 text-emerald-400");
  ("stopping", "bg-yellow-500/20 text-yellow-400");
  ("completed", "bg-primary/20 text-primary");
  ("error", "bg-red-500/20 text-red-400")].

Definition StatusBadge (status : string) : string * string :=
  (status, default (default EmptyString (obj_get "idle" STATUS_STYLES)) (obj_get status STATUS_STYLES)).

(** Title, reading, colour and points of a chart, and the text of the tooltip
    at a point. *)
Record metric_chart := mkMetricChart {
  mc_title : string; mc_reading : string; mc_color : string; mc_points : list (nat * num); mc_tooltip : list string
}.

Definition MetricChart (title : string) (s : LoadState) (dataKey : MetricsSnapshot → num) (strokeColor unit : string) : metric_chart :=
  mkMetricChart title (fmt (latest dataKey s) +:+ unit) strokeColor (chart_data dataKey s)
    ((λ p, fmt p.2 +:+ unit) <$> chart_data dataKey s).

Definition metric_charts (s : LoadState) : list metric_chart := [
  MetricChart "Events / sec" s ms_events_per_sec "#3b82f6" EmptyString;
  MetricChart "Consumer lag" s ms_consumer_lag "#f59e0b" " msg";
  MetricChart "Detections / sec" s ms_detections_per_sec "#f97316" EmptyString;
  MetricChart "Storage rows / sec" s ms_clickhouse_rows_per_sec "#a855f7" " rows"].

Definition total_stats (s : LoadState) : list (string * string) := [
  ("Events sent", fmt (latest ms_total_events s));
  ("Detections fired", fmt (latest ms_total_detections s));
  ("Actual rate", fmt (latest ms_current_load_gen_rate s) +:+ "/s");
  ("Consumer lag", fmt (latest ms_consumer_lag s) +:+ " msg")].

(** The line below the totals about the sampled triage. *)
Definition triage_lines (s : LoadState) : list (string * string) :=
  let pct := num_to_string (lc_sampled_triage_pct (ld_config s)) in
  match triage_p95 s with Some ms => [("ML triage p95 (" +:+ pct +:+ "% sampled)", ms)] | None => [] end ++
  (if accumulating s then [("Triage p95 — accumulating samples (" +:+ pct +:+ "% of events routed to orchestrator)…", EmptyString)] else []).

(** A preset: label, description, colour, whether it is the one chosen. *)
Definition preset_colors : list string := ["text-emerald-400"; "text-blue-400"; "text-orange-400"; "text-red-400"].

Definition preset_button (s : LoadState) (p : Preset) (color : string) : string * string * string * bool :=
  (ps_label p, ps_description p, color, preset_selected (ld_config s) p).

(** Label, value and whether it is disabled. *)
Definition ConfigField (label value : string) (disabled : bool) : string * string * bool := (label, value, disabled).

Definition config_fields (s : LoadState) : list (string * string * bool) :=
  let c := ld_config s in let d := fields_disabled (ld_status s) in [
  ConfigField "Rate (events/sec)" (num_to_string (lc_rate c)) d;
  ConfigField "Duration (sec)" (num_to_string (lc_duration_secs c)) d;
  ConfigField "Tenants" (num_to_string (lc_tenants c)) d].

Definition scenario_options : list (LoadScenario * string) :=
  [(ScMixed, "Mixed (92% benign)"); (ScAttack, "Attack only"); (ScBenign, "Benign only")].
#[export] Instance LoadScenario_eq : EqDecision LoadScenario. Proof. solve_decision. Defined.

Definition sampled_label (c : LoadConfig) : string :=
  if num_eqb (lc_sampled_triage_pct c) zero then "off" else num_to_string (lc_sampled_triage_pct c) +:+ "%".

(** The label of the main button. *)
Definition main_label (st : LoadStatus) : string :=
  match st with LdRunning => "Stop" | LdStarting => "Starting…" | _ => "Run" end.

(** ** The page *)

Record load_view := mkLoadView {
  lv_socket : string;
  lv_status : string * string;
  lv_elapsed : option string;
  lv_reset : bool;
  lv_main : bool * string;                                (** disabled, label *)
  lv_presets : bool * list (string * string * string * bool);
  lv_fields : list (string * string * bool);
  lv_scenario : list (string * bool);
  lv_baselines : bool;
  lv_sampled : string;
  lv_error : option string;
  lv_empty : bool;
  lv_charts : option (list metric_chart * list (string * string) * list (string * string))
}.

Definition LoadView (p : load_page) : load_view :=
  let s := lp_store p in
  let st := ld_status s in
  {| lv_socket := if lp_connected p then "WS live" else "WS offline";
     lv_status := StatusBadge (load_status_string st);
     lv_elapsed := elapsed s;
     lv_reset := reset_shown st;
     lv_main := (busy st, main_label st);
     lv_presets := (presets_disabled st, zip_with (preset_button s) PRESETS preset_colors);
     lv_fields := config_fields s;
     lv_scenario := (λ o, (o.2, bool_decide (lc_scenario (ld_config s) = o.1))) <$> scenario_options;
     lv_baselines := lc_seed_baselines (ld_config s);
     lv_sampled := sampled_label (ld_config s);
     lv_error := match ld_errorMsg s with Some (String _ _ as m) => Some m | _ => None end;
     lv_empty := empty_shown s;
     lv_charts := if charts_shown s then Some (metric_charts s, total_stats s, triage_lines s) else None |}.

(** ** Properties *)

(** The data of the store and its messages. *)
Record load_data (st : LoadState) : Prop := {
  ldd_current : ld_current st = last (ld_history st);
  ldd_bound : (length (ld_history st) ≤ HISTORY_MAX)%nat;
  ldd_error : ld_errorMsg st ≠ None → ld_status st = LdError
}.

Lemma ingest_data m st : load_data st → load_data (ingestSnapshot m st).
Proof.
  intros [I1 I2 I3]. unfold ingestSnapshot. constructor; cbn [ld_current ld_history ld_errorMsg ld_status].
  - by case_match; rewrite last_snoc.
  - destruct (HISTORY_MAX <=? length (ld_history st))%nat eqn:E; rewrite length_app; [rewrite take_last_length; change (length [m]) with 1%nat; unfold HISTORY_MAX; lia|].
    apply Nat.leb_gt in E. simpl. lia.
  - intros He. specialize (I3 He). rewrite I3. by rewrite bool_decide_eq_false_2.
Qed.

Lemma answer_data st q r :
  load_data st → (match q with RqStart _ => ld_status st = LdStarting | RqStop => ld_status st = LdStopping end) →
  load_data (match q with RqStart _ => start_answered r st | RqStop => stop_answered r st end).
Proof.
  intros [I1 I2 I3] Hq. assert (He : ld_errorMsg st = None).
  { destruct (ld_errorMsg st) eqn:E; [|done]. rewrite I3 in Hq by done. by destruct q. }
  destruct q; unfold start_answered, stop_answered; repeat case_match; constructor; simpl; try done; by rewrite He.
Qed.

Lemma load_page_data available s s' :
  serial (lp_store s) (lp_pending s) → load_data (lp_store s) → load_page_step available s s' → load_data (lp_store s').
Proof.
  intros S I [e E]. destruct e as [i|i m|i|i|i| |now| |p|c|i r]; simpl in E.
  - case_match; [|done]. case_match; simplify_eq. unfold lp_onopen. by case_match.
  - case_match; [|done]. case_match; simplify_eq. destruct m; [|done]. by apply ingest_data.
  - by case_match; simplify_eq.
  - unfold lp_onclose in E. repeat case_match; simplify_eq; done.
  - repeat case_match; simplify_eq. unfold lp_ontimer. by rewrite (proj1 (connectWs_store available _)).
  - by case_match; simplify_eq.
  - case_match eqn:Hg; simplify_eq. apply andb_true_iff in Hg as [_ Hb%negb_true_iff]. unfold main_button.
    destruct I as [I1 I2 I3]. case_bool_decide as Hr; constructor; simpl; try done; [|unfold HISTORY_MAX; lia].
    intros He. specialize (I3 He). congruence.
  - case_match; simplify_eq. constructor; simpl; [done|unfold HISTORY_MAX; lia|done].
  - case_match; simplify_eq. by destruct I.
  - case_match; simplify_eq. by destruct I.
  - destruct (lp_pending s !! i) as [q|] eqn:Ei; [|done].
    assert (Hq : match q with RqStart _ => ld_status (lp_store s) = LdStarting | RqStop => ld_status (lp_store s) = LdStopping end).
    { unfold serial in S. destruct (lp_pending s) as [|q' [|q'' k]]; [done| |by destruct q', q'']. destruct i as [|[|i]]; [|done..].
      simpl in Ei. injection Ei as ->. by destruct q. }
    pose proof (answer_data _ q r I Hq) as Ha. destruct q; by simplify_eq.
Qed.

(** What the load page shows. In every state it can reach: charts, totals and
    the number of events are there exactly when a snapshot has arrived since
    the last start or reset, with at most 300 points, and the reading of
    every chart is that of its last point; the button stops a run exactly
    while one is running and is disabled exactly while a request is under
    way; a message is shown only after a failure, and then the run can be
    started again. *)
Theorem load_view_shows available store pending s :
  serial store pending → load_data store → star (load_page_step available) (load_mount available store pending) s →
  let v := LoadView s in
  (is_Some (lv_charts v) ↔ ld_history (lp_store s) ≠ []) ∧ (is_Some (lv_elapsed v) ↔ is_Some (lv_charts v)) ∧
  (∀ charts totals lines c, lv_charts v = Some (charts, totals, lines) → c ∈ charts →
     (length (mc_points c) ≤ HISTORY_MAX)%nat ∧ last (mc_tooltip c) = Some (mc_reading c)) ∧
  (lv_main v).1 = bool_decide (lp_pending s ≠ []) ∧ ((lv_main v).2 = "Stop" ↔ ld_status (lp_store s) = LdRunning) ∧
  (is_Some (lv_error v) → ld_status (lp_store s) = LdError ∧ lv_main v = (false, "Run") ∧ lv_reset v = true).
Proof.
  intros S0 I0 R v.
  assert (H : serial (lp_store s) (lp_pending s) ∧ load_data (lp_store s)).
  { refine (star_invariant _ (λ x, serial (lp_store x) (lp_pending x) ∧ load_data (lp_store x)) _ _ _ _ R).
    - unfold load_mount. by destruct (connectWs_store available (mkLoadPage true false (of_Z 1000) [] None [] None store pending)) as [-> ->].
    - intros a b [Sa Ia] St. split; [by eapply load_page_serial|by eapply load_page_data]. }
  destruct H as [S [I1 I2 I3]]. subst v. unfold LoadView. cbn [lv_charts lv_elapsed lv_main lv_error lv_reset fst snd].
  set (st := lp_store s) in *. unfold charts_shown, elapsed. split; [|split; [|split; [|split; [|split]]]].
  - destruct (ld_history st) as [|m l]; simpl; [split; [by intros []|done]|split; [done|by eexists]].
  - rewrite I1. destruct (ld_history st) as [|m l]; simpl; [by split; intros []|]. split; [by eexists|]. intros _.
    destruct (last (m :: l)) eqn:E; [by eexists|by apply last_None in E].
  - intros charts totals lines c. destruct (ld_history st) as [|m l] eqn:Eh; [done|]. simpl (_ <? _)%nat. intros [= <- _ _] Hc.
    assert (Hl : ∃ x, last (m :: l) = Some x) by (destruct (last (m :: l)) eqn:E; [by eexists|by apply last_None in E]).
    destruct Hl as [x Hx].
    assert (Point : ∀ title f color unit, (length (mc_points (MetricChart title st f color unit)) ≤ HISTORY_MAX)%nat ∧
      last (mc_tooltip (MetricChart title st f color unit)) = Some (mc_reading (MetricChart title st f color unit))).
    { intros title f color unit. unfold MetricChart, chart_data, latest. cbn [mc_points mc_tooltip mc_reading].
      rewrite length_imap, Eh, I1, Hx. split; [done|]. rewrite fmap_last, last_lookup, list_lookup_imap, length_imap, <- last_lookup, Hx. done. }
    unfold metric_charts in Hc. apply list_elem_of_In in Hc. destruct Hc as [<-|[<-|[<-|[<-|[]]]]]; apply Point.
  - unfold serial in S. destruct (lp_pending s) as [|q k]; [by rewrite S|]. rewrite bool_decide_eq_true_2 by done.
    unfold busy. by destruct q, k; try done; rewrite S.
  - by destruct (ld_status st).
  - intros He. assert (Hs : ld_status st = LdError) by (apply I3; destruct (ld_errorMsg st); [done|by destruct He]). by rewrite Hs.
Qed.

(** A failed start. *)
Definition refused : load_page_event := LpAnswer 0 (Ok (mkFetched 502 (Some (JObj [("error", JStr "no generator")])) EmptyString)).
Definition failed_page : load_page := default started_page (lp_handle true refused started_page).

Lemma failed_star : star (load_page_step true) (load_mount true initial_load []) failed_page.
Proof.
  eapply star_snoc; [exact started_page_star|]. exists refused. unfold failed_page.
  destruct (lp_handle true refused started_page) eqn:E; [reflexivity|]. vm_compute in E. discriminate E.
Qed.

Lemma load_view_shows_witness :
  lv_error (LoadView failed_page) = Some "no generator" ∧ lv_main (LoadView failed_page) = (false, "Run").
Proof.
  split; [vm_compute; reflexivity|].
  assert (D : load_data initial_load) by (constructor; [reflexivity|vm_compute; lia|intros H; by destruct H]).
  destruct (load_view_shows true initial_load [] failed_page eq_refl D failed_star) as (_ & _ & _ & _ & _ & H).
  apply H. exists "no generator". vm_compute. reflexivity.
Defined.
