(* ===== verification/QueuePage.v ===== *)
(** * The alert queue and the case list

    - [app/workbench/queue/page.tsx] and [app/workbench/cases/page.tsx]: the
      server components that read the fired detections, merge the stored
      cases into them and count them by state;
    - [components/workbench/alert-queue.tsx]: the merge with the live feed,
      the tabs, and the table's filters and order. *)
From Stdlib Require Import Ascii.
From S2P Require Import Prelude JsObject JsNum JsString JsValue Types AlertMappers Effects CaseRepository AlertsWs.

Open Scope eff_scope.

(** ** Server components *)

Inductive LiveStatus := Live | Connected | Offline.

Definition formatPipelineName (raw : string) : string :=
  capitalize_words (replace_char "_"%char " "%char raw).

Section Pages.
Variables CP_URL ARROYO_URL : string.
(** The repository's batched lookup; [None] is its rejection. *)
Variable getCases : list string → option (gmap string CaseRow).

Definition fired_request : request := with_timeout 1500 (get_req (CP_URL +:+ "/v1/detections/fired")).

(** [fetchLiveAlerts] and [fetchCases], which are the same code. The answer
    is [None] for a body that is not of the declared type. *)
Definition fetchLiveAlerts : M (option (list Alert * LiveStatus)) :=
  try_catch
    (let! res := fetch fired_request in
     if negb (ft_ok res) then ret (Some ([], Offline))
     else
       let! data := read_json res in
       ret (match Detection.parseFiredDetections data with
            | Some [] => Some ([], Connected)
            | Some parsed => Some (Enrich.enrichAlertsWithPersisted getCases parsed, Live)
            | None => None
            end))
    (λ _, ret (Some ([], Offline))).

Definition pipelines_request : request := with_timeout 1500 (get_req (ARROYO_URL +:+ "/api/v1/pipelines")).

Fixpoint pipeline_chips (ps : list jsval) : M (list (jsval * string)) :=
  match ps with
  | [] => ret []
  | p :: ps' =>
      let! name := member "name" p in
      let! rest := pipeline_chips ps' in
      ret ((name, "Running") :: rest)
  end.

Definition fetchArroyoPipelines : M (list (jsval * string)) :=
  try_catch
    (let! res := fetch pipelines_request in
     if negb (ft_ok res) then ret []
     else
       let! body := read_json res in
       let! data := member "data" body in
       match nullish data (JArr []) with
       | JArr l => pipeline_chips l
       | _ => throw (mkErr "TypeError" "map is not a function")
       end)
    (λ _, ret []).

Definition in_state (st : AlertState) (alerts : list Alert) : list Alert := filter (λ a, al_state a = st) alerts.
Definition not_closed (alerts : list Alert) : list Alert := filter (λ a, al_state a ≠ AutoClosed) alerts.

Definition count_string (alerts : list Alert) : string := string_of_Z (Z.of_nat (length alerts)).

Definition queueStats (alerts : list Alert) : list (string * string) := [
  ("Open alerts", count_string (not_closed alerts));
  ("Awaiting review", count_string (in_state AwaitingReview alerts));
  ("In-flight agents", count_string (in_state InFlight alerts));
  ("Auto-closed", count_string (in_state AutoClosed alerts))
].

Record queue_page := mkQueuePage {
  qp_alerts : list Alert;                 (** the rows given to [AlertQueueLive] *)
  qp_status : LiveStatus;
  qp_pipelines : list (jsval * string);
  qp_stats : list (string * string)
}.

(** The two requests of [Promise.all] are performed in order; neither
    function rejects. *)
Definition QueuePage : M (option queue_page) :=
  let! live := fetchLiveAlerts in
  let! arroyoPipelines := fetchArroyoPipelines in
  ret (match live with
       | Some (alerts, status) => Some (mkQueuePage alerts status arroyoPipelines (queueStats alerts))
       | None => None
       end).

Record cases_page := mkCasesPage {
  cp_status : LiveStatus;
  cp_open : list Alert;
  cp_closed : list Alert;
  cp_counts : list (AlertState * nat)
}.

Definition CasesPage : M (option cases_page) :=
  let! live := fetchLiveAlerts in
  ret (match live with
       | Some (cases, status) =>
           Some (mkCasesPage status (not_closed cases) (in_state AutoClosed cases)
                   ((λ st, (st, length (in_state st cases))) <$> [InFlight; AwaitingReview; AutoClosed]))
       | None => None
       end).
End Pages.

(** ** The live queue *)

(** [AlertQueueLive]: one row per alert id, live alerts first. *)
Definition live_rows (newAlerts initialAlerts : list Alert) : list Alert :=
  dedup_by al_id ∅ (newAlerts ++ initialAlerts).

Inductive QueueTabState := TabInFlight | TabAwaiting.
Definition tab_state (t : QueueTabState) : AlertState :=
  match t with TabInFlight => InFlight | TabAwaiting => AwaitingReview end.

Definition filteredAlerts (active : QueueTabState) (alerts : list Alert) : list Alert :=
  in_state (tab_state active) (not_closed alerts).
Definition tab_counts (t : QueueTabState) (alerts : list Alert) : nat :=
  length (in_state (tab_state t) (not_closed alerts)).

(** ** Cells, filters and order *)

(** [Math.round(confidence * 100)] as a string *)
Definition confidence_percent (a : Alert) : string :=
  let x := num_mul (al_confidence a) (of_Z 100) in
  num_to_string (match round_Z x with Some n => of_Z n | None => x end).

Definition formatVerdict (v : AlertVerdict) : string := replace_char "_"%char " "%char (verdict_string v).
Definition formatPath (p : ExecutionPath) : string :=
  match p with PathLlm => "LLM" | PathHybrid => "Hybrid" | PathClassifier => "Classifier" end.

Definition triage_label (s : AgentState) : string :=
  match s with
  | AgComplete => "Complete" | AgRunning => "Running" | AgDegraded => "Degraded" | AgIdle => "Not triaged"
  end.

(** The fields the global filter searches. *)
Definition searched (a : Alert) : list string := [
  al_id a; al_caseId a; al_title a; al_summary a; al_source a; al_entity a; al_region a;
  severity_string (al_severity a); al_technique a; verdict_string (al_verdict a);
  path_string (al_executionPath a); ag_step (al_agentStatus a);
  agent_state_string (ag_status (al_agentStatus a)); agent_name_string (ag_agent (al_agentStatus a));
  confidence_percent a
].

Definition has_text (q field : string) : bool := includes q (to_lower field).

Definition alertGlobalFilter (filterValue : string) (a : Alert) : bool :=
  let q := to_lower filterValue in
  String.eqb q EmptyString || existsb (has_text q) (searched a).

Definition severityOrder (s : Severity) : Z :=
  match s with SevCritical => 0 | SevHigh => 1 | SevMedium => 2 | SevLow => 3 end.

(** The severity column's [sortingFn]. *)
Definition by_severity (a b : Alert) : Z := severityOrder (al_severity a) - severityOrder (al_severity b).

Section Columns.
(** [formatAbsoluteTime]: the host's locale. *)
Variable formatAbsoluteTime : string → string.

Inductive column := ColId | ColSeverity | ColTitle | ColSource | ColEntity | ColTriage | ColConfidence | ColTime.

(** The columns' [filterFn]s. *)
Definition column_filter (c : column) (value : string) (a : Alert) : bool :=
  let q := to_lower value in
  match c with
  | ColId => has_text q (al_id a)
  | ColSeverity => has_text q (severity_string (al_severity a))
  | ColTitle => has_text q (al_title a) || has_text q (al_summary a) || has_text q (al_technique a)
  | ColSource => has_text q (al_source a) || has_text q (al_region a)
  | ColEntity => has_text q (al_entity a)
  | ColTriage =>
      has_text q (agent_state_string (ag_status (al_agentStatus a))) ||
      has_text q (ag_step (al_agentStatus a)) || has_text q (verdict_string (al_verdict a))
  | ColConfidence => includes value (confidence_percent a)
  | ColTime => has_text q (al_updatedAt a) || has_text q (formatAbsoluteTime (al_updatedAt a))
  end.

(** The parsed time of [new Date(iso)]; [None] is an invalid date. *)
Variable parse_date : string → option Z.

Definition relativeTime (iso : string) (now : Z) : string :=
  match parse_date (replace_first_char " "%char "T"%char iso) with
  | None => "NaNd ago"
  | Some t =>
      let s := Z.max 0 ((now - t) / 1000) in
      if s <? 60 then string_of_Z s +:+ "s ago"
      else let m := s / 60 in
      if m <? 60 then string_of_Z m +:+ "m ago"
      else let h := m / 60 in
      if h <? 24 then string_of_Z h +:+ "h ago"
      else string_of_Z (h / 24) +:+ "d ago"
  end.
End Columns.

(** ** What the pages show *)

(** The row of a detection, given its stored case. *)
Definition row_of (lookup : string → option CaseRow) (f : Detection.FiredDetection) : Alert :=
  let alert := Detection.firedDetectionToAlert f in
  match lookup (Detection.fd_event_id f) with
  | Some persisted => if truthy (cw_event persisted) then Enrich.mergePersistedCase alert persisted else alert
  | None => alert
  end.

(** The stored case of a detection is being triaged. *)
Definition running_case (lookup : string → option CaseRow) (f : Detection.FiredDetection) : bool :=
  match lookup (Detection.fd_event_id f) with
  | Some row => truthy (cw_event row) && bool_decide (cw_triage_status row = TRunning)
  | None => false
  end.

Lemma row_state lookup f :
  al_state (row_of lookup f) = if running_case lookup f then InFlight else AwaitingReview.
Proof.
  unfold row_of, running_case. destruct (lookup _) as [row|]; [|done].
  destruct (truthy _); [|done]. simpl. by destruct (cw_triage_status row).
Qed.

Lemma row_id lookup f : al_id (row_of lookup f) = Detection.fd_event_id f.
Proof. unfold row_of. destruct (lookup _) as [row|]; [|done]. by destruct (truthy _). Qed.

(** The rows of the first detection of every event, and no others, are shown. *)
Lemma live_rows_rows lookup ds :
  live_rows [] (row_of lookup <$> ds) = row_of lookup <$> dedup_by Detection.fd_event_id ∅ ds.
Proof.
  unfold live_rows. simpl. generalize (∅ : gset string). induction ds as [|f ds IH]; intros seen; [done|].
  csimpl. rewrite row_id. destruct (decide _); [apply IH|]. csimpl. by rewrite IH.
Qed.

Lemma in_state_rows lookup ds st :
  in_state st (row_of lookup <$> ds) =
  row_of lookup <$> filter (λ f, (if running_case lookup f then InFlight else AwaitingReview) = st) ds.
Proof.
  unfold in_state. induction ds as [|f ds IH]; [done|]. rewrite fmap_cons, !filter_cons, row_state.
  case_decide; [rewrite fmap_cons; by f_equal|done].
Qed.

Lemma not_closed_rows lookup ds : not_closed (row_of lookup <$> ds) = row_of lookup <$> ds.
Proof.
  apply filter_id. intros a (f & -> & _)%list_elem_of_fmap. rewrite row_state. by case_match.
Qed.

(** What the enrichment does with an answer of the repository. *)
Lemma enrich_found getCases m ds :
  getCases (Detection.fd_event_id <$> ds) = Some m →
  Enrich.enrichAlertsWithPersisted getCases (Detection.firedDetectionToAlert <$> ds) = row_of (m !!.) <$> ds.
Proof.
  assert (Hids : al_caseId <$> (Detection.firedDetectionToAlert <$> ds) = Detection.fd_event_id <$> ds)
    by (by rewrite <- list_fmap_compose).
  intros E. rewrite <- Hids in E. unfold Enrich.enrichAlertsWithPersisted. rewrite E.
  destruct ds as [|f ds]; [done|]. simpl default. by rewrite <- list_fmap_compose.
Qed.

Lemma enrich_rows {Db} `{CaseTablesLaws Db} (d : Db) ds :
  Enrich.enrichAlertsWithPersisted (λ ids, Some (getCases d ids)) (Detection.firedDetectionToAlert <$> ds) =
  row_of (getCase d) <$> ds.
Proof.
  rewrite (enrich_found _ (getCases d (Detection.fd_event_id <$> ds))) by done.
  apply list_fmap_ext. intros i f Hf. unfold row_of. rewrite getCases_lookup, decide_True; [done|].
  apply list_elem_of_fmap_2. by eapply list_elem_of_lookup_2.
Qed.

Lemma fetchLiveAlerts_live cp {Db} `{CaseTablesLaws Db} (d : Db) w l r vs ds :
  env_fetch w (length l) (fired_request cp) = Ok r → ft_ok r = true → ft_json r = Some (JArr vs) →
  mapM Detection.as_fired vs = Some ds →
  fetchLiveAlerts cp (λ ids, Some (getCases d ids)) w l =
  (Ok (Some (row_of (getCase d) <$> ds, match ds with [] => Connected | _ => Live end)),
   l ++ [EFetch (fired_request cp)]).
Proof.
  intros Ef Hok Hj Hd. unfold fetchLiveAlerts, try_catch, bind, fetch. rewrite Ef, Hok. simpl.
  unfold read_json. rewrite Hj. unfold ret, Detection.parseFiredDetections. rewrite Hd. simpl.
  destruct ds as [|f ds]; [done|]. by rewrite <- enrich_rows.
Qed.

Lemma queue_page_answers cp arr getCases : no_throw (QueuePage cp arr getCases).
Proof.
  apply no_throw_bind; [apply no_throw_catch; auto with attest|]. intros live.
  apply no_throw_bind; [apply no_throw_catch; auto with attest|]. auto with attest.
Qed.

(** The pipelines never decide what the alerts are. *)
Lemma queue_page_live cp arr getCases w live l1 :
  fetchLiveAlerts cp getCases w [] = (Ok live, l1) →
  ∃ pipes l2, run (QueuePage cp arr getCases) w =
    (Ok ((λ x, mkQueuePage x.1 x.2 pipes (queueStats x.1)) <$> live), l2).
Proof.
  intros E. unfold run, QueuePage. rewrite (bind_ok _ _ _ _ _ _ E).
  assert (Hn : no_throw (fetchArroyoPipelines arr)) by (apply no_throw_catch; auto with attest).
  destruct (Hn w l1) as (pipes & l2 & E2). exists pipes, l2. rewrite (bind_ok _ _ _ _ _ _ E2).
  unfold ret. destruct live as [[alerts status]|]; done.
Qed.

Lemma queueStats_rows lookup ds :
  let open_ := length ds in
  let running := length (filter (λ f, running_case lookup f = true) ds) in
  queueStats (row_of lookup <$> ds) = [
    ("Open alerts", string_of_Z (Z.of_nat open_));
    ("Awaiting review", string_of_Z (Z.of_nat (open_ - running)));
    ("In-flight agents", string_of_Z (Z.of_nat running));
    ("Auto-closed", "0")].
Proof.
  intros open_ running. unfold queueStats, count_string. rewrite not_closed_rows, !in_state_rows, !length_fmap.
  rewrite (list_filter_iff (λ f, _ = InFlight) (λ f, running_case lookup f = true)),
    (list_filter_iff (λ f, _ = AwaitingReview) (λ f, ¬ running_case lookup f = true)),
    (filter_nil (λ f, _ = AutoClosed)) by (intros f; by destruct (running_case lookup f)).
  pose proof (filter_length_split (λ f, running_case lookup f = true) ds) as E.  cbv beta in E.
  replace (open_ - running)%nat with (length (filter (λ f, ¬ running_case lookup f = true) ds)) by (unfold open_, running; lia).
  done.
Qed.

(** C30: the queue page over the database. When the control plane answers with
    a list of fired detections, the page gives the live queue one row per
    detection, in order: the detection's alert, merged with the case stored
    under its event id when that case has an event. The counters count these
    rows: the in-flight agents are the detections whose stored case is being
    triaged, every other row awaits review, and nothing is ever counted as
    auto-closed, although the orchestrator closes cases. The live queue, before
    its feed delivered anything, shows one of these rows per event id, that of
    the first detection of the event: the counters count more rows than are
    shown when several rules fired on one event. *)
Theorem queue_rows {Db} `{CaseTablesLaws Db} (d : Db) cp arr w r vs ds :
  env_fetch w 0 (fired_request cp) = Ok r → ft_ok r = true → ft_json r = Some (JArr vs) →
  mapM Detection.as_fired vs = Some ds →
  let running := length (filter (λ f, running_case (getCase d) f = true) ds) in
  ∃ p log, run (QueuePage cp arr (λ ids, Some (getCases d ids))) w = (Ok (Some p), log) ∧
    qp_alerts p = row_of (getCase d) <$> ds ∧ al_id <$> qp_alerts p = Detection.fd_event_id <$> ds ∧
    (qp_status p = Connected ↔ ds = []) ∧
    qp_stats p = [
      ("Open alerts", string_of_Z (Z.of_nat (length ds)));
      ("Awaiting review", string_of_Z (Z.of_nat (length ds - running)));
      ("In-flight agents", string_of_Z (Z.of_nat running));
      ("Auto-closed", "0")] ∧
    live_rows [] (qp_alerts p) = row_of (getCase d) <$> dedup_by Detection.fd_event_id ∅ ds.
Proof.
  intros Ef Hok Hj Hd running.
  pose proof (fetchLiveAlerts_live cp d w [] r vs ds Ef Hok Hj Hd) as E.
  destruct (queue_page_live cp arr _ w _ _ E) as (pipes & l2 & ->). do 2 eexists. split; [done|]. simpl.
  split; [done|]. split; [|split; [by destruct ds|split; [apply queueStats_rows|apply live_rows_rows]]].
  rewrite <- list_fmap_compose. apply list_fmap_ext. intros i f _. apply row_id.
Qed.

Definition sample_fired : Detection.FiredDetection :=
  Detection.mkFiredDetection "aws_root_account_use" "c1" "bob" "eu-west-1" "high" "2026-01-01 10:00:00".

Definition fired_json : jsval := JObj [
  ("detection_id", JStr "aws_root_account_use"); ("event_id", JStr "c1"); ("actor_user_name", JStr "bob");
  ("cloud_region", JStr "eu-west-1"); ("severity", JStr "high"); ("fired_at", JStr "2026-01-01 10:00:00")].

Definition control_plane : env := mkEnv (λ _ _, Ok (mkFetched 200 (Some (JArr [fired_json])) EmptyString)) (λ _, 0).

(** Two rules fired on one event. *)
Definition second_rule : Detection.FiredDetection :=
  Detection.mkFiredDetection "aws_console_no_mfa" "c1" "bob" "eu-west-1" "high" "2026-01-01 10:00:00".
Definition second_json : jsval := JObj [
  ("detection_id", JStr "aws_console_no_mfa"); ("event_id", JStr "c1"); ("actor_user_name", JStr "bob");
  ("cloud_region", JStr "eu-west-1"); ("severity", JStr "high"); ("fired_at", JStr "2026-01-01 10:00:00")].
Definition two_rules : env :=
  mkEnv (λ _ _, Ok (mkFetched 200 (Some (JArr [fired_json; second_json])) EmptyString)) (λ _, 0).

Lemma queue_rows_witness :
  ∃ p log, run (QueuePage "cp" "arr" (λ ids, Some (getCases sample_db ids))) two_rules = (Ok (Some p), log) ∧
    length (qp_alerts p) = 2%nat ∧ length (live_rows [] (qp_alerts p)) = 1%nat.
Proof.
  destruct (queue_rows sample_db "cp" "arr" two_rules (mkFetched 200 (Some (JArr [fired_json; second_json])) EmptyString)
    [fired_json; second_json] [sample_fired; second_rule]) as (p & log & E & Hp & _ & _ & _ & Hl); [reflexivity..|].
  exists p, log. split; [exact E|]. rewrite Hl, Hp. split; reflexivity.
Defined.

(** ** The live queue over the server's rows *)

(** The live queue. Whatever the socket delivers, the queue shows exactly
    one row per alert id of the feed and of the server's rows, and the feed's
    row wins: an event the feed delivers again, on a reconnection, loses the
    stored verdict, confidence and progress the server had merged into its
    row, and shows as not triaged. Of the server's rows with an id the feed
    did not deliver the first is shown; the others, made when several rules
    fire on one event, are not. *)
Theorem live_queue f initial :
  star ws_step mount f →
  let rows := live_rows (fe_alerts f) initial in
  NoDup (al_id <$> rows) ∧
  (∀ i, i ∈ al_id <$> rows ↔ i ∈ al_id <$> fe_alerts f ∨ i ∈ al_id <$> initial) ∧
  (∀ a, a ∈ rows → al_id a ∈ al_id <$> fe_alerts f →
     al_verdict a = VInvestigating ∧ al_confidence a = zero ∧ al_agentStatus a = Detection.IDLE_AGENT ∧
     al_state a = AwaitingReview) ∧
  (∀ l1 a l2, initial = l1 ++ a :: l2 → al_id a ∉ al_id <$> fe_alerts f → al_id a ∉ al_id <$> l1 → a ∈ rows).
Proof.
  intros R rows. pose proof (reachable_feed f R) as [_ _ (ds & Ha & _) _].
  assert (Hmem : ∀ a, a ∈ rows → a ∈ fe_alerts f ∨ (a ∈ initial ∧ al_id a ∉ al_id <$> fe_alerts f)).
  { intros a. unfold rows, live_rows. rewrite dedup_by_app, elem_of_app. intros [H1|H2].
    - left. by eapply dedup_by_subset.
    - right. split; [by eapply dedup_by_subset|]. apply dedup_by_fresh in H2.
      rewrite dedup_seen_elem in H2. tauto. }
  split; [apply dedup_by_NoDup|]. split; [|split].
  - intros i. unfold rows, live_rows. rewrite dedup_by_keys, fmap_app, elem_of_app. set_solver.
  - intros a Hrow Hid. destruct (Hmem a Hrow) as [Hlive|[_ Hnot]]; [|done].
    rewrite Ha in Hlive. by apply list_elem_of_fmap in Hlive as (x & -> & _).
  - intros l1 a l2 -> Hid Hl. unfold rows, live_rows.
    rewrite app_assoc. apply dedup_by_first; [set_solver|]. by rewrite fmap_app, not_elem_of_app.
Qed.

Definition enriched_row : Alert := row_of (getCase sample_db) sample_fired.

Lemma live_queue_witness :
  NoDup (al_id <$> live_rows (fe_alerts (onmessage (Some sample_fired) opened)) [enriched_row]) ∧
  live_rows (fe_alerts (onmessage (Some sample_fired) opened)) [enriched_row] = [Detection.firedDetectionToAlert sample_fired].
Proof.
  assert (R : star ws_step mount (onmessage (Some sample_fired) opened)).
  { eapply star_snoc; [exact opened_star|]. by apply (ws_message 0). }
  split; [|vm_compute; reflexivity].
  apply (live_queue (onmessage (Some sample_fired) opened) [enriched_row] R).
Defined.
