(* ===== verification/AlertTable.v ===== *)
(** * The table of alerts ([components/workbench/alert-queue.tsx])

    - columns and cells, the controls of [AlertDataTable] over the table
      library's interface ([DataGrid]), row navigation;
    - [AlertQueue]: the tabs and the group of closed alerts, each with its
      table;
    - [AlertQueueLive]: the queue over the live feed ([AlertsWs]).

    The filters and the severity comparison are in [QueuePage]. *)
From S2P Require Import Prelude JsObject JsNum JsString JsValue Types AlertMappers Effects CaseRepository AlertsWs QueuePage DataGrid.

#[export] Instance column_eq : EqDecision column. Proof. solve_decision. Defined.

(** ** Columns *)

(** The eight data columns ([QueuePage.column]); [None] is the column
    ["actions"]. *)
Definition column_key (c : option column) : string :=
  match c with
  | Some ColId => "id" | Some ColSeverity => "severity" | Some ColTitle => "title" | Some ColSource => "source"
  | Some ColEntity => "entity" | Some ColTriage => "agentStatus" | Some ColConfidence => "confidence"
  | Some ColTime => "updatedAt" | None => "actions"
  end.

Definition column_size (c : option column) : Z :=
  match c with
  | Some ColId => 120 | Some ColSeverity => 96 | Some ColTitle => 320 | Some ColSource => 150 | Some ColEntity => 180
  | Some ColTriage => 170 | Some ColConfidence => 140 | Some ColTime => 130 | None => 56
  end.

(** The header's text, and whether it is a button that sorts. *)
Definition column_header (c : option column) : option (string * bool) :=
  match c with
  | Some ColId => Some ("Event ID", false)
  | Some ColSeverity => Some ("Severity", true)
  | Some ColTitle => Some ("Rule / Summary", true)
  | Some ColSource => Some ("Source", false)
  | Some ColEntity => Some ("Entity", false)
  | Some ColTriage => Some ("Triage", false)
  | Some ColConfidence => Some ("Confidence", true)
  | Some ColTime => Some ("Time", true)
  | None => None
  end.

Definition severityTone (s : Severity) : string :=
  match s with SevCritical => "critical" | SevHigh => "high" | SevMedium => "medium" | SevLow => "low" end.

Definition statusTone (s : AgentState) : string :=
  match s with
  | AgComplete => "text-signal-good" | AgRunning => "text-signal-live" | AgDegraded => "text-severity-medium"
  | AgIdle => "text-muted-foreground"
  end.

Definition triage_icon (s : AgentState) : string :=
  match s with AgComplete => "CheckCircle2" | AgRunning => "Loader2" | _ => "Bot" end.

(** [Math.round(confidence * 100)] *)
Definition rounded_percent (a : Alert) : num :=
  math_round (num_mul (al_confidence a) (of_Z 100)).

Definition or_text (s d : string) : string := if String.eqb s EmptyString then d else s.

Definition caseHref (a : Alert) : string := "/workbench/cases/" +:+ al_caseId a.

(** What each cell shows. *)
Inductive cell :=
| CellId (text title : string)
| CellSeverity (tone text : string)
| CellTitle (title summary_title summary : string) (technique : option string)
| CellSource (title source region_title region : string)
| CellEntity (title entity below : string)
| CellTriage (icon label tone : string) (spin : bool) (step verdict : string)
| CellConfidence (percent path width : string)
| CellTime (relative title absolute : string)
| CellActions (href label : string).

Section Table.
Variable formatAbsoluteTime : string → string.
Variable parse_date : string → option Z.

(** [CompactTriageCell] *)
Definition CompactTriageCell (a : Alert) : cell :=
  let status := ag_status (al_agentStatus a) in
  CellTriage (triage_icon status) (triage_label status) (statusTone status) (bool_decide (status = AgRunning))
    (ag_step (al_agentStatus a)) (formatVerdict (al_verdict a)).

(** [RelativeTime]; [now] is null before the first tick. *)
Definition RelativeTime (now : option Z) (iso : string) : cell :=
  CellTime (match now with Some n => relativeTime parse_date iso n | None => EmptyString end) iso (formatAbsoluteTime iso).

Definition id_cell (a : Alert) : cell := CellId (slice 0 12 (al_id a)) (al_id a).
Definition severity_cell (a : Alert) : cell := CellSeverity (severityTone (al_severity a)) (severity_string (al_severity a)).
Definition title_cell (a : Alert) : cell :=
  CellTitle (al_title a) (al_summary a) (or_text (al_summary a) "No summary available")
    (if String.eqb (al_technique a) EmptyString then None else Some (al_technique a)).
Definition source_cell (a : Alert) : cell :=
  CellSource (al_source a) (or_text (al_source a) "unknown") (al_region a) (or_text (al_region a) "unknown region").
Definition entity_cell (a : Alert) : cell :=
  CellEntity (al_entity a) (or_text (al_entity a) "unknown") (or_text (al_technique a) (formatPath (al_executionPath a))).
Definition confidence_cell (a : Alert) : cell :=
  CellConfidence (num_to_string (rounded_percent a) +:+ "%") (formatPath (al_executionPath a))
    (num_to_string (num_max (of_Z 3) (rounded_percent a)) +:+ "%").
Definition actions_cell (a : Alert) : cell := CellActions (caseHref a) ("Open case " +:+ al_caseId a).

Definition alert_cell (now : option Z) (c : option column) (a : Alert) : cell :=
  match c with
  | Some ColId => id_cell a
  | Some ColSeverity => severity_cell a
  | Some ColTitle => title_cell a
  | Some ColSource => source_cell a
  | Some ColEntity => entity_cell a
  | Some ColTriage => CompactTriageCell a
  | Some ColConfidence => confidence_cell a
  | Some ColTime => RelativeTime now (al_updatedAt a)
  | None => actions_cell a
  end.

Definition column_def (c : option column) : ColumnDef Alert := {|
  col_id := column_key c;
  col_size := column_size c;
  col_enableSorting := bool_decide (c ≠ None);
  col_enableHiding := bool_decide (c ≠ None);
  col_filterFn := (λ k, column_filter formatAbsoluteTime k) <$> c;
  col_sortingFn := if decide (c = Some ColSeverity) then Some by_severity else None
|}.

Definition all_columns : list (option column) :=
  Some <$> [ColId; ColSeverity; ColTitle; ColSource; ColEntity; ColTriage; ColConfidence; ColTime].
Definition columns : list (ColumnDef Alert) := column_def <$> (all_columns ++ [None]).

(** ** The table and its controls *)

Context `{TableLib}.

Definition table_mount : TableState := mkTable [] [] [] EmptyString 0 25.

(** The rows that match the filters, and those of the page. *)
Definition filtered (st : TableState) (alerts : list Alert) : list (GridRow Alert) :=
  matching columns alertGlobalFilter st alerts.
Definition pageRows (st : TableState) (alerts : list Alert) : list (GridRow Alert) :=
  shown_rows columns alertGlobalFilter st alerts.
Definition filteredCount (st : TableState) (alerts : list Alert) : nat := length (filtered st alerts).

(** The three filter inputs of the toolbar. *)
Inductive filter_input := FilterEntity | FilterSource | FilterSeverity.
Definition input_column (f : filter_input) : column :=
  match f with FilterEntity => ColEntity | FilterSource => ColSource | FilterSeverity => ColSeverity end.

Inductive table_event :=
| Search (value : string)
| FilterBy (f : filter_input) (value : string)
| ClickHeader (c : option column)
| ToggleColumn (c : option column) (value : bool)
| FirstPage | PreviousPage | NextPage | LastPage.

(** A header button: [toggleSorting(getIsSorted() === "asc")]. *)
Definition click_header (c : option column) (st : TableState) : TableState :=
  match column_header c with
  | Some (_, true) => autoReset (toggleSorting (column_key c) (bool_decide (getIsSorted (column_key c) st = Some false)) st)
  | _ => st
  end.

(** The controls. The library goes back to the first page when the filters
    or the order change; a disabled button does nothing; only the columns
    that can be hidden are in the menu. *)
Definition table_handle (alerts : list Alert) (e : table_event) (st : TableState) : TableState :=
  let n := filteredCount st alerts in
  match e with
  | Search v => autoReset (set_globalFilter v st)
  | FilterBy f v => autoReset (setFilterValue (column_key (Some (input_column f))) v st)
  | ClickHeader c => click_header c st
  | ToggleColumn c v => if col_enableHiding (column_def c) then toggleVisibility (column_key c) v st else st
  | FirstPage => if getCanPreviousPage st then setPageIndex 0 st else st
  | PreviousPage => if getCanPreviousPage st then setPageIndex (pageIndex st - 1) st else st
  | NextPage => if getCanNextPage st n then setPageIndex (pageIndex st + 1) st else st
  | LastPage => if getCanNextPage st n then setPageIndex (getPageCount st n - 1) st else st
  end.

Definition plural_rows (n : nat) : string :=
  string_of_Z (Z.of_nat n) +:+ " row" +:+ (if (n =? 1)%nat then EmptyString else "s").

Definition page_label (st : TableState) (n : nat) : string :=
  "Page " +:+ string_of_Z (pageIndex st + 1) +:+ " of " +:+
  string_of_Z (if getPageCount st n =? 0 then 1 else getPageCount st n).

Definition visible_columns (st : TableState) : list (option column) :=
  List.filter (λ c, getIsVisible (column_key c) st) (all_columns ++ [None]).

(** The body of the table: a message when the page has no rows. *)
Definition table_body (now : option Z) (st : TableState) (alerts : list Alert) : list (list cell) + string :=
  match pageRows st alerts with
  | [] => inr "No alerts in this state."
  | rows => inl ((λ r, (λ c, alert_cell now c r.2) <$> visible_columns st) <$> rows)
  end.

(** *** Rows *)

Inductive row_event := RowHover | RowClick | RowKey (key : string) | LinkClick.
Inductive navigation := Prefetch (href : string) | Push (href : string) | Follow (href : string).

(** What the browser does for an event on the row of an alert; a click on the
    link of the last column does not reach the row. *)
Definition row_handle (a : Alert) (e : row_event) : list navigation :=
  match e with
  | RowHover => [Prefetch (caseHref a)]
  | RowClick => [Push (caseHref a)]
  | RowKey key => if String.eqb key "Enter" || String.eqb key " " then [Push (caseHref a)] else []
  | LinkClick => [Follow (caseHref a)]
  end.

(** ** The queue *)

Definition autoClosedAlerts (alerts : list Alert) : list Alert := in_state AutoClosed alerts.

(** The state of [AlertQueue] over its prop [alerts]: the active tab, the
    flag of the closed group, the table of the tab, and the table of the
    group while it is mounted. *)
Record queue := mkQueue {
  qu_alerts : list Alert;
  qu_active : QueueTabState;
  qu_open : bool;
  qu_table : TableState;
  qu_closed : option TableState
}.

(** What the group renders after a change: its table is mounted while it is
    open and has alerts. Every rendering gives the tables new arrays. *)
Definition queue_render (alerts : list Alert) (active : QueueTabState) (open_ : bool) (table : TableState)
    (closed : option TableState) : queue :=
  mkQueue alerts active open_ (autoReset table)
    (if open_ && bool_decide (autoClosedAlerts alerts ≠ []) then Some (from_option autoReset table_mount closed) else None).

Definition queue_mount (alerts : list Alert) : queue := mkQueue alerts TabAwaiting false table_mount None.

#[export] Instance QueueTabState_eq : EqDecision QueueTabState. Proof. solve_decision. Defined.

Inductive queue_event :=
| ClickTab (t : QueueTabState)
| ClickGroup
| NewAlerts (alerts : list Alert)     (** the parent renders *)
| OnTable (e : table_event)
| OnClosed (e : table_event).

Definition queue_handle (e : queue_event) (q : queue) : queue :=
  match e with
  | ClickTab t => if decide (t = qu_active q) then q
                  else queue_render (qu_alerts q) t (qu_open q) (qu_table q) (qu_closed q)
  | ClickGroup => queue_render (qu_alerts q) (qu_active q) (negb (qu_open q)) (qu_table q) (qu_closed q)
  | NewAlerts alerts => queue_render alerts (qu_active q) (qu_open q) (qu_table q) (qu_closed q)
  | OnTable e => mkQueue (qu_alerts q) (qu_active q) (qu_open q)
                   (table_handle (filteredAlerts (qu_active q) (qu_alerts q)) e (qu_table q)) (qu_closed q)
  | OnClosed e => mkQueue (qu_alerts q) (qu_active q) (qu_open q) (qu_table q)
                    (table_handle (autoClosedAlerts (qu_alerts q)) e <$> qu_closed q)
  end.

Definition tab_label (t : QueueTabState) : string :=
  match t with TabInFlight => "In Flight" | TabAwaiting => "Awaiting Review" end.

(** The buttons of the tabs: label, count and whether it is the active one. *)
Definition tab_buttons (q : queue) : list (string * nat * bool) :=
  (λ t, (tab_label t, tab_counts t (qu_alerts q), bool_decide (qu_active q = t))) <$> [TabInFlight; TabAwaiting].

Definition group_label (q : queue) : option string :=
  match autoClosedAlerts (qu_alerts q) with
  | [] => None
  | l => Some ("Auto-closed (" +:+ string_of_Z (Z.of_nat (length l)) +:+ ")")
  end.

(** ** The live queue *)

Definition ws_label (s : WsStatus) : string :=
  match s with
  | WsConnected => "Live — WebSocket connected" | WsConnecting => "Connecting…" | WsDisconnected => "Reconnecting…"
  end.

Definition alerts_label (n : nat) : string :=
  string_of_Z (Z.of_nat n) +:+ " alert" +:+ (if (n =? 1)%nat then EmptyString else "s").

(** [AlertQueueLive]: the feed and the queue, over the page's alerts. *)
Record live_view := mkLive { lv_feed : feed; lv_queue : queue }.

Definition live_mount (initialAlerts : list Alert) : live_view :=
  mkLive AlertsWs.mount (queue_mount (live_rows (fe_alerts AlertsWs.mount) initialAlerts)).

(** A change of the alerts or of the status renders the queue;
    [initialAlerts] is the page's prop. *)
Inductive live_step (initialAlerts : list Alert) : live_view → live_view → Prop :=
| live_ws f f' q :
    ws_step f f' → fe_mounted f' = true → (fe_alerts f', fe_status f') ≠ (fe_alerts f, fe_status f) →
    live_step initialAlerts (mkLive f q) (mkLive f' (queue_handle (NewAlerts (live_rows (fe_alerts f') initialAlerts)) q))
| live_ws_same f f' q :
    ws_step f f' → fe_mounted f' = true → (fe_alerts f', fe_status f') = (fe_alerts f, fe_status f) →
    live_step initialAlerts (mkLive f q) (mkLive f' q)
| live_user f q e :
    (∀ alerts, e ≠ NewAlerts alerts) → live_step initialAlerts (mkLive f q) (mkLive f (queue_handle e q)).

Definition live_header (l : live_view) : string * string :=
  (ws_label (fe_status (lv_feed l)), alerts_label (length (qu_alerts (lv_queue l)))).

(** ** Facts *)

Context `{!TableLaws}.

(** What holds of a table's state whatever its data. *)
Record table_wf (st : TableState) : Prop := {
  tw_size : pageSize st = 25;
  tw_sorting : (length (sorting st) ≤ 1)%nat;
  tw_inputs : ∀ c, c ∉ Some ∘ input_column <$> [FilterEntity; FilterSource; FilterSeverity] → filter_text (column_key c) st = EmptyString
}.

Definition table_ok (st : TableState) (alerts : list Alert) : Prop := table_wf st ∧ page_ok st (filteredCount st alerts).

Lemma columns_NoDup : NoDup (col_id <$> columns).
Proof. vm_compute. repeat constructor; set_solver. Qed.

Lemma by_severity_consistent : consistent by_severity.
Proof. split; intros; unfold by_severity in *; lia. Qed.

Lemma data_column_in c : column_def (Some c) ∈ columns.
Proof. destruct c; repeat (left || right). Qed.

#[export] Instance column_key_inj : Inj (=) (=) column_key.
Proof. intros [[]|] [[]|]; simpl; congruence. Qed.

Lemma tw_known st : table_wf st → filters_known columns st.
Proof.
  intros W c Hc N. unfold columns in Hc. apply list_elem_of_fmap in Hc as (k & -> & _). destruct k as [k|]; [done|].
  apply (tw_inputs _ W). simpl. set_solver.
Qed.

(** The texts of the inputs are kept by what does not set them. *)
Lemma table_wf_frame st st' :
  table_wf st → columnFilters st = columnFilters st' → pageSize st' = pageSize st → (length (sorting st') ≤ 1)%nat → table_wf st'.
Proof.
  intros [W1 W2 W3] E1 E2 E3. split; [congruence|done|]. intros c Hc. rewrite <- (filter_text_frame _ st) by done. by apply W3.
Qed.

Lemma table_mount_wf : table_wf table_mount.
Proof.
  split; [done|simpl; lia|]. intros c _. unfold filter_text. by rewrite getFilterValue_spec.
Qed.

Lemma autoReset_ok st alerts : table_wf st → table_ok (autoReset st) alerts.
Proof.
  rewrite autoReset_spec. intros W. split.
  - apply (table_wf_frame st); by destruct W.
  - split; simpl; [rewrite (tw_size _ W); lia|]. split; [lia|by left].
Qed.

Lemma table_mount_ok alerts : table_ok table_mount alerts.
Proof. split; [apply table_mount_wf|]. split; simpl; [lia|]. split; [lia|by left]. Qed.

(** A change that keeps filters and page size keeps the count. *)
Lemma filteredCount_frame st st' alerts :
  columnFilters st = columnFilters st' → globalFilter st = globalFilter st' → filters_known columns st →
  filteredCount st alerts = filteredCount st' alerts.
Proof. intros E1 E2 K. unfold filteredCount, filtered. by rewrite (matching_frame columns alertGlobalFilter st st' alerts E1 E2 K). Qed.

Lemma table_ok_page st alerts i :
  table_wf st → 0 <= i → i = 0 ∨ i < getPageCount st (filteredCount st alerts) → table_ok (set_pageIndex i st) alerts.
Proof.
  intros W Hi Hp. split; [apply (table_wf_frame st); by destruct W|].
  rewrite <- (filteredCount_frame st) by (done || by apply tw_known). split; simpl; [rewrite (tw_size _ W); lia|]. by split.
Qed.

Lemma table_handle_ok e st alerts : table_ok st alerts → table_ok (table_handle alerts e st) alerts.
Proof.
  intros [W (P1 & P2 & P3)]. pose proof W as [W1 W2 W3].
  destruct e as [v|f v|c|c v| | | |]; simpl.
  - apply autoReset_ok. by apply (table_wf_frame st).
  - apply autoReset_ok. split; [by rewrite setFilterValue_spec|by rewrite setFilterValue_spec|].
    intros c Hc. rewrite filter_text_other; [by apply W3|]. intros E. apply (inj column_key c (Some (input_column f))) in E. subst c. apply Hc. destruct f; set_solver.
  - unfold click_header. destruct (column_header c) as [[h []]|]; [|by split|by split].
    apply autoReset_ok. rewrite toggleSorting_spec by done. apply (table_wf_frame st); [done..|simpl; lia].
  - case_bool_decide; [|by split]. rewrite toggleVisibility_spec.
    split; [by apply (table_wf_frame st)|]. rewrite <- (filteredCount_frame st) by (done || by apply tw_known). done.
  - unfold getCanPreviousPage. case_match; [|by split]. rewrite setPageIndex_spec. apply table_ok_page; [done|lia|by left].
  - unfold getCanPreviousPage. destruct (Z.ltb_spec 0 (pageIndex st)); [|by split]. rewrite setPageIndex_spec.
    apply table_ok_page; [done|lia|lia].
  - unfold getCanNextPage. destruct (Z.ltb_spec (pageIndex st) (getPageCount st (filteredCount st alerts) - 1)); [|by split].
    rewrite setPageIndex_spec. apply table_ok_page; [done|lia|lia].
  - unfold getCanNextPage. destruct (Z.ltb_spec (pageIndex st) (getPageCount st (filteredCount st alerts) - 1)); [|by split].
    rewrite setPageIndex_spec. apply table_ok_page; [done|lia|lia].
Qed.

(** An alert is in a table when it has the text searched for in one of its
    fields, and the texts of the three inputs, letter case aside. *)
Definition alert_matches (st : TableState) (a : Alert) : bool :=
  let text f := to_lower (filter_text (column_key (Some (input_column f))) st) in
  alertGlobalFilter (globalFilter st) a && has_text (text FilterEntity) (al_entity a) &&
  (has_text (text FilterSource) (al_source a) || has_text (text FilterSource) (al_region a)) &&
  has_text (text FilterSeverity) (severity_string (al_severity a)).

Lemma has_text_empty s : has_text EmptyString s = true.
Proof. unfold has_text. apply includes_spec. by exists EmptyString, (to_lower s). Qed.

Lemma empty_or v b : (to_lower v = EmptyString → b = true) → String.eqb v EmptyString || b = b.
Proof. destruct (String.eqb_spec v EmptyString) as [->|]; [|done]. intros Hb. by rewrite Hb. Qed.

Lemma passes_matches st a : table_wf st → passes columns alertGlobalFilter st a = alert_matches st a.
Proof.
  intros W. unfold passes, alert_matches.
  assert (G : String.eqb (globalFilter st) EmptyString || alertGlobalFilter (globalFilter st) a = alertGlobalFilter (globalFilter st) a).
  { apply empty_or. intros E. unfold alertGlobalFilter. by rewrite E. }
  rewrite G, <- !andb_assoc. f_equal. clear G.
  assert (P : ∀ k, k ≠ ColEntity → k ≠ ColSource → k ≠ ColSeverity → passes_column st a (column_def (Some k)) = true).
  { intros k N1 N2 N3. change (passes_column st a (column_def (Some k))) with (String.eqb (filter_text (column_key (Some k)) st) EmptyString || column_filter formatAbsoluteTime k (filter_text (column_key (Some k)) st) a).
    rewrite (tw_inputs _ W (Some k)); [done|]. simpl. set_solver. }
  assert (Q : ∀ k, k = ColEntity ∨ k = ColSource ∨ k = ColSeverity → passes_column st a (column_def (Some k)) =
    column_filter formatAbsoluteTime k (filter_text (column_key (Some k)) st) a).
  { intros k Hk. change (passes_column st a (column_def (Some k))) with (String.eqb (filter_text (column_key (Some k)) st) EmptyString || column_filter formatAbsoluteTime k (filter_text (column_key (Some k)) st) a).
    apply empty_or. intros E.
    destruct Hk as [->|[->| ->]]; unfold column_filter; rewrite E, ?has_text_empty; done. }
  assert (L : columns = column_def <$> [Some ColId; Some ColSeverity; Some ColTitle; Some ColSource; Some ColEntity; Some ColTriage;
                                      Some ColConfidence; Some ColTime; None]) by done.
  rewrite L. cbn [fmap list_fmap forallb].
  rewrite (P ColId), (P ColTitle), (P ColTriage), (P ColConfidence), (P ColTime), (Q ColSource), (Q ColEntity), (Q ColSeverity) by (done || auto).
  change (passes_column st a (column_def None)) with true. cbn [column_filter input_column].
  repeat match goal with |- context [has_text ?q ?f] => destruct (has_text q f) end; done.
Qed.

(** ** What the tables show *)

Lemma alert_pages_elem st alerts i a :
  table_wf st → (i, a) ∈ filtered st alerts ↔ alerts !! i = Some a ∧ alert_matches st a = true.
Proof.
  intros W. unfold filtered. rewrite matching_elem by (by apply tw_known). by rewrite passes_matches.
Qed.

Definition all_pages (st : TableState) (alerts : list Alert) : list (GridRow Alert) :=
  concat ((λ k, pageRows (set_pageIndex (Z.of_nat k) st) alerts) <$> seq 0 (Z.to_nat (getPageCount st (filteredCount st alerts)))).

Lemma all_pages_sorted st alerts : table_wf st → all_pages st alerts = getSortedRows columns st (filtered st alerts).
Proof. intros W. apply pages_matching; [rewrite (tw_size _ W); lia|by apply tw_known]. Qed.

(** A table in order: its pages hold each matching alert of its data once,
    the page shown is one of them, and the message stands for no match. *)
Lemma table_shows now st alerts :
  table_ok st alerts →
  let n := filteredCount st alerts in
  (∀ i a, (i, a) ∈ all_pages st alerts ↔ alerts !! i = Some a ∧ alert_matches st a = true) ∧
  NoDup (all_pages st alerts) ∧
  (∀ r, r ∈ pageRows st alerts → r ∈ all_pages st alerts) ∧
  (table_body now st alerts = inr "No alerts in this state." ↔ ∀ a, a ∈ alerts → alert_matches st a = false) ∧
  1 <= pageIndex st + 1 <= Z.max 1 (getPageCount st n).
Proof.
  intros [W P] n. rewrite all_pages_sorted by done.
  assert (Hp : getSortedRows columns st (filtered st alerts) ≡ₚ filtered st alerts) by apply getSortedRows_perm.
  pose proof P as (P1 & P2 & P3). splits.
  - intros i a. rewrite Hp. by apply alert_pages_elem.
  - rewrite Hp. apply matching_NoDup. by apply tw_known.
  - intros r Hr. rewrite Hp. by apply (shown_rows_matching columns alertGlobalFilter st alerts).
  - pose proof (shown_rows_length columns alertGlobalFilter st alerts P) as [_ E]. fold (pageRows st alerts) in E.
    assert (B : table_body now st alerts = inr "No alerts in this state." ↔ pageRows st alerts = []).
    { unfold table_body. destruct (pageRows st alerts); split; intros; congruence. }
    rewrite B, E. rewrite length_zero_iff_nil. split.
    + intros Hn a [i Hi]%list_elem_of_lookup. destruct (alert_matches st a) eqn:M; [|done].
      assert (Hx : (i, a) ∈ filtered st alerts) by (by apply alert_pages_elem).
      unfold filtered in Hx. rewrite Hn in Hx. by apply elem_of_nil in Hx.
    + intros Hall. destruct (matching _ _ _ _) as [|[i a] l] eqn:M; [done|].
      assert (Hx : (i, a) ∈ filtered st alerts) by (unfold filtered; rewrite M; left).
      apply alert_pages_elem in Hx as [Hi Hm]; [|done]. rewrite Hall in Hm; [done|]. by eapply list_elem_of_lookup_2.
  - unfold n. lia.
  - unfold n. lia.
Qed.
(** *** The queue *)

Definition queue_ok (q : queue) : Prop :=
  table_ok (qu_table q) (filteredAlerts (qu_active q) (qu_alerts q)) ∧
  (∀ st, qu_closed q = Some st → table_ok st (autoClosedAlerts (qu_alerts q))) ∧
  (is_Some (qu_closed q) ↔ qu_open q = true ∧ autoClosedAlerts (qu_alerts q) ≠ []).

Lemma queue_mount_ok alerts : queue_ok (queue_mount alerts).
Proof. split; [apply table_mount_ok|]. split; [done|]. split; [by intros []|by intros []]. Qed.

Lemma queue_render_ok alerts active open_ table closed :
  table_wf table → (∀ st, closed = Some st → table_wf st) → queue_ok (queue_render alerts active open_ table closed).
Proof.
  intros W Wc. unfold queue_render. split; [by apply autoReset_ok|]. simpl. split.
  - intros st. destruct (open_ && _); [|done]. intros [= <-].
    destruct closed as [c|]; simpl; [apply autoReset_ok; by apply Wc|apply table_mount_ok].
  - destruct open_; simpl; [|by split; [intros []|intros []]]. case_bool_decide; split; [done|by intros _|by intros []|by intros []].
Qed.

Lemma queue_handle_ok e q : queue_ok q → queue_ok (queue_handle e q).
Proof.
  intros Q. pose proof Q as (Q1 & Q2 & Q3). assert (W : table_wf (qu_table q)) by apply Q1.
  assert (Wc : ∀ st, qu_closed q = Some st → table_wf st) by (intros st E; by apply Q2).
  destruct e as [t| |alerts|e|e]; simpl; [case_decide; [done|by apply queue_render_ok]|by apply queue_render_ok|by apply queue_render_ok|..].
  - split; [by apply table_handle_ok|done].
  - split; [done|]. simpl. split; [|by rewrite fmap_is_Some].
    intros st. destruct (qu_closed q) as [c|]; [|done]. intros [= <-]. apply table_handle_ok. by apply Q2.
Qed.

(** Every alert is in the table of its state: one of the two tabs or the
    group of closed alerts. *)
Lemma alert_somewhere a alerts :
  a ∈ alerts → (∃ t, a ∈ filteredAlerts t alerts) ∨ a ∈ autoClosedAlerts alerts.
Proof.
  intros Ha. unfold filteredAlerts, autoClosedAlerts, in_state, not_closed.
  destruct (al_state a) eqn:E; [left; exists TabInFlight|left; exists TabAwaiting|right]; rewrite ?list_elem_of_filter; simpl;
    rewrite E; done.
Qed.

Lemma tab_elem t alerts a : a ∈ filteredAlerts t alerts ↔ a ∈ alerts ∧ al_state a = tab_state t.
Proof.
  unfold filteredAlerts, in_state, not_closed. rewrite !list_elem_of_filter. split; [tauto|]. intros [Ha E]. rewrite E.
  splits; [done|by destruct t|done].
Qed.

(** *** The live queue *)

Lemma live_reachable initialAlerts l :
  star (live_step initialAlerts) (live_mount initialAlerts) l →
  star ws_step AlertsWs.mount (lv_feed l) ∧ qu_alerts (lv_queue l) = live_rows (fe_alerts (lv_feed l)) initialAlerts ∧ queue_ok (lv_queue l).
Proof.
  intros R. refine (star_invariant _ (λ l, star ws_step AlertsWs.mount (lv_feed l) ∧
    qu_alerts (lv_queue l) = live_rows (fe_alerts (lv_feed l)) initialAlerts ∧ queue_ok (lv_queue l)) _ _ _ _ R).
  - split; [constructor|]. split; [done|apply queue_mount_ok].
  - intros x y (Rf & Ha & Q) S. destruct S as [f f' q Hs _ _|f f' q Hs _ E|f q e Hne]; simpl in *.
    + split; [by eapply star_snoc|]. split; [done|by apply (queue_handle_ok (NewAlerts _))].
    + injection E as E _. split; [by eapply star_snoc|]. by rewrite E.
    + split; [done|]. split; [|by apply queue_handle_ok]. rewrite <- Ha.
      destruct e; simpl; [by case_decide|done|by destruct (Hne alerts)|done|done].
Qed.
Lemma all_pages_ids st alerts : table_wf st → NoDup (al_id <$> alerts) → NoDup (al_id ∘ snd <$> all_pages st alerts).
Proof.
  intros W N. rewrite all_pages_sorted by done. rewrite (getSortedRows_perm columns st _). unfold filtered.
  rewrite list_fmap_compose. eapply sublist_NoDup; [exact N|]. apply fmap_sublist. apply matching_sublist. by apply tw_known.
Qed.

Lemma tab_ids t alerts : NoDup (al_id <$> alerts) → NoDup (al_id <$> filteredAlerts t alerts).
Proof.
  intros N. eapply sublist_NoDup; [exact N|]. apply fmap_sublist. unfold filteredAlerts, in_state, not_closed.
  etrans; apply sublist_filter.
Qed.

(** C32: the live queue. Whatever the socket delivers and whatever the
    analyst clicks and types, in any order: the table of the active tab holds,
    over its pages, exactly the rows of that tab's state among the feed's and
    the server's that match the texts entered, one per alert id also when
    several of the server's rows have one id; the page
    shown is one of these pages, its number is within the count beside it, and
    the message that there are no alerts is shown exactly when no row of the
    tab matches. Every alert of the feed awaits review, so it is in that tab
    even when the server has it running. *)
Theorem live_table now initialAlerts l :
  star (live_step initialAlerts) (live_mount initialAlerts) l →
  let rows := live_rows (fe_alerts (lv_feed l)) initialAlerts in
  let q := lv_queue l in let st := qu_table q in let data := filteredAlerts (qu_active q) rows in
  (∀ a, a ∈ snd <$> all_pages st data ↔ a ∈ rows ∧ al_state a = tab_state (qu_active q) ∧ alert_matches st a = true) ∧
  NoDup (al_id ∘ snd <$> all_pages st data) ∧
  (∀ r, r ∈ pageRows st data → r ∈ all_pages st data) ∧
  1 <= pageIndex st + 1 <= Z.max 1 (getPageCount st (filteredCount st data)) ∧
  (table_body now st data = inr "No alerts in this state." ↔ ∀ a, a ∈ data → alert_matches st a = false) ∧
  (∀ i, i ∈ al_id <$> fe_alerts (lv_feed l) → i ∈ al_id <$> filteredAlerts TabAwaiting rows).
Proof.
  intros R rows q st data. destruct (live_reachable initialAlerts l R) as (Rf & Ha & Q & _).
  fold rows q in Ha. fold q in Q. rewrite Ha in Q. fold data st in Q.
  destruct (live_queue _ initialAlerts Rf) as (Nr & Hids & Hfeed & _).
  destruct (table_shows now _ _ Q) as (E1 & _ & E3 & E4 & E5). splits.
  - intros a. rewrite list_elem_of_fmap. split.
    + intros ([i b] & -> & [Hi Hm]%E1). apply list_elem_of_lookup_2 in Hi. apply tab_elem in Hi. tauto.
    + intros (Hr & Hs & Hm). assert (Hd : a ∈ data) by (by apply tab_elem). apply list_elem_of_lookup in Hd as [i Hi].
      exists (i, a). split; [done|]. by apply E1.
  - apply all_pages_ids; [apply Q|by apply tab_ids].
  - exact E3.
  - lia.
  - lia.
  - exact E4.
  - intros i Hi. assert (Hr : i ∈ al_id <$> rows) by (apply Hids; by left). apply list_elem_of_fmap in Hr as (a & -> & Hr).
    apply list_elem_of_fmap. exists a. split; [done|]. apply tab_elem. split; [done|]. by apply (Hfeed a Hr Hi).
Qed.

(** A click on the header of the severities orders all pages by severity, the
    most severe first, or last when they were first; it keeps the rows, goes
    back to the first page and never returns to the order of arrival. *)
Theorem severity_header st alerts :
  table_ok st alerts →
  let desc := bool_decide (getIsSorted "severity" st = Some false) in
  let st' := table_handle alerts (ClickHeader (Some ColSeverity)) st in
  getIsSorted "severity" st' = Some desc ∧ pageIndex st' = 0 ∧ all_pages st' alerts ≡ₚ all_pages st alerts ∧
  StronglySorted (in_order by_severity desc) (all_pages st' alerts).
Proof.
  intros T desc st'. pose proof (table_handle_ok (ClickHeader (Some ColSeverity)) st alerts T) as [W' _]. fold st' in W'.
  destruct T as [W _]. assert (E : st' = set_pageIndex 0 (set_sorting [("severity", desc)] st)).
  { unfold st', table_handle, click_header. simpl column_header. cbv iota. rewrite autoReset_spec, toggleSorting_spec by apply W. done. }
  assert (F : filtered st' alerts = filtered st alerts).
  { rewrite E. apply matching_frame; [done..|]. by apply (filters_known_frame columns st); [|apply tw_known]. }
  rewrite !all_pages_sorted by done. rewrite F. splits.
  - rewrite getIsSorted_spec, E. done.
  - by rewrite E.
  - by rewrite !(getSortedRows_perm columns _ _).
  - apply (getSortedRows_order columns st' _ (column_def (Some ColSeverity)));
      [apply columns_NoDup|apply data_column_in|done|apply by_severity_consistent|by rewrite E].
Qed.
End Table.

(** ** Witnesses *)

Definition feed_live : feed := onmessage (Some sample_fired) opened.

(** Two rules fired on one event: the server sends two rows with its id. *)
Definition initial_rows : list Alert := [enriched_row; row_of (getCase sample_db) second_rule].

(** The feed opens and delivers a detection, then the analyst searches for
    its actor. *)
Definition sample_live : live_view :=
  let q0 := queue_mount initial_rows in
  let q1 := queue_handle (λ s, s) (NewAlerts (live_rows (fe_alerts opened) initial_rows)) q0 in
  let q2 := queue_handle (λ s, s) (NewAlerts (live_rows (fe_alerts feed_live) initial_rows)) q1 in
  mkLive feed_live (queue_handle (λ s, s) (OnTable (Search "BOB")) q2).

Lemma sample_live_star : star (live_step (λ s, s) initial_rows) (live_mount initial_rows) sample_live.
Proof.
  eapply star_snoc; [eapply star_snoc; [eapply star_snoc; [apply star_refl|]|]|].
  - apply (live_ws _ _ _ (onopen 0 AlertsWs.mount)); [by constructor|done|done].
  - apply (live_ws _ _ _ feed_live); [by apply (ws_message 0)|done|done].
  - by apply (live_user _ _ _ _ (OnTable (Search "BOB"))).
Qed.

Lemma live_table_witness :
  al_id <$> (snd <$> all_pages (λ s, s) (qu_table (lv_queue sample_live))
    (filteredAlerts TabAwaiting (live_rows (fe_alerts feed_live) initial_rows))) = ["c1"] ∧
  NoDup (al_id ∘ snd <$> all_pages (λ s, s) (qu_table (lv_queue sample_live))
    (filteredAlerts TabAwaiting (live_rows (fe_alerts feed_live) initial_rows))).
Proof.
  split; [vm_compute; reflexivity|].
  exact (proj1 (proj2 (live_table (λ s, s) (λ _, None) None initial_rows sample_live sample_live_star))).
Defined.
