(* ===== verification/CasePage.v ===== *)
(** * The case page ([app/workbench/cases/[id]/page.tsx])

    The server component that opens a case: it reads the live event and the
    stored snapshot, decides what to show, and refreshes the snapshot when
    the event is new.  A failing snapshot read counts as no snapshot. *)
From S2P Require Import Prelude JsObject JsNum JsString JsValue Types Effects CaseRepository.

Open Scope eff_scope.

(** What is rendered: the investigation view, or the view that falls back on
    the browser's own store. *)
Inductive page := Investigation (event baseline : jsval) | StoreFallback.

(** The page and the snapshot to write, [(event, baseline)], if any. *)
Record page_result := mkPage { pg_page : page; pg_upsert : option (jsval * jsval) }.

Section CasePage.
Variable CP_URL : string.

Definition live_event_request (id : string) : request :=
  with_timeout 2000 (get_req (CP_URL +:+ "/v1/events/recent?id=" +:+ encode_uri_component id)).

Definition live_baseline_request (username : string) : request :=
  with_timeout 1500 (get_req (CP_URL +:+ "/v1/baselines/user/" +:+ encode_uri_component username)).

(** [return res.json()] leaves the [try] block before the promise settles,
    so only the request itself is guarded. *)
Definition fetch_guarded (rq : request) : M jsval :=
  let! r := attempt (fetch rq) in
  match r with
  | Throw _ => ret JNull
  | Ok res => if ft_ok res then read_json res else ret JNull
  end.

Definition fetchEvent (id : string) : M jsval := fetch_guarded (live_event_request id).
Definition fetchBaseline (username : string) : M jsval := fetch_guarded (live_baseline_request username).

Definition event_unchanged (persisted : option CaseRow) (liveEvent : jsval) : bool :=
  match persisted with
  | Some row =>
      match prop "event_id" (cw_event row) with
      | JUndef => false
      | i => String.eqb (to_string i) (to_string (prop "event_id" liveEvent))
      end
  | None => false
  end.

Definition casePage (persisted : option CaseRow) (id : string) : M page_result :=
  let! liveEvent := fetchEvent id in
  if negb (truthy liveEvent) then
    ret (match persisted with
         | Some row => if truthy (cw_event row)
                       then mkPage (Investigation (cw_event row) (cw_baseline row)) None
                       else mkPage StoreFallback None
         | None => mkPage StoreFallback None
         end)
  else
    let unchanged := event_unchanged persisted liveEvent in
    let! liveBaseline :=
      (if unchanged then ret (nullish (match persisted with Some row => cw_baseline row | None => JUndef end) JNull)
       else if truthy (prop "actor_user_name" liveEvent)
            then fetchBaseline (to_string (prop "actor_user_name" liveEvent))
            else ret JNull) in
    ret (mkPage (Investigation liveEvent liveBaseline)
           (if unchanged then None else Some (liveEvent, liveBaseline))).
End CasePage.

(** The snapshot written by a visit. *)
Definition after_visit {Db} `{CaseTables Db} (now : Z) (id : string) (p : page_result) (d : Db) : Db :=
  match pg_upsert p with
  | Some (event, baseline) => upsertCaseSnapshot now now now id None event baseline JUndef d
  | None => d
  end.

Section Facts.
Context {Db : Type} `{CaseTablesLaws Db}.
Variable CP_URL : string.

Lemma upsert_snapshot n1 n2 n3 c t ev b de (d : Db) :
  ∃ r, getCase (upsertCaseSnapshot n1 n2 n3 c t ev b de d) c = Some r ∧ cw_event r = ev ∧
       cw_baseline r = nullish b JNull.
Proof.
  unfold getCase, upsertCaseSnapshot. destruct (db_case d c) as [r0|] eqn:E.
  - erewrite insert_case_conflict; [|exact E|done]. rewrite decide_True by done. by eexists.
  - rewrite insert_case_new by done. rewrite decide_True by done. by eexists.
Qed.

Lemma fetch_guarded_ok rq w l r v :
  env_fetch w (length l) rq = Ok r → ft_ok r = true → ft_json r = Some v →
  fetch_guarded rq w l = (Ok v, l ++ [EFetch rq]).
Proof.
  intros Ef Hok Hj. unfold fetch_guarded, bind, attempt, fetch. rewrite Ef, Hok.
  unfold read_json. by rewrite Hj.
Qed.

Lemma nullish_idem b : nullish (nullish b JNull) JNull = nullish b JNull.
Proof. by destruct b. Qed.

(** Visiting a case twice writes once. After a visit that stored the
    live event, a second visit that sees an event with the same, defined,
    id sends only the event request, asks for no baseline, writes nothing,
    and shows the event with the baseline stored by the first visit. *)
Theorem casePage_revisit now id (d : Db) p event baseline ev2 w2 r2 :
  pg_upsert p = Some (event, baseline) →
  prop "event_id" event ≠ JUndef → prop "event_id" ev2 = prop "event_id" event → truthy ev2 = true →
  env_fetch w2 0 (live_event_request CP_URL id) = Ok r2 → ft_ok r2 = true → ft_json r2 = Some ev2 →
  casePage CP_URL (getCase (after_visit now id p d) id) id w2 [] =
    (Ok (mkPage (Investigation ev2 (nullish baseline JNull)) None), [EFetch (live_event_request CP_URL id)]).
Proof.
  intros Hp Hid Heq Ht Ef Hok Hj. unfold after_visit. rewrite Hp.
  destruct (upsert_snapshot now now now id None event baseline JUndef d) as (row & -> & He & Hb).
  assert (Hu : event_unchanged (Some row) ev2 = true).
  { simpl. rewrite He, Heq. destruct (prop "event_id" event); try done; apply String.eqb_refl. }
  unfold casePage, fetchEvent.
  rewrite (bind_ok _ _ _ _ _ _ (fetch_guarded_ok _ w2 [] r2 ev2 Ef Hok Hj)), Ht, Hu, Hb, nullish_idem. done.
Qed.
End Facts.

Definition sample_event : jsval := JObj [("event_id", JStr "c1"); ("actor_user_name", JStr "bob")].

Definition event_service : env := mkEnv (λ _ _, Ok (mkFetched 200 (Some sample_event) EmptyString)) (λ _, 0).

(** The first visit of a case whose event is live. *)
Definition first_visit : page_result :=
  match run (casePage "http://cp" (getCase sample_db "c9") "c9") event_service with
  | (Ok p, _) => p
  | _ => mkPage StoreFallback None
  end.

Lemma casePage_revisit_witness :
  pg_upsert first_visit = Some (sample_event, sample_event) ∧
  casePage "http://cp" (getCase (after_visit 5 "c9" first_visit sample_db) "c9") "c9" event_service [] =
    (Ok (mkPage (Investigation sample_event sample_event) None), [EFetch (live_event_request "http://cp" "c9")]).
Proof.
  assert (Hp : pg_upsert first_visit = Some (sample_event, sample_event)) by (vm_compute; reflexivity).
  split; [exact Hp|].
  apply (casePage_revisit "http://cp" 5 "c9" sample_db first_visit sample_event sample_event sample_event event_service
           (mkFetched 200 (Some sample_event) EmptyString) Hp); try reflexivity.
  discriminate.
Defined.

(** A page opened on a malformed answer. [fetchEvent] guards the request
    but not the reading of its body, so an answer with status 200 whose body
    is not JSON rejects the whole page, although a stored snapshot could
    have been shown. *)
Theorem casePage_malformed_event CP_URL persisted id w r :
  env_fetch w 0 (live_event_request CP_URL id) = Ok r → ft_ok r = true → ft_json r = None →
  (run (casePage CP_URL persisted id) w).1 = Throw json_error.
Proof.
  intros Ef Hok Hj. unfold run, casePage, fetchEvent, fetch_guarded, bind, attempt, fetch. cbn [length].
  rewrite Ef, Hok. unfold read_json. by rewrite Hj.
Qed.

Lemma casePage_malformed_event_witness :
  (run (casePage "http://cp" (Some (sample_row "c1" TComplete (JObj []))) "c1")
     (mkEnv (λ _ _, Ok (mkFetched 200 None "<html>")) (λ _, 0))).1 = Throw json_error.
Proof.
  apply (casePage_malformed_event "http://cp" (Some (sample_row "c1" TComplete (JObj []))) "c1"
    (mkEnv (λ _ _, Ok (mkFetched 200 None "<html>")) (λ _, 0)) (mkFetched 200 None "<html>")); reflexivity.
Defined.
