(* ===== verification/WorkbenchPages.v ===== *)
(** * The other workbench pages

    - [app/workbench/detections/page.tsx]: the bundled rules and when each
      last fired;
    - [app/workbench/agents/page.tsx]: the agent roster and the
      orchestrator's metrics;
    - [app/workbench/admin/page.tsx]: the health of the services;
    - [app/workbench/hunt/page.tsx]: the query form of the warm tier. *)
From Stdlib Require Import Ascii.
From S2P Require Import Prelude JsObject JsNum JsString JsValue Types AlertMappers Effects CasePage QueuePage.

Open Scope eff_scope.

(** ** Detection rules *)
Module Detections.

Record RuleMeta := mkRule {
  ru_id : string;
  ru_title : string;
  ru_description : string;
  ru_severity : Severity;
  ru_mitre : list string;
  ru_applies_to : string
}.

Definition RULES : list RuleMeta := [
  mkRule "aws_console_login_from_anomalous_geolocation" "Console Login from Anomalous Region"
    "Detects AWS console login from a region the user has not authenticated from in the past 90 days."
    SevMedium ["T1078.004"] "ocsf.authentication";
  mkRule "aws_cloudtrail_logging_disabled" "CloudTrail Logging Disabled"
    "Detects StopLogging, DeleteTrail, or UpdateTrail against cloudtrail.amazonaws.com — a common defence-evasion step."
    SevCritical ["T1562.001"] "ocsf.cloud_activity";
  mkRule "aws_root_account_use" "AWS Root Account Used"
    "Detects any use of the AWS root account, which should never occur in normal operations."
    SevCritical ["T1078"] "ocsf.authentication";
  mkRule "aws_iam_user_excessive_privilege" "Excessive IAM Privilege Granted"
    "Detects AdministratorAccess or PowerUserAccess policies attached to an IAM entity."
    SevHigh ["T1098"] "ocsf.cloud_activity";
  mkRule "aws_new_iam_user_then_access_keys_sequence" "New IAM User + Access Keys Sequence"
    "Detects CreateUser followed by CreateAccessKey for the same user within a short window."
    SevHigh ["T1136.003"] "ocsf.cloud_activity";
  mkRule "aws_s3_bucket_policy_made_public" "S3 Bucket Made Public"
    "Detects PutBucketPolicy or PutBucketAcl operations that expose a bucket publicly."
    SevHigh ["T1530"] "ocsf.cloud_activity";
  mkRule "okta_brute_force_authentication" "Okta Brute-Force Authentication"
    "Detects a high volume of failed Okta logins (unique window) suggestive of credential stuffing."
    SevHigh ["T1110"] "ocsf.authentication";
  mkRule "okta_mfa_bypass_attempt" "Okta MFA Bypass Attempt"
    "Detects MFA factor rejection or reset events from an unknown device."
    SevHigh ["T1556"] "ocsf.authentication";
  mkRule "m365_mass_external_sharing" "M365 Mass External Sharing"
    "Detects a burst of SharePoint/OneDrive sharing events to external domains."
    SevHigh ["T1567"] "ocsf.cloud_activity";
  mkRule "m365_inbox_rule_auto_forward_external" "M365 Inbox Auto-Forward Rule"
    "Detects New-InboxRule events that forward mail to an external address."
    SevCritical ["T1114.003"] "ocsf.cloud_activity"].

Definition API_URL (appUrl : option string) : string :=
  match appUrl with
  | Some u => if String.eqb u EmptyString then "http://localhost:3000/api/detections" else u +:+ "/api/detections"
  | None => "http://localhost:3000/api/detections"
  end.

(** One turn of the loop: [map] is a JavaScript Map from rule to time. *)
Definition keep_latest (map : jsobj string) (d : Detection.FiredDetection) : jsobj string :=
  match obj_get (Detection.fd_detection_id d) map with
  | Some t => if String.ltb t (Detection.fd_fired_at d)
              then obj_set (Detection.fd_detection_id d) (Detection.fd_fired_at d) map else map
  | None => obj_set (Detection.fd_detection_id d) (Detection.fd_fired_at d) map
  end.

Definition last_fired (ds : list Detection.FiredDetection) : jsobj string := foldl keep_latest [] ds.

(** [None] for an answer that is not of the declared type. *)
Definition fetchLastFired (appUrl : option string) : M (option (jsobj string)) :=
  try_catch
    (let! res := fetch (get_req (API_URL appUrl)) in
     if negb (ft_ok res) then ret (Some [])
     else
       let! data := read_json res in
       ret (match data with
            | JArr l => last_fired <$> mapM Detection.as_fired l
            | _ => Some []
            end))
    (λ _, ret (Some [])).

Definition by_rule_severity (a b : RuleMeta) : bool := severityOrder (ru_severity a) <=? severityOrder (ru_severity b).

Definition sorted_rules : list RuleMeta := sort_by by_rule_severity RULES.

Record detections_page := mkDetectionsPage {
  dp_rows : list (RuleMeta * option string);   (** rule and time it last fired *)
  dp_firedCount : nat;
  dp_by_severity : list (Severity * nat)
}.

Definition detections_page_of (lastFired : jsobj string) : detections_page :=
  mkDetectionsPage ((λ r, (r, obj_get (ru_id r) lastFired)) <$> sorted_rules)
    (length (filter (λ r, obj_has (ru_id r) lastFired = true) sorted_rules))
    ((λ sev, (sev, length (filter (λ r, ru_severity r = sev) sorted_rules))) <$> [SevCritical; SevHigh; SevMedium]).

Definition DetectionsPage (appUrl : option string) : M (option detections_page) :=
  let! lastFired := fetchLastFired appUrl in ret (detections_page_of <$> lastFired).

(** The cell of the last column; [parse_date] is [new Date(s).getTime()]. *)
Definition fired_label (parse_date : string → option Z) (now : Z) (fired : option string) : string :=
  match fired with
  | None => "never"
  | Some iso =>
      if String.eqb iso EmptyString then "never"
      else match parse_date (replace_first_char " "%char "T"%char iso) with
           | None => "NaNd ago"
           | Some t =>
               let s := (now - t) / 1000 in
               if s <? 60 then string_of_Z s +:+ "s ago"
               else let m := s / 60 in
               if m <? 60 then string_of_Z m +:+ "m ago"
               else let h := m / 60 in
               if h <? 24 then string_of_Z h +:+ "h ago" else string_of_Z (h / 24) +:+ "d ago"
           end
  end.
End Detections.

(** ** Agents *)
Module Agents.

Record AgentDef := mkAgentDef {
  ad_id : string; ad_name : string; ad_role : string; ad_model : string;
  ad_execPath : string; ad_phase : string; ad_description : string
}.

Definition AGENT_DEFS : list AgentDef := [
  mkAgentDef "triager-hybrid-v1" "Triager" "Triager" "XGBoost (classifier) + Claude Sonnet (escalation)" "Hybrid" "4b"
    "Classifies every incoming alert. Routes ~80% via XGBoost in < 50ms; escalates novel cases to the LLM path.";
  mkAgentDef "investigator-v1" "Investigator" "Investigator" "Claude Opus (prod) / Qwen 3 32B (air-gapped)" "LLM" "5"
    "Handles Triager escalations. Queries warm tier, hot tier, and threat intel. Produces cited verdicts.";
  mkAgentDef "hunter-v1" "Hunter" "Hunter" "Claude Sonnet" "LLM" "7"
    "Proactively expands hypotheses from Investigator cases. Searches for lateral movement and campaign indicators.";
  mkAgentDef "detection-engineer-v1" "Detection Engineer" "DetectionEngineer" "Claude Sonnet" "LLM" "10"
    "Weekly: scans MITRE coverage gaps, proposes HELIQL rules with backtest evidence, opens Git PRs."].

Section Agents.
Variable ORCHESTRATOR_URL : string.
(** [v.toLocaleString()] of a value that has the method: the host's locale. *)
Variable toLocaleString : jsval → string.

Definition metrics_request : request := with_timeout 3000 (get_req (ORCHESTRATOR_URL +:+ "/metrics")).

Definition fetchOrchestratorMetrics : M jsval := fetch_guarded metrics_request.

Definition agent_status (online : bool) (a : AgentDef) : string :=
  if String.eqb (ad_id a) "triager-hybrid-v1" then (if online then "online" else "offline") else "planned".

Definition agent_badge (online : bool) (a : AgentDef) : string :=
  if String.eqb (agent_status online a) "planned" then "Phase " +:+ ad_phase a else agent_status online a.

Record agents_page := mkAgentsPage {
  ap_online : bool;
  ap_total : string;
  ap_p99 : string;
  ap_coverage : string;
  ap_badges : list (string * string);
  ap_latency : option string
}.

Definition ms_label (metrics : jsval) (k : string) : string := to_string (prop k metrics) +:+ "ms".

Definition AgentsPage : M agents_page :=
  let! metrics := fetchOrchestratorMetrics in
  let online := negb (jsval_eqb metrics JNull) in
  let! total := (if truthy metrics then
                   let v := prop "triage_count" metrics in
                   if is_nullish v then throw (member_error "toLocaleString" v) else ret (toLocaleString v)
                 else ret "—") in
  ret (mkAgentsPage online total
         (if truthy metrics then ms_label metrics "p99_ms" else "—")
         (if online then "100%" else "—")
         ((λ a, (ad_id a, agent_badge online a)) <$> AGENT_DEFS)
         (if truthy metrics && num_ltb zero (to_number (prop "p99_ms" metrics))
          then Some (ms_label metrics "p50_ms" +:+ " / " +:+ ms_label metrics "p95_ms" +:+ " / " +:+ ms_label metrics "p99_ms")
          else None)).
End Agents.
End Agents.

(** ** Administration *)
Module Admin.
Section Admin.
Variables CP_URL ARROYO_URL ARROYO_UI_URL COLLECTOR_URL ORCHESTRATOR_URL MCP_GW_URL : string.

Definition probe (url : string) : request := with_timeout 3000 (get_req url).

(** One entry of [Promise.allSettled]: the outcome of a request. *)
Definition settle (r : request) : M (res fetched) := attempt (fetch r).

Definition health_of (r : res fetched) : string :=
  match r with Ok x => if ft_ok x then "ok" else "error" | Throw _ => "error" end.

Definition pipelines_of (r : res fetched) : M (list (jsval * string)) :=
  match r with
  | Ok x =>
      if ft_ok x then
        try_catch
          (let! body := read_json x in
           let! data := member "data" body in
           match nullish data (JArr []) with
           | JArr l => pipeline_chips l
           | _ => throw (mkErr "TypeError" "map is not a function")
           end)
          (λ _, ret [])
      else ret []
  | Throw _ => ret []
  end.

Record health := mkHealth {
  he_controlPlane : string;
  he_arroyo : string;
  he_collector : string;
  he_pipelines : list (jsval * string)
}.

Definition fetchHealth : M health :=
  let! r0 := settle (probe (CP_URL +:+ "/healthz")) in
  let! r1 := settle (probe (ARROYO_URL +:+ "/api/v1/ping")) in
  let! r2 := settle (probe (ARROYO_URL +:+ "/api/v1/pipelines")) in
  let! r3 := settle (probe (COLLECTOR_URL +:+ "/healthz")) in
  let! ps := pipelines_of r2 in
  ret (mkHealth (health_of r0) (health_of r1) (health_of r3) ps).

Record service := mkService { sv_name : string; sv_status : string; sv_port : string; sv_note : string; sv_href : option string }.

Definition services (h : health) : list service := [
  mkService "control-plane" (he_controlPlane h) "8080" EmptyString (Some (CP_URL +:+ "/docs"));
  mkService "arroyo" (he_arroyo h) "5115" EmptyString (Some ARROYO_UI_URL);
  mkService "collector" (he_collector h) "4000" EmptyString (Some (COLLECTOR_URL +:+ "/docs"));
  mkService "orchestrator" "unknown" "4300" EmptyString (Some (ORCHESTRATOR_URL +:+ "/docs"));
  mkService "mcp-gateway" "unknown" "4242" EmptyString (Some (MCP_GW_URL +:+ "/docs"));
  mkService "storage-iceberg" "worker" "—" "background worker — no HTTP" None;
  mkService "detection-runtime" "worker" "—" "background worker — no HTTP" None].

Definition tonemap : jsobj string := [("ok", "good"); ("error", "high"); ("unknown", "muted"); ("worker", "info")].

Definition pipelines_message (h : health) : option string :=
  match he_pipelines h with
  | [] => Some (if String.eqb (he_arroyo h) "error" then "Arroyo unreachable — pipelines not loaded."
                else "No pipelines deployed yet. Run `make arroyo-deploy` or wait for arroyo-deployer.")
  | _ => None
  end.

Definition AdminPage : M (list service * list (jsval * string) * option string) :=
  let! h := fetchHealth in ret (services h, he_pipelines h, pipelines_message h).
End Admin.
End Admin.

(** ** Hunting *)
Module Hunt.

Record hunt := mkHunt {
  hu_sql : string;
  hu_result : jsval;
  hu_error : option string;
  hu_busy : bool;
  hu_pending : list request
}.

Definition hunt_mount : hunt := mkHunt "SELECT 1 AS ok" JNull None false [].

Definition set_sql (sql : string) (h : hunt) : hunt := mkHunt sql (hu_result h) (hu_error h) (hu_busy h) (hu_pending h).

Definition SELECT_ONLY : string := "Warm tier API accepts read-only ClickHouse SQL starting with SELECT.".
Definition REQUEST_FAILED : string := "Request failed — is the workbench dev server and control-plane up?".

Definition hunt_request (sql : string) : request := post_json "/api/warm/query" (JObj [("sql", JStr sql)]).

(** [runWarmTier] up to its request. *)
Definition runWarmTier (h : hunt) : hunt :=
  let trimmed := trim (hu_sql h) in
  if negb (starts_with "select" (to_lower trimmed))
  then mkHunt (hu_sql h) JNull (Some SELECT_ONLY) false (hu_pending h)
  else mkHunt (hu_sql h) JNull None true (hu_pending h ++ [hunt_request trimmed]).

(** [typeof data === "object" && data && "error" in data] *)
Definition has_error (data : jsval) : bool := match data with JObj o => obj_has "error" o | _ => false end.

Definition hunt_answered (r : res fetched) (h : hunt) : hunt :=
  let pending := match hu_pending h with [] => [] | _ :: k => k end in
  match r with
  | Throw _ => mkHunt (hu_sql h) (hu_result h) (Some REQUEST_FAILED) false pending
  | Ok x =>
      let data := match ft_json x with Some v => v | None => JObj [] end in
      if negb (ft_ok x) then
        mkHunt (hu_sql h) (hu_result h)
          (Some (if has_error data then to_string (prop "error" data) else "HTTP " +:+ string_of_Z (ft_status x))) false pending
      else mkHunt (hu_sql h) data (hu_error h) false pending
  end.

Inductive hunt_event := HuSql (sql : string) | HuRun | HuAnswer (r : res fetched).

(** The button is disabled while busy. *)
Definition hunt_handle (e : hunt_event) (h : hunt) : option hunt :=
  match e with
  | HuSql sql => Some (set_sql sql h)
  | HuRun => if hu_busy h then None else Some (runWarmTier h)
  | HuAnswer r => match hu_pending h with [] => None | _ => Some (hunt_answered r h) end
  end.

Definition hunt_step (h h' : hunt) : Prop := ∃ e, hunt_handle e h = Some h'.
End Hunt.

(** ** When a rule last fired *)

Lemma string_ltb_asym s t : String.ltb s t = false ↔ String.leb t s = true.
Proof. unfold String.ltb, String.leb. rewrite (String.compare_antisym t s). by destruct (String.compare s t). Qed.

Lemma string_leb_trans s t u : String.leb s t = true → String.leb t u = true → String.leb s u = true.
Proof.
  revert t u. induction s as [|a s IH]; intros [|b t] [|c u]; try done.
  unfold String.leb in *. simpl. unfold Ascii.compare.
  destruct (N.compare_spec (N_of_ascii a) (N_of_ascii b)) as [E1|L1|L1];
    destruct (N.compare_spec (N_of_ascii b) (N_of_ascii c)) as [E2|L2|L2]; try done;
    destruct (N.compare_spec (N_of_ascii a) (N_of_ascii c)) as [E3|L3|L3]; try done; try lia.
  apply IH.
Qed.

Section Latest.
Import Detection Detections.

(** [t] is the latest time of the detections of rule [id]. *)
Definition latest_of (id : string) (ds : list FiredDetection) (t : string) : Prop :=
  (∃ d, d ∈ ds ∧ fd_detection_id d = id ∧ fd_fired_at d = t) ∧
  ∀ d, d ∈ ds → fd_detection_id d = id → String.leb (fd_fired_at d) t = true.

Lemma string_leb_refl s : String.leb s s = true.
Proof. by destruct (String.leb_total s s). Qed.

Lemma keep_latest_other m d id : fd_detection_id d ≠ id → obj_get id (keep_latest m d) = obj_get id m.
Proof. intros Hn. unfold keep_latest. repeat case_match; by rewrite ?obj_get_set_ne. Qed.

Lemma last_fired_some ds id : is_Some (obj_get id (last_fired ds)) ↔ ∃ d, d ∈ ds ∧ fd_detection_id d = id.
Proof.
  unfold last_fired. induction ds as [|d ds IH] using rev_ind.
  - split; [by intros [? ?]|by intros (d & ?%elem_of_nil & _)].
  - rewrite foldl_app. simpl. set (m := foldl keep_latest [] ds) in *. setoid_rewrite elem_of_app.
    setoid_rewrite list_elem_of_singleton. destruct (decide (fd_detection_id d = id)) as [<-|Hid].
    + split; [by exists d; auto|]. intros _. unfold keep_latest.
      destruct (obj_get (fd_detection_id d) m) eqn:E; [case_match|]; rewrite ?obj_get_set_eq, ?E; eauto.
    + rewrite keep_latest_other, IH by done. naive_solver.
Qed.

Lemma last_fired_get ds id t : obj_get id (last_fired ds) = Some t ↔ latest_of id ds t.
Proof.
  unfold last_fired. revert t. induction ds as [|d ds IH] using rev_ind; intros t.
  - split; [done|]. by intros [(d & ?%elem_of_nil & _) _].
  - rewrite foldl_app. simpl. set (m := foldl keep_latest [] ds) in *.
    assert (Hsnoc : ∀ x, x ∈ ds ++ [d] ↔ x ∈ ds ∨ x = d) by (intros x; by rewrite elem_of_app, list_elem_of_singleton).
    destruct (decide (fd_detection_id d = id)) as [<-|Hid].
    2:{ rewrite keep_latest_other, IH by done. unfold latest_of. setoid_rewrite Hsnoc. naive_solver. }
    destruct (obj_get (fd_detection_id d) m) as [t0|] eqn:E.
    + destruct (proj1 (IH t0) eq_refl) as [(d0 & H1 & H2 & H3) H4].
      assert (G : obj_get (fd_detection_id d) (keep_latest m d) = Some (if String.ltb t0 (fd_fired_at d) then fd_fired_at d else t0)).
      { unfold keep_latest. rewrite E. case_match; [by rewrite obj_get_set_eq|done]. }
      rewrite G. assert (L : latest_of (fd_detection_id d) (ds ++ [d]) (if String.ltb t0 (fd_fired_at d) then fd_fired_at d else t0)).
      { unfold latest_of. setoid_rewrite Hsnoc. destruct (String.ltb t0 (fd_fired_at d)) eqn:El.
        - split; [by exists d; auto|]. intros x [Hx| ->] Hxid; [|apply string_leb_refl].
          apply (string_leb_trans _ t0); [by apply H4|]. unfold String.ltb, String.leb in *. by destruct (String.compare t0 _).
        - split; [by exists d0; auto|]. intros x [Hx| ->] Hxid; [by apply H4|]. by apply string_ltb_asym. }
      split; [by intros [= <-]|]. intros [(d1 & Hd1 & Hi1 & <-) Hmax]. f_equal. apply String.leb_antisym; [|by apply L].
      destruct L as [(d2 & Hd2 & Hi2 & E2) _]. rewrite <- E2. by apply Hmax.
    + assert (G : obj_get (fd_detection_id d) (keep_latest m d) = Some (fd_fired_at d)).
      { unfold keep_latest. rewrite E. by rewrite obj_get_set_eq. }
      assert (Hnone : ∀ x, x ∈ ds → fd_detection_id x ≠ fd_detection_id d).
      { intros x Hx Hxi. assert (S : is_Some (obj_get (fd_detection_id d) m)) by (apply last_fired_some; by exists x).
        rewrite E in S. by destruct S. }
      rewrite G. split.
      * intros [= <-]. unfold latest_of. setoid_rewrite Hsnoc. split; [by exists d; auto|].
        intros x [Hx| ->] Hxi; [by destruct (Hnone x Hx)|apply string_leb_refl].
      * intros [(d1 & Hd1 & Hi1 & <-) _]. apply Hsnoc in Hd1 as [Hd1| ->]; [|done]. by destruct (Hnone d1 Hd1).
Qed.
End Latest.

Section DetectionsPageFacts.
Import Detections.

Lemma by_rule_severity_total a b : by_rule_severity a b = true ∨ by_rule_severity b a = true.
Proof. unfold by_rule_severity. rewrite !Z.leb_le. lia. Qed.

Lemma by_rule_severity_trans a b c : by_rule_severity a b = true → by_rule_severity b c = true → by_rule_severity a c = true.
Proof. unfold by_rule_severity. rewrite !Z.leb_le. lia. Qed.

Lemma rows_rules m : (dp_rows (detections_page_of m)).*1 = sorted_rules.
Proof.
  unfold detections_page_of. cbn [dp_rows]. generalize sorted_rules. intros l. induction l as [|r l IH]; [done|].
  rewrite !fmap_cons. by f_equal.
Qed.

Lemma fired_count_rows m :
  dp_firedCount (detections_page_of m) = length (filter (λ row, is_Some row.2) (dp_rows (detections_page_of m))).
Proof.
  unfold detections_page_of. cbn [dp_firedCount dp_rows]. generalize sorted_rules. intros l.
  induction l as [|r l IH]; [done|]. rewrite fmap_cons, !filter_cons. cbn [snd].
  repeat case_decide; simpl; try (by rewrite IH); exfalso; rewrite obj_has_spec in *; tauto.
Qed.

Lemma detections_fetch appUrl w ft l ds :
  env_fetch w 0 (get_req (API_URL appUrl)) = Ok ft → ft_ok ft = true → ft_json ft = Some (JArr l) →
  mapM Detection.as_fired l = Some ds →
  run (DetectionsPage appUrl) w = (Ok (Some (detections_page_of (last_fired ds))), [EFetch (get_req (API_URL appUrl))]).
Proof.
  intros E Hok Hj Hd. unfold run, DetectionsPage, fetchLastFired, try_catch, bind, fetch, read_json, ret. simpl.
  rewrite E, Hok. simpl. rewrite Hj. simpl. by rewrite Hd.
Qed.

(** The rules page shows when each rule last fired. For an answer with
    detections it lists every bundled rule once, ordered by severity, each
    with the latest time of its detections, whatever their order, or none
    when it has no detection, and the count is the number of rules with a
    time. When the request fails, or the answer is an error or not JSON, the
    page is still shown, with no rule fired. *)
Theorem detections_last_fired appUrl w ft l ds :
  env_fetch w 0 (get_req (API_URL appUrl)) = Ok ft → ft_ok ft = true → ft_json ft = Some (JArr l) →
  mapM Detection.as_fired l = Some ds →
  ∃ p, run (DetectionsPage appUrl) w = (Ok (Some p), [EFetch (get_req (API_URL appUrl))]) ∧
    (dp_rows p).*1 ≡ₚ RULES ∧ StronglySorted (λ a b, by_rule_severity a b = true) (dp_rows p).*1 ∧
    (∀ r fired, (r, fired) ∈ dp_rows p →
       match fired with
       | Some t => latest_of (ru_id r) ds t
       | None => ∀ d, d ∈ ds → Detection.fd_detection_id d ≠ ru_id r
       end) ∧
    dp_firedCount p = length (filter (λ row, is_Some row.2) (dp_rows p)) ∧
    (∀ w', (∀ x, env_fetch w' 0 (get_req (API_URL appUrl)) = Ok x → ft_ok x = true → ft_json x = None) →
       (run (DetectionsPage appUrl) w').1 = Ok (Some (detections_page_of [])) ∧
       dp_firedCount (detections_page_of []) = 0%nat).
Proof.
  intros E Hok Hj Hd. eexists. split; [by eapply detections_fetch|]. rewrite rows_rules.
  split; [apply sort_by_perm|].
  split; [apply (sort_by_sorted _ by_rule_severity_total by_rule_severity_trans)|].
  split; [|split; [apply fired_count_rows|]].
  - intros r fired Hin. unfold detections_page_of in Hin. cbn [dp_rows] in Hin.
    apply list_elem_of_fmap in Hin as (r' & [= <- ->] & _).
    destruct (obj_get (ru_id r) (last_fired ds)) as [t|] eqn:Eg; [by apply last_fired_get|].
    intros d Hd' Hid. assert (S : is_Some (obj_get (ru_id r) (last_fired ds))) by (apply last_fired_some; eauto).
    rewrite Eg in S. by destruct S.
  - intros w' H. split; [|vm_compute; reflexivity].
    unfold run, DetectionsPage, fetchLastFired, try_catch, bind, fetch, read_json, ret. simpl.
    destruct (env_fetch w' 0 _) as [x|] eqn:Ex; [|done]. destruct (ft_ok x) eqn:Eo; simpl; [|done].
    by rewrite (H x eq_refl Eo).
Qed.

Definition fired_json (id at_ : string) : jsval :=
  JObj [("detection_id", JStr id); ("event_id", JStr "e1"); ("actor_user_name", JStr "bob");
        ("cloud_region", JStr "eu-west-1"); ("severity", JStr "high"); ("fired_at", JStr at_)].
Definition two_firings : list jsval :=
  [fired_json "aws_root_account_use" "2026-01-02 10:00:00"; fired_json "aws_root_account_use" "2026-01-01 09:00:00"].
Definition firings_env : env := mkEnv (λ _ _, Ok (mkFetched 200 (Some (JArr two_firings)) EmptyString)) (λ _, 0).

Definition firings : list Detection.FiredDetection := default [] (mapM Detection.as_fired two_firings).
Lemma firings_typed : mapM Detection.as_fired two_firings = Some firings.
Proof. reflexivity. Qed.

Lemma detections_last_fired_witness :
  obj_get "aws_root_account_use" (last_fired firings) = Some "2026-01-02 10:00:00" ∧
  ∃ p, run (DetectionsPage None) firings_env = (Ok (Some p), [EFetch (get_req (API_URL None))]).
Proof.
  split; [vm_compute; reflexivity|].
  destruct (detections_last_fired None firings_env (mkFetched 200 (Some (JArr two_firings)) EmptyString) two_firings
    firings eq_refl eq_refl eq_refl firings_typed) as (p & E & _).
  by exists p.
Defined.

(** The three tables of rules name the same rules with the same techniques;
    one title differs. *)
Example rule_tables_agree :
  ru_id <$> RULES = obj_keys Detection.DETECTION_TITLES ∧
  ((λ r, (ru_id r, default EmptyString (head (ru_mitre r)))) <$> RULES) = Detection.DETECTION_MITRE ∧
  omap (λ r, if decide (obj_get (ru_id r) Detection.DETECTION_TITLES = Some (ru_title r)) then None else Some (ru_id r)) RULES
    = ["aws_new_iam_user_then_access_keys_sequence"].
Proof. vm_compute. done. Qed.
End DetectionsPageFacts.

(** ** The health page *)
Section AdminFacts.
Import Admin.
Variables CP_URL ARROYO_URL ARROYO_UI_URL COLLECTOR_URL ORCHESTRATOR_URL MCP_GW_URL : string.
Notation page := (AdminPage CP_URL ARROYO_URL ARROYO_UI_URL COLLECTOR_URL ORCHESTRATOR_URL MCP_GW_URL).

Lemma health_ok r : health_of r = "ok" ↔ ∃ x, r = Ok x ∧ ft_ok x = true.
Proof.
  destruct r as [x|e]; simpl; [destruct (ft_ok x) eqn:E|]; split; try done.
  - intros _. by exists x.
  - intros (y & [= <-] & H). congruence.
  - by intros (y & ? & _).
Qed.

Lemma pipeline_chips_silent ps : silent (pipeline_chips ps).
Proof.
  induction ps as [|p ps IH]; simpl; [apply silent_ret|]. apply silent_bind; [apply silent_member|]. intros a.
  apply silent_bind; [done|]. intros b. apply silent_ret.
Qed.

Lemma pipelines_of_returns r w log : ∃ ps, pipelines_of r w log = (Ok ps, log).
Proof.
  unfold pipelines_of. destruct r as [x|e]; [|by exists []]. destruct (ft_ok x); [|by exists []].
  set (m := let! body := read_json x in _). assert (S : silent m).
  { apply silent_bind; [apply silent_read_json|]. intros a. apply silent_bind; [apply silent_member|]. intros d.
    destruct (nullish d (JArr [])); try apply silent_throw. apply pipeline_chips_silent. }
  specialize (S w log). unfold try_catch. destruct (m w log) as [[ps|e] log']; simpl in S; subst; [by exists ps|by exists []].
Qed.

Definition health_requests : list request :=
  [probe (CP_URL +:+ "/healthz"); probe (ARROYO_URL +:+ "/api/v1/ping"); probe (ARROYO_URL +:+ "/api/v1/pipelines");
   probe (COLLECTOR_URL +:+ "/healthz")].

(** The services that are checked, with the number of their request. *)
Definition checked : list (string * nat) := [("control-plane", 0%nat); ("arroyo", 1%nat); ("collector", 3%nat)].

Lemma admin_run w :
  let h ps := mkHealth (health_of (env_fetch w 0 (probe (CP_URL +:+ "/healthz"))))
                (health_of (env_fetch w 1 (probe (ARROYO_URL +:+ "/api/v1/ping"))))
                (health_of (env_fetch w 3 (probe (COLLECTOR_URL +:+ "/healthz")))) ps in
  ∃ ps, run (AdminPage CP_URL ARROYO_URL ARROYO_UI_URL COLLECTOR_URL ORCHESTRATOR_URL MCP_GW_URL) w =
    (Ok (services CP_URL ARROYO_UI_URL COLLECTOR_URL ORCHESTRATOR_URL MCP_GW_URL (h ps), ps, pipelines_message (h ps)),
     EFetch <$> health_requests).
Proof.
  intros h. destruct (pipelines_of_returns (env_fetch w 2 (probe (ARROYO_URL +:+ "/api/v1/pipelines"))) w (EFetch <$> health_requests))
    as [ps E]. exists ps.
  unfold run, AdminPage, fetchHealth, settle, attempt, fetch, bind, ret. cbn [length app]. cbn [fmap list_fmap health_requests] in E.
  rewrite E. reflexivity.
Qed.

Lemma health_status r : health_of r = "ok" ∨ health_of r = "error".
Proof. unfold health_of. repeat case_match; auto. Qed.

(** The administration page only calls a service ok that answered. Whatever
    the services do, the page sends its four requests and gets to its view; a
    service is shown as ok exactly when it is one of the three
    that are checked and its own request was answered with a 2xx status in
    this load; a checked service is otherwise in error; every status shown
    has a colour, and a message stands in for the pipelines exactly when
    there are none. *)
Theorem admin_health w :
  ∃ svs ps msg,
    run (AdminPage CP_URL ARROYO_URL ARROYO_UI_URL COLLECTOR_URL ORCHESTRATOR_URL MCP_GW_URL) w =
      (Ok (svs, ps, msg), EFetch <$> health_requests) ∧
    (∀ s, s ∈ svs →
       (sv_status s = "ok" ↔ ∃ i rq x, (sv_name s, i) ∈ checked ∧ health_requests !! i = Some rq ∧
                               env_fetch w i rq = Ok x ∧ ft_ok x = true) ∧
       (∀ i, (sv_name s, i) ∈ checked → sv_status s = "ok" ∨ sv_status s = "error") ∧
       is_Some (obj_get (sv_status s) tonemap)) ∧
    (is_Some msg ↔ ps = []).
Proof.
  destruct (admin_run w) as [ps E]. do 3 eexists. split; [exact E|]. split.
  - assert (T : ∀ r, is_Some (obj_get (health_of r) tonemap)).
    { intros r. destruct (health_status r) as [-> | ->]; by eexists. }
    assert (U : ∀ name st k rq,
      (∀ i, (name, i) ∈ checked ↔ i = k) → health_requests !! k = Some rq → st = health_of (env_fetch w k rq) →
      (st = "ok" ↔ ∃ i rq x, (name, i) ∈ checked ∧ health_requests !! i = Some rq ∧ env_fetch w i rq = Ok x ∧ ft_ok x = true)).
    { intros name st k rq Hk Hrq ->. rewrite health_ok. setoid_rewrite Hk. split.
      - intros (x & Ex & Hx). by exists k, rq, x.
      - intros (i & rq' & x & -> & Hrq' & Ex & Hx). exists x. split; congruence. }
    assert (N : ∀ name st, (∀ i, (name, i) ∉ checked) → st ≠ "ok" →
      (st = "ok" ↔ ∃ i rq x, (name, i) ∈ checked ∧ health_requests !! i = Some rq ∧ env_fetch w i rq = Ok x ∧ ft_ok x = true)).
    { intros name st Hn Hst. split; [done|]. by intros (i & rq & x & Hi & _); destruct (Hn i). }
    assert (C : ∀ (name : string) (k : nat), (name, k) ∈ checked → ∀ i, (name, i) ∈ checked ↔ i = k).
    { intros name k Hk i. unfold checked in *. rewrite !elem_of_cons, elem_of_nil in *. naive_solver. }
    assert (D : ∀ name : string, forallb (λ c, negb (String.eqb name c.1)) checked = true → ∀ i, (name, i) ∉ checked).
    { intros name H i Hi. rewrite forallb_forall in H. specialize (H (name, i)). apply list_elem_of_In in Hi. specialize (H Hi).
      simpl in H. by rewrite String.eqb_refl in H. }
    intros s Hs. unfold services in Hs. rewrite !elem_of_cons, elem_of_nil in Hs.
    assert (Y : ∀ name r (k : nat), (name, k) ∈ checked → (∀ i, (name, i) ∈ checked → health_of r = "ok" ∨ health_of r = "error") ∧ is_Some (obj_get (health_of r) tonemap))
      by (intros; split; [intros; apply health_status|apply T]).
    assert (Z : ∀ name st, (∀ i, (name, i) ∉ checked) → is_Some (obj_get st tonemap) →
      (∀ i, (name, i) ∈ checked → st = "ok" ∨ st = "error") ∧ is_Some (obj_get st tonemap))
      by (intros name st Hn Hs'; split; [intros i Hi; by destruct (Hn i)|done]).
    assert (K0 : ("control-plane", 0%nat) ∈ checked) by left.
    assert (K1 : ("arroyo", 1%nat) ∈ checked) by (right; left).
    assert (K3 : ("collector", 3%nat) ∈ checked) by (right; right; left).
    destruct Hs as [->|[->|[->|[->|[->|[->|[->|[]]]]]]]]; cbn [sv_name sv_status he_controlPlane he_arroyo he_collector].
    + split; [exact (U _ _ 0%nat _ (C _ _ K0) eq_refl eq_refl)|exact (Y _ _ _ K0)].
    + split; [exact (U _ _ 1%nat _ (C _ _ K1) eq_refl eq_refl)|exact (Y _ _ _ K1)].
    + split; [exact (U _ _ 3%nat _ (C _ _ K3) eq_refl eq_refl)|exact (Y _ _ _ K3)].
    + split; [apply N; [by apply D|done]|apply Z; [by apply D|by eexists]].
    + split; [apply N; [by apply D|done]|apply Z; [by apply D|by eexists]].
    + split; [apply N; [by apply D|done]|apply Z; [by apply D|by eexists]].
    + split; [apply N; [by apply D|done]|apply Z; [by apply D|by eexists]].
  - unfold pipelines_message. cbn [he_pipelines]. destruct ps; by split.
Qed.
End AdminFacts.

(** ** The hunt form *)
Section HuntFacts.
Import Hunt.

(** A request that carries a trimmed statement beginning with [select]. *)
Definition select_request (r : request) : Prop :=
  ∃ sql, r = hunt_request (trim sql) ∧ starts_with "select" (to_lower (trim sql)) = true.

Definition hunt_inv (h : hunt) : Prop :=
  (length (hu_pending h) ≤ 1)%nat ∧ (hu_busy h = true ↔ hu_pending h ≠ []) ∧
  (∀ r, r ∈ hu_pending h → select_request r) ∧ (hu_busy h = true → hu_result h = JNull ∧ hu_error h = None).

Lemma hunt_step_inv h h' : hunt_inv h → hunt_step h h' → hunt_inv h'.
Proof.
  intros (I1 & I2 & I3 & I4) [[sql| |r] E]; simpl in E; simplify_eq; [done| |].
  - destruct (hu_busy h) eqn:Eb; [done|]. simplify_eq.
    assert (Hn : hu_pending h = []) by (destruct (hu_pending h); [done|exfalso; by assert (false = true) by (by apply I2)]).
    unfold runWarmTier. case_match eqn:Es; unfold hunt_inv; simpl; rewrite Hn; simpl.
    + split_and!; try done; [lia|by intros ? ?%elem_of_nil].
    + split_and!; try done. intros r ->%list_elem_of_singleton. exists (hu_sql h). split; [done|].
      by apply negb_false_iff.
  - destruct (hu_pending h) as [|q [|q' k]] eqn:Ep; [done| |simpl in I1; lia]. simplify_eq.
    unfold hunt_answered. rewrite Ep.
    destruct r as [x|e]; [case_match|]; unfold hunt_inv; simpl; (split; [lia|]; split; [split; done|]; split; [by intros ? ?%elem_of_nil|done]).
Qed.

(** The hunt form only sends statements that begin with SELECT. Whatever
    is typed, pressed and answered, at most one query is under way, the form
    is busy exactly while it is, no old result or error is shown meanwhile,
    and every query sent is the trimmed text of the form with [select] at its
    start; any other text is answered by an explanation. (Only the first word
    is looked at: what follows it is the control plane's to refuse.) *)
Theorem hunt_select_only h :
  star hunt_step hunt_mount h →
  (length (hu_pending h) ≤ 1)%nat ∧ (hu_busy h = true ↔ hu_pending h ≠ []) ∧
  (hu_busy h = true → hu_result h = JNull ∧ hu_error h = None) ∧
  (∀ r, r ∈ hu_pending h → select_request r) ∧
  (hu_busy h = false → starts_with "select" (to_lower (trim (hu_sql h))) = false →
     ∃ h', hunt_handle HuRun h = Some h' ∧ hu_error h' = Some SELECT_ONLY ∧ hu_pending h' = [] ∧ hu_busy h' = false).
Proof.
  intros R. assert (I : hunt_inv h).
  { eapply (star_invariant _ hunt_inv); [|intros ? ?; apply hunt_step_inv|exact R].
    unfold hunt_inv. simpl. split_and!; try done; [lia|by intros ? ?%elem_of_nil]. }
  destruct I as (I1 & I2 & I3 & I4). do 4 (split; [done|]). intros Hb Hs. simpl. rewrite Hb. eexists. split; [reflexivity|].
  unfold runWarmTier. rewrite Hs. simpl. split; [done|]. split; [|done].
  destruct (hu_pending h); [done|]. exfalso. assert (H : hu_busy h = true) by (by apply I2). congruence.
Qed.

Lemma hunt_select_only_witness :
  let h := runWarmTier hunt_mount in
  hu_busy h = true ∧ (∀ r, r ∈ hu_pending h → select_request r).
Proof.
  assert (R : star hunt_step hunt_mount (runWarmTier hunt_mount)) by (apply (star_snoc _ _ hunt_mount); [constructor|by exists HuRun]).
  split; [vm_compute; reflexivity|]. exact (proj1 (proj2 (proj2 (proj2 (hunt_select_only _ R))))).
Defined.
End HuntFacts.

(** ** The agents page *)
Section AgentsFacts.
Import Agents.
Variable ORCHESTRATOR_URL : string.
Variable toLocaleString : jsval → string.

(** The agents page asks the orchestrator once. It shows the triager as
    offline when the request fails or is refused, and as online, with an
    envelope coverage of 100%, for any other JSON than [null]; a 200 answer
    that is not JSON rejects the page, because the body is returned without
    being awaited inside the [try] block. *)
Lemma agents_page_outcomes w :
  let rq := metrics_request ORCHESTRATOR_URL in
  let out := run (AgentsPage ORCHESTRATOR_URL toLocaleString) w in
  out.2 = [EFetch rq] ∧
  ((∀ x, env_fetch w 0 rq = Ok x → ft_ok x = false) →
     ∃ p, out.1 = Ok p ∧ ap_online p = false ∧ ap_total p = "—" ∧ ap_coverage p = "—") ∧
  (∀ x, env_fetch w 0 rq = Ok x → ft_ok x = true →
     match ft_json x with
     | None => out.1 = Throw json_error
     | Some m => m ≠ JNull → prop "triage_count" m ≠ JUndef → prop "triage_count" m ≠ JNull → truthy m = true →
                 ∃ p, out.1 = Ok p ∧ ap_online p = true ∧ ap_total p = toLocaleString (prop "triage_count" m) ∧
                      ap_coverage p = "100%"
     end).
Proof.
  intros rq out. subst out. unfold run, AgentsPage, fetchOrchestratorMetrics, fetch_guarded, try_catch, attempt, bind, fetch, read_json, ret, throw, lift. simpl.
  fold rq. destruct (env_fetch w 0 rq) as [x|e] eqn:E; simpl.
  - destruct (ft_ok x) eqn:Eo; simpl.
    + destruct (ft_json x) as [m|] eqn:Ej; simpl.
      * split; [destruct (truthy m); [destruct (is_nullish (prop "triage_count" m))|]; done|]. split; [intros H; specialize (H x eq_refl); congruence|].
        intros y [= <-] _. rewrite Ej. intros Hn Hu Hv Ht. rewrite Ht.
        assert (Hd : is_nullish (prop "triage_count" m) = false) by (by destruct (prop "triage_count" m)).
        rewrite Hd. eexists. split; [done|]. simpl.
        assert (Hj : jsval_eqb m JNull = false) by (apply not_true_iff_false; by rewrite jsval_eqb_spec). by rewrite Hj.
      * split; [done|]. split; [intros H; specialize (H x eq_refl); congruence|]. intros y [= <-] _. by rewrite Ej.
    + split; [done|]. split; [intros _; eexists; by split|]. intros y [= <-]. congruence.
  - split; [done|]. split; [intros _; eexists; by split|]. done.
Qed.
End AgentsFacts.
