(* ===== verification/PublicPages.v ===== *)
(** * The pages outside the workbench, and its shell

    - [app/(auth)/login]: the login page and form, with the page guard's way
      back;
    - [app/(auth)/waitlist/waitlist-form.tsx]: the form over the waitlist
      route;
    - [components/marketing/try-demo-section.tsx]: the demo over its routes;
    - [components/workbench/command-palette.tsx] with its store, and
      [components/workbench/sign-out-button.tsx]. *)
From Stdlib Require Import Ascii.
From S2P Require Import Prelude JsObject JsNum JsString JsValue Types Effects RateLimit Auth Waitlist DemoRun.

Open Scope eff_scope.

(** ** Reading a query string *)

Definition hex_value (c : ascii) : option N :=
  let n := code c in
  if (48 <=? n)%N && (n <=? 57)%N then Some (n - 48)%N
  else if (65 <=? n)%N && (n <=? 70)%N then Some (n - 55)%N
  else if (97 <=? n)%N && (n <=? 102)%N then Some (n - 87)%N
  else None.

(** The value of a query parameter, as [URLSearchParams] reads it. *)
Fixpoint form_decode (s : string) : string :=
  match s with
  | EmptyString => EmptyString
  | String c s' =>
      if Ascii.eqb c "+"%char then String " "%char (form_decode s')
      else if Ascii.eqb c "%"%char then
        match s' with
        | String a (String b s'') =>
            match hex_value a, hex_value b with
            | Some h, Some l => String (ascii_of_N (16 * h + l)) (form_decode s'')
            | _, _ => String c (form_decode s')
            end
        | _ => String c (form_decode s')
        end
      else String c (form_decode s')
  end.

(** ** Signing in *)
Module Login.

Definition DEFAULT_PAGE : string := "/workbench/queue".

Inductive login_page := LpRedirect (to : string) | LpForm (callbackUrl : string).

(** [LoginPage]: [session] is the session library's answer. *)
Definition LoginPage (session : bool) (callbackUrl : option string) : login_page :=
  if session then LpRedirect DEFAULT_PAGE else LpForm (default DEFAULT_PAGE callbackUrl).

Definition next (callbackUrl : string) : string := if starts_with "/" callbackUrl then callbackUrl else DEFAULT_PAGE.

Record login := mkLogin {
  lo_email : string;
  lo_password : string;
  lo_error : option string;
  lo_busy : bool;
  lo_pushed : list string    (** [router.push] *)
}.

Definition login_mount : login := mkLogin EmptyString EmptyString None false [].

(** [onSubmit] up to the session library's answer. *)
Definition onSubmit (l : login) : login := mkLogin (lo_email l) (lo_password l) None true (lo_pushed l).

(** The library's answer: no error, an error with or without a message, or an
    exception. *)
Inductive sign_in := SignedIn | SignInError (message : option string) | SignInThrows.

Definition signed_in (callbackUrl : string) (r : sign_in) (l : login) : login :=
  match r with
  | SignedIn => mkLogin (lo_email l) (lo_password l) (lo_error l) false (lo_pushed l ++ [next callbackUrl])
  | SignInError m => mkLogin (lo_email l) (lo_password l) (Some (default "Sign-in failed" m)) false (lo_pushed l)
  | SignInThrows => mkLogin (lo_email l) (lo_password l) (Some "Sign-in failed") false (lo_pushed l)
  end.
End Login.

(** ** Requesting access *)
Module WaitlistForm.

Inductive Status := StIdle | StBusy | StOk | StError.
#[export] Instance Status_eq : EqDecision Status. Proof. solve_decision. Defined.

Record form := mkForm {
  wf_name : string; wf_email : string; wf_company : string; wf_role : string;
  wf_message : string; wf_website : string;
  wf_status : Status;
  wf_error : option jsval
}.

Definition form_mount : form :=
  mkForm EmptyString EmptyString EmptyString "security_engineer" EmptyString EmptyString StIdle None.

Definition with_status (st : Status) (e : option jsval) (f : form) : form :=
  mkForm (wf_name f) (wf_email f) (wf_company f) (wf_role f) (wf_message f) (wf_website f) st e.

Definition form_body (f : form) : jsval :=
  JObj [("name", JStr (wf_name f)); ("email", JStr (wf_email f)); ("company", JStr (wf_company f));
        ("role", JStr (wf_role f)); ("message", JStr (wf_message f)); ("website", JStr (wf_website f))].

Definition COULD_NOT : jsval := JStr "Could not submit. Try again.".

(** [onSubmit] up to the answer. *)
Definition submit (f : form) : form := with_status StBusy None f.

Definition answered (r : res fetched) (f : form) : form :=
  match r with
  | Throw _ => with_status StError (Some COULD_NOT) f
  | Ok x =>
      match ft_json x with
      | None => with_status StError (Some COULD_NOT) f
      | Some body =>
          if negb (ft_ok x) then
            if is_nullish body then with_status StError (Some COULD_NOT) f
            else with_status StError (Some (nullish (prop "error" body) COULD_NOT)) f
          else if is_nullish body then with_status StError (Some COULD_NOT) f
          else if truthy (prop "ok" body) then with_status StOk (wf_error f) f
          else with_status StError (Some (nullish (prop "error" body) COULD_NOT)) f
      end
  end.
End WaitlistForm.

(** ** Trying the demo *)
Module TryDemo.

Record demo := mkDemo {
  td_mounted : bool;
  td_busy : bool;
  td_result : option jsval;
  td_live : option jsval
}.

Definition demo_mount : demo := mkDemo true false None None.

(** The answer of the status route; [cancelled] once unmounted. *)
Definition status_answered (r : res fetched) (d : demo) : demo :=
  if negb (td_mounted d) then d
  else mkDemo (td_mounted d) (td_busy d) (td_result d)
    (Some (match r with
           | Ok x => match ft_json x with
                     | Some s => if is_nullish s then JBool false else prop "live" s
                     | None => JBool false
                     end
           | Throw _ => JBool false
           end)).

(** [live === false], [live === null] *)
Definition paused (d : demo) : bool := match td_live d with Some (JBool false) => true | _ => false end.
Definition checking (d : demo) : bool := match td_live d with None | Some JNull => true | _ => false end.
Definition run_disabled (d : demo) : bool := td_busy d || checking d.
Definition run_label (d : demo) : string :=
  if td_busy d then "Signing…" else if checking d then "Checking demo…" else "Run the demo".

(** [run] up to its request. *)
Definition run_demo (d : demo) : demo := mkDemo (td_mounted d) true None (td_live d).

Definition failed_result (e : string) : jsval :=
  JObj [("ok", JBool false); ("error", JStr e); ("action_id", JStr EmptyString); ("verdict", JStr "unknown");
        ("execution_path", JStr "classifier"); ("tenant_id", JStr "demo");
        ("collector", JObj [("ok", JBool false); ("error", JStr e)]); ("orchestrator", JObj [("ok", JBool false)])].

(** A [null] answer is stored, then [data.ok] throws and is replaced. *)
Definition run_answered (r : res fetched) (d : demo) : demo :=
  mkDemo (td_mounted d) false
    (Some (match r with
           | Throw e => failed_result (err_string e)
           | Ok x => match ft_json x with
                     | None => failed_result (err_string json_error)
                     | Some data => if is_nullish data then failed_result (err_string (member_error "ok" data)) else data
                     end
           end))
    (td_live d).

(** The card of a result; [Throw] is a rendering error. *)
Definition short (value : jsval) : M string :=
  if negb (truthy value) then ret "—"
  else match value with
       | JStr s => ret (if (String.length s <=? 16)%nat then s
                        else slice 0 8 s +:+ "…" +:+ slice_from (String.length s - 4) s)
       | _ => throw (mkErr "TypeError" "value.slice is not a function")
       end.

Definition envelope_rows (env : jsval) : M (list (string * string)) :=
  let! action := short (prop "agent_action_id" env) in
  let! prev := short (prop "prev_hash" env) in
  let! sig := short (prop "signature" env) in
  ret [("tenant_id", to_string (prop "tenant_id" env)); ("verdict", to_string (prop "verdict" env));
       ("action_id", action); ("prev_hash", prev); ("signature", sig)].

Fixpoint result_lines (rows : list jsval) : M (list string) :=
  match rows with
  | [] => ret []
  | row :: rows' =>
      let! ok := member "ok" row in
      let! id := short (prop "action_id" row) in
      let! rest := result_lines rows' in
      ret (((if truthy ok then "PASS" else "FAIL") +:+ " " +:+ id +:+ " · " +:+ to_string (prop "detail" row)) :: rest)
  end.

Definition verify_lines (verify : jsval) : M (string * list string) :=
  let! last3 := slice_last 3 (prop "results" verify) in
  match last3 with
  | JArr rows =>
      let! lines := result_lines rows in
      ret ((if truthy (prop "ok" verify) then "PASS" else "FAIL") +:+ " · verified " +:+
           to_string (prop "passed" verify) +:+ "/" +:+ to_string (prop "total" verify) +:+
           (if truthy (prop "durable" verify) then " · object store" else " · local log"), lines)
  | _ => throw (mkErr "TypeError" "map is not a function")
  end.

Definition failure_notes (result : jsval) : M (string * list string) :=
  let! ok := (let! c := member "collector" result in member "ok" c) in
  ret (to_string (nullish (prop "error" result) (JStr "Demo services are not reachable from this host.")),
       if truthy ok then []
       else ["Collector: " +:+ to_string (nullish (prop "error" (prop "collector" result)) (JStr "down")) +:+ "."]).

(** [DemoResultCard]: the envelope's rows or a note, and the verification. *)
Definition DemoResultCard (result : jsval) : M ((list (string * string) + string) * (string * list string)) :=
  let env := prop "envelope" result in
  let verify := prop "verify" result in
  let! shown := (if truthy env then let! rows := envelope_rows env in ret (inl rows)
                else let! e := member "error" (prop "orchestrator" result) in
                     ret (inr (to_string (nullish e (JStr "No envelope yet."))))) in
  let! checked := (if truthy verify then verify_lines verify else failure_notes result) in
  ret (shown, checked).
End TryDemo.

(** ** The shell *)
Module Shell.

Definition pages : list (string * string) := [
  ("/workbench/queue", "Queue"); ("/workbench/cases", "Cases"); ("/workbench/hunt", "Hunt");
  ("/workbench/detections", "Detections"); ("/workbench/simulate", "Simulate"); ("/workbench/load", "Load Lab");
  ("/workbench/coverage", "Coverage"); ("/workbench/agents", "Agents"); ("/workbench/settings", "Settings");
  ("/workbench/admin", "Admin")].

Definition externalLinks : list (string * string) := [
  ("http://localhost:4000/docs", "Collector API Docs"); ("http://localhost:8080/docs", "Control Plane API Docs");
  ("http://localhost:4300/docs", "Orchestrator API Docs"); ("http://localhost:5115", "Arroyo UI");
  ("http://localhost:8081", "Redpanda Console")].

Record palette := mkPalette { pl_open : bool; pl_pushed : list string; pl_windows : list string }.

Definition setOpen (b : bool) (p : palette) : palette := mkPalette b (pl_pushed p) (pl_windows p).
Definition toggle (p : palette) : palette := setOpen (negb (pl_open p)) p.

(** The key handler: Cmd-K or Ctrl-K. *)
Definition on_key (meta ctrl : bool) (key : string) (p : palette) : palette :=
  if (meta || ctrl) && String.eqb key "k" then setOpen true p else p.

Definition navigate (href : string) (p : palette) : palette :=
  if starts_with "http" href then mkPalette false (pl_pushed p) (pl_windows p ++ [href])
  else mkPalette false (pl_pushed p ++ [href]) (pl_windows p).

Section SignOut.
(** [authClient.signOut()]: whether it rejects. *)
Variable client_sign_out : M unit.

Definition logout_request : request := mkRequest "POST" "/api/auth/force-logout" [] None None.

(** [signOut]: where the router is sent, and the exception that is left. The
    [finally] block runs in both cases; its own exception replaces the other. *)
Definition signOut : M (list string * option err) :=
  let! r := attempt client_sign_out in
  let! f := attempt (fetch logout_request) in
  ret (match f, r with
       | Throw e, _ => ([], Some e)
       | Ok _, Throw e => (["/login"], Some e)
       | Ok _, Ok _ => (["/login"], None)
       end).
End SignOut.
End Shell.

(** ** The way back after signing in *)

Lemma form_decode_char c rest : form_decode (form_encode (String c rest)) = String c (form_decode (form_encode rest)).
Proof. destruct c as [[] [] [] [] [] [] [] []]; reflexivity. Qed.

Lemma form_decode_encode s : form_decode (form_encode s) = s.
Proof. induction s as [|c s IH]; [done|]. by rewrite form_decode_char, IH. Qed.

Section LoginFacts.
Import Login.

(** Signing in leads back to the page that was asked for. A workbench
    page without a session is redirected to the login page with its path in
    the query; the login page reads exactly that path back, whatever
    characters it has, and goes there, once, only when the sign-in succeeds;
    otherwise it stays, no longer busy, with an error. The target always
    begins with a slash; but a target with two slashes, which a browser
    takes for another host, passes the check as well. *)
Theorem login_returns getSessionCookie origin pathname jar :
  getSessionCookie jar = None → starts_with "/workbench" pathname = true →
  ∃ q, proxy getSessionCookie origin pathname jar = RRedirect (origin +:+ "/login?callbackUrl=" +:+ q) ∧
    LoginPage false (Some (form_decode q)) = LpForm pathname ∧
    (∀ l r, let l' := signed_in pathname r (onSubmit l) in
       lo_busy l' = false ∧
       match r with
       | SignedIn => lo_pushed l' = lo_pushed l ++ [pathname] ∧ lo_error l' = None
       | _ => lo_pushed l' = lo_pushed l ∧ is_Some (lo_error l')
       end) ∧
    (∀ callbackUrl, starts_with "/" (next callbackUrl) = true) ∧
    (∀ host, next ("//" +:+ host) = "//" +:+ host).
Proof.
  intros Hs Hw. exists (form_encode pathname). unfold proxy. rewrite Hw, Hs. split; [done|].
  rewrite form_decode_encode. split; [done|]. split; [|split].
  - assert (Hn : next pathname = pathname).
    { unfold next. destruct pathname as [|c p]; [done|]. cbn [starts_with] in *.
      apply andb_true_iff in Hw as [-> _]. done. }
    intros l r. destruct r; simpl; rewrite ?Hn; split; try done; split; try done; by eexists.
  - intros cb. unfold next. by destruct (starts_with "/" cb) eqn:E.
  - done.
Qed.

Lemma login_returns_witness :
  ∃ q, proxy (λ _, None) "http://h" "/workbench/cases/a b" ∅ = RRedirect ("http://h" +:+ "/login?callbackUrl=" +:+ q) ∧
    LoginPage false (Some (form_decode q)) = LpForm "/workbench/cases/a b".
Proof.
  destruct (login_returns (λ _, None) "http://h" "/workbench/cases/a b" ∅ eq_refl eq_refl) as (q & E & F & _).
  by exists q.
Defined.
End LoginFacts.

(** ** What the waitlist form says *)
Section FormFacts.
Import WaitlistForm.
Variable is_email : string → bool.

(** An answer the form takes for success. *)
Definition says_ok (r : response) : Prop :=
  match r with
  | RJson st b => 200 ≤ st ≤ 299 ∧ truthy (prop "ok" (json_normal b)) = true
  | RText _ _ => True
  | _ => False
  end.

Lemma answered_ok r x f : arrives r x → wf_status (answered (Ok x) f) = StOk → says_ok r.
Proof.
  destruct r as [st b| | |]; simpl; try done. intros [<- Hj]. rewrite Hj. unfold ft_ok.
  destruct (_ && _) eqn:Ho; simpl; [|by destruct (is_nullish (json_normal b))]. destruct (is_nullish (json_normal b)); [done|].
  destruct (truthy (prop "ok" (json_normal b))); [|done]. intros _. split; [|done]. apply andb_true_iff in Ho. lia.
Qed.

Lemma finish_send_outcome x w l : wp (finish_send x) (λ r _, r = Ok delivered ∨ r = Ok send_failed) w l.
Proof. unfold finish_send. case_match; [apply wp_ret; by left|]. apply wp_bind, wp_ret, wp_bind, wp_log, wp_ret. by right. Qed.

Lemma send_mail_outcome p key input ip w l :
  wp (send_mail p key input ip) (λ r _, r = Ok delivered ∨ r = Ok send_failed ∨ ∃ e, r = Throw e) w l.
Proof.
  unfold send_mail. destruct (formatWaitlistEmail input ip) as [subject text].
  assert (F : ∀ x w l, wp (finish_send x) (λ r _, r = Ok delivered ∨ r = Ok send_failed ∨ ∃ e, r = Throw e) w l).
  { intros x w' l'. eapply wp_mono; [apply finish_send_outcome|]. simpl. tauto. }
  apply wp_bind, wp_fetch. destruct (env_fetch w _ _) as [x|e]; [|by eauto].
  case_match; [|apply F]. apply wp_bind, wp_ret. case_match.
  - apply wp_bind, wp_fetch. destruct (env_fetch w _ _) as [y|e]; [apply F|by eauto].
  - apply wp_bind, wp_log, wp_ret. auto.
Qed.

(** The hidden field as validated. *)
Lemma schema_website b i s :
  waitlistSchema is_email b = Some i → prop "website" b = JStr s → wi_website i = Some s.
Proof.
  destruct b as [| | | | | |o]; try done. unfold waitlistSchema. intros E Hw.
  apply bind_Some in E as (name & _ & E). apply bind_Some in E as (email & _ & E).
  apply bind_Some in E as (company & _ & E). apply bind_Some in E as (role & _ & E).
  apply bind_Some in E as (message & _ & E). apply bind_Some in E as (website & Ew & E).
  rewrite Hw in Ew. injection E as <-. unfold optional_or_empty in Ew. cbn [is_str] in Ew.
  destruct (len_between 0 200 s); [by injection Ew as <-|].
  destruct (String.eqb_spec EmptyString s) as [<-|]; [by injection Ew as <-|done].
Qed.

(** In production an accepted submission that is not the honeypot's is a
    delivered one. *)
Lemma submit_outcome p ip b w l :
  we_production p = true → prop "website" b = JStr EmptyString →
  wp (waitlist_submit is_email p ip (Some b)) (λ r _, ∀ x, r = Ok x → says_ok x → x = delivered) w l.
Proof.
  intros Hp Hw. unfold waitlist_submit. destruct (waitlistSchema is_email b) as [input|] eqn:Hv.
  2:{ apply wp_ret. by intros x [= <-] [_ ?]. }
  rewrite (schema_website b input _ Hv Hw). cbn [String.eqb negb]. case_match.
  - rewrite Hp. apply wp_ret. by intros x [= <-] [_ ?].
  - eapply wp_mono; [apply send_mail_outcome|]. intros r l' [->|[->|[e ->]]] x; [by intros [= <-]| |done].
    by intros [= <-] [_ ?].
Qed.

(** A submission with the hidden field filled is answered without a mail, as
    accepted when the fields are valid. *)
Lemma submit_hidden p ip b s w l :
  prop "website" b = JStr s → s ≠ EmptyString →
  waitlist_submit is_email p ip (Some b) w l =
  (Ok (match waitlistSchema is_email b with
       | Some _ => json_ok (JObj [("ok", JBool true)])
       | None => RJson 400 (refused "Check the form and try again.")
       end), l).
Proof.
  intros Hw Hs. unfold waitlist_submit. destruct (waitlistSchema is_email b) as [input|] eqn:Hv; [|done].
  rewrite (schema_website b input s Hv Hw). by apply String.eqb_neq in Hs as ->.
Qed.

(** A valid submission whose mail is accepted is delivered. *)
Lemma submit_delivers p ip b input w l :
  waitlistSchema is_email b = Some input → default EmptyString (wi_website input) = EmptyString →
  trim (default EmptyString (we_api_key p)) ≠ EmptyString →
  (∀ rq, mail_for p ip input rq → ∃ y, env_fetch w (length l) rq = Ok y ∧ ft_ok y = true) →
  (waitlist_submit is_email p ip (Some b) w l).1 = Ok delivered.
Proof.
  intros Hv Hw Hk Hm. unfold waitlist_submit. rewrite Hv.
  assert (match wi_website input with Some s => negb (String.eqb s EmptyString) | None => false end = false) as ->
    by (destruct (wi_website input) as [s|]; [simpl in Hw; by subst s|done]).
  pose proof Hk as Hk'. apply String.eqb_neq in Hk' as ->.
  unfold send_mail. destruct (formatWaitlistEmail input ip) as [subject text] eqn:Ef.
  set (rq := mail_request _ _ _ _ subject text). destruct (Hm rq) as (y & Ey & Hy).
  { unfold mail_for. rewrite Ef. eexists _, _. split; [exact Hk|]. by split. }
  unfold bind, fetch at 1. rewrite Ey, Hy. simpl. unfold finish_send. by rewrite Hy.
Qed.

Definition over_limit (ip : string) (hits : gmap string (list Z)) (w : env) : bool :=
  (rateLimited Waitlist.WINDOW_MS Waitlist.PER_IP_LIMIT Waitlist.GLOBAL_LIMIT (env_now w 0) ip hits).1.

(** The route, once the limiter has spoken. *)
Lemma post_result p forwarded_for b hits w r h :
  let ip := client_ip forwarded_for in
  let out := run (waitlist_post is_email p forwarded_for (Some b) hits) w in
  out.1 = Ok (r, h) →
  (over_limit ip hits w = true ∧ fetches out.2 = [] ∧ r = RJson 429 (refused "Too many requests. Try again in an hour.")) ∨
  (over_limit ip hits w = false ∧ waitlist_submit is_email p ip (Some b) w [ENow] = (Ok r, out.2)).
Proof.
  intros ip out. unfold out, run, waitlist_post, over_limit. fold ip. rewrite !(bind_ok now _ w [] _ _ eq_refl). cbn [app length].
  destruct (rateLimited _ _ _ _ _ _) as [o h1]. destruct o; cbn [fst]; [intros [= <- _]; by left|].
  unfold bind. destruct (waitlist_submit is_email p ip (Some b) w [ENow]) as [[r0|e] l]; [|done].
  intros [= -> _]. by right.
Qed.

Lemma answered_json st b x f :
  arrives (RJson st b) x → wf_status (answered (Ok x) f) = StOk ↔ says_ok (RJson st b).
Proof.
  intros A. split; [by apply answered_ok|]. destruct A as [<- Hj]. intros [Hst Hb]. unfold answered. rewrite Hj.
  assert (ft_ok x = true) as -> by (unfold ft_ok; apply andb_true_iff; lia).
  destruct (is_nullish (json_normal b)) eqn:En; [|by rewrite Hb].
  by destruct (json_normal b).
Qed.

(** C38: what the waitlist form says after the browser received the route's
    answer, in production. It says that the person is on the list or it shows
    an error, and keeps the fields. With the hidden field empty it claims
    success only if a mail for the submitted, validated fields was accepted by
    the mail service in that call, and it does claim it when the fields are
    valid, the limiter lets the call through, a key is configured and the
    service accepts the mail. With the hidden field filled no mail is sent and
    success is claimed all the same, whenever the fields are valid and the
    limiter lets the call through. A request that fails shows an error. *)
Theorem form_tells_truth p forwarded_for f hits w r h x :
  we_production p = true →
  let ip := client_ip forwarded_for in let valid := waitlistSchema is_email (form_body f) in
  let out := run (waitlist_post is_email p forwarded_for (Some (form_body f)) hits) w in
  out.1 = Ok (r, h) → arrives r x →
  let f' := answered (Ok x) (submit f) in
  (wf_status f' = StOk ∨ wf_status f' = StError ∧ is_Some (wf_error f')) ∧
  (wf_website f = EmptyString →
     (wf_status f' = StOk →
        ∃ rq y, rq ∈ fetches out.2 ∧ Effects.answered w out.2 rq (Ok y) ∧ ft_ok y = true ∧
                mail_of is_email p ip (Some (form_body f)) rq) ∧
     (∀ input, over_limit ip hits w = false → valid = Some input →
        trim (default EmptyString (we_api_key p)) ≠ EmptyString →
        (∀ rq, mail_for p ip input rq → ∃ y, env_fetch w 1 rq = Ok y ∧ ft_ok y = true) → wf_status f' = StOk)) ∧
  (wf_website f ≠ EmptyString →
     fetches out.2 = [] ∧ (wf_status f' = StOk ↔ over_limit ip hits w = false ∧ is_Some valid)) ∧
  form_body f' = form_body f ∧
  (∀ e, wf_status (answered (Throw e) (submit f)) = StError).
Proof.
  intros Hp ip valid out E A f'. assert (Hweb : prop "website" (form_body f) = JStr (wf_website f)) by done.
  splits; [subst f'; unfold answered; repeat case_match; simpl; eauto| | |subst f'; unfold answered; by repeat case_match|done].
  - intros Hw. rewrite Hw in Hweb. split.
    + intros Hok. pose proof (answered_ok r x _ A Hok) as Hs.
      pose proof (waitlist_submit_sent is_email p ip (Some (form_body f)) w [ENow]) as S.
      pose proof (submit_outcome p ip (form_body f) w [ENow] Hp Hweb) as O.
      destruct (post_result _ _ _ _ _ _ _ E) as [(_ & _ & ->)|[_ Hr]]; [by destruct Hs|].
      unfold wp in S, O. fold ip out in Hr. rewrite Hr in S, O. destruct S as (rqs & Hf & HP & _ & Hd).
      destruct Hd as (rq & y & Hin & Ha & Hy); [by rewrite (O r eq_refl Hs)|].
      exists rq, y. simpl in Hf. rewrite Hf. splits; [done..|]. rewrite Forall_forall in HP. by apply HP.
    + intros input Hl Hv Hk Hm. destruct (post_result _ _ _ _ _ _ _ E) as [(Hl' & _)|[_ Hr]]; [by fold ip in Hl'; rewrite Hl in Hl'|].
      pose proof (submit_delivers p ip (form_body f) input w [ENow] Hv) as D. fold ip in Hr. rewrite Hr in D.
      rewrite (schema_website _ _ _ Hv Hweb) in D. injection (D eq_refl Hk Hm) as ->. by apply (answered_json _ _ _ _ A).
  - intros Hw. pose proof (submit_hidden p ip (form_body f) _ w [ENow] Hweb Hw) as D.
    destruct (post_result _ _ _ _ _ _ _ E) as [(Hl & Hf & ->)|[Hl Hr]]; fold ip in Hl; rewrite Hl.
    + split; [exact Hf|]. unfold f'. rewrite (answered_json _ _ _ _ A). split; [by intros [_ ?]|by intros [? _]].
    + fold ip out in Hr. rewrite Hr in D. fold valid in D. clearbody valid. injection D as -> ->. split; [done|]. unfold f'.
      destruct valid as [input|]; rewrite (answered_json _ _ _ _ A); split; [by split|done|by intros [[? ?] _]|by intros [_ []]].
Qed.
End FormFacts.

Definition ada : WaitlistForm.form :=
  WaitlistForm.mkForm "Ada Lovelace" "ada@example.com" "Analytical Engines" "ciso"
    "I want to try the signed triage loop." EmptyString WaitlistForm.StIdle None.
Definition mail_up : env := mkEnv (λ _ _, Ok (mkFetched 200 (Some (JObj [])) EmptyString)) (λ _, 0).
Definition with_key : wl_env := mkWlEnv (Some "key") None None true.
Definition ada_run := run (waitlist_post (includes "@") with_key None (Some (WaitlistForm.form_body ada)) ∅) mail_up.
Definition ada_answer : fetched := mkFetched 200 (Some (JObj [("ok", JBool true); ("delivered", JBool true)])) EmptyString.

Lemma ada_delivered : ∃ h, ada_run.1 = Ok (delivered, h).
Proof. eexists. vm_compute. reflexivity. Qed.

Lemma ada_shown : WaitlistForm.wf_status (WaitlistForm.answered (Ok ada_answer) (WaitlistForm.submit ada)) = WaitlistForm.StOk.
Proof. vm_compute. reflexivity. Qed.

Lemma ada_arrives : arrives delivered ada_answer.
Proof. by split. Qed.

(** The same fields with the hidden one filled: nothing is sent. *)
Definition bot : WaitlistForm.form :=
  WaitlistForm.mkForm "Ada Lovelace" "ada@example.com" "Analytical Engines" "ciso"
    "I want to try the signed triage loop." "http://spam" WaitlistForm.StIdle None.
Definition bot_run := run (waitlist_post (includes "@") with_key None (Some (WaitlistForm.form_body bot)) ∅) mail_up.
Definition bot_answer : fetched := mkFetched 200 (Some (JObj [("ok", JBool true)])) EmptyString.

Lemma bot_accepted : ∃ h, bot_run.1 = Ok (json_ok (JObj [("ok", JBool true)]), h).
Proof. eexists. vm_compute. reflexivity. Qed.

Lemma bot_arrives : arrives (json_ok (JObj [("ok", JBool true)])) bot_answer.
Proof. by split. Qed.

Lemma bot_not_limited : over_limit (client_ip None) ∅ mail_up = false ∧ is_Some (waitlistSchema (includes "@") (WaitlistForm.form_body bot)).
Proof. split; [vm_compute; reflexivity|]. eexists. vm_compute. reflexivity. Qed.

Lemma form_tells_truth_witness :
  WaitlistForm.wf_status (WaitlistForm.answered (Ok ada_answer) (WaitlistForm.submit ada)) = WaitlistForm.StOk ∧
  (∃ rq, rq ∈ fetches ada_run.2 ∧ mail_of (includes "@") with_key (client_ip None) (Some (WaitlistForm.form_body ada)) rq) ∧
  WaitlistForm.wf_status (WaitlistForm.answered (Ok bot_answer) (WaitlistForm.submit bot)) = WaitlistForm.StOk ∧
  fetches bot_run.2 = [].
Proof.
  split; [exact ada_shown|]. destruct ada_delivered as [h E]. destruct bot_accepted as [h' E']. unfold ada_run, bot_run in *.
  destruct (form_tells_truth (includes "@") with_key None ada ∅ mail_up delivered h ada_answer eq_refl E ada_arrives)
    as (_ & H & _).
  destruct (form_tells_truth (includes "@") with_key None bot ∅ mail_up _ h' bot_answer eq_refl E' bot_arrives)
    as (_ & _ & H' & _).
  destruct (proj1 (H eq_refl) ada_shown) as (rq & y & Hin & _ & _ & Hm). destruct H' as [Hn Hok]; [discriminate|].
  split; [exists rq; split; [exact Hin|exact Hm]|]. split; [apply Hok, bot_not_limited|exact Hn].
Defined.

(** ** The demo's card and the shell *)

(** Every answer the demo route gives without an envelope is shown as notes. *)
Example limited_shown w l :
  TryDemo.DemoResultCard (JObj limited) w l =
  (Ok (inr "rate limited", ("Demo is rate limited. Try again in a minute.", [])), l).
Proof. reflexivity. Qed.

(** Every page of the palette is behind the guard, and only the links that
    leave the workbench open a window. *)
Lemma palette_targets :
  (∀ href label, (href, label) ∈ Shell.pages →
     (∀ p, Shell.pl_windows (Shell.navigate href p) = Shell.pl_windows p) ∧
     ∀ get origin jar, get jar = None →
       proxy get origin href jar = RRedirect (origin +:+ "/login?callbackUrl=" +:+ form_encode href)) ∧
  (∀ href label, (href, label) ∈ Shell.externalLinks →
     ∀ p, Shell.pl_pushed (Shell.navigate href p) = Shell.pl_pushed p).
Proof.
  split; intros href label H; unfold Shell.pages, Shell.externalLinks in H; rewrite !elem_of_cons, elem_of_nil in H.
  - assert (Hs : starts_with "/workbench" href = true ∧ starts_with "http" href = false) by (by naive_solver).
    destruct Hs as [Hs Hh]. split; [intros p; unfold Shell.navigate; by rewrite Hh|].
    intros get origin jar Hj. unfold proxy. by rewrite Hs, Hj.
  - assert (Hh : starts_with "http" href = true) by (by naive_solver). intros p. unfold Shell.navigate. by rewrite Hh.
Qed.

(** Signing out always asks for the forced logout, also when the session
    library fails, and goes to the login page exactly when that request is
    answered, whatever its status; when it is not, the button stays busy. *)
Lemma sign_out_outcome (client : M unit) w :
  silent client →
  let out := run (Shell.signOut client) w in
  out.2 = [EFetch Shell.logout_request] ∧
  ∃ pushed e, out.1 = Ok (pushed, e) ∧ (pushed = ["/login"] ↔ ∃ x, env_fetch w 0 Shell.logout_request = Ok x) ∧
    (pushed = [] → is_Some e).
Proof.
  intros S out. subst out. unfold run, Shell.signOut, attempt, bind, fetch, ret. specialize (S w []).
  destruct (client w []) as [r l]. simpl in S. subst l. cbn [length app].
  destruct (env_fetch w 0 Shell.logout_request) as [x|e]; simpl.
  - split; [done|]. destruct r; do 2 eexists; (split; [done|]); (split; [|done]); split; eauto.
  - split; [done|]. do 2 eexists. split; [done|]. split; [|by eexists]. split; [done|]. by intros [x ?].
Qed.
