(* ===== verification/Markup.v ===== *)
(** * Rendered markup

    What a component renders, as a tree of elements: the text, and of the
    attributes those a visitor can act on or is told about. Class names that
    depend on the state are kept as a tone; layout and animation are not. *)
From S2P Require Import Prelude JsString.

Record attrs := mkAttrs {
  at_id : option string;
  at_href : option string;
  at_blank : bool;              (** [target="_blank"] *)
  at_cta : option string;       (** the call to action reported on a click *)
  at_current : bool;            (** [aria-current] *)
  at_disabled : bool;
  at_label : option string;     (** [aria-label] *)
  at_tone : option string
}.

Inductive node := Txt (s : string) | El (tag : string) (a : attrs) (kids : list node).

(** ** Building *)
Definition plain : attrs := mkAttrs None None false None false false None None.

Definition el (tag : string) (kids : list node) : node := El tag plain kids.
Definition line (tag text : string) : node := el tag [Txt text].

Definition on_attrs (f : attrs → attrs) (n : node) : node :=
  match n with Txt _ => n | El t a k => El t (f a) k end.

Definition with_id (i : string) : node → node :=
  on_attrs (λ a, mkAttrs (Some i) (at_href a) (at_blank a) (at_cta a) (at_current a) (at_disabled a) (at_label a) (at_tone a)).
Definition with_cta (c : string) : node → node :=
  on_attrs (λ a, mkAttrs (at_id a) (at_href a) (at_blank a) (Some c) (at_current a) (at_disabled a) (at_label a) (at_tone a)).
Definition with_current (b : bool) : node → node :=
  on_attrs (λ a, mkAttrs (at_id a) (at_href a) (at_blank a) (at_cta a) b (at_disabled a) (at_label a) (at_tone a)).
Definition with_disabled (b : bool) : node → node :=
  on_attrs (λ a, mkAttrs (at_id a) (at_href a) (at_blank a) (at_cta a) (at_current a) b (at_label a) (at_tone a)).
Definition with_label (l : string) : node → node :=
  on_attrs (λ a, mkAttrs (at_id a) (at_href a) (at_blank a) (at_cta a) (at_current a) (at_disabled a) (Some l) (at_tone a)).
Definition with_tone (t : string) : node → node :=
  on_attrs (λ a, mkAttrs (at_id a) (at_href a) (at_blank a) (at_cta a) (at_current a) (at_disabled a) (at_label a) (Some t)).

(** A link in the same tab, and one in a new tab. *)
Definition link_to (href : string) (kids : list node) : node :=
  El "a" (mkAttrs None (Some href) false None false false None None) kids.
Definition link_out (href : string) (kids : list node) : node :=
  El "a" (mkAttrs None (Some href) true None false false None None) kids.

Definition section (i : string) (kids : list node) : node := with_id i (el "section" kids).

(** ** Reading *)
Section Collect.
Context {A : Type}.
Variable of_attrs : attrs → list A.

(** What the elements' attributes hold, in document order. *)
Fixpoint collect (n : node) : list A :=
  match n with Txt _ => [] | El _ a kids => of_attrs a ++ concat (map collect kids) end.

Definition collect_all (ns : list node) : list A := concat (map collect ns).

Lemma collect_all_app ns ms : collect_all (ns ++ ms) = collect_all ns ++ collect_all ms.
Proof. unfold collect_all. by rewrite map_app, concat_app. Qed.

Lemma collect_all_cons n ns : collect_all (n :: ns) = collect n ++ collect_all ns.
Proof. done. Qed.

Lemma collect_el t a kids : collect (El t a kids) = of_attrs a ++ collect_all kids.
Proof. done. Qed.

Lemma collect_all_fmap {B} (f : B → node) (g : B → list A) (xs : list B) :
  (∀ x, collect (f x) = g x) → collect_all (f <$> xs) = concat (g <$> xs).
Proof.
  intros E. induction xs as [|x xs IH]; [done|]. cbn [fmap list_fmap]. rewrite collect_all_cons, IH, E. done.
Qed.

Lemma collect_all_none {B} (f : B → node) (xs : list B) : (∀ x, collect (f x) = []) → collect_all (f <$> xs) = [].
Proof. intros E. rewrite (collect_all_fmap f (λ _, [])) by done. by induction xs. Qed.

Lemma collect_all_imap {B} (f : nat → B → node) (xs : list B) :
  (∀ i x, collect (f i x) = []) → collect_all (imap f xs) = [].
Proof.
  revert f. induction xs as [|x xs IH]; intros f E; [done|]. cbn [imap]. rewrite collect_all_cons, E. apply IH. intros i y. apply E.
Qed.
End Collect.

Definition ids_of (a : attrs) : list string := option_list (at_id a).
Definition hrefs_of (a : attrs) : list (string * bool) := option_list ((λ h, (h, at_blank a)) <$> at_href a).
Definition ctas_of (a : attrs) : list string := option_list (at_cta a).

Definition ids : list node → list string := collect_all ids_of.
Definition hrefs : list node → list (string * bool) := collect_all hrefs_of.
Definition ctas : list node → list string := collect_all ctas_of.

(** The text, piece by piece. *)
Fixpoint text (n : node) : list string :=
  match n with Txt s => [s] | El _ _ kids => concat (map text kids) end.
Definition texts (ns : list node) : list string := concat (map text ns).
