(* ===== verification/FlowDiagram.v ===== *)
(** * The flow diagrams ([components/marketing/flow-diagram.tsx])

    [useCycledIndex] with its interval, and what [FlowRail], [VerticalFlow]
    and [BranchFlow] highlight for the index it gives. *)
From S2P Require Import Prelude JsObject JsNum JsString.

(** ** [useCycledIndex] *)

Record cycled := mkCycled {
  cy_active : nat;
  cy_generation : nat;
  cy_inView : bool;
  cy_next : option Z          (** when the interval fires next, if there is one *)
}.

Section Cycle.
Variable len : nat.
Variable cycleMs : Z.
Variable enabled : bool.

(** The effect: it replaces the interval. *)
Definition restart (now : Z) (s : cycled) : cycled :=
  mkCycled (cy_active s) (cy_generation s) (cy_inView s)
    (if negb enabled || negb (cy_inView s) || (len <? 2)%nat then None else Some (now + cycleMs)).

Definition cycled_mount (now : Z) : cycled := restart now (mkCycled 0 0 true None).

(** [select(index)]: the generation is a dependency of the effect. *)
Definition select (index : nat) (now : Z) (s : cycled) : cycled :=
  restart now (mkCycled index (S (cy_generation s)) (cy_inView s) (cy_next s)).

(** The observer's callback: the effect runs again when the value changes. *)
Definition set_in_view (b : bool) (now : Z) (s : cycled) : cycled :=
  if Bool.eqb b (cy_inView s) then s else restart now (mkCycled (cy_active s) (cy_generation s) b (cy_next s)).

(** The interval fires; the index is not a dependency. *)
Definition interval_fires (t : Z) (s : cycled) : cycled :=
  mkCycled ((cy_active s + 1) mod len) (cy_generation s) (cy_inView s) (Some (t + cycleMs)).

Inductive cycled_event := CySelect (index : nat) | CyView (b : bool) | CyFires.

Definition cycled_handle (e : cycled_event) (now : Z) (s : cycled) : option cycled :=
  match e with
  | CySelect i => if (i <? len)%nat then Some (select i now s) else None
  | CyView b => Some (set_in_view b now s)
  | CyFires => match cy_next s with
               | Some t => if t <=? now then Some (interval_fires t s) else None
               | None => None
               end
  end.

Definition cycled_step (s s' : cycled) : Prop := ∃ e now, cycled_handle e now s = Some s'.
End Cycle.

(** ** What is highlighted *)

Record FlowStep := mkFlowStep { fl_label : string; fl_hint : option string; fl_detail : option string }.

(** [String(index + 1).padStart(2, "0")] *)
Definition ordinal (index : nat) : string :=
  let s := string_of_Z (Z.of_nat index + 1) in if (String.length s <? 2)%nat then "0" +:+ s else s.

Record node := mkNode { nd_ordinal : string; nd_step : FlowStep; nd_current : bool }.

(** The cards of [FlowRail]. *)
Definition rail_nodes (steps : list FlowStep) (active : nat) : list node :=
  imap (λ i s, mkNode (ordinal i) s (Nat.eqb active i)) steps.

(** The connections after each entry but the last, of [FlowRail] and
    [VerticalFlow]: lit when the entry before it is the current one. *)
Definition edges (n active : nat) : list bool := (λ i, Nat.eqb active i) <$> seq 0 (pred n).

(** A moving packet is drawn on a lit connection unless motion is reduced. *)
Definition packets (reduceMotion : bool) (es : list bool) : list bool := (λ e, e && negb reduceMotion) <$> es.

(** The caption below [FlowRail] and [BranchFlow]: [current?.detail]. *)
Definition caption (steps : list FlowStep) (active : nat) : option (string * string) :=
  s ← steps !! active;
  d ← fl_detail s;
  if String.eqb d EmptyString then None else Some (fl_label s, d).

Definition branch_nodes (start left right join : FlowStep) (end_ : option FlowStep) : list FlowStep :=
  match end_ with Some e => [start; left; right; join; e] | None => [start; left; right; join] end.

(** [BranchFlow]: the left and right paths, above and below, and the last
    connection, when there is an end. *)
Record branch := mkBranch { br_viaLeft : bool; br_viaRight : bool; br_last : option bool }.
Definition branch_paths (active : nat) (end_ : option FlowStep) : branch :=
  mkBranch (Nat.eqb active 1) (Nat.eqb active 2) (match end_ with Some _ => Some (Nat.eqb active 3) | None => None end).

(** ** Facts *)
Section Facts.
Variable len : nat.
Variable cycleMs : Z.
Variable enabled : bool.

Definition cycling (s : cycled) : bool := enabled && cy_inView s && (2 <=? len)%nat.

Record cycled_inv (s : cycled) : Prop := {
  yi_index : (0 < len)%nat → (cy_active s < len)%nat;
  yi_timer : is_Some (cy_next s) ↔ cycling s = true
}.

Lemma restart_inv now s : ((0 < len)%nat → (cy_active s < len)%nat) → cycled_inv (restart len cycleMs enabled now s).
Proof.
  intros Hi. constructor; [done|]. unfold restart, cycling. cbn [cy_next cy_inView]. rewrite (Nat.leb_antisym len 2).
  destruct enabled, (cy_inView s), (len <? 2)%nat; cbn [negb orb andb];
    (split; [intros [? E]|intros E]; first [discriminate E|reflexivity|by eexists]).
Qed.

Lemma cycled_reach now s : star (cycled_step len cycleMs enabled) (cycled_mount len cycleMs enabled now) s → cycled_inv s.
Proof.
  intros R. refine (star_invariant _ cycled_inv _ _ _ _ R); [by apply restart_inv|].
  intros a b [Hi Ht] (e & t & E). destruct e as [i|v|]; cbn [cycled_handle] in E.
  - destruct (Nat.ltb_spec i len); [|done]. injection E as <-. by apply restart_inv.
  - injection E as <-. unfold set_in_view. destruct (Bool.eqb v (cy_inView a)); [by constructor|]. by apply restart_inv.
  - destruct (cy_next a) as [u|] eqn:En; [|done]. destruct (u <=? t); [|done]. injection E as <-.
    constructor; simpl.
    + intros Hl. apply Nat.mod_upper_bound. lia.
    + split; [intros _; by apply Ht|by eauto].
Qed.

Lemma ticks_mod k t s : (0 < len)%nat → (cy_active s < len)%nat →
  cy_active (Nat.iter k (interval_fires len cycleMs t) s) = ((cy_active s + k) mod len)%nat.
Proof.
  intros Hl Ha. induction k as [|k IH]; simpl; [by rewrite Nat.add_0_r, Nat.mod_small|].
  rewrite IH, Nat.Div0.add_mod_idemp_l. f_equal. lia.
Qed.

(** The diagram shows one of its entries; it moves on exactly while it is
    enabled, in view and has two entries; an entry chosen by hand is shown
    for a whole period from then on, and a full round comes back to where it
    was after as many ticks as there are entries, not before. *)
Theorem cycle_spec now s :
  star (cycled_step len cycleMs enabled) (cycled_mount len cycleMs enabled now) s → (0 < len)%nat →
  (cy_active s < len)%nat ∧ (is_Some (cy_next s) ↔ cycling s = true) ∧
  (∀ i t, (i < len)%nat → let s' := select len cycleMs enabled i t s in
     cy_active s' = i ∧ ∀ now' s'', cycled_handle len cycleMs enabled CyFires now' s' = Some s'' → t + cycleMs <= now') ∧
  (∀ t, cy_active (Nat.iter len (interval_fires len cycleMs t) s) = cy_active s) ∧
  (∀ t k, (0 < k < len)%nat → cy_active (Nat.iter k (interval_fires len cycleMs t) s) ≠ cy_active s).
Proof.
  intros R Hl. destruct (cycled_reach now s R) as [Hi Ht]. specialize (Hi Hl). split; [done|]. split; [done|]. split; [|split].
  - intros i t _ s'. split; [done|]. intros now' s'' E. subst s'. cbn [cycled_handle] in E. unfold select, restart in E.
    cbn [cy_next] in E. destruct (_ || _ || _); [done|]. destruct (Z.leb_spec (t + cycleMs) now'); [done|discriminate].
  - intros t. rewrite ticks_mod by done. replace (cy_active s + len)%nat with (cy_active s + 1 * len)%nat by lia.
    by rewrite Nat.Div0.mod_add, Nat.mod_small.
  - intros t k Hk. rewrite ticks_mod by done. intros E.
    destruct (decide (cy_active s + k < len)%nat) as [L|L].
    + rewrite Nat.mod_small in E by done. lia.
    + assert ((cy_active s + k) mod len = cy_active s + k - len)%nat as Em; [|lia].
      symmetry. apply (Nat.mod_unique _ _ 1); lia.
Qed.
End Facts.

Lemma cycle_spec_witness :
  let s := select 3 2200 true 2 500 (cycled_mount 3 2200 true 0) in
  cy_active s = 2%nat ∧ cy_active (Nat.iter 3 (interval_fires 3 2200 0) s) = 2%nat.
Proof.
  intros s. assert (R : star (cycled_step 3 2200 true) (cycled_mount 3 2200 true 0) s).
  { eapply star_snoc; [apply star_refl|]. by exists (CySelect 2), 500. }
  destruct (cycle_spec 3 2200 true 0 s R ltac:(lia)) as (_ & _ & _ & H & _). split; [reflexivity|exact (H 0)].
Defined.

(** One card is the current one, the connection that is lit starts from it,
    and there is none from the last card. *)
Lemma rail_highlight steps active :
  (active < length steps)%nat →
  (∀ i n, rail_nodes steps active !! i = Some n → nd_current n = true ↔ i = active) ∧
  (∀ i b, edges (length steps) active !! i = Some b → b = true ↔ i = active) ∧
  (existsb id (edges (length steps) active) = true ↔ (active < pred (length steps))%nat).
Proof.
  intros Ha. split; [|split].
  - intros i n. unfold rail_nodes. rewrite list_lookup_imap. intros (st & _ & ->)%fmap_Some. simpl.
    rewrite Nat.eqb_eq. split; congruence.
  - intros i b. unfold edges. rewrite list_lookup_fmap. intros (k & Hk & ->)%fmap_Some. apply lookup_seq in Hk as [-> _].
    simpl. rewrite Nat.eqb_eq. split; congruence.
  - unfold edges. rewrite existsb_exists. split.
    + intros (b & Hb & Ht). apply list_elem_of_In, list_elem_of_fmap in Hb as (k & -> & Hk).
      apply elem_of_seq in Hk. apply Nat.eqb_eq in Ht as <-. lia.
    + intros Hl. exists true. split; [|done]. apply list_elem_of_In, list_elem_of_fmap. exists active.
      split; [by rewrite Nat.eqb_refl|]. apply elem_of_seq. lia.
Qed.
