(* ===== verification/Telemetry.v ===== *)
(** * Telemetry ([lib/sentry.ts], [lib/analytics.ts], [components/shared/posthog-pageview.tsx])

    What leaves the browser for the error tracker and for product analytics:
    the filter of breadcrumbs, the typed analytics calls with their guards,
    and the page views. The two clients are libraries; what is modelled is
    what they are given. *)
From S2P Require Import Prelude JsObject JsNum JsString JsValue.

(** ** The error tracker *)

Record breadcrumb := mkCrumb {
  b_message : option string;
  b_category : option string;
  b_data : list (string * jsval)      (** [data], [level], [timestamp], ... *)
}.

Record sentry_event := mkEvent {
  ev_breadcrumbs : option (list breadcrumb);
  ev_rest : list (string * jsval)     (** [extra], [contexts], [exception], ... *)
}.

Definition BLOCKED_PATTERNS : list string := ["alert"; "case"; "reasoning"; "tenant"; "customer"].

(** [/pattern/i.test(s)] for a pattern of small ASCII letters. *)
Definition pattern_test (pattern s : string) : bool := includes pattern (to_lower s).

Definition blocked (b : breadcrumb) : bool :=
  existsb (λ p, pattern_test p (default EmptyString (b_message b))
                || pattern_test p (default EmptyString (b_category b))) BLOCKED_PATTERNS.

Definition beforeSend (e : sentry_event) : sentry_event :=
  match ev_breadcrumbs e with
  | Some bs => mkEvent (Some (List.filter (λ b, negb (blocked b)) bs)) (ev_rest e)
  | None => e
  end.

(** [initSentry] installs the filter, when the DSN is not empty. *)
Definition initSentry (dsn : option string) : option (sentry_event → sentry_event) :=
  if String.eqb (default EmptyString dsn) EmptyString then None else Some beforeSend.

(** ** Analytics *)

Inductive prop_value := PvStr (s : string) | PvNum (x : num) | PvBool (b : bool).

Inductive posthog_call :=
| Capture (event : string) (props : option (list (string * prop_value)))
| Identify (userId : string) (props : list (string * prop_value)).

Record ph_env := mkPh {
  ph_browser : bool;                 (** [typeof window !== 'undefined'] *)
  ph_key : option string             (** [NEXT_PUBLIC_POSTHOG_KEY] *)
}.

Definition ph_on (env : ph_env) : bool := ph_browser env && negb (String.eqb (default EmptyString (ph_key env)) EmptyString).

Definition capture (env : ph_env) (event : string) (props : option (list (string * prop_value))) : list posthog_call :=
  if ph_on env then [Capture event props] else [].

Inductive marketing_demo := DemoVerify | DemoGuards | DemoDeploy | DemoTry.
Definition marketing_demo_str (d : marketing_demo) : string :=
  match d with DemoVerify => "verify" | DemoGuards => "guards" | DemoDeploy => "deploy" | DemoTry => "try" end.

(** The methods of [analytics], with their arguments. *)
Inductive analytics_call :=
| case_opened | verdict_overridden | verdict_approved | query_run | command_palette_used
| user_signed_in (userId : string)
| login_failed (reason : string)
| simulation_run (scenario_id verdict execution_path : string) (latency_ms : num) (escalated : bool)
| batch_simulation_run (scenario_id : string) (n p95_ms p99_ms errors : num)
| hunt_query_run
| marketing_cta_clicked (cta : string)
| marketing_quickstart_copied (step : string)
| marketing_demo_step (demo : marketing_demo) (step : string).

Definition analytics (env : ph_env) (c : analytics_call) : list posthog_call :=
  match c with
  | case_opened => capture env "case_opened" None
  | verdict_overridden => capture env "verdict_overridden" None
  | verdict_approved => capture env "verdict_approved" None
  | query_run => capture env "query_run" None
  | command_palette_used => capture env "command_palette_used" None
  | user_signed_in userId =>
      if ph_on env then Identify userId [("role", PvStr "analyst")] :: capture env "user_signed_in" None else []
  | login_failed reason => capture env "login_failed" (Some [("reason", PvStr reason)])
  | simulation_run sid v path ms esc =>
      capture env "simulation_run" (Some [("scenario_id", PvStr sid); ("verdict", PvStr v); ("execution_path", PvStr path);
                                          ("latency_ms", PvNum ms); ("escalated", PvBool esc)])
  | batch_simulation_run sid n p95 p99 errors =>
      capture env "batch_simulation_run" (Some [("scenario_id", PvStr sid); ("n", PvNum n); ("p95_ms", PvNum p95);
                                                ("p99_ms", PvNum p99); ("errors", PvNum errors)])
  | hunt_query_run => capture env "hunt_query_run" None
  | marketing_cta_clicked cta => capture env "marketing_cta_clicked" (Some [("cta", PvStr cta)])
  | marketing_quickstart_copied step => capture env "marketing_quickstart_copied" (Some [("step", PvStr step)])
  | marketing_demo_step demo step =>
      capture env "marketing_demo_step" (Some [("demo", PvStr (marketing_demo_str demo)); ("step", PvStr step)])
  end.

(** ** Page views: the effect of [PostHogPageviewInner] *)

Definition pageview (env : ph_env) (origin : string) (pathname search : option string) : list posthog_call :=
  if String.eqb (default EmptyString (ph_key env)) EmptyString then []
  else match pathname with
       | None | Some EmptyString => []
       | Some p =>
           let url := (origin ++ p)%string in
           let q := default EmptyString search in
           [Capture "$pageview" (Some [("$current_url",
              PvStr (if String.eqb q EmptyString then url else (url ++ "?" ++ q)%string))])]
       end.

(** ** Facts *)

Lemma blocked_spec (b : breadcrumb) :
  blocked b = false ↔
  ∀ p m, p ∈ BLOCKED_PATTERNS → b_message b = Some m ∨ b_category b = Some m → pattern_test p m = false.
Proof.
  unfold blocked. rewrite <- not_true_iff_false, existsb_exists. split.
  - intros N p m Hp Hm. apply not_true_iff_false. intros T. apply N. exists p.
    rewrite <- list_elem_of_In. split; [exact Hp |].
    destruct Hm as [-> | ->]; simpl; rewrite T, ?orb_true_r; reflexivity.
  - intros A (p & Hp & T). rewrite <- list_elem_of_In in Hp. apply orb_true_iff in T.
    assert (pattern_test p EmptyString = false) as E0
      by (clear -Hp; unfold BLOCKED_PATTERNS in Hp; repeat (apply elem_of_cons in Hp as [-> | Hp]; [reflexivity |]);
          apply elem_of_nil in Hp; contradiction).
    destruct T as [T | T].
    + destruct (b_message b) as [m |]; simpl in T; [| congruence]. rewrite (A p m Hp) in T; [discriminate | tauto].
    + destruct (b_category b) as [m |]; simpl in T; [| congruence]. rewrite (A p m Hp) in T; [discriminate | tauto].
Qed.

(** What is sent: the breadcrumbs without a blocked word in their message or
    category, in their order and unchanged; nothing is added; everything else
    of the event, and the data of the breadcrumbs, is sent as it was. *)
Theorem beforeSend_scrubs (e : sentry_event) :
  ev_rest (beforeSend e) = ev_rest e ∧
  (ev_breadcrumbs e = None → beforeSend e = e) ∧
  (∀ bs, ev_breadcrumbs e = Some bs →
     ∃ bs', ev_breadcrumbs (beforeSend e) = Some bs' ∧ sublist bs' bs ∧
            (∀ b, b ∈ bs' ↔ b ∈ bs ∧ ∀ p m, p ∈ BLOCKED_PATTERNS → b_message b = Some m ∨ b_category b = Some m →
                                            pattern_test p m = false)) ∧
  beforeSend (beforeSend e) = beforeSend e.
Proof.
  assert (∀ l, List.filter (λ b, negb (blocked b)) (List.filter (λ b, negb (blocked b)) l)
               = List.filter (λ b, negb (blocked b)) l) as Idem.
  { induction l as [| b l IH]; [reflexivity |]. simpl. destruct (blocked b) eqn:B; simpl; rewrite ?B; simpl; congruence. }
  destruct e as [[bs |] rest]; unfold beforeSend; simpl.
  - split; [reflexivity |]. split; [discriminate |]. split; [| rewrite Idem; reflexivity].
    intros ? [= <-]. eexists. split; [reflexivity |]. split.
    + clear. induction bs as [| b bs IH]; [constructor |]. simpl. destruct (blocked b); constructor; exact IH.
    + intros b. rewrite !list_elem_of_In, filter_In, negb_true_iff, blocked_spec. reflexivity.
  - repeat split; try discriminate. 
Qed.

(** Outside the browser or without a key nothing is captured, whichever
    function is called; otherwise one event is captured, under the name of
    the function, and only a sign-in identifies a person. *)
Theorem analytics_guarded (env : ph_env) (c : analytics_call) :
  if ph_on env
  then ∃ ev props, (analytics env c = [Capture ev props] ∨
                    ∃ u, c = user_signed_in u ∧ analytics env c = [Identify u [("role", PvStr "analyst")]; Capture ev props])
  else analytics env c = [].
Proof.
  destruct (ph_on env) eqn:On.
  - destruct c; simpl; unfold capture; rewrite On; do 2 eexists; first [left; reflexivity | right; eexists; split; reflexivity].
  - destruct c; simpl; unfold capture; rewrite On; reflexivity.
Qed.

(** A word is found whatever its case, and inside another word. *)
Example scrub_case :
  map (λ m, blocked (mkCrumb (Some m) None [])) ["Alert ALT-1 opened"; "TENANT acme"; "showcase"; "GET /api/health"]
  = [true; true; true; false].
Proof. vm_compute. reflexivity. Qed.

(** The data of a breadcrumb is not looked at. *)
Example scrub_data :
  let b := mkCrumb (Some "fetch") (Some "xhr") [("tenant_id", JStr "acme")] in
  beforeSend (mkEvent (Some [b]) []) = mkEvent (Some [b]) [].
Proof. vm_compute. reflexivity. Qed.
