(* ===== verification/Catalog.v ===== *)
(** * The rule catalogues

    The detection rules are written down three times: the rule files
    [detections/*.heliql] that the detection runtime compiles and whose names
    the fired detections carry, the table of the workbench's rules page
    ([WorkbenchPages.Detections.RULES]) and the table of the marketing page
    ([components/marketing/detections-catalog-section.tsx]). This file has the
    other two next to the first, and what the rules page makes of the
    detections those rules fire. *)
From Stdlib Require Import Ascii.
From S2P Require Import Prelude JsObject JsNum JsString JsValue Types AlertMappers Effects CasePage QueuePage WorkbenchPages.

Import Detections.

(** ** The rule files *)

Record HeliqlRule := mkHeliql {
  hq_detection : string;
  hq_description : string;
  hq_applies_to : string;
  hq_where : list string;
  hq_entity : option string;
  hq_condition : list string;
  hq_severity : Severity;
  hq_mitre : list string;
  hq_runtime : list string
}.

Definition heliql_aws_cloudtrail_logging_disabled : HeliqlRule := mkHeliql
  "aws_cloudtrail_logging_disabled"
  "Detects when CloudTrail logging is stopped or a trail is deleted, which is a common defense evasion technique before an attack."
  "ocsf.cloud_activity"
  [("event.api_service = " +:+ quote +:+ "cloudtrail.amazonaws.com" +:+ quote);
     ("event.api_operation IN [" +:+ quote +:+ "StopLogging" +:+ quote +:+ ", " +:+ quote +:+ "DeleteTrail" +:+ quote +:+ ", " +:+ quote +:+ "UpdateTrail" +:+ quote +:+ "]")]
  None
  []
  SevCritical ["T1562.001"] ["stream"; "batch"].

Definition heliql_aws_iam_excessive_privilege : HeliqlRule := mkHeliql
  "aws_iam_user_excessive_privilege"
  "Detects attachment of AdministratorAccess or PowerUserAccess policies to an IAM user, indicating potential privilege escalation."
  "ocsf.cloud_activity"
  [("event.api_service = " +:+ quote +:+ "iam.amazonaws.com" +:+ quote);
     ("event.api_operation IN [" +:+ quote +:+ "AttachUserPolicy" +:+ quote +:+ ", " +:+ quote +:+ "PutUserPolicy" +:+ quote +:+ ", " +:+ quote +:+ "AddUserToGroup" +:+ quote +:+ "]")]
  None
  []
  SevHigh ["T1078.004"] ["stream"; "batch"].

Definition heliql_aws_login_anomalous_geo : HeliqlRule := mkHeliql
  "aws_console_login_from_anomalous_geolocation"
  "Detects AWS console login from a region the user has not authenticated from in the past 90 days."
  "ocsf.authentication"
  [("event.auth_status = " +:+ quote +:+ "Success" +:+ quote);
     ("event.api_operation = " +:+ quote +:+ "ConsoleLogin" +:+ quote)]
  (Some "identity.user")
  ["event.cloud_region NOT IN baseline(identity.user, 90d)"]
  SevMedium ["T1078.004"] ["stream"; "batch"].

Definition heliql_aws_new_iam_user_then_keys : HeliqlRule := mkHeliql
  "aws_new_iam_user_then_access_keys_sequence"
  "Detects the sequence: new IAM user created, then access keys created for that user within 5 minutes. This pattern is commonly used in post-compromise persistence."
  "ocsf.cloud_activity"
  [("event.api_service = " +:+ quote +:+ "iam.amazonaws.com" +:+ quote);
     ("event.api_operation = " +:+ quote +:+ "CreateUser" +:+ quote)]
  (Some "identity.user")
  ["unique(event.cloud_region, window: 5m) > 0"]
  SevHigh ["T1136"; "T1098"] ["stream"].

Definition heliql_aws_root_account_use : HeliqlRule := mkHeliql
  "aws_root_account_use"
  "Detects any use of the AWS root account, which should never occur in normal operations."
  "ocsf.authentication"
  [("actor_user_name = " +:+ quote +:+ "root" +:+ quote);
     ("event.api_operation = " +:+ quote +:+ "ConsoleLogin" +:+ quote)]
  None
  []
  SevCritical ["T1078"] ["stream"; "batch"].

Definition heliql_aws_s3_bucket_made_public : HeliqlRule := mkHeliql
  "aws_s3_bucket_policy_made_public"
  "Detects when an S3 bucket policy is modified to allow public access, which can expose sensitive data."
  "ocsf.cloud_activity"
  [("event.api_service = " +:+ quote +:+ "s3.amazonaws.com" +:+ quote);
     ("event.api_operation IN [" +:+ quote +:+ "PutBucketPolicy" +:+ quote +:+ ", " +:+ quote +:+ "PutBucketAcl" +:+ quote +:+ ", " +:+ quote +:+ "DeletePublicAccessBlock" +:+ quote +:+ "]")]
  None
  []
  SevHigh ["T1567.002"] ["stream"; "batch"].

Definition heliql_m365_inbox_auto_forward : HeliqlRule := mkHeliql
  "m365_inbox_rule_auto_forward_external"
  "Detects creation of an inbox rule that forwards all mail to an external address, a classic persistence and exfiltration technique."
  "ocsf.cloud_activity"
  [("event.api_service = " +:+ quote +:+ "Exchange" +:+ quote);
     ("event.api_operation IN [" +:+ quote +:+ "New-InboxRule" +:+ quote +:+ ", " +:+ quote +:+ "Set-InboxRule" +:+ quote +:+ "]")]
  None
  []
  SevHigh ["T1564.008"] ["stream"; "batch"].

Definition heliql_m365_mass_external_sharing : HeliqlRule := mkHeliql
  "m365_mass_external_sharing"
  "Detects a user sharing more than 10 items externally within a 1-hour window, indicative of data exfiltration via SharePoint or OneDrive."
  "ocsf.cloud_activity"
  [("event.api_service = " +:+ quote +:+ "SharePoint" +:+ quote);
     ("event.api_operation IN [" +:+ quote +:+ "SharingSet" +:+ quote +:+ ", " +:+ quote +:+ "AddedToSecureLink" +:+ quote +:+ ", " +:+ quote +:+ "SecureLinkCreated" +:+ quote +:+ "]")]
  (Some "identity.user")
  ["unique(event.cloud_region, window: 1h) > 10"]
  SevHigh ["T1567.002"] ["stream"; "batch"].

Definition heliql_okta_brute_force : HeliqlRule := mkHeliql
  "okta_brute_force_authentication"
  "Detects repeated failed authentication attempts against Okta from the same user within 10 minutes — indicative of a brute-force or credential stuffing attack."
  "ocsf.authentication"
  []
  (Some "identity.user")
  ["unique(event.cloud_region, window: 10m) > 0";
     ("event.auth_status = " +:+ quote +:+ "Failure" +:+ quote)]
  SevHigh ["T1110"] ["stream"].

Definition heliql_okta_mfa_bypass : HeliqlRule := mkHeliql
  "okta_mfa_bypass_attempt"
  "Detects authentication success after multiple MFA factor failures, which can indicate an MFA fatigue or bypass attack."
  "ocsf.authentication"
  [("event.api_service = " +:+ quote +:+ "okta" +:+ quote);
     ("event.auth_status = " +:+ quote +:+ "Success" +:+ quote)]
  (Some "identity.user")
  ["unique(event.cloud_region, window: 5m) > 0"]
  SevHigh ["T1556.006"] ["stream"].

Definition heliql_rules : list HeliqlRule := [
  heliql_aws_cloudtrail_logging_disabled;
  heliql_aws_iam_excessive_privilege;
  heliql_aws_login_anomalous_geo;
  heliql_aws_new_iam_user_then_keys;
  heliql_aws_root_account_use;
  heliql_aws_s3_bucket_made_public;
  heliql_m365_inbox_auto_forward;
  heliql_m365_mass_external_sharing;
  heliql_okta_brute_force;
  heliql_okta_mfa_bypass].

(** ** The table of the marketing page *)

Record CatalogRule := mkCatalog {
  cr_id : string; cr_title : string; cr_mitre : string; cr_severity : string; cr_source : string
}.

Definition rules : list CatalogRule := [
  mkCatalog "aws_console_login_from_anomalous_geolocation" "Console login from anomalous region" "T1078.004" "medium" "CloudTrail";
  mkCatalog "aws_cloudtrail_logging_disabled" "CloudTrail logging disabled" "T1562.001" "critical" "CloudTrail";
  mkCatalog "aws_root_account_use" "AWS root account used" "T1078" "critical" "CloudTrail";
  mkCatalog "aws_iam_excessive_privilege" "Excessive IAM privilege granted" "T1098" "high" "CloudTrail";
  mkCatalog "aws_new_iam_user_then_keys" "New IAM user + access keys" "T1136 + T1098" "high" "CloudTrail";
  mkCatalog "aws_s3_bucket_made_public" "S3 bucket made public" "T1530" "high" "CloudTrail";
  mkCatalog "okta_brute_force" "Okta brute-force authentication" "T1110" "high" "Okta";
  mkCatalog "okta_mfa_bypass" "Okta MFA bypass attempt" "T1556.006" "high" "Okta";
  mkCatalog "m365_mass_external_sharing" "M365 mass external sharing" "T1567.002" "high" "M365";
  mkCatalog "m365_inbox_auto_forward" "M365 inbox auto-forward" "T1564.008" "high" "M365"].

(** ** Agreement *)

Definition file_of (r : RuleMeta) : option HeliqlRule :=
  snd <$> list_find (λ h, hq_detection h = ru_id r) heliql_rules.

Definition severity_agrees (r : RuleMeta) : bool :=
  match file_of r with Some h => bool_decide (hq_severity h = ru_severity r) | None => false end.
Definition mitre_agrees (r : RuleMeta) : bool :=
  match file_of r with Some h => bool_decide (hq_mitre h = ru_mitre r) | None => false end.
Definition applies_agrees (r : RuleMeta) : bool :=
  match file_of r with Some h => bool_decide (hq_applies_to h = ru_applies_to r) | None => false end.

Lemma rules_named : ∀ h, h ∈ heliql_rules → ∃ r, r ∈ RULES ∧ ru_id r = hq_detection h.
Proof.
  intros h Hh. assert (hq_detection h ∈ ru_id <$> RULES) as Hi.
  { apply (list_elem_of_fmap_2 hq_detection) in Hh. revert Hh.
    generalize (hq_detection h). clear h. intros id. vm_compute (hq_detection <$> heliql_rules). vm_compute (ru_id <$> RULES).
    rewrite !elem_of_cons. tauto. }
  apply list_elem_of_fmap in Hi as (r & -> & Hr). eauto.
Qed.

Lemma rules_distinct r r' : r ∈ RULES → r' ∈ RULES → ru_id r = ru_id r' → r = r'.
Proof.
  assert (NoDup (ru_id <$> RULES)) as N by (apply (bool_decide_unpack _); vm_compute; reflexivity).
  intros [i Hi]%list_elem_of_lookup [j Hj]%list_elem_of_lookup E.
  assert (i = j) as ->.
  { eapply (NoDup_lookup _ _ _ _ N); rewrite list_lookup_fmap; [by rewrite Hi | by rewrite Hj; simpl; rewrite E]. }
  congruence.
Qed.

Lemma sorted_rules_elem r : r ∈ sorted_rules ↔ r ∈ RULES.
Proof. unfold sorted_rules. by rewrite (sort_by_perm by_rule_severity RULES). Qed.

(** Every detection that one of the rule files fires has its row: the page
    shows, for the rule of that name, a time not earlier than the
    detection's, in exactly one row; a rule file none of whose detections is
    in the answer is shown as never fired. The severity shown is the file's
    for every rule but one. *)
Theorem fired_rules_have_rows ds h :
  h ∈ heliql_rules →
  ∃ r, (∀ r' fired, (r', fired) ∈ dp_rows (detections_page_of (last_fired ds)) → ru_id r' = hq_detection h → r' = r) ∧
    ru_id r = hq_detection h ∧
    (severity_agrees r = true ∨ hq_detection h = "m365_inbox_rule_auto_forward_external") ∧
    (∀ d, d ∈ ds → Detection.fd_detection_id d = hq_detection h →
       ∃ t, (r, Some t) ∈ dp_rows (detections_page_of (last_fired ds)) ∧ String.leb (Detection.fd_fired_at d) t = true) ∧
    ((∀ d, d ∈ ds → Detection.fd_detection_id d ≠ hq_detection h) →
       (r, None) ∈ dp_rows (detections_page_of (last_fired ds))).
Proof.
  intros Hh. destruct (rules_named h Hh) as (r & Hr & Hid). exists r.
  assert (Row : (r, obj_get (ru_id r) (last_fired ds)) ∈ dp_rows (detections_page_of (last_fired ds))).
  { unfold detections_page_of. cbn [dp_rows]. apply (list_elem_of_fmap_2 (λ r, (r, obj_get (ru_id r) (last_fired ds)))).
    by apply sorted_rules_elem. }
  split; [|split; [done|split; [|split]]].
  - intros r' fired Hin E. unfold detections_page_of in Hin. cbn [dp_rows] in Hin.
    apply list_elem_of_fmap in Hin as (r'' & [= <- _] & Hr'). apply sorted_rules_elem in Hr'.
    apply rules_distinct; congruence.
  - rewrite <- Hid. clear Row Hh Hid h. revert r Hr.
    assert (Forall (λ r, severity_agrees r = true ∨ ru_id r = "m365_inbox_rule_auto_forward_external") RULES) as F
      by (apply (bool_decide_unpack _); vm_compute; reflexivity).
    intros r Hr. rewrite Forall_forall in F. by apply F.
  - intros d Hd Hdid. rewrite <- Hid in Hdid.
    destruct (proj2 (last_fired_some ds (ru_id r))) as [t Ht]; [by exists d|].
    exists t. split; [by rewrite <- Ht|]. apply last_fired_get in Ht as [_ Ht]. by apply Ht.
  - intros Hn. replace (@None string) with (obj_get (ru_id r) (last_fired ds)); [done|].
    destruct (obj_get (ru_id r) (last_fired ds)) as [t|] eqn:E; [|done].
    destruct (proj1 (last_fired_some ds (ru_id r))) as (d & Hd & Hdid); [by eexists|].
    exfalso. apply (Hn d Hd). congruence.
Qed.

(** The tables name the same ten rules as the files, with these differences:
    a severity, six lists of techniques, and the names of six rules of the
    marketing page, which no detection carries. *)
Lemma catalog_divergences :
  (ru_id <$> RULES) ≡ₚ (hq_detection <$> heliql_rules) ∧ length rules = 10%nat ∧
  (ru_id <$> filter (λ r, severity_agrees r = false) RULES) = ["m365_inbox_rule_auto_forward_external"] ∧
  (ru_id <$> filter (λ r, mitre_agrees r = false) RULES) =
    ["aws_iam_user_excessive_privilege"; "aws_new_iam_user_then_access_keys_sequence"; "aws_s3_bucket_policy_made_public";
     "okta_mfa_bypass_attempt"; "m365_mass_external_sharing"; "m365_inbox_rule_auto_forward_external"] ∧
  (ru_id <$> filter (λ r, applies_agrees r = false) RULES) = [] ∧
  (cr_id <$> filter (λ c, cr_id c ∉ hq_detection <$> heliql_rules) rules) =
    ["aws_iam_excessive_privilege"; "aws_new_iam_user_then_keys"; "aws_s3_bucket_made_public"; "okta_brute_force";
     "okta_mfa_bypass"; "m365_inbox_auto_forward"].
Proof.
  split.
  { apply NoDup_Permutation; [apply (bool_decide_unpack _); vm_compute; reflexivity ..|].
    intros id. vm_compute (ru_id <$> RULES). vm_compute (hq_detection <$> heliql_rules). rewrite !elem_of_cons. tauto. }
  vm_compute. repeat split.
Qed.

(** An inbox-forwarding detection arrives with the severity of its rule file
    and is counted on the rules page under another one. *)
Example inbox_rule_severity :
  (hq_severity <$> filter (λ h, hq_detection h = "m365_inbox_rule_auto_forward_external") heliql_rules) = [SevHigh] ∧
  (ru_severity <$> filter (λ r, ru_id r = "m365_inbox_rule_auto_forward_external") RULES) = [SevCritical].
Proof. vm_compute. split; reflexivity. Qed.
