(* ===== verification/SiteState.v ===== *)
(** * The moving parts of the home page

    - [components/marketing/verify-demo.tsx]: the chain animation, its
      interval and what its two cards show;
    - [components/marketing/stack-diagram-section.tsx]: the gate's timeouts;
    - [components/marketing/quickstart-section.tsx]: a copy button with its
      clipboard writes and timeouts.

    Time is the argument of each event. A timer fires at or after its time;
    [clearInterval] and [clearTimeout] drop it. *)
From S2P Require Import Prelude JsString Marketing.

(** ** The chain animation *)
Module VerifyDemo.

Record step := mkVerifyStep { vs_label : string; vs_out : string; vs_tone : string }.

Definition steps : list step := [
  mkVerifyStep "Sign" "$ attest verify attestations.ndjson --key-file verifying-key.txt" "idle";
  mkVerifyStep "Verify" "PASS ×3  ·  verified 3/3" "pass";
  mkVerifyStep "Tamper" "$ sed -i 's/benign/true_positive/' attestations.ndjson" "idle";
  mkVerifyStep "Caught" "FAIL  5a3e…0001  signature mismatch" "fail";
  mkVerifyStep "Delete row" "$ sed -i '2d' attestations.ndjson" "idle";
  mkVerifyStep "Caught" "FAIL  5a3e…0003  chain break: prev_hash=1beb… expected=59f1…" "fail"].

Definition STEP_MS : Z := 1900.

Definition advance (phase : nat) : nat := ((phase + 1) mod length steps)%nat.
Definition tampered (phase : nat) : bool := Nat.eqb phase 2 || Nat.eqb phase 3.
Definition deleted (phase : nat) : bool := Nat.eqb phase 4 || Nat.eqb phase 5.

Record verify_demo := mkVerify { vd_phase : nat; vd_paused : bool; vd_next : option Z }.

Inductive verify_event := VdHover (inside : bool) | VdSelect (i : nat) | VdTick.

Section Motion.
Variable reduceMotion : bool.

(** The effect: it depends on [paused], not on the phase. *)
Definition verify_effect (now : Z) (s : verify_demo) : verify_demo :=
  mkVerify (vd_phase s) (vd_paused s) (if reduceMotion || vd_paused s then None else Some (now + STEP_MS)).

Definition verify_mount (now : Z) : verify_demo := verify_effect now (mkVerify 1 false None).

Definition hover (inside : bool) (now : Z) (s : verify_demo) : verify_demo :=
  if Bool.eqb inside (vd_paused s) then s else verify_effect now (mkVerify (vd_phase s) inside None).

Definition setPhase (i : nat) (s : verify_demo) : verify_demo := mkVerify i (vd_paused s) (vd_next s).

Definition verify_handle (e : verify_event) (now : Z) (s : verify_demo) : option verify_demo :=
  match e with
  | VdHover b => Some (hover b now s)
  | VdSelect i => if (i <? length steps)%nat then Some (setPhase i s) else None
  | VdTick => match vd_next s with
              | Some t => if t <=? now then Some (mkVerify (advance (vd_phase s)) (vd_paused s) (Some (t + STEP_MS))) else None
              | None => None
              end
  end.

Definition verify_step (s s' : verify_demo) : Prop := ∃ e now, verify_handle e now s = Some s'.
End Motion.

(** The cards. *)
Definition blocks : list (string * string) := [("#41", "e3b0"); ("#42", "a91c"); ("#43", "7be2")].
Definition visible (isDeleted : bool) : list (string * string) :=
  if isDeleted then filter (λ b, b.1 ≠ "#42") blocks else blocks.

Definition envelope (isTampered : bool) : list (string * string) := [
  ("agent_id", quote +:+ "triager-hybrid-v1" +:+ quote);
  ("verdict", if isTampered then quote +:+ "true_positive" +:+ quote else quote +:+ "benign" +:+ quote);
  ("model_hash", quote +:+ "8431…109f" +:+ quote);
  ("prev_hash", quote +:+ "e3b0…c442" +:+ quote);
  ("signature", quote +:+ "9f3a…77d1" +:+ quote)].

(** The cards' marks: [failed] of each card, the changed field, and the
    broken block. *)
Definition envelope_failed (phase : nat) : bool := Nat.eqb phase 3.
Definition chain_failed (phase : nat) : bool := Nat.eqb phase 5.
Definition hot (isTampered : bool) (field : string) : bool := String.eqb field "verdict" && isTampered.
Definition broken (failed : bool) (block : string) : bool := failed && String.eqb block "#43".

Definition verify_inv (reduceMotion : bool) (s : verify_demo) : Prop :=
  (vd_phase s < length steps)%nat ∧ (is_Some (vd_next s) ↔ reduceMotion = false ∧ vd_paused s = false).

Lemma verify_effect_inv r now s : (vd_phase s < length steps)%nat → verify_inv r (verify_effect r now s).
Proof.
  intros H. split; [done|]. cbn. destruct r, (vd_paused s); cbn; (split; [intros [? E]|intros [E1 E2]]); try done; by eexists.
Qed.

Lemma verify_reach r now s : star (verify_step r) (verify_mount r now) s → verify_inv r s.
Proof.
  intros R. refine (star_invariant _ (verify_inv r) _ _ _ _ R); [apply verify_effect_inv; cbn; lia|].
  intros a b [Hp Ht] (e & t & E). destruct e as [x|i|]; cbn [verify_handle] in E.
  - injection E as <-. unfold hover. destruct (Bool.eqb x (vd_paused a)); [done|]. by apply verify_effect_inv.
  - destruct (Nat.ltb_spec i (length steps)); [|done]. by injection E as <-.
  - destruct (vd_next a) as [u|] eqn:En; [|done]. destruct (u <=? t); [|done]. injection E as <-. split.
    + by apply Nat.mod_upper_bound.
    + cbn. rewrite <- Ht. split; intros _; by eexists.
Qed.

(** The animation never reports a failure without its cause in the cards,
    nor a pass over a changed record: whatever the visitor does, one of the
    six lines is shown; it is a failure exactly when one card, and then only
    one, is marked; the marked envelope is the one with the changed verdict,
    the marked chain the one with a block missing; and a pass is shown over
    the untouched envelope and the whole chain. *)
Theorem verify_demo_honest r now s :
  star (verify_step r) (verify_mount r now) s →
  ∃ st, steps !! vd_phase s = Some st ∧
    (vs_tone st = "fail" ↔ xorb (envelope_failed (vd_phase s)) (chain_failed (vd_phase s)) = true) ∧
    (envelope_failed (vd_phase s) = true → ("verdict", quote +:+ "true_positive" +:+ quote) ∈ envelope (tampered (vd_phase s))) ∧
    (chain_failed (vd_phase s) = true →
       "#42" ∉ (visible (deleted (vd_phase s))).*1 ∧ filter (λ b, broken (chain_failed (vd_phase s)) b.1 = true) (visible (deleted (vd_phase s))) = [("#43", "7be2")]) ∧
    (vs_tone st = "pass" → envelope (tampered (vd_phase s)) = envelope false ∧ visible (deleted (vd_phase s)) = blocks).
Proof.
  intros R. destruct (verify_reach r now s R) as [Hp _]. destruct s as [ph pa ne]. cbn [vd_phase] in *. clear R.
  assert (Hin : ("verdict", quote +:+ "true_positive" +:+ quote) ∈ envelope true) by (right; left).
  assert (Hno : "#42" ∉ (visible true).*1) by (apply (bool_decide_unpack _); vm_compute; exact I).
  cbn in Hp.
  do 6 (destruct ph as [|ph]; [eexists; split; [reflexivity|]; cbn [vs_tone]; split; [vm_compute; split; done|];
    split; [by intros ?|]; split; [by intros ?|]; done|]). lia.
Qed.
End VerifyDemo.

(** ** The gate of the stack diagram *)
Module Gate.
Import Cycles.

Record gate := mkGate { gt_cycle : nat; gt_paused : bool; gt_timer : option Z }.

Inductive gate_event := GtHover (inside : bool) | GtFire.

Section Motion.
Variable reduceMotion : bool.

(** The effect: it depends on the cycle and on [paused]. *)
Definition gate_effect (now : Z) (g : gate) : gate :=
  mkGate (gt_cycle g) (gt_paused g)
    (if reduceMotion || gt_paused g then None else Some (now + gate_delay (gt_cycle g))).

Definition gate_mount (now : Z) : gate := gate_effect now (mkGate 0 false None).

Definition gate_handle (e : gate_event) (now : Z) (g : gate) : option gate :=
  match e with
  | GtHover b => Some (if Bool.eqb b (gt_paused g) then g else gate_effect now (mkGate (gt_cycle g) b None))
  | GtFire => match gt_timer g with
              | Some t => if t <=? now then Some (gate_effect now (mkGate (S (gt_cycle g)) (gt_paused g) None)) else None
              | None => None
              end
  end.

Definition gate_step (g g' : gate) : Prop := ∃ e now, gate_handle e now g = Some g'.

(** With reduced motion the gate is shown closed and stays so; otherwise it
    moves exactly while the pointer is elsewhere, and an attempt is followed
    by its denial and by nothing else. *)
Lemma gate_reach now g :
  star gate_step (gate_mount now) g →
  (reduceMotion = true → gt_timer g = None ∧ gate_blocked reduceMotion (gt_cycle g) = true) ∧
  (is_Some (gt_timer g) ↔ reduceMotion = false ∧ gt_paused g = false) ∧
  ∀ t g', gate_handle GtFire t g = Some g' → gate_blocked reduceMotion (gt_cycle g') = negb (gate_blocked reduceMotion (gt_cycle g)).
Proof.
  intros R. assert (E0 : ∀ t g0, is_Some (gt_timer (gate_effect t g0)) ↔ reduceMotion = false ∧ gt_paused (gate_effect t g0) = false).
  { intros t g0. unfold gate_effect. cbn. destruct reduceMotion, (gt_paused g0); cbn; (split; [intros [? E]|intros [E1 E2]]); try done; by eexists. }
  assert (T : is_Some (gt_timer g) ↔ reduceMotion = false ∧ gt_paused g = false).
  { refine (star_invariant _ (λ g, is_Some (gt_timer g) ↔ reduceMotion = false ∧ gt_paused g = false) _ _ (E0 _ _) _ R).
    intros a b Ha (e & t & E). destruct e as [x|]; cbn [gate_handle] in E.
    - injection E as <-. destruct (Bool.eqb x (gt_paused a)); [done|apply E0].
    - destruct (gt_timer a); [|done]. destruct (_ <=? t); [|done]. injection E as <-. apply E0. }
  split; [|split; [exact T|]].
  - intros Hr. split; [|by rewrite Hr]. destruct (gt_timer g) eqn:Et; [|done]. destruct (proj1 T) as [E _]; [by eexists|congruence].
  - intros t g' E. cbn [gate_handle] in E. destruct (gt_timer g) as [u|] eqn:Et; [|done]. destruct (u <=? t); [|done]. injection E as <-.
    destruct (proj1 T) as [-> _]; [by eexists|]. cbn [gate_effect gt_cycle]. by apply gate_alternates.
Qed.
End Motion.
End Gate.

(** ** A copy button *)
Module CopyButton.

Record copy := mkCopy {
  cb_copied : bool;
  cb_writes : nat;         (** clipboard writes under way *)
  cb_timers : list Z;      (** timeouts that clear the mark *)
  cb_tracked : nat         (** copies reported *)
}.

Definition copy_mount : copy := mkCopy false 0 [] 0.

Inductive copy_event := CbClick | CbWritten | CbRefused | CbTimer (i : nat).

(** A refused write leaves the rest of [copy] undone. *)
Definition copy_handle (e : copy_event) (now : Z) (c : copy) : option copy :=
  match e with
  | CbClick => Some (mkCopy (cb_copied c) (S (cb_writes c)) (cb_timers c) (cb_tracked c))
  | CbWritten => match cb_writes c with
                 | S n => Some (mkCopy true n (cb_timers c ++ [now + 1500]) (S (cb_tracked c)))
                 | O => None
                 end
  | CbRefused => match cb_writes c with S n => Some (mkCopy (cb_copied c) n (cb_timers c) (cb_tracked c)) | O => None end
  | CbTimer i => t ← cb_timers c !! i;
                 if t <=? now then Some (mkCopy false (cb_writes c) (delete i (cb_timers c)) (cb_tracked c)) else None
  end.

Definition copy_step (c c' : copy) : Prop := ∃ e now, copy_handle e now c = Some c'.

(** The mark is shown only after a copy that succeeded and was reported, and
    a timeout that takes it away is always pending. *)
Lemma copied_pending c : star copy_step copy_mount c → cb_copied c = true → cb_timers c ≠ [] ∧ (0 < cb_tracked c)%nat.
Proof.
  intros R. refine (star_invariant _ (λ c, cb_copied c = true → cb_timers c ≠ [] ∧ (0 < cb_tracked c)%nat) copy_mount c _ _ R); [done|].
  intros a b Ha (e & t & E). destruct e as [| | |i]; cbn [copy_handle] in E.
  - by injection E as <-.
  - destruct (cb_writes a); [done|]. injection E as <-. intros _. cbn. split; [|lia]. intros H%app_eq_nil. by destruct H.
  - destruct (cb_writes a); [done|]. by injection E as <-.
  - apply bind_Some in E as (u & _ & E). destruct (u <=? t); [|done]. by injection E as <-.
Qed.

(** An older timeout takes the mark of a newer copy away: copied at 0 and
    again at 1000, the mark is gone at 1500. *)
Definition copy_run (es : list (copy_event * Z)) : option copy :=
  foldl (λ c e, c ≫= copy_handle e.1 e.2) (Some copy_mount) es.

Example mark_lost :
  cb_copied <$> copy_run [(CbClick, 0); (CbWritten, 0); (CbClick, 990); (CbWritten, 1000); (CbTimer 0, 1500)] = Some false.
Proof. reflexivity. Qed.
End CopyButton.
