(* ===== verification/SiteSections.v ===== *)
(** * The sections of the marketing pages ([components/marketing])

    One function per component, from its props and state to the markup it
    renders. The animated sections take their state from [SiteState],
    [Marketing], [FlowDiagram] and [PublicPages]; the texts and tables they
    show are data. A section that can throw is a program of the effect monad. *)
From S2P Require Import Prelude JsObject JsNum JsString JsValue Types Effects PublicPages Marketing FlowDiagram Catalog Markup SiteState.

Open Scope eff_scope.

(** ** Navigation and footer *)

Definition nav_links : list (string * string) := [
  ("/#try", "Try"); ("/#verify", "Verify"); ("/#pipeline", "Pipeline"); ("/#guards", "Guards");
  ("/#detections", "Detections"); ("/stack", "Stack"); ("https://github.com/mhomaid/attest", "GitHub")].

Definition nav_link (l : string * string) : node := link_to l.1 [Txt l.2].

(** The menu's links close it; it is in the document but hidden while closed. *)
Definition MarketingNav (is_open : bool) : node :=
  el "header" [
    link_to "/" [line "span" "Attest"];
    el "nav" (nav_link <$> nav_links);
    link_to "/waitlist" [Txt "Request access"];
    with_cta "nav_run_locally" (link_to "/#quickstart" [Txt "Run it locally"]);
    with_label "Open menu" (el "button" []);
    with_tone (if is_open then EmptyString else "hidden")
      (el "div" ((nav_link <$> nav_links) ++ [link_to "/waitlist" [Txt "Request access"]]))].

(** The clicks of the navigation: the button, and a link of the menu. *)
Definition menu_toggled (is_open : bool) : bool := negb is_open.
Definition menu_left : bool := false.

Definition product : list (string * string) := [
  ("/waitlist", "Request access"); ("/#try", "Try"); ("/#verify", "Verify"); ("/#pipeline", "Pipeline");
  ("/#guards", "Guards"); ("/#detections", "HELIQL"); ("/#stack", "Planes"); ("/#deploy", "Deploy");
  ("/#quickstart", "Quickstart")].

(** [year] is the clock's. *)
Definition MarketingFooter (year : Z) : node :=
  el "footer" [
    Txt "Attest";
    line "p" "Open-source verifiable SOC. Every AI verdict is a signed object you can check.";
    line "p" "Product";
    el "ul" ((λ p, el "li" [link_to p.1 [Txt p.2]]) <$> product);
    el "p" [link_to "/stack" [Txt "Stack"]];
    el "ul" [
      line "li" "Rust · axum 0.8 · tract-onnx";
      line "li" "Kafka / Redpanda · RisingWave · Arroyo";
      line "li" "OCSF 1.3 · Iceberg · ClickHouse";
      line "li" "Next.js 16 · Bun · Postgres 18";
      el "li" [link_to "/stack" [Txt "All components →"]]];
    el "p" [Txt "© "; Txt (string_of_Z year); Txt " Attest · Apache-2.0"]].

(** ** The head of the page *)

Definition verify_tone (s : VerifyDemo.step) (selected : bool) : string :=
  if selected then (if String.eqb (VerifyDemo.vs_tone s) "fail" then "red" else "primary") else "muted".

Definition card_tone (failed : bool) : string := if failed then "red" else "border".

Definition EnvelopeCard (isTampered failed : bool) : node :=
  with_tone (card_tone failed) (el "div" [
    line "p" "Change one field";
    el "pre" ([Txt "{"] ++
      ((λ kv, with_tone (if VerifyDemo.hot isTampered kv.1 then "red" else EmptyString)
                (el "span" [Txt kv.1; Txt ": "; Txt kv.2])) <$> VerifyDemo.envelope isTampered) ++ [Txt "}"])]).

Definition ChainCard (isDeleted failed : bool) : node :=
  with_tone (card_tone failed) (el "div" [
    line "p" "Delete one row";
    el "div" (imap (λ i b,
      el "div" ((if (0 <? i)%nat then [with_tone (if VerifyDemo.broken failed b.1 then "red" else "primary") (el "span" [])] else []) ++
        [with_tone (if VerifyDemo.broken failed b.1 then "red" else "border") (el "div" [line "p" b.1; el "p" [Txt b.2; Txt "…"]])]))
      (VerifyDemo.visible isDeleted));
    line "p" "Each envelope carries the hash of the one before it."]).

Definition VerifyDemoView (s : VerifyDemo.verify_demo) : M node :=
  let phase := VerifyDemo.vd_phase s in
  match VerifyDemo.steps !! phase with
  | None => throw (member_error "tone" JUndef)
  | Some step => ret (el "div" [
      EnvelopeCard (VerifyDemo.tampered phase) (VerifyDemo.envelope_failed phase);
      ChainCard (VerifyDemo.deleted phase) (VerifyDemo.chain_failed phase);
      el "div" (imap (λ i t, with_current (Nat.eqb phase i) (with_tone (verify_tone t (Nat.eqb phase i)) (line "button" (VerifyDemo.vs_label t))))
                  VerifyDemo.steps);
      with_tone (VerifyDemo.vs_tone step) (line "p" (VerifyDemo.vs_out step))])
  end.

Definition proof : list string := [
  "<5 ms classifier, P99 asserted in CI"; "Ed25519 + hash-chained log"; "Apache-2.0 · self-hostable"].

Definition hero_points : list (string * string) := [
  ("Problem", "You cannot prove the verdict is the one the agent produced, or that the model was the one you approved.");
  ("Why we built it", "A CISO still has to defend the action. Trusting the vendor's UI is not an audit trail.");
  ("How", "Sign the envelope, chain it to the row before it, verify offline. Same CLI we run in CI.")].

Definition HeroSection (demo : VerifyDemo.verify_demo) : M node :=
  let! shown := VerifyDemoView demo in
  ret (el "section" [
    line "p" "The problem we built Attest for";
    el "h1" [Txt "AI SOCs ask you to trust the verdict."; Txt " "; line "span" "We made it something you can check."];
    el "p" [Txt "When an agent closes an alert or isolates a host, most tools leave a chat transcript. An auditor cannot replay it. A swapped model or a deleted row leaves no mark. We built Attest so every decision is an Ed25519-signed envelope on a hash chain —";
            Txt " "; line "code" "attest verify"; Txt " fails if anyone tampers."];
    el "dl" ((λ kv, el "div" [line "dt" kv.1; line "dd" kv.2]) <$> hero_points);
    el "div" [
      with_cta "hero_try_demo" (link_to "#try" [Txt "Try it yourself"]);
      with_cta "hero_waitlist" (link_to "/waitlist" [Txt "Request access"]);
      with_cta "hero_github" (link_out "https://github.com/mhomaid/attest" [Txt "View on GitHub"])];
    el "ul" (line "li" <$> proof);
    with_id "verify" (el "div" [shown])]).

Record Fact := mkFact { fa_value : string; fa_label : string; fa_detail : string }.

Definition facts : list Fact := [
  mkFact "1" "live source" "AWS CloudTrail"; mkFact "10" "detections" "AWS · Okta · M365 rules";
  mkFact "2" "triage paths" "classifier · LLM"; mkFact "5" "agent guards" "policy + verifier";
  mkFact "v0" "status" "Apache-2.0 · self-host"].

Definition StatusStrip : node :=
  with_label "What ships today" (el "section" [
    el "dl" ((λ f, el "div" [line "dt" (fa_label f); line "dd" (fa_value f); line "dd" (fa_detail f)]) <$> facts)]).

(** ** The public demo *)

Definition demo_row (kv : string * string) : node := el "div" [line "dt" kv.1; line "dd" kv.2].

(** The card's second half: the verification, or what went wrong. *)
Definition checked_nodes (verified ok : bool) (c : string * list string) : list node :=
  if verified then
    [with_tone (if ok then "good" else "red") (line "p" c.1); el "ul" (line "li" <$> c.2)]
  else
    [el "div" (line "p" c.1 :: ((λ note,
       el "p" [Txt note; Txt " Clone the repo and run"; Txt " "; line "code" "make dev-up-all";
               Txt ", or verify the sample log in Quickstart."]) <$> c.2))].

Definition card_nodes (result : jsval) (c : (list (string * string) + string) * (string * list string)) : node :=
  let verify := prop "verify" result in
  el "div" [
    el "div" (line "p" "Envelope" ::
      match c.1 with inl rows => [el "dl" (demo_row <$> rows)] | inr note => [line "p" note] end);
    el "div" (line "p" "attest verify" :: checked_nodes (truthy verify) (truthy (prop "ok" verify)) c.2)].

Definition TryDemoSection (d : TryDemo.demo) : M node :=
  let! shown :=
    (if TryDemo.paused d then
       ret [el "div" [
         line "p" "The hosted demo is paused to keep hosting costs down.";
         el "p" [Txt "Attest is an early open-source prototype, not a production service. The same check runs on your machine in about two minutes with only Rust installed: verify a signed log, delete one row, and watch";
                 Txt " "; line "code" "attest verify"; Txt " fail."];
         with_cta "try_demo_paused_quickstart" (link_to "#quickstart" [Txt "Check it yourself"])]]
     else
       let! card := match TryDemo.td_result d with
                    | Some result => if truthy result then let! c := TryDemo.DemoResultCard result in ret [card_nodes result c] else ret []
                    | None => ret []
                    end in
       ret (el "div" [
              with_disabled (TryDemo.run_disabled d) (line "button" (TryDemo.run_label d));
              line "p" "tenant=demo · scenario=geo_anomaly"] :: card)) in
  ret (section "try" ([
    line "p" "Public demo";
    line "h2" "CloudTrail in. Signed verdict out. Verify it here.";
    line "p" "Runs the hosted demo tenant: ingest a geo-anomaly ConsoleLogin, triage it, then walk the hash chain with the same verifier the CLI uses. If the collector or orchestrator is down, this page says so instead of faking a pass."]
    ++ shown)).

(** ** The pipeline *)

Record PipelineNode := mkPipelineNode {
  pn_id : string; pn_x : Z; pn_y : Z; pn_label : string; pn_hint : string; pn_tone : option string
}.

Definition CENTER : Z := 160.

Definition pipeline_nodes : list PipelineNode := [
  mkPipelineNode "src" 70 CENTER "CloudTrail" "raw JSON" None;
  mkPipelineNode "col" 210 CENTER "Collector" "OCSF 1.3" None;
  mkPipelineNode "bus" 350 CENTER "Kafka" "per tenant" None;
  mkPipelineNode "det" 490 CENTER "Detect" "HELIQL → RW" None;
  mkPipelineNode "cls" 640 70 "Classifier" "<5 ms ONNX" (Some "good");
  mkPipelineNode "llm" 640 250 "LLM + MCP" "novel only" (Some "live");
  mkPipelineNode "env" 790 CENTER "Envelope" "Ed25519" (Some "primary");
  mkPipelineNode "wb" 930 CENTER "Workbench" "analyst" None].

(** The corners of the two paths, [fast] and [slow]. *)
Definition fast_path : list (Z * Z) := [(70, 160); (490, 160); (640, 70); (790, 160); (930, 160)].
Definition slow_path : list (Z * Z) := [(70, 160); (490, 160); (640, 250); (790, 160); (930, 160)].

(** The drawing on wide screens and the list on narrow ones. *)
Definition PipelineDiagram (reduceMotion : bool) : node :=
  el "div" [
    with_label "An alert flows from CloudTrail through the collector, Kafka and detection, forks to the classifier or the LLM, and both paths end in a signed envelope shown in the workbench."
      (el "svg" ((if reduceMotion then [] else
                    replicate 3 (with_tone "good" (el "circle" [])) ++ [with_tone "live" (el "circle" [])]) ++
                 ((λ n, with_tone (default "border" (pn_tone n)) (el "g" [line "text" (pn_label n); line "text" (pn_hint n)])) <$> pipeline_nodes) ++
                 [line "text" "known pattern"; line "text" "structurally novel"]));
    el "ol" ((λ n, el "li" [line "span" (pn_label n); line "span" (pn_hint n)]) <$> pipeline_nodes)].

Definition PipelineSection (reduceMotion : bool) : node :=
  section "pipeline" [
    line "p" "One alert, end to end";
    line "h2" "Known patterns take the fast lane. Only novel ones reach the LLM.";
    PipelineDiagram reduceMotion;
    el "div" [line "span" "classifier path"; line "span" "LLM path, tools gated by policy"; line "span" "both end signed"]].

(** ** The guards and the comparison *)

Definition AgentGuardsSection (reduceMotion : bool) (g : Guards.guards) : M node :=
  let active := Guards.gd_active g in
  let isBlocked := Guards.blocked reduceMotion g in
  match Guards.attacks !! active with
  | None => throw (member_error "layer" JUndef)
  | Some attack => ret (section "guards" [
      line "p" "Agent abuse, blocked";
      line "h2" "The agents are an attack surface too. Five guards sit between them and your data.";
      el "ul" (imap (λ i a, el "li" [
        with_current (Nat.eqb active i) (with_tone (if Nat.eqb active i then "red" else "border") (el "button" [
          line "span" (Guards.at_name a); line "span" (Guards.at_tactic a);
          with_tone (if Nat.eqb active i && isBlocked then "red" else "border") (el "span" [])]))]) Guards.attacks);
      el "div" ([line "span" "agent request"; line "span" (Guards.at_layer attack);
                 with_tone (if isBlocked then "muted" else "foreground") (line "pre" (join newline (Guards.at_request attack)))] ++
                (if isBlocked then [el "div" [line "p" "DENIED"; line "p" (Guards.at_reason attack)]] else []));
      line "p" "Deny messages are the real strings from the policy engine and verifier, each covered by a test."])
  end.

Record CompareRow := mkCompare { co_topic : string; co_blackBox : string; co_attest : string }.

Definition compare_rows : list CompareRow := [
  mkCompare "The verdict record" "A row in the vendor's database" "Ed25519-signed envelope, hash-chained";
  mkCompare "Someone edits it" "Nothing notices" "attest verify fails on that row";
  mkCompare "Re-checking a decision" "Ask the model again, get a new answer" "Classifier re-run to the recorded score";
  mkCompare "Agent tool access" "Rules live in the prompt" "Policy engine outside the model";
  mkCompare "Where it runs" "Their cloud" "Your infrastructure, Apache-2.0"].

Definition CompareSection : node :=
  section "compare" ([
    line "p" "Why it matters";
    line "h2" "Most AI SOCs ask you to trust the verdict. Attest lets you check it.";
    el "div" [el "span" []; line "span" "Black-box AI verdict"; line "span" "Attest verdict"]] ++
    ((λ r, el "div" [line "span" (co_topic r); line "span" (co_blackBox r); line "span" (co_attest r)]) <$> compare_rows)).

(** ** The planes and the deployments *)

Definition GateCallout (isBlocked : bool) : node :=
  el "div" [
    if isBlocked then with_tone "red" (line "p" "DENIED agentic → storage (direct)")
    else with_tone "muted" (line "p" "agent tries storage.query()");
    line "span" "·";
    with_tone (if isBlocked then "good" else "muted") (line "span" "ALLOW via MCP + policy")].

Definition StackDiagramSection (reduceMotion : bool) (g : Gate.gate) : node :=
  let isBlocked := Cycles.gate_blocked reduceMotion (Gate.gt_cycle g) in
  section "stack" [
    line "p" "Logical architecture";
    line "h2" "Six planes. The agents never reach storage on their own.";
    line "p" "One job per plane. The chip inventory lives on the stack page — this is the map.";
    el "ol" (imap (λ i plane,
      let isAgentic := String.eqb (pl_id plane) "agentic" in
      let isStorage := String.eqb (pl_id plane) "storage" in
      with_tone (if (isAgentic || isStorage) && isBlocked then "red" else "card") (el "li" ([
        line "span" (ordinal i);
        line "p" (pl_name plane);
        line "p" (pl_summary plane);
        line "p" (if decide (pl_group plane = Data) then "data" else "control")] ++
        (if isAgentic then [el "div" [GateCallout isBlocked]] else [])))) planes);
    el "p" [with_cta "stack_full_page" (link_to "/stack" [Txt "Every component, with repo paths"])]].

Definition PlaneGroup (label : string) (items : list Plane) : node :=
  el "div" [line "p" label; el "ul" ((λ p, line "li" (pl_name p)) <$> items)].

Definition CloudBoxView (title : string) (b : cloud_box) : node :=
  el "div" [line "p" title;
    match b with
    | Unused note => line "p" note
    | Used groups => el "div" ((λ g, PlaneGroup g.1 g.2) <$> groups)
    end].

Definition DeploymentSection (active : string) : M node :=
  match model active with
  | None => throw (member_error "id" JUndef)
  | Some d => ret (section "deploy" [
      line "p" "Control plane · data plane";
      line "h2" "Same six planes. You choose where they run.";
      line "p" "Today you run them yourself. Hosted and in-your-VPC options are the plan. Same containers either way.";
      el "div" ((λ x, with_current (String.eqb active (dp_id x)) (el "button" [
        Txt (dp_name x); line "span" (if decide (dp_status x = Planned) then "· planned" else "· live")])) <$> deployments);
      el "div" [CloudBoxView "Attest cloud" (CloudBox d Attest); CloudBoxView "Your cloud / VPC" (CloudBox d Customer)];
      line "p" (dp_note d)])
  end.

(** ** The quickstart *)

Record QuickStep := mkQuickStep { qs_id : string; qs_label : string; qs_cmd : string; qs_out : list (string * string) }.

Definition LOG : string := "examples/verify/attestations.ndjson".
Definition KEY : string := "--key-file examples/verify/verifying-key.txt".

Definition quick_steps : list QuickStep := [
  mkQuickStep "clone" "Clone"
    "git clone https://github.com/mhomaid/attest && cd attest && cargo install --path crates/attest-cli --locked" [];
  mkQuickStep "verify" "Verify the sample log" ("attest verify " +:+ LOG +:+ " " +:+ KEY) [
    ("PASS  5a3e…0001  pass (classifier)", "pass");
    ("PASS  5a3e…0002  pass (classifier)", "pass");
    ("PASS  5a3e…0003  pass (classifier)", "pass");
    ("verified 3/3", "muted")];
  mkQuickStep "tamper" "Delete one row, verify again"
    ("sed '2d' " +:+ LOG +:+ " > /tmp/broken.ndjson && attest verify /tmp/broken.ndjson " +:+ KEY) [
    ("PASS  5a3e…0001  pass (classifier)", "pass");
    ("FAIL  5a3e…0003  chain break: prev_hash=1beb… expected=59f1…", "fail");
    ("verified 1/2", "muted")];
  mkQuickStep "pin" "Pin the wrong model" ("attest verify " +:+ LOG +:+ " " +:+ KEY +:+ " --pin-model 0000") [
    ("FAIL  5a3e…0001  model_artifact_hash swap: recorded=8dee… pinned=0000", "fail");
    ("verified 0/3", "muted")]].

Definition CommandLine (s : QuickStep) (c : CopyButton.copy) : node :=
  el "div" [
    el "code" [line "span" "$ "; Txt (qs_cmd s)];
    with_label ("Copy: " +:+ qs_label s) (with_tone (if CopyButton.cb_copied c then "check" else "copy") (el "button" []))].

Definition out_tone (tone : string) : string :=
  if String.eqb tone "pass" then "good" else if String.eqb tone "fail" then "red" else "muted".

Definition quick_item (i : nat) (sc : QuickStep * CopyButton.copy) : node :=
  el "li" [
    el "p" [line "span" (string_of_Z (Z.of_nat i + 1)); Txt (qs_label sc.1)];
    el "div" (CommandLine sc.1 sc.2 ::
      match qs_out sc.1 with
      | [] => []
      | out => [el "pre" ((λ o, with_tone (out_tone o.2) (line "span" o.1)) <$> out)]
      end)].

Definition QuickstartSection (copies : list CopyButton.copy) : node :=
  section "quickstart" [
    line "p" "Run it locally";
    line "h2" "Break the log yourself. It only needs Rust.";
    el "ol" (imap quick_item (zip quick_steps copies));
    el "p" [Txt "Want the whole stack: Kafka, RisingWave, triage and this workbench?"; Txt " ";
            with_cta "quickstart_full_stack" (link_out "https://github.com/mhomaid/attest#quick-start" [Txt "make dev-up-all"]);
            Txt " "; Txt "runs it on Docker."]].

(** ** The rules, the tour and the last call *)

Definition heliql_sample : string := join newline [
  "detection: aws_console_login_from_anomalous_geolocation";
  "where:";
  "  - event.auth_status = " +:+ quote +:+ "Success" +:+ quote;
  "condition:";
  "  - event.cloud_region NOT IN baseline(identity.user, 90d)";
  "severity: medium";
  "mitre: [T1078.004]";
  "runtime: stream | batch"].

Definition DetectionsCatalogSection : node :=
  section "detections" [
    line "p" "HELIQL v0";
    line "h2" "Ten rules that compile to the stream";
    el "p" [Txt "pest grammar → typed AST → RisingWave"; Txt " "; line "code" "CREATE MATERIALIZED VIEW";
            Txt ". Baseline references become correlated subqueries against"; Txt " "; line "code" "entity_baselines";
            Txt ". Sigma YAML imports into the same AST. Detection-runtime polls fired rows every 2s onto the"; Txt " ";
            line "code" "alerts"; Txt " "; Txt "topic."];
    line "pre" heliql_sample;
    el "table" [
      el "thead" [el "tr" (line "th" <$> ["Rule"; "Source"; "ATT&CK"; "Severity"])];
      el "tbody" ((λ r, el "tr" [
        el "td" [line "p" (cr_title r); line "p" (cr_id r)]; line "td" (cr_source r); line "td" (cr_mitre r);
        line "td" (cr_severity r)]) <$> Catalog.rules)]].

Record TourPage := mkTour { tp_href : string; tp_name : string; tp_live : string; tp_body : string }.

Definition tour_pages : list TourPage := [
  mkTour "/workbench/queue" "Alert queue" "control-plane /v1/detections/fired + WS /v1/ws/alerts"
    "Default landing. Live badge, Arroyo pipeline chips, virtualized rows. Does not auto-scroll when new alerts arrive.";
  mkTour "/workbench/cases" "Cases" "Same fired detections, Open vs Auto-Closed"
    "Severity, actor, region, confidence, execution path. Row click uses the event UUID as the case id.";
  mkTour "/workbench/queue" "Case workbench" "hot event + 30-day baseline + POST /triage + attestation trace"
    "Timeline of collector → RisingWave → orchestrator → Ed25519. SHAP bars for classifier path. Investigator stepper when escalated.";
  mkTour "/workbench/detections" "Detections" "Last-fired timestamps from the control-plane"
    "The ten bundled HELIQL rules with MITRE technique, severity, and a live “last fired” column.";
  mkTour "/workbench/simulate" "Simulate Lab" "collector :4000 + orchestrator :4300"
    "Five named attack scenarios, editable actor/region, single-shot and 50× concurrent batch. Memory panel polls all four sinks.";
  mkTour "/workbench/load" "Load Lab" "WS /v1/metrics/stream at 1 Hz"
    "Smoke / Sustained / Burst / 1M Challenge. Charts for events/sec, consumer lag, detections/sec, storage rows/sec.";
  mkTour "/workbench/agents" "Agents" "orchestrator /metrics"
    "Triager latency percentiles and envelope coverage. Investigator marked live when MCP is up. Hunter and Detection Engineer are labeled as shells.";
  mkTour "/workbench/hunt" "Hunt" "POST /v1/warm/query"
    "HELIQL-style editor against ClickHouse over Iceberg. Stream/save and the Hunter agent are placeholders.";
  mkTour "/workbench/admin" "Admin" "healthz on control-plane, collector, Arroyo"
    "Service table with Scalar /docs links. Use this page, not Settings, for live health."].

(** The pages' addresses are not rendered. *)
Definition WorkbenchTourSection : node :=
  section "workbench" [
    line "p" "Analyst console";
    line "h2" "Every workbench surface";
    line "p" "Next.js App Router. Server Components fetch live data; if the backend is down the page says so. Client islands (queue WS, Simulate, Load) keep cross-page state in Zustand.";
    el "ul" ((λ p, el "li" [line "p" (tp_name p); line "p" (tp_live p); line "p" (tp_body p)]) <$> tour_pages)].

Definition CtaSection : node :=
  el "section" [
    line "h2" "Make your AI SOC show its work";
    line "p" "Clone it, break the log, watch verify catch it. Testers and focused PRs are welcome — open an issue first if the change is larger than a bug fix.";
    with_cta "cta_waitlist" (link_to "/waitlist" [Txt "Request access"]);
    with_cta "cta_try_demo" (link_to "#try" [Txt "Try it yourself"]);
    with_cta "cta_open_issue" (link_out "https://github.com/mhomaid/attest/issues/new" [Txt "Open an issue or PR"])].

(** ** The flow of the stack page *)

Record Hop := mkHop { ho_from : string; ho_via : string; ho_to : string }.

Definition VerticalFlow (reduceMotion : bool) (hops : list Hop) (active : nat) : node :=
  el "ol" (imap (λ i h,
    let on := Nat.eqb active i in
    el "li" (with_current on (with_tone (if on then "primary" else "border") (el "button" [
      el "p" [Txt "Hop "; Txt (ordinal i)]; line "p" (ho_from h); line "p" (ho_via h); line "p" (ho_to h)])) ::
      (if (i <? length hops - 1)%nat then
         [with_tone (if on then "lit" else "unlit") (el "div" (if on && negb reduceMotion then [el "span" []] else []))]
       else []))) hops).
