(* ===== verification/Site.v ===== *)
(** * The marketing pages

    The home page ([app/(marketing)/page.tsx]) as one machine: the state of
    all its sections, the visitor's actions, the timers and the answers of
    the demo routes, with what is reported to the analytics; and the stack
    page ([app/(marketing)/stack/page.tsx]). [useReducedMotion] and the year
    in the footer are parameters. *)
From S2P Require Import Prelude JsObject JsNum JsString JsValue Types Effects Auth PublicPages Marketing FlowDiagram Telemetry Catalog.
From S2P Require Import WorkbenchPages Scenarios DemoRun LoadPage Markup SiteState SiteSections.

Open Scope eff_scope.

(** ** The home page's state *)

Record home := mkHome {
  hm_menu : bool;
  hm_verify : VerifyDemo.verify_demo;
  hm_demo : TryDemo.demo;
  hm_runs : nat;                          (** demo requests under way *)
  hm_guards : Guards.guards;
  hm_gate : Gate.gate;
  hm_deploy : string;
  hm_copies : list CopyButton.copy;       (** one per command *)
  hm_tracked : list analytics_call
}.

Section Home.
Variable reduceMotion : bool.
Variable year : Z.

Definition home_mount (now : Z) : home :=
  mkHome false (VerifyDemo.verify_mount reduceMotion now) TryDemo.demo_mount 0 (Guards.guards_mount reduceMotion now)
    (Gate.gate_mount reduceMotion now) "self" (replicate (length quick_steps) CopyButton.copy_mount) [].

(** [HomePage]: the sections in order. *)
Definition HomePage (s : home) : M (list node) :=
  let! hero := HeroSection (hm_verify s) in
  let! demo := TryDemoSection (hm_demo s) in
  let! guards := AgentGuardsSection reduceMotion (hm_guards s) in
  let! deploy := DeploymentSection (hm_deploy s) in
  ret [MarketingNav (hm_menu s);
       el "main" [hero; StatusStrip; demo; PipelineSection reduceMotion; guards; CompareSection;
                  StackDiagramSection reduceMotion (hm_gate s); deploy; QuickstartSection (hm_copies s);
                  DetectionsCatalogSection; WorkbenchTourSection; CtaSection];
       MarketingFooter year].

(** ** Events *)
Inductive home_event :=
| HeMenu | HeMenuLink
| HeCta (cta : string)
| HeVerify (e : VerifyDemo.verify_event)
| HeGuards (e : Guards.guards_event)
| HeGate (e : Gate.gate_event)
| HeDeploy (id : string)
| HeCopy (i : nat) (e : CopyButton.copy_event)
| HeStatus (r : res fetched)
| HeRun
| HeAnswer (r : res fetched).

Definition track (c : analytics_call) (s : home) : home :=
  mkHome (hm_menu s) (hm_verify s) (hm_demo s) (hm_runs s) (hm_guards s) (hm_gate s) (hm_deploy s) (hm_copies s) (hm_tracked s ++ [c]).
Definition with_menu (b : bool) (s : home) : home :=
  mkHome b (hm_verify s) (hm_demo s) (hm_runs s) (hm_guards s) (hm_gate s) (hm_deploy s) (hm_copies s) (hm_tracked s).
Definition with_verify (v : VerifyDemo.verify_demo) (s : home) : home :=
  mkHome (hm_menu s) v (hm_demo s) (hm_runs s) (hm_guards s) (hm_gate s) (hm_deploy s) (hm_copies s) (hm_tracked s).
Definition with_demo (d : TryDemo.demo) (runs : nat) (s : home) : home :=
  mkHome (hm_menu s) (hm_verify s) d runs (hm_guards s) (hm_gate s) (hm_deploy s) (hm_copies s) (hm_tracked s).
Definition with_guards (g : Guards.guards) (s : home) : home :=
  mkHome (hm_menu s) (hm_verify s) (hm_demo s) (hm_runs s) g (hm_gate s) (hm_deploy s) (hm_copies s) (hm_tracked s).
Definition with_gate (g : Gate.gate) (s : home) : home :=
  mkHome (hm_menu s) (hm_verify s) (hm_demo s) (hm_runs s) (hm_guards s) g (hm_deploy s) (hm_copies s) (hm_tracked s).
Definition with_deploy (d : string) (s : home) : home :=
  mkHome (hm_menu s) (hm_verify s) (hm_demo s) (hm_runs s) (hm_guards s) (hm_gate s) d (hm_copies s) (hm_tracked s).
Definition with_copies (l : list CopyButton.copy) (s : home) : home :=
  mkHome (hm_menu s) (hm_verify s) (hm_demo s) (hm_runs s) (hm_guards s) (hm_gate s) (hm_deploy s) l (hm_tracked s).

(** What a click in an animation reports. *)
Definition verify_report (e : VerifyDemo.verify_event) (s : home) : home :=
  match e with
  | VerifyDemo.VdSelect i => match VerifyDemo.steps !! i with
                             | Some st => track (marketing_demo_step DemoVerify (VerifyDemo.vs_label st)) s
                             | None => s
                             end
  | _ => s
  end.

Definition guards_report (e : Guards.guards_event) (s : home) : home :=
  match e with
  | Guards.GdSelect i => match Guards.attacks !! i with
                         | Some a => track (marketing_demo_step DemoGuards (Guards.at_name a)) s
                         | None => s
                         end
  | _ => s
  end.

(** A copy is reported once the clipboard has taken it. *)
Definition copy_report (i : nat) (e : CopyButton.copy_event) (s : home) : home :=
  match e, quick_steps !! i with
  | CopyButton.CbWritten, Some q => track (marketing_quickstart_copied (qs_id q)) s
  | _, _ => s
  end.

(** The end of [run]: an answer that can be read is reported. *)
Definition answer_report (r : res fetched) (s : home) : home :=
  match r with
  | Ok x => match ft_json x with
            | Some data => if is_nullish data then s
                           else track (marketing_demo_step DemoTry (if truthy (prop "ok" data) then "pass" else "fail")) s
            | None => s
            end
  | Throw _ => s
  end.

Definition home_handle (e : home_event) (now : Z) (s : home) : option home :=
  match e with
  | HeMenu => Some (with_menu (menu_toggled (hm_menu s)) s)
  | HeMenuLink => Some (with_menu menu_left s)
  | HeCta c => Some (track (marketing_cta_clicked c) s)
  | HeVerify x => v ← VerifyDemo.verify_handle reduceMotion x now (hm_verify s); Some (verify_report x (with_verify v s))
  | HeGuards x => g ← Guards.guards_handle reduceMotion x now (hm_guards s); Some (guards_report x (with_guards g s))
  | HeGate x => g ← Gate.gate_handle reduceMotion x now (hm_gate s); Some (with_gate g s)
  | HeDeploy d => if decide (d ∈ dp_id <$> deployments)
                  then Some (track (marketing_demo_step DemoDeploy d) (with_deploy d s)) else None
  | HeCopy i x => c ← hm_copies s !! i; c' ← CopyButton.copy_handle x now c;
                  Some (copy_report i x (with_copies (<[i := c']> (hm_copies s)) s))
  | HeStatus r => match TryDemo.td_live (hm_demo s) with
                  | None => Some (with_demo (TryDemo.status_answered r (hm_demo s)) (hm_runs s) s)
                  | Some _ => None
                  end
  | HeRun => if TryDemo.paused (hm_demo s) || TryDemo.run_disabled (hm_demo s) then None
             else Some (track (marketing_cta_clicked "try_demo_run") (with_demo (TryDemo.run_demo (hm_demo s)) (S (hm_runs s)) s))
  | HeAnswer r => match hm_runs s with
                  | S n => Some (answer_report r (with_demo (TryDemo.run_answered r (hm_demo s)) n s))
                  | O => None
                  end
  end.

Definition home_step (s s' : home) : Prop := ∃ e now, home_handle e now s = Some s'.
End Home.

(** ** The stack page *)

Definition hops : list Hop := [
  mkHop "CloudTrail JSON" "POST /ingest" "attest-collector :4000";
  mkHop "OCSF event" "rdkafka" "topic cloudtrail";
  mkHop "cloudtrail" "Kafka source" "RisingWave recent_events + entity_baselines";
  mkHop "cloudtrail" "batch → Parquet" "Iceberg warm tier on MinIO / S3";
  mkHop "*.heliql" "CREATE MATERIALIZED VIEW" "topic alerts";
  mkHop "alert" "POST /triage" "ONNX → policy → Ed25519 envelope → workbench"].

Definition total : nat := foldl (λ n p, n + length (pl_components p))%nat 0%nat planes.

(** [c.path ? ... : null] *)
Definition has_path (c : PlaneComponent) : option string :=
  match pc_path c with Some p => if String.eqb p EmptyString then None else Some p | None => None end.

Definition component_card (c : PlaneComponent) : node :=
  let inner := [line "span" (pc_name c);
                el "span" (Txt (pc_tech c) :: if isPlanned c then [line "span" "planned"] else []);
                line "span" (pc_role c)] ++
               match has_path c with Some p => [line "span" p] | None => [] end in
  match has_path c with
  | None => el "li" [el "div" inner]
  | Some p => el "li" [link_out (repoLink p) inner]
  end.

Definition plane_section (i : nat) (p : Plane) : node :=
  section (pl_id p) [
    el "p" [Txt "Plane "; Txt (ordinal i); Txt " · "; Txt (group_string (pl_group p))];
    line "h2" (pl_name p);
    line "p" (pl_summary p);
    el "ul" (component_card <$> pl_components p)].

(** [menu]: the navigation's; [active]: the flow's current hop. *)
Definition StackPage (reduceMotion menu : bool) (active : nat) (year : Z) : list node := [
  MarketingNav menu;
  el "main" ([
    el "section" [
      line "p" "Logical architecture";
      el "h1" [Txt (string_of_Z (Z.of_nat total)); Txt " components across six planes, all in"; Txt " ";
               link_out REPO_URL [Txt "one repo"]; Txt "."];
      line "p" "The agentic plane never reaches into the storage plane directly. It calls the detection plane and a governed query API.";
      with_label "Planes" (el "nav" (imap (λ i p, link_to ("#" +:+ pl_id p) [Txt (ordinal i); Txt " "; Txt (pl_name p)]) planes));
      PipelineDiagram reduceMotion]] ++
    imap plane_section planes ++ [
    el "section" [
      line "h2" "Path of a single ConsoleLogin";
      line "p" "One event fans out to the hot tier, the warm lake and the detection runtime. If a rule fires, it ends as a signed envelope in the workbench.";
      VerticalFlow reduceMotion hops active]]);
  MarketingFooter year].

(** ** Links *)

(** The pages of the application ([app/**/page.tsx]). *)
Definition page_routes : list string := [
  "/"; "/stack"; "/login"; "/waitlist"; "/dashboard"; "/workbench"; "/workbench/queue"; "/workbench/cases";
  "/workbench/hunt"; "/workbench/detections"; "/workbench/simulate"; "/workbench/load"; "/workbench/coverage";
  "/workbench/agents"; "/workbench/settings"; "/workbench/admin"].

Definition home_ids : list string :=
  ["verify"; "try"; "pipeline"; "guards"; "compare"; "stack"; "deploy"; "quickstart"; "detections"; "workbench"].

(** Where a link of a page with the anchors [here] leads. *)
Definition leads (here : list string) (href : string) : bool :=
  if starts_with "#" href then bool_decide (slice_from 1 href ∈ here)
  else if starts_with "/#" href then bool_decide (slice_from 2 href ∈ home_ids)
  else if starts_with "/" href then bool_decide (href ∈ page_routes) && negb (starts_with "/workbench" href)
  else starts_with "https://" href.

Definition links_good (here : list string) (ls : list (string * bool)) : bool :=
  forallb (λ l, leads here l.1 && (negb l.2 || starts_with "https://" l.1)) ls.

(** Every link leads somewhere; one that opens a new tab leads away; and the
    page guard lets a visitor without a session pass. *)
Definition links_lead (here : list string) (ns : list node) : Prop :=
  ∀ href blank, (href, blank) ∈ hrefs ns →
    leads here href = true ∧ (blank = true → starts_with "https://" href = true) ∧
    ∀ getSessionCookie origin jar, proxy getSessionCookie origin href jar = RNext.

Lemma links_lead_intro here ns : links_good here (hrefs ns) = true → links_lead here ns.
Proof.
  unfold links_good. rewrite forallb_forall. intros H href blank Hin. apply list_elem_of_In in Hin. specialize (H _ Hin). cbn [fst snd] in H.
  apply andb_true_iff in H as [H1 H2]. split; [done|]. split; [intros ->; exact H2|].
  intros gs origin jar. unfold proxy. destruct (starts_with "/workbench" href) eqn:Ew; [|done]. exfalso.
  apply starts_with_spec in Ew as (rest & ->). unfold leads in H1.
  cbn -[page_routes bool_decide] in H1. by rewrite andb_false_r in H1.
Qed.

(** What a piece of markup adds to its page: anchors, links, calls to action. *)
Definition parts (n : node) : list string * list (string * bool) * list string :=
  (collect ids_of n, collect hrefs_of n, collect ctas_of n).

Lemma parts_spec n a b c : parts n = (a, b, c) → collect ids_of n = a ∧ collect hrefs_of n = b ∧ collect ctas_of n = c.
Proof. by intros [= <- <- <-]. Qed.

Section Pieces.
Variable reduceMotion : bool.

Lemma hero_parts v w l :
  (VerifyDemo.vd_phase v < length VerifyDemo.steps)%nat →
  ∃ n, HeroSection v w l = (Ok n, l) ∧
    parts n = (["verify"], [("#try", false); ("/waitlist", false); ("https://github.com/mhomaid/attest", true)],
               ["hero_try_demo"; "hero_waitlist"; "hero_github"]).
Proof.
  destruct v as [ph pa ne]. cbn [VerifyDemo.vd_phase length VerifyDemo.steps]. intros H.
  do 6 (destruct ph as [|ph]; [eexists; split; reflexivity|]). lia.
Qed.

Lemma guards_parts g w l :
  (Guards.gd_active g < length Guards.attacks)%nat →
  ∃ n, AgentGuardsSection reduceMotion g w l = (Ok n, l) ∧ parts n = (["guards"], [], []).
Proof.
  unfold AgentGuardsSection. generalize (Guards.blocked reduceMotion g). intros b.
  generalize (Guards.gd_active g). intros i H. cbn in H.
  do 5 (destruct i as [|i]; [eexists; split; [reflexivity|]; destruct b; reflexivity|]). lia.
Qed.

Lemma deploy_parts d w l :
  ∃ n, DeploymentSection d w l = (Ok n, l) ∧ parts n = (["deploy"], [], []).
Proof.
  unfold DeploymentSection. destruct (model d) as [x|] eqn:E.
  - assert (Hx : x ∈ deployments).
    { unfold model in E. destruct (list_find _ deployments) as [[i y]|] eqn:Ef; [|injection E as <-; left].
      injection E as ->. apply list_find_Some in Ef as (H & _). by eapply list_elem_of_lookup_2. }
    eexists. split; [reflexivity|]. clear E.
    repeat (apply elem_of_cons in Hx as [->|Hx]; [reflexivity|]). by apply elem_of_nil in Hx.
  - exfalso. unfold model in E. by destruct (list_find _ deployments) as [[i y]|].
Qed.

Lemma stack_diagram_parts g : parts (StackDiagramSection reduceMotion g) = (["stack"], [("/stack", false)], ["stack_full_page"]).
Proof. unfold StackDiagramSection. destruct (Cycles.gate_blocked _ _); reflexivity. Qed.

Lemma quickstart_parts copies :
  length copies = length quick_steps →
  parts (QuickstartSection copies) = (["quickstart"], [("https://github.com/mhomaid/attest#quick-start", true)], ["quickstart_full_stack"]).
Proof. intros H. destruct copies as [|a [|b [|c [|d [|e copies]]]]]; try discriminate H. reflexivity. Qed.
End Pieces.

(** The result the demo section shows a card for. *)
Definition rendered_result (d : TryDemo.demo) : option jsval :=
  if TryDemo.paused d then None
  else match TryDemo.td_result d with Some r => if truthy r then Some r else None | None => None end.

Section Inert.
Context {A : Type}.
Variable f : attrs → list A.
Hypothesis Hf : ∀ a, at_id a = None → at_href a = None → at_cta a = None → f a = [].

Lemma inert_el t kids : collect_all f kids = [] → collect f (el t kids) = [].
Proof. intros E. unfold el. rewrite collect_el, E, app_nil_r. by apply Hf. Qed.

Lemma inert_tone tone t kids : collect_all f kids = [] → collect f (with_tone tone (el t kids)) = [].
Proof. intros E. unfold with_tone, on_attrs, el. rewrite collect_el, E, app_nil_r. by apply Hf. Qed.

Lemma inert_cons n ns : collect f n = [] → collect_all f ns = [] → collect_all f (n :: ns) = [].
Proof. intros E1 E2. by rewrite collect_all_cons, E1, E2. Qed.

Lemma inert_text s : collect f (Txt s) = [].
Proof. done. Qed.

Lemma inert_nil : collect_all f [] = [].
Proof. done. Qed.
End Inert.

(** Markup without anchors, links and calls to action. *)
Ltac inert Hf :=
  repeat first
    [ apply inert_nil | apply inert_text | apply (inert_cons _ ) | apply (inert_el _ Hf) | apply (inert_tone _ Hf)
    | apply collect_all_none; intros ? | progress unfold line ].

Lemma card_inert {A} (f : attrs → list A) r c :
  (∀ a, at_id a = None → at_href a = None → at_cta a = None → f a = []) → collect f (card_nodes r c) = [].
Proof.
  intros Hf. destruct c as [shown checked]. unfold card_nodes, checked_nodes, demo_row. cbn [fst snd].
  destruct shown as [rows|note], (truthy (prop "verify" r)); inert Hf.
Qed.

Lemma site_card_parts r c : parts (card_nodes r c) = ([], [], []).
Proof.
  unfold parts. rewrite !card_inert; [done|..]; intros a Hi Hh Hc; unfold ctas_of, hrefs_of, ids_of; by rewrite ?Hi, ?Hh, ?Hc.
Qed.

Lemma demo_parts d w l :
  match rendered_result d with
  | Some r => match TryDemo.DemoResultCard r w l with
              | (Ok c, l') => ∃ n, TryDemoSection d w l = (Ok n, l') ∧ parts n = (["try"], [], [])
              | (Throw e, l') => TryDemoSection d w l = (Throw e, l')
              end
  | None => ∃ n, TryDemoSection d w l = (Ok n, l) ∧
      parts n = (["try"], if TryDemo.paused d then [("#quickstart", false)] else [],
                 if TryDemo.paused d then ["try_demo_paused_quickstart"] else [])
  end.
Proof.
  unfold TryDemoSection, rendered_result. destruct (TryDemo.paused d); [eexists; split; reflexivity|].
  destruct (TryDemo.td_result d) as [r|]; [|eexists; split; reflexivity].
  destruct (truthy r); [|eexists; split; reflexivity]. unfold bind.
  destruct (TryDemo.DemoResultCard r w l) as [[c|e] l']; [|done].
  eexists. split; [reflexivity|]. pose proof (site_card_parts r c) as P. apply parts_spec in P as (P1 & P2 & P3).
  unfold parts, section, with_id, on_attrs, el, with_disabled, line, ret. cbn [collect map concat app ids_of hrefs_of ctas_of].
  cbn [collect map concat app]. rewrite P1, P2, P3. reflexivity.
Qed.

(** ** Every state of the home page *)
Section HomeFacts.
Variable reduceMotion : bool.
Variable year : Z.
Notation step := (home_step reduceMotion).

(** Each section runs as its own machine. *)
Record sections (t : Z) (s : home) : Prop := {
  se_verify : star (VerifyDemo.verify_step reduceMotion) (VerifyDemo.verify_mount reduceMotion t) (hm_verify s);
  se_guards : star (Guards.guards_step reduceMotion) (Guards.guards_mount reduceMotion t) (hm_guards s);
  se_gate : star (Gate.gate_step reduceMotion) (Gate.gate_mount reduceMotion t) (hm_gate s);
  se_copies : Forall (star CopyButton.copy_step CopyButton.copy_mount) (hm_copies s);
  se_copies_len : length (hm_copies s) = length quick_steps;
  se_runs : hm_runs s = if TryDemo.td_busy (hm_demo s) then 1%nat else 0%nat
}.

Lemma track_sections t c s : sections t s → sections t (track c s).
Proof. intros [H1 H2 H3 H4 H5 H6]. by split. Qed.

Lemma verify_report_sections t x s : sections t s → sections t (verify_report x s).
Proof. intros H. unfold verify_report. repeat case_match; auto using track_sections. Qed.

Lemma guards_report_sections t x s : sections t s → sections t (guards_report x s).
Proof. intros H. unfold guards_report. repeat case_match; auto using track_sections. Qed.

Lemma copy_report_sections t i x s : sections t s → sections t (copy_report i x s).
Proof. intros H. unfold copy_report. repeat case_match; auto using track_sections. Qed.

Lemma answer_report_sections t r s : sections t s → sections t (answer_report r s).
Proof. intros H. unfold answer_report. repeat case_match; auto using track_sections. Qed.

Lemma sections_step t s s' : sections t s → step s s' → sections t s'.
Proof.
  intros [H1 H2 H3 H4 H5 H6] (e & now & E). destruct e as [| |c|x|x|x|d|i x|r| |r]; cbn [home_handle] in E.
  - injection E as <-. by split.
  - injection E as <-. by split.
  - injection E as <-. by split.
  - apply bind_Some in E as (v & Ev & E). injection E as <-. apply verify_report_sections. split; try done.
    eapply star_snoc; [exact H1|]. by exists x, now.
  - apply bind_Some in E as (g & Eg & E). injection E as <-. apply guards_report_sections. split; try done.
    eapply star_snoc; [exact H2|]. by exists x, now.
  - apply bind_Some in E as (g & Eg & E). injection E as <-. split; try done.
    eapply star_snoc; [exact H3|]. by exists x, now.
  - case_decide; [|done]. injection E as <-. by split.
  - apply bind_Some in E as (c & Ec & E). apply bind_Some in E as (c' & Ec' & E). injection E as <-. apply copy_report_sections.
    split; try done; cbn; [|by rewrite length_insert]. apply Forall_insert; [done|].
    rewrite Forall_lookup in H4. eapply star_snoc; [by eapply H4|]. by exists x, now.
  - destruct (TryDemo.td_live (hm_demo s)) eqn:El; [done|]. injection E as <-. split; try done. cbn.
    unfold TryDemo.status_answered. by destruct (negb _).
  - destruct (_ || _) eqn:Ed; [done|]. injection E as <-. apply orb_false_iff in Ed as [_ Ed].
    unfold TryDemo.run_disabled in Ed. apply orb_false_iff in Ed as [Eb _]. rewrite Eb in H6. apply track_sections. split; try done. cbn. by rewrite H6.
  - destruct (hm_runs s) as [|n] eqn:En; [done|]. injection E as <-. apply answer_report_sections. split; try done. cbn.
    destruct (TryDemo.td_busy (hm_demo s)); [by injection H6|done].
Qed.

Lemma home_sections t s : star step (home_mount reduceMotion t) s → sections t s.
Proof.
  apply star_invariant; [|apply sections_step]. split; try apply star_refl; try done.
  repeat apply Forall_cons_2; try apply star_refl. apply Forall_nil_2.
Qed.

Lemma guards_reach t g :
  star (Guards.guards_step reduceMotion) (Guards.guards_mount reduceMotion t) g → (Guards.gd_active g < length Guards.attacks)%nat.
Proof.
  intros R. assert (I : Guards.guards_inv reduceMotion g); [|apply I].
  refine (star_invariant _ (Guards.guards_inv reduceMotion) _ _ _ (Guards.guards_step_inv reduceMotion) R).
  apply Guards.start_timers_inv. cbn. lia.
Qed.

Lemma nav_parts b : parts (MarketingNav b) =
  ([], [("/", false)] ++ ((λ l, (l.1, false)) <$> nav_links) ++ [("/waitlist", false); ("/#quickstart", false)] ++
       ((λ l, (l.1, false)) <$> nav_links) ++ [("/waitlist", false)], ["nav_run_locally"]).
Proof. destruct b; reflexivity. Qed.

Lemma footer_parts : parts (MarketingFooter year) =
  ([], ((λ l, (l.1, false)) <$> product) ++ [("/stack", false); ("/stack", false)], []).
Proof. reflexivity. Qed.

Lemma pipeline_parts : parts (PipelineSection reduceMotion) = (["pipeline"], [], []).
Proof. destruct reduceMotion; reflexivity. Qed.

Definition page_nodes (s : home) (hero demo guards deploy : node) : list node :=
  [MarketingNav (hm_menu s);
   el "main" [hero; StatusStrip; demo; PipelineSection reduceMotion; guards; CompareSection;
              StackDiagramSection reduceMotion (hm_gate s); deploy; QuickstartSection (hm_copies s);
              DetectionsCatalogSection; WorkbenchTourSection; CtaSection];
   MarketingFooter year].

Lemma page_collect {A} (f : attrs → list A) s hero demo guards deploy :
  f plain = [] →
  collect_all f (page_nodes s hero demo guards deploy) =
  collect f (MarketingNav (hm_menu s)) ++ (collect f hero ++ collect f StatusStrip ++ collect f demo ++ collect f (PipelineSection reduceMotion) ++
  collect f guards ++ collect f CompareSection ++ collect f (StackDiagramSection reduceMotion (hm_gate s)) ++ collect f deploy ++
  collect f (QuickstartSection (hm_copies s)) ++ collect f DetectionsCatalogSection ++ collect f WorkbenchTourSection ++ collect f CtaSection) ++
  collect f (MarketingFooter year).
Proof.
  intros P. unfold page_nodes. rewrite !collect_all_cons. unfold el at 1. rewrite collect_el, P, !collect_all_cons.
  cbn [collect_all map concat app]. by rewrite !app_nil_r, <- ?app_assoc.
Qed.

Definition good_page (ns : list node) : Prop :=
  ids ns = home_ids ∧ NoDup (ctas ns) ∧ links_lead home_ids ns.

Lemma page_good s hero demo guards deploy (c : bool) :
  length (hm_copies s) = length quick_steps →
  parts hero = (["verify"], [("#try", false); ("/waitlist", false); ("https://github.com/mhomaid/attest", true)],
                ["hero_try_demo"; "hero_waitlist"; "hero_github"]) →
  parts guards = (["guards"], [], []) → parts deploy = (["deploy"], [], []) →
  parts demo = (["try"], if c then [("#quickstart", false)] else [], if c then ["try_demo_paused_quickstart"] else []) →
  good_page (page_nodes s hero demo guards deploy).
Proof.
  intros L (H1 & H2 & H3)%parts_spec (G1 & G2 & G3)%parts_spec (D1 & D2 & D3)%parts_spec (T1 & T2 & T3)%parts_spec.
  pose proof (quickstart_parts _ L) as (Q1 & Q2 & Q3)%parts_spec.
  pose proof (nav_parts (hm_menu s)) as (N1 & N2 & N3)%parts_spec. pose proof footer_parts as (F1 & F2 & F3)%parts_spec.
  pose proof pipeline_parts as (P1 & P2 & P3)%parts_spec.
  pose proof (stack_diagram_parts reduceMotion (hm_gate s)) as (S1 & S2 & S3)%parts_spec.
  unfold good_page, ids, ctas. rewrite !page_collect by done.
  rewrite H1, H3, G1, G3, D1, D3, T1, T3, Q1, Q3, N1, N3, F1, F3, P1, P3, S1, S3.
  split; [destruct c; reflexivity|]. split; [apply (bool_decide_unpack _); destruct c; vm_compute; exact I|]. apply links_lead_intro.
  unfold hrefs. rewrite page_collect, H2, G2, D2, T2, Q2, N2, F2, P2, S2 by done. destruct c; vm_compute; reflexivity.
Qed.

(** C37: the home page works in every state it can get into. Whatever the
    visitor does, however the timers run and whatever the demo answers, the
    page renders unless the demo's card itself throws on the answer, and then
    with that error; rendered, its anchors are the ten of the sections, each
    once, every call to action is reported under a name of its own, and every
    link leads somewhere: to an anchor of the page it is on or of the home
    page, to a page of the application that needs no session, or away over
    https, the latter only when it opens a new tab; and there is at most one
    demo run under way. *)
Theorem home_page_sound t s w :
  star step (home_mount reduceMotion t) s →
  (hm_runs s <= 1)%nat ∧
  match rendered_result (hm_demo s) with
  | Some r => match (run (TryDemo.DemoResultCard r) w).1 with
              | Ok _ => ∃ ns, (run (HomePage reduceMotion year s) w).1 = Ok ns ∧ good_page ns
              | Throw e => (run (HomePage reduceMotion year s) w).1 = Throw e
              end
  | None => ∃ ns, (run (HomePage reduceMotion year s) w).1 = Ok ns ∧ good_page ns
  end.
Proof.
  intros R. destruct (home_sections t s R) as [H1 H2 H3 H4 H5 H6]. split; [rewrite H6; destruct (TryDemo.td_busy _); lia|].
  pose proof (proj1 (VerifyDemo.verify_reach _ _ _ H1)) as Hv. pose proof (guards_reach _ _ H2) as Hg.
  destruct (hero_parts (hm_verify s) w [] Hv) as (hero & Eh & Ph). pose proof (demo_parts (hm_demo s) w []) as Dm.
  assert (Rest : ∀ demo (c : bool) l, TryDemoSection (hm_demo s) w [] = (Ok demo, l) →
    parts demo = (["try"], if c then [("#quickstart", false)] else [], if c then ["try_demo_paused_quickstart"] else []) →
    ∃ ns, (run (HomePage reduceMotion year s) w).1 = Ok ns ∧ good_page ns).
  { intros demo c l Ed Pd. destruct (guards_parts reduceMotion (hm_guards s) w l Hg) as (guards & Eg & Pg).
    destruct (deploy_parts (hm_deploy s) w l) as (deploy & Ep & Pp).
    exists (page_nodes s hero demo guards deploy). split; [|by eapply page_good].
    unfold run, HomePage, bind. by rewrite Eh, Ed, Eg, Ep. }
  unfold run. destruct (rendered_result (hm_demo s)) as [r|].
  - destruct (TryDemo.DemoResultCard r w []) as [[c|e] l].
    + destruct Dm as (demo & Ed & Pd). by apply (Rest demo false l).
    + cbn [fst]. unfold HomePage, bind. by rewrite Eh, Dm.
  - destruct Dm as (demo & Ed & Pd). by apply (Rest demo (TryDemo.paused (hm_demo s)) []).
Qed.
End HomeFacts.

(** A visitor who started the demo, paused the animation and copied a
    command. *)
Definition busy_events : list (home_event * Z) :=
  [(HeStatus (Ok (mkFetched 200 (Some (JObj [("live", JBool true)])) EmptyString)), 1); (HeRun, 2);
   (HeVerify (VerifyDemo.VdHover true), 3); (HeCopy 1 CopyButton.CbClick, 4); (HeCopy 1 CopyButton.CbWritten, 5); (HeMenu, 6)].

Definition busy_home : home :=
  default (home_mount false 0) (foldl (λ s e, s ≫= home_handle false e.1 e.2) (Some (home_mount false 0)) busy_events).

Lemma busy_run : foldl (λ s e, s ≫= home_handle false e.1 e.2) (Some (home_mount false 0)) busy_events = Some busy_home.
Proof. vm_compute. reflexivity. Qed.

Lemma busy_state : rendered_result (hm_demo busy_home) = None ∧ hm_runs busy_home = 1%nat.
Proof. vm_compute. split; reflexivity. Qed.

Lemma handled_star r es s s' :
  foldl (λ s e, s ≫= home_handle r e.1 e.2) (Some s) es = Some s' → star (home_step r) s s'.
Proof.
  revert s. induction es as [|[e t] es IH]; intros s E; cbn [foldl] in E; [injection E as <-; apply star_refl|].
  cbn [mbind option_bind fst snd] in E. destruct (home_handle r e t s) as [s1|] eqn:E1.
  - eapply star_trans; [|by apply IH]. eapply star_snoc; [apply star_refl|]. by exists e, t.
  - exfalso. clear IH E1. induction es as [|e' es IH']; [discriminate E|by apply IH'].
Qed.

Lemma home_page_sound_witness :
  ∃ ns, (run (HomePage false 2026 busy_home) sample_env).1 = Ok ns ∧ good_page ns ∧ hm_runs busy_home = 1%nat.
Proof.
  destruct (home_page_sound false 2026 0 busy_home sample_env (handled_star _ _ _ _ busy_run)) as [_ H].
  rewrite (proj1 busy_state) in H. destruct H as (ns & E & G). exists ns. split; [exact E|]. split; [exact G|exact (proj2 busy_state)].
Defined.

(** ** The stack page *)

(** The flow marks one hop or none: seven cases. *)
Ltac each_hop active := do 6 (try destruct active as [|active]); vm_compute; reflexivity.

Lemma card_link c : hrefs [component_card c] = match has_path c with Some p => [(repoLink p, true)] | None => [] end.
Proof. unfold component_card. destruct (has_path c), (isPlanned c); reflexivity. Qed.

(** The stack page is consistent with its data: its heading counts the
    components, the links above the sections lead to exactly the sections of
    the page, in order, every link leads somewhere, and a component links to
    its place in the repository exactly when it is not marked as planned. *)
Theorem stack_page_sound r menu active year :
  let page := StackPage r menu active year in
  ids page = pl_id <$> planes ∧ links_lead (ids page) page ∧
  string_of_Z (Z.of_nat (length (concat (pl_components <$> planes)))) ∈ texts page ∧
  (∀ p, p ∈ planes → ("#" +:+ pl_id p, false) ∈ hrefs page) ∧
  ∀ p c, p ∈ planes → c ∈ pl_components p →
    hrefs [component_card c] = [] ↔ isPlanned c = true.
Proof.
  intros page. assert (Hi : ids page = pl_id <$> planes) by (subst page; destruct r, menu; each_hop active).
  split; [exact Hi|]. split; [|split; [|split]].
  - rewrite Hi. apply links_lead_intro. subst page. destruct r, menu; each_hop active.
  - apply (bool_decide_unpack _). subst page. destruct r, menu; vm_compute; exact I.
  - intros p Hp. assert (E : Forall (λ p, ("#" +:+ pl_id p, false) ∈ hrefs page) planes); [|by rewrite Forall_forall in E; apply E].
    apply (bool_decide_unpack _). subst page. destruct r, menu; vm_compute; exact I.
  - intros p c Hp Hc. destruct planes_spec as (_ & _ & _ & H & _). rewrite card_link, (H p c Hp Hc). unfold has_path.
    destruct (pc_path c) as [x|] eqn:Ex; [|done]. destruct (String.eqb_spec x EmptyString) as [->|Hx]; [|done].
    exfalso. assert (Hall : Forall (λ p, Forall (λ c, pc_path c ≠ Some EmptyString) (pl_components p)) planes)
      by (apply (bool_decide_unpack _); vm_compute; exact I).
    rewrite Forall_forall in Hall. specialize (Hall p Hp). rewrite Forall_forall in Hall. by apply (Hall c Hc).
Qed.

(** ** What the texts say of the product *)

(** The numbers of the home page are those of the product: the rules of the
    rules page and of the rule files, the attacks of the guards' section, the
    scenarios and presets of the labs, the stages of the memory panel and the
    services that are checked. *)
Lemma home_numbers :
  (fa_value <$> facts !! 1%nat) = Some (string_of_Z (Z.of_nat (length Detections.RULES))) ∧
  length Catalog.rules = length Detections.RULES ∧ length heliql_rules = length Detections.RULES ∧
  (fa_value <$> facts !! 3%nat) = Some (string_of_Z (Z.of_nat (length Guards.attacks))) ∧
  length Guards.attacks = 5%nat ∧ (∀ getHours, length (SCENARIOS getHours) = 5%nat) ∧ length planes = 6%nat ∧
  join " / " (LoadPage.ps_label <$> LoadPage.PRESETS) = "Smoke / Sustained / Burst / 1M Challenge" ∧
  (tp_href <$> tour_pages) ⊆ page_routes.
Proof. split_and!; try reflexivity. apply (bool_decide_unpack _). vm_compute. exact I. Qed.

(** The tour says that the agents page marks the Investigator as live when
    the gateway is up; the page marks it as planned whatever it learns. *)
Lemma investigator_never_live url toLocaleString w p l :
  run (Agents.AgentsPage url toLocaleString) w = (Ok p, l) → ("investigator-v1", "Phase 5") ∈ Agents.ap_badges p.
Proof.
  unfold run, Agents.AgentsPage, bind. destruct (Agents.fetchOrchestratorMetrics _ w []) as [[m|e] l1]; [|done].
  destruct (if truthy m then _ else _) as [[t|e] l2] eqn:Et; revert Et; (destruct (truthy m); [destruct (is_nullish _)|]); cbn;
    intros Et; simplify_eq; cbn; intros [= <- <-]; right; left.
Qed.
