(* ===== verification/AppShell.v ===== *)
(** * The frame of the workbench

    - [Sidebar]: the provider of [components/ui/sidebar.tsx] with its cookie,
      shortcut and views, and [hooks/use-mobile.tsx];
    - [Navigation]: [components/workbench/attest-sidebar.tsx] and the sign-out
      of [components/nav-user.tsx];
    - [CaseState]: [lib/stores/case-state-store.ts];
    - [Now]: [hooks/use-now.ts]. *)
From Stdlib Require Import Ascii.
From S2P Require Import Prelude JsObject JsNum JsString JsValue Effects PublicPages.

(** ** The sidebar *)
Module Sidebar.

Definition SIDEBAR_COOKIE_NAME : string := "sidebar_state".
Definition SIDEBAR_COOKIE_MAX_AGE : Z := 60 * 60 * 24 * 7.
Definition SIDEBAR_KEYBOARD_SHORTCUT : string := "b".
Definition MOBILE_BREAKPOINT : Z := 768.

(** [window.matchMedia("(max-width: 767px)").matches] for a viewport of a
    whole number of pixels, and the server's snapshot. *)
Definition useIsMobile (viewport : option Z) : bool :=
  match viewport with Some w => w <=? MOBILE_BREAKPOINT - 1 | None => false end.

(** The props [open] and [onOpenChange], the two state variables, what the
    callbacks of the last render captured, the cookie and the calls of
    [onOpenChange]. *)
Record sidebar := mkSidebar {
  sb_openProp : option bool;
  sb_setOpenProp : bool;
  sb_open : bool;
  sb_openMobile : bool;
  sb_viewport : Z;
  sb_rendered_open : bool;
  sb_rendered_mobile : bool;
  sb_cookie : option string;
  sb_calls : list bool
}.

Definition open_of (s : sidebar) : bool := default (sb_open s) (sb_openProp s).

Definition render (s : sidebar) : sidebar :=
  mkSidebar (sb_openProp s) (sb_setOpenProp s) (sb_open s) (sb_openMobile s) (sb_viewport s)
    (open_of s) (useIsMobile (Some (sb_viewport s))) (sb_cookie s) (sb_calls s).

Definition provider_mount (openProp : option bool) (setOpenProp defaultOpen : bool) (viewport : Z) (cookie : option string) : sidebar :=
  render (mkSidebar openProp setOpenProp defaultOpen false viewport false false cookie []).

Definition cookie_text (openState : bool) : string :=
  SIDEBAR_COOKIE_NAME +:+ "=" +:+ (if openState then "true" else "false") +:+ "; path=/; max-age=" +:+ string_of_Z SIDEBAR_COOKIE_MAX_AGE.

(** [setOpen(value)] with a function; [open] is the one of the last render. *)
Definition setOpen (value : bool → bool) (s : sidebar) : sidebar :=
  let openState := value (sb_rendered_open s) in
  mkSidebar (sb_openProp s) (sb_setOpenProp s) (if sb_setOpenProp s then sb_open s else openState) (sb_openMobile s) (sb_viewport s)
    (sb_rendered_open s) (sb_rendered_mobile s) (Some (cookie_text openState))
    (if sb_setOpenProp s then sb_calls s ++ [openState] else sb_calls s).

Definition setOpenMobile (value : bool → bool) (s : sidebar) : sidebar :=
  mkSidebar (sb_openProp s) (sb_setOpenProp s) (sb_open s) (value (sb_openMobile s)) (sb_viewport s)
    (sb_rendered_open s) (sb_rendered_mobile s) (sb_cookie s) (sb_calls s).

Definition toggleSidebar (s : sidebar) : sidebar :=
  if sb_rendered_mobile s then setOpenMobile negb s else setOpen negb s.

(** The key listener of the window. *)
Definition handleKeyDown (key : string) (metaKey ctrlKey : bool) (s : sidebar) : sidebar :=
  if String.eqb key SIDEBAR_KEYBOARD_SHORTCUT && (metaKey || ctrlKey) then toggleSidebar s else s.

Definition state (s : sidebar) : string := if sb_rendered_open s then "expanded" else "collapsed".

(** What [Sidebar] renders, and the tooltip of a menu button. *)
Inductive sidebar_view :=
| ViewPlain
| ViewSheet (open : bool)
| ViewDesktop (data_state data_collapsible : string).

Definition Sidebar (collapsible : string) (s : sidebar) : sidebar_view :=
  if String.eqb collapsible "none" then ViewPlain
  else if sb_rendered_mobile s then ViewSheet (sb_openMobile s)
  else ViewDesktop (state s) (if String.eqb (state s) "collapsed" then collapsible else EmptyString).

Definition tooltip_hidden (s : sidebar) : bool := negb (String.eqb (state s) "collapsed") || sb_rendered_mobile s.

(** [SidebarMenuSkeleton]: a width from the characters of an id. *)
Fixpoint skeleton_hash (id : string) (h : Z) : Z :=
  match id with EmptyString => h | String c id' => skeleton_hash id' ((h + Z.of_N (code c)) mod 40) end.
Definition skeleton_width (id : string) : string := string_of_Z (50 + skeleton_hash id 0) +:+ "%".

Inductive sidebar_event :=
| SbToggle                                             (** the trigger or the rail *)
| SbKey (key : string) (metaKey ctrlKey : bool)
| SbSheet (open : bool)                                (** the sheet's [onOpenChange] *)
| SbResize (viewport : Z)
| SbOpenProp (open : option bool).

Definition sidebar_event_of (e : sidebar_event) (s : sidebar) : sidebar :=
  match e with
  | SbToggle => toggleSidebar s
  | SbKey k m c => handleKeyDown k m c s
  | SbSheet o => setOpenMobile (λ _, o) s
  | SbResize w => mkSidebar (sb_openProp s) (sb_setOpenProp s) (sb_open s) (sb_openMobile s) w
                    (sb_rendered_open s) (sb_rendered_mobile s) (sb_cookie s) (sb_calls s)
  | SbOpenProp o => mkSidebar o (sb_setOpenProp s) (sb_open s) (sb_openMobile s) (sb_viewport s)
                      (sb_rendered_open s) (sb_rendered_mobile s) (sb_cookie s) (sb_calls s)
  end.

(** An event that React renders before the next one. *)
Definition sidebar_step (s s' : sidebar) : Prop := ∃ e, s' = render (sidebar_event_of e s).

(** *** Facts *)

Definition uncontrolled (s : sidebar) : Prop := sb_openProp s = None ∧ sb_setOpenProp s = false.
Definition uncontrolled_step (s s' : sidebar) : Prop :=
  ∃ e, s' = render (sidebar_event_of e s) ∧ match e with SbOpenProp _ => False | _ => True end.

Record sidebar_inv (defaultOpen : bool) (cookie0 : option string) (s : sidebar) : Prop := {
  sv_unc : uncontrolled s;
  sv_rendered : sb_rendered_open s = sb_open s;
  sv_mobile : sb_rendered_mobile s = useIsMobile (Some (sb_viewport s));
  sv_cookie : sb_cookie s = Some (cookie_text (sb_open s)) ∨ sb_cookie s = cookie0 ∧ sb_open s = defaultOpen
}.

Lemma uncontrolled_inv d w c s : star uncontrolled_step (provider_mount None false d w c) s → sidebar_inv d c s.
Proof.
  intros R. refine (star_invariant _ (sidebar_inv d c) _ _ _ _ R).
  { constructor; simpl; [done|done|done|by right]. }
  assert (Rd : ∀ x, uncontrolled x → (sb_cookie x = Some (cookie_text (sb_open x)) ∨ sb_cookie x = c ∧ sb_open x = d) →
                    sidebar_inv d c (render x)).
  { intros x [U1 U2] H. constructor; simpl; [done| |done|done]. unfold open_of. by rewrite U1. }
  assert (Tg : ∀ x, sidebar_inv d c x → uncontrolled (toggleSidebar x) ∧
    (sb_cookie (toggleSidebar x) = Some (cookie_text (sb_open (toggleSidebar x))) ∨ sb_cookie (toggleSidebar x) = c ∧ sb_open (toggleSidebar x) = d)).
  { intros x [[U1 U2] _ _ Hc]. unfold toggleSidebar. destruct (sb_rendered_mobile x); simpl; [by split|].
    rewrite U2. split; [done|by left]. }
  intros a b I (e & -> & H). destruct e as [|k m ct|o|w'|o]; simpl; [..|done].
  - by apply Rd; apply Tg.
  - unfold handleKeyDown. destruct (_ && _); [by apply Rd; apply Tg|]. destruct I. by apply Rd.
  - destruct I. by apply Rd.
  - destruct I. by apply Rd.
Qed.

(** The sidebar keeps its own state. As long as React renders between events,
    what is drawn is the state; the cookie says what the state is from the
    first toggle on the desktop; a toggle changes exactly one of the two
    states, by the width of the window; a shortcut is the key with Meta or
    Control and does what a click does. *)
Theorem sidebar_keeps_state defaultOpen viewport cookie s :
  star uncontrolled_step (provider_mount None false defaultOpen viewport cookie) s →
  state s = (if sb_open s then "expanded" else "collapsed") ∧
  (sb_cookie s = Some (cookie_text (sb_open s)) ∨ sb_cookie s = cookie ∧ sb_open s = defaultOpen) ∧
  (let s' := render (toggleSidebar s) in
   if sb_viewport s <=? 767
   then sb_openMobile s' = negb (sb_openMobile s) ∧ sb_open s' = sb_open s ∧ sb_cookie s' = sb_cookie s
   else sb_openMobile s' = sb_openMobile s ∧ sb_open s' = negb (sb_open s) ∧ sb_cookie s' = Some (cookie_text (sb_open s'))) ∧
  (∀ k m c, handleKeyDown k m c s = toggleSidebar s ∨ (k ≠ "b" ∨ m = false ∧ c = false) ∧ handleKeyDown k m c s = s).
Proof.
  intros R. destruct (uncontrolled_inv _ _ _ _ R) as [[U1 U2] Hr Hm Hc]. split; [unfold state; by rewrite Hr|].
  split; [done|]. split.
  - unfold toggleSidebar. rewrite Hm. change (useIsMobile (Some (sb_viewport s))) with (sb_viewport s <=? 767).
    destruct (sb_viewport s <=? 767); simpl; [done|]. by rewrite U2, Hr.
  - intros k m c. unfold handleKeyDown, SIDEBAR_KEYBOARD_SHORTCUT. destruct (String.eqb_spec k "b") as [->|Hk]; simpl; [|auto].
    destruct m, c; simpl; auto.
Qed.

Lemma sidebar_keeps_state_witness :
  let s := render (toggleSidebar (provider_mount None false true 1200 None)) in
  state s = "collapsed" ∧ sb_cookie s = Some (cookie_text false).
Proof.
  intros s. assert (R : star uncontrolled_step (provider_mount None false true 1200 None) s).
  { eapply star_snoc; [apply star_refl|]. by exists SbToggle. }
  destruct (sidebar_keeps_state true 1200 None s R) as (H1 & H2 & _). split; [exact H1|].
  destruct H2 as [H2|[H2 _]]; [exact H2|discriminate H2].
Defined.

(** The cookie is never read: the provider of the workbench is mounted
    without [defaultOpen], so after a reload the sidebar is open whatever the
    cookie says. *)
Lemma cookie_not_read cookie viewport : open_of (provider_mount None false true viewport cookie) = true.
Proof. reflexivity. Qed.

(** Two toggles before a render are one: [open] is the one of the last
    render, although it is passed as a function. *)
Example two_toggles_one :
  sb_open (toggleSidebar (toggleSidebar (provider_mount None false true 1200 None))) = false.
Proof. reflexivity. Qed.

(** With [onOpenChange] the cookie says what was asked, also when the parent
    keeps [open] as it is. *)
Example controlled_cookie :
  let s := render (toggleSidebar (provider_mount (Some true) true true 1200 None)) in
  state s = "expanded" ∧ sb_cookie s = Some (cookie_text false) ∧ sb_calls s = [false].
Proof. split; [|split]; reflexivity. Qed.

Lemma skeleton_width_bounds id : 50 <= 50 + skeleton_hash id 0 <= 89.
Proof.
  assert (H : ∀ h, 0 <= h < 40 → 0 <= skeleton_hash id h < 40); [|specialize (H 0); lia].
  induction id as [|c id IH]; intros h Hh; simpl; [done|]. apply IH, Z.mod_pos_bound. lia.
Qed.
End Sidebar.

(** ** Navigation *)
Module Navigation.

Record nav_item := mkNav { nv_href : string; nv_label : string; nv_description : option string }.

Definition navMain : list nav_item := [
  mkNav "/workbench/queue" "Queue" (Some "Real-time alert queue");
  mkNav "/workbench/cases" "Cases" (Some "Investigation cases");
  mkNav "/workbench/hunt" "Hunt" (Some "Threat hunting");
  mkNav "/workbench/detections" "Detections" (Some "Detection rules");
  mkNav "/workbench/simulate" "Simulate" (Some "ML triage sandbox");
  mkNav "/workbench/load" "Load Lab" (Some "Stress testing")].

Definition navSecondary : list nav_item := [
  mkNav "/workbench/coverage" "Coverage" None;
  mkNav "/workbench/agents" "Agents" None;
  mkNav "/workbench/settings" "Settings" None;
  mkNav "/workbench/admin" "Admin" None].

Record nav_user := mkNavUser { nu_name : string; nu_email : string; nu_avatar : string }.

(** The user of the footer. *)
Definition user : nav_user := mkNavUser "Analyst" "analyst@attest.dev" EmptyString.

Definition isActive (pathname href : string) : bool :=
  if String.eqb href "/workbench/cases" then starts_with "/workbench/cases" pathname
  else String.eqb pathname href || starts_with (href +:+ "/") pathname.

Definition active_items (pathname : string) : list nav_item :=
  filter (λ i, isActive pathname (nv_href i) = true) (navMain ++ navSecondary).

(** [signOut] of the footer's menu, with the request of the sign-out button. *)
Definition nav_signOut (client_sign_out : M unit) : M (list string * option err) := Shell.signOut client_sign_out.

Lemma isActive_prefix pathname href : isActive pathname href = true → starts_with href pathname = true.
Proof.
  unfold isActive. destruct (String.eqb_spec href "/workbench/cases") as [->|_]; [done|].
  intros [E|E]%orb_true_iff; apply starts_with_spec.
  - apply String.eqb_eq in E as ->. exists EmptyString. by rewrite string_app_empty_r.
  - apply starts_with_spec in E as [t ->]. exists (String "/" t). by rewrite string_app_assoc.
Qed.

Lemma prefixes_comparable p q s : starts_with p s = true → starts_with q s = true → starts_with p q = true ∨ starts_with q p = true.
Proof.
  revert q s. induction p as [|a p IH]; intros q s; [by left|]. destruct q as [|b q]; [by right|].
  destruct s as [|c s]; [done|]. simpl. intros [Ha Hp]%andb_true_iff [Hb Hq]%andb_true_iff.
  apply Ascii.eqb_eq in Ha as ->, Hb as ->. rewrite Ascii.eqb_refl. by apply (IH q s).
Qed.

(** At most one entry of the sidebar is highlighted, whatever the path; every
    page of the sidebar highlights its own entry, and so do the pages below
    it. *)
Theorem nav_one_active pathname :
  (length (active_items pathname) <= 1)%nat ∧
  (∀ i rest, i ∈ navMain ++ navSecondary →
     active_items (nv_href i) = [i] ∧ active_items (nv_href i +:+ "/" +:+ rest) = [i]).
Proof.
  assert (One : ∀ p i, i ∈ active_items p → active_items p = [i]).
  { intros p i Hi. assert (Hin := Hi). apply list_elem_of_filter in Hi as [Ha Hi].
    assert (A : ∀ j, j ∈ navMain ++ navSecondary → isActive p (nv_href j) = true → j = i).
    { intros j Hj Hja. apply isActive_prefix in Ha, Hja. destruct (prefixes_comparable _ _ _ Ha Hja) as [C|C];
        revert C; clear -Hi Hj; apply list_elem_of_In in Hi, Hj; simpl in Hi, Hj;
        repeat (destruct Hi as [<-|Hi]; [repeat (destruct Hj as [<-|Hj]; [by vm_compute|]); done|]); done. }
    assert (N : NoDup (navMain ++ navSecondary)).
    { apply (NoDup_fmap_1 nv_href). apply (bool_decide_unpack _). vm_compute. reflexivity. }
    unfold active_items in *. pose proof (NoDup_filter (λ i, isActive p (nv_href i) = true) _ N) as Nf.
    assert (B : ∀ j, j ∈ filter (λ i, isActive p (nv_href i) = true) (navMain ++ navSecondary) → j = i)
      by (intros j [? ?]%list_elem_of_filter; by apply A).
    destruct (filter _ _) as [|x [|y l]]; [by apply elem_of_nil in Hin|f_equal; apply B; left|].
    exfalso. apply NoDup_cons in Nf as [Nx _]. apply Nx. rewrite (B x), (B y); [left|right; left|left]. }
  split.
  - destruct (active_items pathname) as [|i l] eqn:E; simpl; [lia|]. specialize (One pathname i). rewrite E in One.
    assert (H : i :: l = [i]) by (apply One; left). injection H as ->. simpl. lia.
  - intros i rest Hi. split; apply One, list_elem_of_filter; (split; [|done]).
    + clear -Hi. apply list_elem_of_In in Hi. simpl in Hi. repeat (destruct Hi as [<-|Hi]; [by vm_compute|]). done.
    + unfold isActive. destruct (String.eqb_spec (nv_href i) "/workbench/cases") as [->|_]; [by apply starts_with_spec; eexists|].
      apply orb_true_iff. right. apply starts_with_spec. exists rest. by rewrite string_app_assoc.
Qed.
End Navigation.

(** ** The case-state store *)
Module CaseState.

Inductive Disposition := DispNone | DispApproved | DispOverride.
#[export] Instance Disposition_eq : EqDecision Disposition. Proof. solve_decision. Defined.

Record CaseEntry := mkCaseEntry {
  ce_disposition : Disposition;
  ce_overrideLabel : option string;
  ce_updatedAt : Z
}.

(** [cases], a record by case id. *)
Definition cases := jsobj CaseEntry.

Definition setApproved (now : Z) (caseId : string) (s : cases) : cases := obj_set caseId (mkCaseEntry DispApproved None now) s.
Definition setOverride (now : Z) (caseId label : string) (s : cases) : cases :=
  obj_set caseId (mkCaseEntry DispOverride (Some label) now) s.
Definition clear (caseId : string) (s : cases) : cases := obj_delete caseId s.

Inductive case_state_action := CsApprove (caseId : string) | CsOverride (caseId label : string) | CsClear (caseId : string).

Definition run_case_state (now : Z) (a : case_state_action) (s : cases) : cases :=
  match a with
  | CsApprove c => setApproved now c s
  | CsOverride c l => setOverride now c l s
  | CsClear c => clear c s
  end.

Definition action_case (a : case_state_action) : string :=
  match a with CsApprove c | CsOverride c _ | CsClear c => c end.

(** The actions performed, with their times, from the empty store. *)
Definition run_case_states (l : list (Z * case_state_action)) : cases := foldl (λ s a, run_case_state a.1 a.2 s) [] l.

(** The entry of a case is decided by the last action for it: none or a
    clear leaves no entry, an approval has no label, an override its label. *)
Lemma case_state_last l c :
  obj_get c (run_case_states l) =
  match last (filter (λ a, action_case a.2 = c) l) with
  | Some (now, CsApprove _) => Some (mkCaseEntry DispApproved None now)
  | Some (now, CsOverride _ label) => Some (mkCaseEntry DispOverride (Some label) now)
  | Some (_, CsClear _) | None => None
  end.
Proof.
  unfold run_case_states. induction l as [|[now a] l IH] using rev_ind; [done|].
  rewrite foldl_app. cbn [foldl fst snd].
  set (P := λ a : Z * case_state_action, action_case a.2 = c) in *.
  assert (Ef : filter P (l ++ [(now, a)]) = filter P l ++ (if decide (action_case a = c) then [(now, a)] else [])).
  { rewrite filter_app. f_equal. }
  rewrite Ef. destruct (decide (action_case a = c)) as [E|E].
  - rewrite last_snoc. destruct a as [c'|c' lab|c']; simpl in *; subst c'.
    + apply obj_get_set_eq.
    + apply obj_get_set_eq.
    + apply obj_get_delete_eq.
  - rewrite app_nil_r, <- IH. destruct a as [c'|c' lab|c']; simpl in *.
    + by apply obj_get_set_ne.
    + by apply obj_get_set_ne.
    + by apply obj_get_delete_ne.
Qed.
End CaseState.

(** ** The clock *)
Module Now.

(** [getSnapshot] at [now] with a positive [intervalMs], and the snapshot of
    the server and of hydration. *)
Definition getSnapshot (intervalMs now : Z) : Z := now / intervalMs * intervalMs.
Definition getServerSnapshot : option Z := None.

(** The snapshot is at most an interval old, never in the future, never goes
    back and stays the same within an interval. *)
Lemma snapshot_spec intervalMs now :
  0 < intervalMs →
  getSnapshot intervalMs now <= now < getSnapshot intervalMs now + intervalMs ∧
  (∀ later, now <= later → getSnapshot intervalMs now <= getSnapshot intervalMs later) ∧
  (∀ later, getSnapshot intervalMs now <= later < getSnapshot intervalMs now + intervalMs →
     getSnapshot intervalMs later = getSnapshot intervalMs now).
Proof.
  intros Hi. unfold getSnapshot. pose proof (Z.div_mod now intervalMs ltac:(lia)). pose proof (Z.mod_pos_bound now intervalMs Hi).
  split; [lia|]. split.
  - intros later Hl. apply Z.mul_le_mono_nonneg_r; [lia|]. apply Z.div_le_mono; lia.
  - intros later Hl. f_equal. symmetry. apply (Z.div_unique later intervalMs _ (later - now / intervalMs * intervalMs)); lia.
Qed.
End Now.
