(* ===== verification/CaseView.v ===== *)
(** * What a case page shows

    The view of [components/workbench/case-workbench.tsx] over the state of
    [CaseClient], with the override dialog; the two steppers of
    [investigator-trace-stepper.tsx] with the clock of a triage, which is kept
    in the session storage; the timeline of [reasoning-trace-viewer.tsx]; the
    badges of [status-badge.tsx]. *)
From Stdlib Require Import Ascii.
From S2P Require Import Prelude JsObject JsNum JsString JsValue Types AlertMappers CaseStore Effects TracePanels Citations Stepper CaseClient AppShell.

(** ** Badges *)

Inductive StatusTone := ToneCritical | ToneHigh | ToneMedium | ToneLow | ToneInfo | ToneMuted | ToneGood.

Definition toneClasses (t : StatusTone) : string :=
  match t with
  | ToneCritical => "border-severity-critical/40 bg-severity-critical/10 text-severity-critical"
  | ToneHigh => "border-severity-high/40 bg-severity-high/10 text-severity-high"
  | ToneMedium => "border-severity-medium/40 bg-severity-medium/10 text-severity-medium"
  | ToneLow => "border-severity-low/40 bg-severity-low/10 text-severity-low"
  | ToneInfo => "border-signal-live/40 bg-signal-live/10 text-signal-live"
  | ToneMuted => "border-border bg-secondary text-muted-foreground"
  | ToneGood => "border-signal-good/40 bg-signal-good/10 text-signal-good"
  end.

(** Text and colours of a badge; a missing tone is muted. *)
Definition StatusBadge (tone : option StatusTone) (text : string) : string * string :=
  (text, toneClasses (default ToneMuted tone)).

(** The tone of a severity; the record of a case can carry any text. *)
Definition case_tone (severity : string) : option StatusTone :=
  if String.eqb severity "critical" then Some ToneCritical
  else if String.eqb severity "high" then Some ToneHigh
  else if String.eqb severity "medium" then Some ToneMedium
  else if String.eqb severity "low" then Some ToneLow
  else None.

(** ** The items of a stepper *)

(** Title, description, state, what the indicator shows, and the badge. *)
Record shown_step := mkShownStep {
  sp_title : string; sp_description : string; sp_state : ItemState; sp_indicator : string; sp_badge : string
}.

(** The indicators both steppers pass to the widget. *)
Definition step_indicators : StepIndicators := mkIndicators None (Some "CheckIcon") None (Some "LoaderCircleIcon").

(** The three badges are hidden except the one of the state. *)
Definition state_badge (completed : string) (st : ItemState) : string :=
  match st with ItActive => "In progress" | ItCompleted => completed | ItInactive => "Pending" end.

Definition shown_step_of (completed : string) (step : string * string * string) (item : ItemState * bool) : shown_step :=
  mkShownStep step.1.1 step.1.2 item.1 (indicator step_indicators item.1 item.2 step.2) (state_badge completed item.1).

Definition PIPELINE_STEPS : list (string * string * string) := [
  ("Reasoning", "Intermediate beliefs from the investigator model.", "BrainIcon");
  ("Tools & evidence", "MCP / warm-tier queries and policy-checked calls.", "WrenchIcon");
  ("Verdict & attestation", "Final verdict, guardrails, signed envelope.", "GavelIcon")].

Definition PIPELINE_4 : list (string * string * string) := [
  ("Event ingested", "OCSF parsed · baseline fetched", "DatabaseIcon");
  ("Classifier", "XGBoost/ONNX · SHAP attribution", "CpuIcon");
  ("LLM investigation", "Investigator agent · MCP tools", "BrainIcon");
  ("Verdict & attestation", "Guardrails · Ed25519 envelope", "GavelIcon")].

(** The compact stepper: the note beside the title, and the steps. *)
Definition InvestigatorTraceStepper (liveSteps : list KafkaTraceStep) (executionPath verdict : string) :
    option (option string * list shown_step) :=
  r ← investigator_stepper liveSteps executionPath verdict;
  Some (if Nat.eqb (length (filter (λ s, is_llm_step s = true) liveSteps)) 0 then Some "— no LLM trace steps yet" else None,
        zip_with (shown_step_of "Completed") PIPELINE_STEPS (investigator_items r.1 r.2)).

(** ** The live log *)

Record log_row := mkLogRow { lg_label : string; lg_color : string; lg_text : string; lg_time : string }.

Definition step_color (kind : string) : string :=
  if String.eqb kind "tool_call" then "text-blue-400 bg-blue-500/10 border-blue-500/20"
  else if String.eqb kind "intermediate_belief" then "text-violet-400 bg-violet-500/10 border-violet-500/20"
  else if String.eqb kind "classifier_complete" then "text-emerald-400 bg-emerald-500/10 border-emerald-500/20"
  else if String.eqb kind "final_verdict" then "text-amber-400 bg-amber-500/10 border-amber-500/20"
  else if String.eqb kind "envelope" then "text-signal-good bg-signal-good/10 border-signal-good/20"
  else "text-muted-foreground bg-secondary border-border".

Definition log_row_of (first : num) (s : KafkaTraceStep) : log_row :=
  mkLogRow (step_label (ks_step_kind s)) (step_color (ks_step_kind s))
    (if String.eqb (ks_summary s) EmptyString then "—" else ks_summary s)
    ("+" +:+ to_fixed 1 (num_div (num_sub (ks_ts s) first) (of_Z 1000)) +:+ "s").

(** The rows in order of time, or the text that is shown while there are
    none. *)
Definition LiveTraceLog (steps : list KafkaTraceStep) : list log_row + string :=
  match sort_by TracePanels.by_ts steps with
  | [] => inr "Waiting for trace events…"
  | (first :: _) as sorted => inl (log_row_of (ks_ts first) <$> sorted)
  end.

(** ** The stepper of a running triage *)

Definition clock_key (caseId : string) : string := "triage_start:" +:+ caseId.

(** The session storage, or [None] where it is not available, and the time
    the mounted stepper counts from. (Only the stepper writes these keys, and
    it writes epoch milliseconds.) *)
Record triage_clock := mkClock { ck_storage : option (gmap string Z); ck_startedAt : option Z }.

(** The initial state of [startedAt]. *)
Definition clock_start (caseId : string) (now : Z) (storage : option (gmap string Z)) : Z * option (gmap string Z) :=
  match storage with
  | None => (now, None)
  | Some m => match m !! clock_key caseId with
              | Some t => (t, storage)
              | None => (now, Some (<[clock_key caseId := now]> m))
              end
  end.

Definition step4Done (liveSteps : list KafkaTraceStep) : bool := existsb (has_kind ["envelope"; "triage_complete"]) liveSteps.

(** The effect that forgets the start once the envelope is there. *)
Definition clock_cleanup (caseId : string) (liveSteps : list KafkaTraceStep) (storage : option (gmap string Z)) :
    option (gmap string Z) :=
  if step4Done liveSteps then delete (clock_key caseId) <$> storage else storage.

Inductive clock_event := CkMount (now : Z) (liveSteps : list KafkaTraceStep) | CkRender (liveSteps : list KafkaTraceStep) | CkUnmount.

Definition clock_handle (caseId : string) (e : clock_event) (c : triage_clock) : option triage_clock :=
  match e, ck_startedAt c with
  | CkMount now steps, None =>
      let '(t, storage) := clock_start caseId now (ck_storage c) in Some (mkClock (clock_cleanup caseId steps storage) (Some t))
  | CkRender steps, Some t => Some (mkClock (clock_cleanup caseId steps (ck_storage c)) (Some t))
  | CkUnmount, Some _ => Some (mkClock (ck_storage c) None)
  | _, _ => None
  end.

(** [now] is the snapshot of [useNow(200)]. *)
Definition triage_elapsed (now : option Z) (startedAt : Z) : Z :=
  match now with Some n => Z.max 0 (n - startedAt) | None => 0 end.

Record pipeline_view := mkPipelineView {
  pw_elapsed : string; pw_steps : list shown_step; pw_events : option string; pw_log : list log_row + string
}.

Definition TriagePipelineStepper (now : option Z) (startedAt : Z) (liveSteps : list KafkaTraceStep) : pipeline_view :=
  let elapsed := triage_elapsed now startedAt in
  let n := length liveSteps in
  mkPipelineView (formatElapsed elapsed +:+ " elapsed")
    (zip_with (shown_step_of "Done") PIPELINE_4 (pipeline_items (pipeline_state liveSteps elapsed)))
    (if (0 <? n)%nat then Some (string_of_Z (Z.of_nat n) +:+ " event" +:+ (if (n =? 1)%nat then EmptyString else "s")) else None)
    (LiveTraceLog liveSteps).

(** ** The timeline *)

Definition traceIcon (kind : string) : string :=
  if String.eqb kind "intermediate_belief" then "BrainIcon"
  else if String.eqb kind "tool_call" then "WrenchIcon"
  else if String.eqb kind "final_verdict" then "GavelIcon"
  else if String.eqb kind "envelope" then "ShieldIcon"
  else if String.eqb kind "classifier_complete" then "CpuIcon"
  else "SearchIcon".

Definition traceBadgeVariant (kind : string) : string :=
  if String.eqb kind "tool_call" then "primary-light"
  else if String.eqb kind "intermediate_belief" then "secondary"
  else if terminal_kind kind then "success-light"
  else "secondary".

(** The body of a row: its text, or the parts with citation chips. *)
Record step_body := mkStepBody {
  sb_title : string; sb_badge : string * string; sb_agent : string; sb_path : string;
  sb_button : option string; sb_content : list part + string; sb_action : string
}.

Definition TraceStepBody (open : bool) (row : TimelineRow) : step_body :=
  mkStepBody (viewerPrettyKind (tr_kind row)) (tr_kind row, traceBadgeVariant (tr_kind row)) (tr_agent_id row) (tr_execution_path row)
    (if tr_expandable row then Some (if open then "Collapse" else "Expand") else None)
    (if tr_expandable row && open
     then match renderWithCitations (tr_summary row) with Some ps => inl ps | None => inr (tr_summary row) end
     else inr (tr_summary row))
    (tr_agent_action_id row).

Record timeline_item := mkTimelineItem { ti_state : ItemState; ti_indicator : string; ti_body : step_body; ti_separator : bool }.

Definition timeline_item_of (opened : TimelineRow → bool) (rows : list TimelineRow) (index : nat) (row : TimelineRow) : timeline_item :=
  let step := Z.of_nat index + 1 in
  let st := item_state (Z.of_nat (length rows)) (row_completed rows index) step in
  mkTimelineItem st (indicator step_indicators st (item_loading (Z.of_nat (length rows)) false step) (traceIcon (tr_kind row)))
    (TraceStepBody (opened row) row) (negb (Nat.eqb index (length rows - 1))).

(** [opened] tells which rows are expanded. *)
Definition LLMReasoningTimeline (opened : TimelineRow → bool) (httpSteps : list HttpTraceStep) (liveSteps : list KafkaTraceStep) :
    list timeline_item + string :=
  let rows := timeline_rows httpSteps liveSteps in
  match rows with
  | [] => inr ("No LLM/tool trace rows are available for this case yet. Live WebSocket " +:+
               "steps and attestation replay will appear here when present.")
  | _ => inl (imap (timeline_item_of opened rows) rows)
  end.

Inductive trace_viewer :=
| VwClassifier (panel : evidence_panel)
| VwTimeline (timeline : list timeline_item + string)
| VwHybrid (panel : evidence_panel) (timeline : list timeline_item + string).

Definition ReasoningTraceViewer (opened : TimelineRow → bool) (executionPath : string) (featureImpacts : list FeatureImpact)
    (httpSteps : list HttpTraceStep) (liveSteps : list KafkaTraceStep) : trace_viewer :=
  if String.eqb executionPath "classifier" then VwClassifier (ClassifierEvidencePanel featureImpacts)
  else if String.eqb executionPath "llm" then VwTimeline (LLMReasoningTimeline opened httpSteps liveSteps)
  else VwHybrid (ClassifierEvidencePanel featureImpacts) (LLMReasoningTimeline opened httpSteps liveSteps).

(** ** The override dialog *)

Inductive OverrideLabel := TruePositive | FalsePositive | Benign | NeedsInvestigation.
#[export] Instance OverrideLabel_eq : EqDecision OverrideLabel. Proof. solve_decision. Defined.

Definition override_value (l : OverrideLabel) : string :=
  match l with
  | TruePositive => "true_positive" | FalsePositive => "false_positive" | Benign => "benign"
  | NeedsInvestigation => "needs_investigation"
  end.

Definition labels : list (OverrideLabel * string) :=
  [(TruePositive, "True Positive"); (FalsePositive, "False Positive"); (Benign, "Benign"); (NeedsInvestigation, "Needs Investigation")].

Record verdict_dialog := mkDialog { vd_label : OverrideLabel; vd_reason : string }.
Definition dialog_mount : verdict_dialog := mkDialog TruePositive EmptyString.

Definition submit_disabled (d : verdict_dialog) : bool := String.eqb (trim (vd_reason d)) EmptyString.

(** The page with its dialog, which is mounted while [overrideOpen] is set.
    ([busy] is set only until the submission has closed the dialog.) *)
Record case_view := mkCaseView { cv_page : workbench; cv_dialog : option verdict_dialog }.
Definition case_view_mount (store : Cases) : case_view := mkCaseView (workbench_mount store) None.

Inductive case_event :=
| CvApprove (now : Z) | CvOpen | CvClose | CvLabel (l : OverrideLabel) | CvReason (r : string) | CvSubmit (now : Z)
| CvAnswer (r : res fetched).

Section View.
(** [orchestratorCaseId ?? EmptyString] *)
Variable oid : string.

(** The dialog after the page's state was set. *)
Definition redialog (s : workbench) (d : option verdict_dialog) : case_view :=
  mkCaseView s (if wb_dialog s then Some (default dialog_mount d) else None).

Definition case_handle (e : case_event) (v : case_view) : option case_view :=
  let s := cv_page v in
  match e, cv_dialog v with
  | CvApprove now, d => if can_decide oid s then Some (redialog (handleApprove oid now s) d) else None
  | CvOpen, d => if can_decide oid s then Some (redialog (open_dialog true s) d) else None
  | CvClose, Some d => Some (redialog (open_dialog false s) (Some d))
  | CvLabel l, Some d => Some (mkCaseView s (Some (mkDialog l (vd_reason d))))
  | CvReason r, Some d => Some (mkCaseView s (Some (mkDialog (vd_label d) r)))
  | CvSubmit now, Some d =>
      if submit_disabled d then None
      else Some (redialog (dialog_submit oid now (override_value (vd_label d)) (vd_reason d) s) (Some d))
  | CvAnswer r, d => if (0 <? length (wb_requests s))%nat then Some (redialog (override_answered r s) d) else None
  | _, None => None
  end.

Definition case_view_step (v v' : case_view) : Prop := ∃ e, case_handle e v = Some v'.

(** ** The page *)

Record case_page := mkCasePage {
  cp_dialog : option (list (string * bool) * bool);       (** labels with the chosen one, and whether submitting is disabled *)
  cp_badges : list (string * string);
  cp_title : string;
  cp_line : string;
  cp_confidence : option string;                          (** nothing while the triage is running *)
  cp_decide : bool;                                       (** the buttons to approve and to override *)
  cp_decided : option string;
  cp_trace : pipeline_view + (option (option string * list shown_step) * trace_viewer);
  cp_evidence : list (string * (string * string) * string);
  cp_notes : list string
}.

Definition evidence_type (t : EvidenceType) : string :=
  match t with EvOcsf => "ocsf" | EvAsset => "asset" | EvThreatIntel => "threat-intel" end.

Definition case_percent (record : CaseRecord) : string := num_to_string (math_round (num_mul (cr_confidence record) (of_Z 100))) +:+ "%".

Definition CaseWorkbench (now : option Z) (startedAt : Z) (opened : TimelineRow → bool) (record : CaseRecord)
    (liveSteps : list KafkaTraceStep) (httpSteps : list HttpTraceStep) (triageLoading : bool) (v : case_view) : case_page :=
  let s := cv_page v in
  let traceSteps := mergeTraceSteps (if String.eqb oid EmptyString then cr_id record else oid) liveSteps httpSteps in
  mkCasePage
    ((λ d, ((λ l, (l.2, bool_decide (vd_label d = l.1))) <$> labels, submit_disabled d)) <$> cv_dialog v)
    [StatusBadge (case_tone (cr_severity record)) (cr_severity record);
     StatusBadge (Some ToneMedium) (statusLabel oid record s);
     StatusBadge (Some ToneInfo) (cr_executionPath record)]
    (cr_title record)
    (cr_entity record +:+ " · " +:+ cr_source record)
    (if triageLoading then None else Some (case_percent record))
    (can_decide oid s)
    (if overrideApplied oid s then Some "Override recorded" else if approvedUi oid s then Some "Verdict approved" else None)
    (if triageLoading then inl (TriagePipelineStepper now startedAt traceSteps)
     else inr (InvestigatorTraceStepper traceSteps (cr_executionPath record) (cr_verdict record),
               ReasoningTraceViewer opened (cr_executionPath record) (cr_featureImpacts record) httpSteps traceSteps))
    ((λ i, (ev_label i, StatusBadge (Some ToneMuted) (evidence_type (ev_type i)), ev_value i)) <$> cr_evidence record)
    ["Attestation Valid"; "Calibration Note"].
End View.

(** ** Properties *)

(** C26: the page with its dialog is a run of [CaseClient]'s page; the dialog is
    mounted exactly while that page says so, and every override it sends has
    one of the four labels and a reason that is not blank. *)
Theorem case_view_refines oid store v :
  star (case_view_step oid) (case_view_mount store) v →
  star (wb_step oid) (workbench_mount store) (cv_page v) ∧
  (is_Some (cv_dialog v) ↔ wb_dialog (cv_page v) = true) ∧
  (∀ body, body ∈ wb_requests (cv_page v) →
     ∃ l reason, body = JObj [("label", JStr (override_value l)); ("reason", JStr reason)] ∧ trim reason ≠ EmptyString).
Proof.
  intros R. refine (star_invariant _ (λ v, star (wb_step oid) (workbench_mount store) (cv_page v) ∧
    (is_Some (cv_dialog v) ↔ wb_dialog (cv_page v) = true) ∧ _) _ _ _ _ R).
  { split; [constructor|]. split; [by split; [intros []|]|]. by intros body ?%elem_of_nil. }
  intros [s d] v' (Rs & Hd & Hb) [e E].
  assert (D : ∀ s' d', is_Some (cv_dialog (redialog s' d')) ↔ wb_dialog s' = true).
  { intros s' d'. unfold redialog. simpl. destruct (wb_dialog s'); split; try done; try (by eexists); by intros []. }
  assert (Dt : is_Some d → wb_dialog s = true) by apply Hd. cbn [cv_page cv_dialog] in Rs, Hd, Hb.
  destruct e as [now| | |l|r|now|r]; cbn [case_handle cv_page cv_dialog] in E.
  - destruct (can_decide oid s) eqn:C; [|done]. injection E as <-. split; [|split; [exact (D _ _)|done]].
    eapply star_snoc; [exact Rs|]. exists (WbApprove now). simpl. by rewrite C.
  - destruct (can_decide oid s) eqn:C; [|done]. injection E as <-. split; [|split; [exact (D _ _)|done]].
    eapply star_snoc; [exact Rs|]. exists (WbDialog true). simpl. by rewrite C.
  - destruct d as [d|]; [|done]. injection E as <-. split; [|split; [exact (D _ _)|done]].
    eapply star_snoc; [exact Rs|]. exists (WbDialog false). simpl. by rewrite Dt by by eexists.
  - destruct d as [d|]; [|done]. injection E as <-. split; [done|]. split; [|done]. simpl. split; [intros _; by apply Dt; eexists|by eexists].
  - destruct d as [d|]; [|done]. injection E as <-. split; [done|]. split; [|done]. simpl. split; [intros _; by apply Dt; eexists|by eexists].
  - destruct d as [d|]; [|done]. destruct (submit_disabled d) eqn:Sd; [done|]. injection E as <-. split; [|split; [exact (D _ _)|]].
    + eapply star_snoc; [exact Rs|]. exists (WbSubmit now (override_value (vd_label d)) (vd_reason d)). simpl.
      by rewrite Dt by by eexists.
    + intros body. simpl. unfold dialog_submit. unfold submit_disabled in Sd. rewrite Sd. unfold handleOverrideSubmit.
      destruct (String.eqb oid EmptyString); [apply Hb|]. simpl. rewrite elem_of_app, list_elem_of_singleton.
      intros [?| ->]; [by apply Hb|]. exists (vd_label d), (vd_reason d). split; [done|]. by apply String.eqb_neq.
  - destruct (0 <? length (wb_requests s))%nat eqn:L; [|done]. injection E as <-. split; [|split; [exact (D _ _)|]].
    + eapply star_snoc; [exact Rs|]. exists (WbAnswer r). simpl. by rewrite L.
    + intros body. simpl. destruct r as [x|err]; simpl; [destruct (ft_ok x)|]; apply Hb.
Qed.

(** The decision on the page: the two buttons are there exactly while there
    is a case and no decision, a decision is noted exactly when there is one,
    and a noted override is the status of the page. None of this depends on
    the triage: a case can be approved while it is still being analysed. *)
Lemma decision_bar oid now t opened record live http loading v :
  let p := CaseWorkbench oid now t opened record live http loading v in
  (cp_decide p = true ↔ oid ≠ EmptyString ∧ cp_decided p = None) ∧
  (cp_decided p = Some "Override recorded" →
     statusLabel oid record (cv_page v) = "Override: " +:+ replace_char "_"%char " "%char (overrideLabel oid (cv_page v))) ∧
  cp_decide p = cp_decide (CaseWorkbench oid now t opened record live http (negb loading) v).
Proof.
  unfold CaseWorkbench. cbn [cp_decide cp_decided]. unfold can_decide, statusLabel. rewrite !andb_true_iff, !negb_true_iff, String.eqb_neq. split; [|split; [|done]].
  - destruct (overrideApplied oid (cv_page v)), (approvedUi oid (cv_page v)); naive_solver.
  - destruct (overrideApplied oid (cv_page v)); [done|by destruct (approvedUi oid (cv_page v))].
Qed.

(** The steppers of a triage the analyst approved before its verdict. *)
Example approved_early :
  let record := caseRecord "10:00" (sample_event "c1") None None in
  let p v := CaseWorkbench "c1" (Some 1000) 1000 (λ _, false) record [] [] true v in
  cp_decide (p (case_view_mount sample_store)) = true ∧
  (λ v, (cp_decided (p v), cp_confidence (p v), fst <$> cp_badges (p v))) <$> case_handle "c1" (CvApprove 5) (case_view_mount sample_store) =
    Some (Some "Verdict approved", None, ["medium"; "Approved"; "classifier"]).
Proof. split; vm_compute; reflexivity. Qed.

(** ** The steps that are shown *)

Lemma timeline_bar opened http live items :
  LLMReasoningTimeline opened http live = inl items →
  let rows := timeline_rows http live in
  ti_body <$> items = (λ r, TraceStepBody (opened r) r) <$> rows ∧
  ti_state <$> items = replicate (length rows - 1) ItCompleted ++
    [if terminal_kind (default EmptyString (tr_kind <$> last rows)) then ItCompleted else ItActive].
Proof.
  unfold LLMReasoningTimeline. cbv zeta. destruct (timeline_rows http live) as [|r0 rs] eqn:E; [done|]. rewrite <- E.
  set (rows := timeline_rows http live) in *. assert (L : (0 < length rows)%nat) by (rewrite E; simpl; lia).
  intros [= <-]. split.
  - rewrite fmap_imap. apply list_eq. intros i. rewrite list_lookup_imap, list_lookup_fmap. by destruct (rows !! i).
  - rewrite fmap_imap. apply list_eq. intros i. rewrite list_lookup_imap.
    destruct (decide (i < length rows - 1)%nat) as [Hi|Hi].
    + rewrite lookup_app_l by (by rewrite length_replicate). rewrite lookup_replicate_2 by done.
      destruct (lookup_lt_is_Some_2 rows i) as [r ->]; [lia|]. simpl. f_equal. unfold item_state, row_completed.
      destruct (Nat.eqb_spec i (length rows - 1)); [lia|done].
    + rewrite lookup_app_r by (rewrite length_replicate; lia). rewrite length_replicate.
      destruct (decide (i = length rows - 1)%nat) as [->|Hne].
      * destruct (lookup_lt_is_Some_2 rows (length rows - 1)) as [r ->]; [lia|]. rewrite Nat.sub_diag. simpl. f_equal.
        unfold item_state, row_completed. rewrite Nat.eqb_refl. simpl. destruct (terminal_kind _); [done|]. simpl.
        destruct (Z.ltb_spec (Z.of_nat (length rows - 1) + 1) (Z.of_nat (length rows))); [lia|].
        destruct (Z.eqb_spec (Z.of_nat (length rows)) (Z.of_nat (length rows - 1) + 1)); [done|lia].
      * rewrite lookup_ge_None_2 by lia. simpl. by rewrite lookup_ge_None_2 by (simpl; lia).
Qed.

(** Steps with plain ids and kinds: without colons, which separate the parts
    of the keys. *)
Definition plain_live (s : KafkaTraceStep) : Prop := no_colon (ks_agent_action_id s) ∧ no_colon (ks_step_kind s).
Definition plain_http (s : HttpTraceStep) : Prop := no_colon (hs_agent_action_id s) ∧ no_colon (hs_kind s).

Lemma merge_key_inj s t :
  plain_live s → plain_live t → merge_key s = merge_key t →
  ks_agent_action_id s = ks_agent_action_id t ∧ ks_step_kind s = ks_step_kind t ∧ ks_summary s = ks_summary t.
Proof.
  intros [A1 K1] [A2 K2] E. unfold merge_key in E. apply split_at_colon in E as [-> E]; [|done..].
  apply split_at_colon in E as [-> E]; [|done..]. apply split_at_colon in E as [_ ->]; [done|apply colon_free_spec, colon_free_number..].
Qed.

Lemma fingerprint_inj r r' :
  no_colon (tr_agent_action_id r) → no_colon (tr_kind r) → no_colon (tr_agent_action_id r') → no_colon (tr_kind r') →
  fingerprint r = fingerprint r' →
  tr_agent_action_id r = tr_agent_action_id r' ∧ tr_kind r = tr_kind r' ∧ tr_summary r = tr_summary r'.
Proof.
  intros A1 K1 A2 K2 E. unfold fingerprint in E. apply split_at_colon in E as [-> E]; [|done..].
  by apply split_at_colon in E as [-> ->].
Qed.

(** What a row stands for. *)
Definition shows (r : TimelineRow) (action kind summary : string) : Prop :=
  tr_agent_action_id r = action ∧ tr_kind r = kind ∧ tr_summary r = summary.

Definition candidates (http : list HttpTraceStep) (live : list KafkaTraceStep) : list TimelineRow :=
  imap http_row (filter (λ s, hs_kind s ≠ "classifier_complete") http) ++
  (live_row <$> filter (λ s, ks_step_kind s ≠ "classifier_complete") live).

Lemma candidate_inv http live r :
  r ∈ candidates http live →
  (∃ s, s ∈ http ∧ hs_kind s ≠ "classifier_complete" ∧ shows r (hs_agent_action_id s) (hs_kind s) (hs_verdict s)) ∨
  (∃ s, s ∈ live ∧ ks_step_kind s ≠ "classifier_complete" ∧ shows r (ks_agent_action_id s) (ks_step_kind s) (ks_summary s)).
Proof.
  unfold candidates. rewrite elem_of_app. intros [H|H]; [left|right].
  - apply elem_of_lookup_imap in H as (i & s & -> & Hs). apply list_elem_of_lookup_2, list_elem_of_filter in Hs as [Hk Hs]. by exists s.
  - apply list_elem_of_fmap in H as (s & -> & [Hk Hs]%list_elem_of_filter). by exists s.
Qed.

Lemma timeline_rows_complete http live c :
  c ∈ candidates http live → ∃ r, r ∈ timeline_rows http live ∧ fingerprint r = fingerprint c.
Proof.
  intros Hc. assert (K : fingerprint c ∈ fingerprint <$> timeline_rows http live).
  { unfold timeline_rows. rewrite dedup_by_keys. split; [by apply list_elem_of_fmap_2|set_solver]. }
  apply list_elem_of_fmap in K as (r & E & Hr). by exists r.
Qed.

Lemma merged_from c live http t : t ∈ mergeTraceSteps c live http → t ∈ live ∨ ∃ s, s ∈ http ∧ t = httpTraceToKafkaStep c s.
Proof.
  intros Ht. unfold mergeTraceSteps in Ht. apply dedup_by_subset in Ht. apply elem_of_app in Ht as [?|Ht]; [by left|right].
  apply list_elem_of_fmap in Ht as (s & -> & ?). by exists s.
Qed.

(** C29: the timeline of a case shows every step that is stored or live, apart
    from the classifier's, exactly once: each has a row with its action, kind
    and summary, no two rows agree in all three, and every row is such a
    step. The classifier's own steps are never rows. *)
Theorem case_timeline_complete c live http :
  Forall plain_live live → Forall plain_http http →
  let rows := timeline_rows http (mergeTraceSteps c live http) in
  (∀ s, s ∈ live → ks_step_kind s ≠ "classifier_complete" →
     ∃ r, r ∈ rows ∧ shows r (ks_agent_action_id s) (ks_step_kind s) (ks_summary s)) ∧
  (∀ s, s ∈ http → hs_kind s ≠ "classifier_complete" →
     ∃ r, r ∈ rows ∧ shows r (hs_agent_action_id s) (hs_kind s) (hs_verdict s)) ∧
  (∀ r, r ∈ rows → tr_kind r ≠ "classifier_complete" ∧
     ((∃ s, s ∈ live ∧ shows r (ks_agent_action_id s) (ks_step_kind s) (ks_summary s)) ∨
      ∃ s, s ∈ http ∧ shows r (hs_agent_action_id s) (hs_kind s) (hs_verdict s))) ∧
  (∀ i j r r', rows !! i = Some r → rows !! j = Some r' →
     shows r (tr_agent_action_id r') (tr_kind r') (tr_summary r') → i = j).
Proof.
  intros Pl Ph rows. rewrite Forall_forall in Pl. rewrite Forall_forall in Ph.
  assert (Pm : ∀ t, t ∈ mergeTraceSteps c live http → plain_live t).
  { intros t [?|(s & Hs & ->)]%merged_from; [by apply Pl|exact (Ph s Hs)]. }
  assert (Pr : ∀ r, r ∈ candidates http (mergeTraceSteps c live http) → no_colon (tr_agent_action_id r) ∧ no_colon (tr_kind r)).
  { intros r [(s & Hs & _ & -> & -> & _)|(s & Hs & _ & -> & -> & _)]%candidate_inv; [exact (Ph s Hs)|exact (Pm s Hs)]. }
  assert (Sub : ∀ r, r ∈ rows → r ∈ candidates http (mergeTraceSteps c live http)) by (intros r; apply dedup_by_subset).
  assert (Row : ∀ x, x ∈ candidates http (mergeTraceSteps c live http) → ∃ r, r ∈ rows ∧ shows r (tr_agent_action_id x) (tr_kind x) (tr_summary x)).
  { intros x Hx. destruct (timeline_rows_complete _ _ _ Hx) as (r & Hr & E). exists r. split; [done|].
    destruct (Pr r (Sub r Hr)), (Pr x Hx). by apply fingerprint_inj. }
  split; [|split; [|split]].
  - intros s Hs Hk.
    assert (K : merge_key s ∈ merge_key <$> mergeTraceSteps c live http).
    { unfold mergeTraceSteps. rewrite dedup_by_keys, fmap_app, elem_of_app. split; [left; by apply list_elem_of_fmap_2|set_solver]. }
    apply list_elem_of_fmap in K as (t & E & Ht). apply merge_key_inj in E as (Ea & Ek & Es); [|by apply Pl|by apply Pm].
    rewrite Ea, Ek, Es. apply (Row (live_row t)). apply elem_of_app. right. apply list_elem_of_fmap_2, list_elem_of_filter. by rewrite <- Ek.
  - intros s Hs Hk. assert (F : s ∈ filter (λ s, hs_kind s ≠ "classifier_complete") http) by by apply list_elem_of_filter.
    apply list_elem_of_lookup in F as [i Hi]. apply (Row (http_row i s)). apply elem_of_app. left. apply elem_of_lookup_imap. by exists i, s.
  - intros r Hr. destruct (candidate_inv _ _ _ (Sub r Hr)) as [(s & Hs & Hk & Sh)|(s & Hs & Hk & Sh)].
    + split; [by destruct Sh as (_ & -> & _)|]. right. by exists s.
    + split; [by destruct Sh as (_ & -> & _)|]. apply merged_from in Hs as [?|(s' & Hs' & ->)]; [left; by exists s|right; by exists s'].
  - intros i j r r' Hi Hj (E1 & E2 & E3). assert (N : NoDup (fingerprint <$> rows)) by apply dedup_by_NoDup.
    apply (NoDup_lookup _ i j (fingerprint r) N); rewrite list_lookup_fmap; [by rewrite Hi|]. rewrite Hj. simpl. f_equal.
    unfold fingerprint. by rewrite E1, E2, E3.
Qed.

Definition shown_live : list KafkaTraceStep := [
  mkKafkaTraceStep "c1" "default" "a1" "classifier" "hybrid" "classifier_complete" "scored" (of_Z 1);
  mkKafkaTraceStep "c1" "default" "a1" "investigator" "llm" "tool_call" "query: baseline" (of_Z 2)].
Definition shown_http : list HttpTraceStep := [
  mkHttpStep "tool_call" "a1" "investigator" "llm" "query: baseline" zero zero;
  mkHttpStep "final_verdict" "a1" "investigator" "llm" "benign" zero zero].

Lemma case_timeline_complete_witness :
  (λ r, (tr_kind r, tr_summary r)) <$> timeline_rows shown_http (mergeTraceSteps "c1" shown_live shown_http) =
    [("tool_call", "query: baseline"); ("final_verdict", "benign")] ∧
  ∃ r, r ∈ timeline_rows shown_http (mergeTraceSteps "c1" shown_live shown_http) ∧ shows r "a1" "tool_call" "query: baseline".
Proof.
  assert (Pl : Forall plain_live shown_live)
    by (repeat (constructor; [split; apply no_colon_dec; vm_compute; reflexivity|]); constructor).
  assert (Ph : Forall plain_http shown_http)
    by (repeat (constructor; [split; apply no_colon_dec; vm_compute; reflexivity|]); constructor).
  split; [vm_compute; reflexivity|].
  destruct (case_timeline_complete "c1" shown_live shown_http Pl Ph) as (H & _).
  apply (H (mkKafkaTraceStep "c1" "default" "a1" "investigator" "llm" "tool_call" "query: baseline" (of_Z 2))); [by right; left|done].
Defined.

(** ** The clock of a triage *)

Definition clock_run (caseId : string) (es : list clock_event) (c : triage_clock) : option triage_clock :=
  foldl (λ o e, o ≫= clock_handle caseId e) (Some c) es.

(** The event shows no envelope. *)
Definition unattested (e : clock_event) : Prop :=
  match e with CkMount _ steps | CkRender steps => step4Done steps = false | CkUnmount => True end.

(** Until an envelope was shown, the stepper of a case counts from the first
    time it was mounted, however often the analyst leaves the page and comes
    back. *)
Theorem triage_clock_kept caseId m t0 steps es c :
  m !! clock_key caseId = None → Forall unattested (CkMount t0 steps :: es) →
  clock_run caseId (CkMount t0 steps :: es) (mkClock (Some m) None) = Some c →
  (∃ m', ck_storage c = Some m' ∧ m' !! clock_key caseId = Some t0) ∧
  (ck_startedAt c = Some t0 ∨ ck_startedAt c = None).
Proof.
  intros Hm [U Us]%Forall_cons E. unfold clock_run in E. simpl in E. rewrite Hm in E. unfold clock_cleanup in E. simpl in U. rewrite U in E.
  revert c E. induction es as [|e es IH] using rev_ind; intros c E.
  - injection E as <-. split; [|by left]. eexists. split; [reflexivity|]. apply lookup_insert_eq.
  - apply Forall_app in Us as [Us [Ue _]%Forall_cons]. rewrite foldl_app in E. simpl in E.
    apply bind_Some in E as (c1 & E1 & E). destruct (IH Us c1 E1) as [(m' & Es & Hk) Hs]. destruct c1 as [st sa]. simpl in Es, Hs. subst st.
    destruct e as [now st|st|]; destruct sa as [t|]; try done; simpl in E, Ue; unfold clock_cleanup in E; rewrite ?Hk, ?Ue in E;
      injection E as <-; (split; [by exists m'|]).
    + by left.
    + left. by destruct Hs as [[= ->]|?].
    + by right.
Qed.

(** So a triage that ended without an envelope leaves its start behind: when
    the case is triaged again, the classifier is shown as done at once,
    although nothing of the new run has arrived. *)
Example stale_start :
  (λ c, (λ p, (pw_elapsed p, sp_state <$> pw_steps p)) <$> ((λ t, TriagePipelineStepper (Some 400000) t []) <$> ck_startedAt c)) <$>
    clock_run "c1" [CkMount 1000 []; CkUnmount; CkMount 400000 []] (mkClock (Some ∅) None) =
  Some (Some ("399.0s elapsed", [ItCompleted; ItCompleted; ItActive; ItInactive])).
Proof. vm_compute. reflexivity. Qed.

Lemma triage_clock_kept_witness :
  ∃ c, clock_run "c1" [CkMount 1000 []; CkUnmount; CkMount 2000 []] (mkClock (Some ∅) None) = Some c ∧ ck_startedAt c = Some 1000.
Proof.
  destruct (clock_run "c1" [CkMount 1000 []; CkUnmount; CkMount 2000 []] (mkClock (Some ∅) None)) as [c|] eqn:E; [|vm_compute in E; discriminate E].
  exists c. split; [reflexivity|].
  destruct (triage_clock_kept "c1" ∅ 1000 [] [CkUnmount; CkMount 2000 []] c (lookup_empty _)
    ltac:(repeat constructor) E) as [_ [H|H]]; [exact H|].
  vm_compute in E. injection E as <-. discriminate H.
Defined.

(** The analyst opens the dialog, chooses a label, gives a reason and
    submits. *)
Definition overriding_view : case_view :=
  default (case_view_mount sample_store)
    (foldl (λ o e, o ≫= case_handle "c1" e) (Some (case_view_mount sample_store))
       [CvOpen; CvLabel Benign; CvReason "travel"; CvSubmit 9]).

Lemma case_run_star oid es v v' :
  foldl (λ o e, o ≫= case_handle oid e) (Some v) es = Some v' → star (case_view_step oid) v v'.
Proof.
  revert v'. induction es as [|e es IH] using rev_ind; intros v' E; [injection E as <-; constructor|].
  rewrite foldl_app in E. simpl in E. apply bind_Some in E as (a & Ea & E). eapply star_snoc; [by apply IH|by exists e].
Qed.

Lemma overriding_star : star (case_view_step "c1") (case_view_mount sample_store) overriding_view.
Proof. apply (case_run_star "c1" [CvOpen; CvLabel Benign; CvReason "travel"; CvSubmit 9]). vm_compute. reflexivity. Qed.

Lemma case_view_refines_witness :
  length (wb_requests (cv_page overriding_view)) = 1%nat ∧
  star (wb_step "c1") (workbench_mount sample_store) (cv_page overriding_view).
Proof. split; [vm_compute; reflexivity|]. exact (proj1 (case_view_refines "c1" sample_store overriding_view overriding_star)). Defined.
