(* ===== verification/CaseInvestigation.v ===== *)
(** * The client of a case page ([components/workbench/case-investigation-client.tsx])

    [CaseInvestigationClient] puts the case store, the triage hook, the live
    trace and its persistence together: one store, several writers. The
    component's states are those of [UseTriage], [TraceWs] and [CaseClient],
    its steps are theirs with the effects the component adds; the hook's part
    of a run is a run of the hook ([client_hook_run]). Shown are that the page
    is never idle without a reason ([page_never_idle]), that its trace is what
    its sockets delivered, whatever else is written, and is sent to the trace
    route once per mount ([page_trace_kept]), and the case in which the page
    waits for nothing: loaded again while its triage is running
    ([reload_strands]). *)
From S2P Require Import Prelude JsObject JsNum JsString JsValue Types AlertMappers CaseStore Effects.
From S2P Require Import UseTriage Session AlertsWs TraceWs TracePanels TraceLoads CaseClient CaseView.

Section Client.
Variable caseId : string.

(** ** What the other code of the page writes *)
Definition page_action (a : Action) : bool :=
  match a with
  | AInit c _ _ => String.eqb c caseId
  | AAppend _ _ | AApprove _ | AOverride _ _ => true
  | _ => false
  end.

(** A write that keeps the entry of the case, its verdict, the status of its
    triage and the steps it has. *)
Record kept_entry (e e' : CaseEntry) : Prop := {
  ke_verdict : en_verdict e' = en_verdict e; ke_status : en_triageStatus e' = en_triageStatus e;
  ke_started : en_triageStartedAt e' = en_triageStartedAt e; ke_steps : en_traceSteps e ⊆ en_traceSteps e'
}.

Lemma page_action_entry now a st e :
  page_action a = true → obj_get caseId st = Some e → ∃ e', obj_get caseId (run_action now a st) = Some e' ∧ kept_entry e e'.
Proof.
  assert (Up : ∀ c f, (∀ x, kept_entry x (f x)) → obj_get caseId st = Some e →
    ∃ e', obj_get caseId (update_entry c f st) = Some e' ∧ kept_entry e e').
  { intros c f Hf He. unfold update_entry. destruct (obj_get c st) as [x|] eqn:Ex; [|by exists e].
    destruct (decide (caseId = c)) as [->|Hne]; [|rewrite obj_get_set_ne by done; by exists e].
    rewrite obj_get_set_eq. assert (x = e) as -> by congruence. exists (f e). split; [done|apply Hf]. }
  destruct a as [c ev b|c|c v|c m|c t|c|c|c l|c]; cbn [page_action run_action]; intros Ha He; try done;
    try (apply Up; [intros x; by split|done]).
  - apply String.eqb_eq in Ha as ->. unfold initCase. rewrite obj_get_set_eq, He. eexists. split; [reflexivity|by split].
  - unfold appendTraceStep. destruct (obj_get c st) as [x|] eqn:Ex; [|by exists e]. case_match; [by exists e|].
    destruct (decide (caseId = c)) as [->|Hne]; [|rewrite obj_get_set_ne by done; by exists e].
    rewrite obj_get_set_eq. assert (x = e) as -> by congruence. eexists. split; [reflexivity|].
    split; [done..|]. cbn. set_solver.
Qed.

(** ** The hook on this page

    An event of the hook is possible here when the component's own effect
    has put the case into the store before the hook's effects run. *)
Notation entry := (entry_of caseId).

Definition page_event (e : event) (s : hook_state) : Prop :=
  match e with
  | Mount => hs_hydrated s = true → is_Some (entry s)
  | Hydrate => hs_comp s ≠ None → is_Some (entry s)
  | Store a => page_action a = true
  | _ => True
  end.

Definition page_step (s s' : hook_state) : Prop := ∃ now e, page_event e s ∧ fire caseId true now e s = Some s'.

(** The same with events of a kind, at some time. *)
Definition page_at (now : Z) (Q : event → Prop) (s s' : hook_state) : Prop :=
  ∃ e, Q e ∧ page_event e s ∧ fire caseId true now e s = Some s'.

Definition page_does (Q : event → Prop) (s s' : hook_state) : Prop := ∃ now, page_at now Q s s'.

Lemma page_at_does now Q s s' : star (page_at now Q) s s' → star (page_does Q) s s'.
Proof.
  intros R. refine (star_invariant _ (star (page_does Q) s) _ _ _ _ R); [constructor|].
  intros a b Ha Hb. eapply star_snoc; [exact Ha|]. by exists now.
Qed.

Lemma page_does_star (Q Q' : event → Prop) s s' : (∀ e, Q e → Q' e) → star (page_does Q) s s' → star (page_does Q') s s'.
Proof.
  intros H R. refine (star_invariant _ (star (page_does Q') s) _ _ _ _ R); [constructor|].
  intros a b Ha (now & e & Hq & Hb). eapply star_snoc; [exact Ha|]. exists now, e. split; [by apply H|done].
Qed.

Lemma page_does_step (Q : event → Prop) s s' : star (page_does Q) s s' → star page_step s s'.
Proof.
  intros R. refine (star_invariant _ (star page_step s) _ _ _ _ R); [constructor|].
  intros a b Ha (now & e & _ & Hb). eapply star_snoc; [exact Ha|]. by exists now, e.
Qed.

(** An event is handled and rendered, and its time is noted. *)
Definition stamp (now : Z) (s : hook_state) : hook_state :=
  mkHook (hs_store s) (hs_hydrated s) (hs_fired s) (hs_comp s) (hs_flags s) (hs_pending s) (hs_posts s) now.

Lemma fire_stamp now e s s' : fire caseId true now e s = Some s' → 
  0 < now ∧ ∃ s1, handle caseId now e s = Some s1 ∧ s' = stamp now (flush caseId true now s1).
Proof.
  unfold fire. case_bool_decide as Hn; [|done]. intros (s1 & E & [= <-])%bind_Some. split; [lia|]. by exists s1.
Qed.

Definition has_verdict (s : hook_state) : Prop := is_Some (entry s ≫= en_verdict).

(** The second effect has something to do. *)
Definition needs (d : deps) : bool :=
  dp_hydrated d && dp_serverChecked d && dp_hasCase d && bool_decide (dp_storeVerdict d = None) && negb (dp_hasTerminalTrace d).

(** The status request of the current mount is unanswered, or has told. *)
Definition informed (s : hook_state) (c : comp) (n : nat) : Prop :=
  (hs_flags s !! n = Some true ∧ PGet n ∈ hs_pending s) ∨ cp_serverChecked c = true ∨ cp_error c ≠ None ∨ has_verdict s.

Record asking (s : hook_state) : Prop := {
  as_running e : entry s = Some e → en_triageStatus e = TRunning → hs_posts s ≠ [];
  as_fired : caseId ∈ hs_fired s → hs_posts s ≠ [] ∨ has_verdict s;
  as_ref c : hs_comp s = Some c → cp_firedRef c = true → hs_posts s ≠ [];
  as_ran c d : hs_comp s = Some c → cp_effect2 c = Some d → needs d = true → hs_posts s ≠ [];
  as_entry : hs_hydrated s = true → hs_comp s ≠ None → is_Some (entry s);
  as_gets n : PGet n ∈ hs_pending s → is_Some (entry s);
  as_flags c n : hs_comp s = Some c → cp_effect1 c = Some n → (n < length (hs_flags s))%nat ∧ cp_cleanup2 c ≠ Some n;
  as_cleanup c m : hs_comp s = Some c → cp_cleanup2 c = Some m → (m < length (hs_flags s))%nat;
  as_get c n : hs_comp s = Some c → cp_effect1 c = Some n → informed s c n
}.

(** ** The effects keep it *)

Lemma kill_length f (l : list bool) : length (kill f l) = length l.
Proof. destruct f; [apply length_insert|done]. Qed.

Lemma kill_other f (l : list bool) n b : f ≠ Some n → l !! n = Some b → kill f l !! n = Some b.
Proof. destruct f as [m|]; [|done]. intros Hne E. cbn. rewrite list_lookup_insert_ne; [done|]. intros ->. by apply Hne. Qed.

Lemma asking_effect1 s : asking s → asking (effect1 s).
Proof.
  intros [A1 A2 A3 A4 A5 A6 A7 A8 A9]. unfold effect1. destruct (hs_comp s) as [c|] eqn:Ec; [|by constructor; rewrite ?Ec].
  destruct (hs_hydrated s && bool_decide (cp_effect1 c = None)) eqn:E; [|by constructor; rewrite ?Ec].
  apply andb_true_iff in E as [Eh En]. split; cbn; try done.
  - intros c' [= <-]. cbn. by apply A3.
  - intros c' d [= <-]. cbn. by apply A4.
  - intros _ _. by apply A5.
  - intros n _. by apply A5.
  - intros c' n [= <-]. cbn. intros [= <-]. rewrite length_app. split; [cbn; lia|]. intros Hm. apply (A8 c _ eq_refl) in Hm. lia.
  - intros c' m [= <-]. cbn. intros Hm. rewrite length_app. apply (A8 c _ eq_refl) in Hm. lia.
  - intros c' n [= <-]. cbn. intros [= <-]. left. cbn. split.
    + by rewrite lookup_app_r, Nat.sub_diag by lia.
    + apply elem_of_app. right. by apply list_elem_of_singleton.
Qed.

Lemma informed_mono s s' c c' n :
  cp_serverChecked c' = cp_serverChecked c → cp_error c' = cp_error c → (has_verdict s → has_verdict s') →
  (hs_flags s !! n = Some true → hs_flags s' !! n = Some true) → (PGet n ∈ hs_pending s → PGet n ∈ hs_pending s') →
  informed s c n → informed s' c' n.
Proof. unfold informed. intros -> -> Hv Hf Hp [[H1 H2]|[H|[H|H]]]; auto. Qed.

Lemma started_verdict now st : (obj_get caseId (startTriage now now caseId st) ≫= en_verdict) = (obj_get caseId st ≫= en_verdict).
Proof. apply startTriage_keeps. Qed.

Lemma asking_effect2 now s : asking s → asking (effect2 caseId true now s).
Proof.
  intros A. pose proof A as [A1 A2 A3 A4 A5 A6 A7 A8 A9]. unfold effect2. destruct (hs_comp s) as [c|] eqn:Ec; [|done].
  case_decide as Ed; [done|]. set (d := deps_of caseId s c). set (c1 := mkComp _ _ _ _ _ _). set (s1 := with_comp _ _).
  assert (L1 : length (hs_flags s1) = length (hs_flags s)) by apply kill_length.
  assert (F1 : ∀ n, cp_effect1 c = Some n → hs_flags s !! n = Some true → hs_flags s1 !! n = Some true).
  { intros n Hn. apply kill_other. by apply (A7 c n eq_refl Hn). }
  (* the dependencies are recorded; nothing is sent *)
  assert (Idle : ∀ fired, (needs d = true → hs_posts s ≠ []) → (caseId ∈ fired → caseId ∈ hs_fired s) → asking (with_fired fired s1)).
  { intros fired Hn Hf. split; cbn; try done.
    - intros H%Hf. by apply A2.
    - intros c' [= <-]. by apply (A3 c).
    - intros c' d' [= <-]. cbn. intros [= <-]. exact Hn.
    - intros H _. by apply A5.
    - intros c' n [= <-]. cbn. intros Hn'. rewrite kill_length. split; [by apply (A7 c n eq_refl)|done].
    - intros c' m [= <-]. done.
    - intros c' n [= <-]. cbn. intros Hn'. apply (informed_mono s _ c); try done; [by apply F1|by apply A9]. }
  assert (Idle0 : (needs d = true → hs_posts s ≠ []) → asking s1).
  { intros H. change s1 with (with_fired (hs_fired s1) s1). by apply Idle. }
  unfold effect2_body. fold d. destruct (negb (dp_hydrated d) || negb (dp_serverChecked d) || negb (dp_hasCase d)) eqn:E1.
  { apply Idle0. unfold needs. destruct (dp_hydrated d), (dp_serverChecked d), (dp_hasCase d); done. }
  destruct (bool_decide (is_Some (dp_storeVerdict d)) || dp_hasTerminalTrace d) eqn:E2.
  { apply Idle0. unfold needs. destruct (dp_storeVerdict d), (dp_hasTerminalTrace d); cbn in *; rewrite ?andb_false_r; try done. }
  destruct (runningIsFresh now d) eqn:E3.
  { apply Idle0. intros _. unfold runningIsFresh in E3. apply andb_true_iff in E3 as [E3 _]. apply andb_true_iff in E3 as [E3 _].
    apply bool_decide_eq_true in E3. unfold d, deps_of in E3. cbn in E3. destruct (entry s) as [e|] eqn:Ee; [|done]. by apply (A1 e). }
  set (fired := if decide (dp_triageStatus d = TRunning) then _ else _).
  assert (Hfired : caseId ∈ fired → caseId ∈ hs_fired s) by (unfold fired; case_decide; set_solver).
  destruct (negb true || cp_firedRef c1 || bool_decide (caseId ∈ fired)) eqn:E4.
  { apply Idle; [|done]. intros Hn. cbn in E4. apply orb_true_iff in E4 as [E4|E4]; [by apply (A3 c)|].
    apply bool_decide_eq_true in E4. destruct (A2 (Hfired E4)) as [|[v Hv]]; [done|]. exfalso.
    unfold needs in Hn. apply andb_true_iff in Hn as [Hn _]. apply andb_true_iff in Hn as [_ Hn]. apply bool_decide_eq_true in Hn.
    unfold d, deps_of in Hn. cbn in Hn. congruence. }
  assert (V : ∀ st, hs_store s = st → has_verdict s → has_verdict (with_store (startTriage now now caseId st) s)).
  { intros st <-. unfold has_verdict, entry_of. cbn. by rewrite started_verdict. }
  assert (En : ∀ st, is_Some (obj_get caseId st) → is_Some (obj_get caseId (startTriage now now caseId st))).
  { intros st [e He]. destruct (startTriage_entry caseId now st e He) as (e' & He' & _). by exists e'. }
  split; cbn; try done.
  - intros _. by left.
  - intros Hh _. apply En. by apply A5.
  - intros n [Hn|Hn]%elem_of_app; [apply En; by eapply A6|]. by apply list_elem_of_singleton in Hn.
  - intros c' n [= <-]. cbn. intros Hn. rewrite length_app, kill_length. destruct (A7 c n eq_refl Hn) as [Hl _]. split; [lia|].
    intros [= Hl2]. lia.
  - intros c' m [= <-]. cbn. intros [= <-]. rewrite length_app, kill_length. cbn. lia.
  - intros c' n [= <-]. cbn. intros Hn. apply (informed_mono s _ c); try done.
    + intros Hv. by apply (V _ eq_refl) in Hv.
    + intros Hf. apply lookup_app_l_Some. by apply F1.
    + intros Hp. apply elem_of_app. by left.
    + by apply A9.
Qed.

Lemma asking_flush now s : asking s → asking (flush caseId true now s).
Proof. intros A. unfold flush. by apply asking_effect2, asking_effect2, asking_effect1. Qed.

(** ** The events keep it *)

Record same_comp (c c' : comp) : Prop := {
  sc_fired : cp_firedRef c' = cp_firedRef c; sc_effect1 : cp_effect1 c' = cp_effect1 c;
  sc_effect2 : cp_effect2 c' = cp_effect2 c; sc_cleanup : cp_cleanup2 c' = cp_cleanup2 c
}.

Lemma same_comp_refl c : same_comp c c.
Proof. by constructor. Qed.

(** An event that changes the store, the set of fired cases, the requests in
    flight, and what the component has been told. *)
Lemma asking_frame (f : comp → comp) s s' :
  asking s → (∀ c, same_comp c (f c)) → hs_comp s' = f <$> hs_comp s →
  hs_hydrated s' = hs_hydrated s → hs_flags s' = hs_flags s → hs_posts s' = hs_posts s →
  (∀ e, entry s' = Some e → en_triageStatus e = TRunning → ∃ e0, entry s = Some e0 ∧ en_triageStatus e0 = TRunning) →
  (is_Some (entry s) → is_Some (entry s')) → (has_verdict s → has_verdict s') →
  (caseId ∈ hs_fired s' → caseId ∈ hs_fired s ∨ has_verdict s') → (∀ p, p ∈ hs_pending s' → p ∈ hs_pending s) →
  (∀ c n, hs_comp s = Some c → cp_effect1 c = Some n → informed s c n → informed s' (f c) n) → asking s'.
Proof.
  intros [A1 A2 A3 A4 A5 A6 A7 A8 A9] Hf Ec Eh Efl Ep Hrun Hen Hv Hfi Hpd Hin.
  assert (C : ∀ c', hs_comp s' = Some c' → ∃ c, hs_comp s = Some c ∧ c' = f c).
  { intros c'. rewrite Ec. destruct (hs_comp s) as [c|]; [|done]. intros [= <-]. by exists c. }
  split; rewrite ?Eh, ?Efl, ?Ep.
  - intros e He Hr. destruct (Hrun e He Hr) as (e0 & He0 & Hr0). by apply (A1 e0).
  - intros [H|H]%Hfi; [|by right]. destruct (A2 H); [by left|right; by apply Hv].
  - intros c' (c & Hc & ->)%C. rewrite (sc_fired _ _ (Hf c)). by apply (A3 c).
  - intros c' d (c & Hc & ->)%C. rewrite (sc_effect2 _ _ (Hf c)). by apply (A4 c).
  - intros Hh Hn. apply Hen, A5; [done|]. intros E. apply Hn. by rewrite Ec, E.
  - intros n Hn%Hpd. apply Hen. by apply (A6 n).
  - intros c' n (c & Hc & ->)%C. rewrite (sc_effect1 _ _ (Hf c)), (sc_cleanup _ _ (Hf c)). by apply A7.
  - intros c' m (c & Hc & ->)%C. rewrite (sc_cleanup _ _ (Hf c)). by apply (A8 c).
  - intros c' n (c & Hc & ->)%C. rewrite (sc_effect1 _ _ (Hf c)). intros Hn. apply Hin; [done..|]. by apply A9.
Qed.

Lemma elem_of_delete_other {A} i (l : list A) x y : l !! i = Some y → x ≠ y → x ∈ l → x ∈ delete i l.
Proof.
  intros Hi Hne. rewrite <- (take_drop_middle l i y Hi) at 1. rewrite delete_take_drop, !elem_of_app, elem_of_cons. naive_solver.
Qed.

(** A verdict or a failure in the store. *)
Lemma verdict_stored now v st : is_Some (obj_get caseId st) → is_Some (obj_get caseId (setVerdict now caseId v st) ≫= en_verdict).
Proof. intros [e He]. unfold setVerdict, update_entry. rewrite He, obj_get_set_eq. by eexists. Qed.

Lemma updated_entry f st : is_Some (obj_get caseId st) → is_Some (obj_get caseId (update_entry caseId f st)).
Proof. intros [e He]. unfold update_entry. rewrite He, obj_get_set_eq. by eexists. Qed.

Lemma foreign_was_running now a s e :
  foreign a = true → obj_get caseId (run_action now a (hs_store s)) = Some e → en_triageStatus e = TRunning →
  ∃ e0, entry s = Some e0 ∧ en_triageStatus e0 = TRunning.
Proof. intros Ha He Hr. destruct (foreign_running caseId now a _ e Ha He Hr) as (e0 & He0 & Hr0 & _). by exists e0. Qed.

Lemma failed_verdict now m st : is_Some (obj_get caseId st ≫= en_verdict) → is_Some (obj_get caseId (failTriage now caseId m st) ≫= en_verdict).
Proof. by rewrite (proj1 (failTriage_keeps caseId now m st)). Qed.

Lemma verdict_entry s : has_verdict s → is_Some (entry s).
Proof. unfold has_verdict. destruct (entry s); [by eexists|by intros []]. Qed.

(** The answer to the status request. *)
Lemma asking_get now i n x s :
  asking s → hs_pending s !! i = Some (PGet n) → asking (get_answered caseId now n x (with_pending (delete i (hs_pending s)) s)).
Proof.
  intros A Hi. set (s1 := with_pending _ s). pose proof (as_gets _ A n ltac:(by eapply list_elem_of_lookup_2)) as He.
  assert (D : ∀ p, p ∈ delete i (hs_pending s) → p ∈ hs_pending s) by (intros p; apply delete_subset).
  unfold get_answered. destruct (alive s1 n) eqn:Al; cbn [negb].
  2: { apply (asking_frame id s); try done; eauto using same_comp_refl.
       - by rewrite option_fmap_id.
       - intros c m Hc Hm [[Hf Hp]|[H|[H|H]]]; unfold informed; auto. left. split; [done|].
         apply (elem_of_delete_other i _ _ (PGet n)); [done| |done]. intros [= ->].
         unfold alive in Al. cbn in Al. by rewrite Hf in Al. }
  assert (Ch : asking (set_comp set_checked s1)).
  { apply (asking_frame set_checked s); try done; eauto.
    intros c m Hc Hm _. right. by left. }
  destruct x as [v|m| |]; [| |exact Ch..].
  - assert (V : has_verdict (with_store (setVerdict now caseId v (hs_store s)) s)) by (by apply verdict_stored).
    apply (asking_frame id s); try done; eauto using same_comp_refl.
    + by rewrite option_fmap_id.
    + intros e. cbn. by apply (foreign_was_running now (AVerdict caseId v)).
    + intros _. by apply verdict_entry in V.
    + intros c m Hc Hm _. right. right. right. exact V.
  - case_match; [exact Ch|].
    apply (asking_frame (set_error m) s); try done; eauto.
    + intros e. cbn. by apply (foreign_was_running now (AFail caseId m)).
    + cbn. intros H'. by apply updated_entry.
    + apply failed_verdict.
    + intros c k Hc Hm _. right. right. by left.
Qed.

(** The answer to the triage request. *)
Lemma asking_post now i n x s :
  asking s → hs_pending s !! i = Some (PPost n) → asking (post_answered caseId now n x (with_pending (delete i (hs_pending s)) s)).
Proof.
  intros A Hi. set (s1 := with_pending _ s).
  assert (D : ∀ p, p ∈ delete i (hs_pending s) → p ∈ hs_pending s) by (intros p; apply delete_subset).
  assert (Inf : ∀ s' c c' m, hs_flags s' = hs_flags s → hs_pending s' = delete i (hs_pending s) → (has_verdict s → has_verdict s') →
     cp_serverChecked c' = cp_serverChecked c → (cp_error c ≠ None → cp_error c' ≠ None) → informed s c m → informed s' c' m).
  { unfold informed. intros s' c c' m -> -> Hv -> He [[Hf Hp]|[H|[H|H]]]; auto. left. split; [done|].
    by apply (elem_of_delete_other i _ _ (PPost n)). }
  unfold post_answered. destruct x as [v|m].
  - assert (V : is_Some (entry s) → has_verdict (with_store (setVerdict now caseId v (hs_store s)) s)) by apply verdict_stored.
    apply (asking_frame id s); try done; eauto using same_comp_refl, verdict_entry.
    + by rewrite option_fmap_id.
    + intros e. cbn. by apply (foreign_was_running now (AVerdict caseId v)).
  - set (s2 := with_store _ s1).
    assert (F : ∀ f s', hs_store s' = hs_store s2 → hs_comp s' = f <$> hs_comp s → (∀ c, same_comp c (f c)) →
       (∀ c, cp_serverChecked (f c) = cp_serverChecked c) → (∀ c, cp_error c ≠ None → cp_error (f c) ≠ None) →
       hs_hydrated s' = hs_hydrated s → hs_flags s' = hs_flags s → hs_posts s' = hs_posts s → hs_fired s' = hs_fired s →
       hs_pending s' = delete i (hs_pending s) → asking s').
    { intros f s' Es Ec Hf Hch Her Eh Efl Ep Efi Epd.
      assert (Ev : has_verdict s → has_verdict s').
      { unfold has_verdict, entry_of. rewrite Es. apply failed_verdict. }
      apply (asking_frame f s); try done.
      - intros e. unfold entry_of. rewrite Es. cbn. by apply (foreign_was_running now (AFail caseId m)).
      - unfold entry_of. rewrite Es. apply updated_entry.
      - rewrite Efi. by left.
      - by rewrite Epd.
      - intros c k Hc Hm. apply Inf; auto. }
    destruct (alive s1 n).
    + by apply (F (set_error m)).
    + by apply (F id); try done; rewrite option_fmap_id.
Qed.

Lemma asking_handle now e s s' : asking s → page_event e s → handle caseId now e s = Some s' → asking s'.
Proof.
  intros A Pe. pose proof A as [A1 A2 A3 A4 A5 A6 A7 A8 A9]. destruct e as [| | |a|i x|i x]; cbn [handle].
  - destruct (hs_comp s) as [c|] eqn:Ec; [done|]. intros [= <-]. cbn in Pe. split; cbn; try done.
    + by intros c [= <-].
    + by intros c d [= <-].
    + intros Hh _. by apply Pe.
    + by intros c n [= <-].
    + by intros c m [= <-].
    + by intros c n [= <-].
  - destruct (hs_comp s) as [c|] eqn:Ec; [|done]. intros [= <-]. by split.
  - intros [= <-]. cbn in Pe. by split.
  - cbn in Pe. assert (Fa : foreign a = true) by (by destruct a). rewrite Fa. intros [= <-].
    assert (K : ∀ e, entry s = Some e → ∃ e', obj_get caseId (run_action now a (hs_store s)) = Some e' ∧ en_verdict e' = en_verdict e).
    { intros e He. destruct (page_action_entry now a _ e Pe He) as (e' & He' & []). by exists e'. }
    assert (V : has_verdict s → is_Some (obj_get caseId (run_action now a (hs_store s)) ≫= en_verdict)).
    { unfold has_verdict. destruct (entry s) as [e|] eqn:He; [|by intros []]. destruct (K e eq_refl) as (e' & -> & Hv). cbn. by rewrite Hv. }
    apply (asking_frame id s); try done; eauto using same_comp_refl.
    + by rewrite option_fmap_id.
    + intros e. cbn. by apply foreign_was_running.
    + intros [e He]. destruct (K e He) as (e' & He' & _). by exists e'.
    + intros c n Hc Hn. by apply informed_mono.
  - destruct (hs_pending s !! i) as [[n|n]|] eqn:Hi; try done. intros [= <-]. by apply asking_get.
  - destruct (hs_pending s !! i) as [[n|n]|] eqn:Hi; try done. intros [= <-]. by apply asking_post.
Qed.

Lemma asking_stamp t s : asking s → asking (stamp t s).
Proof. intros []. by split. Qed.

Lemma asking_page_step s s' : asking s → page_step s s' → asking s'.
Proof.
  intros A (now & e & Pe & (Hn & s1 & E & ->)%fire_stamp). by eapply asking_stamp, asking_flush, asking_handle.
Qed.

Lemma asking_page_load store t :
  (∀ e, obj_get caseId store = Some e → en_triageStatus e ≠ TRunning) → asking (page_load store t).
Proof.
  intros H. split; cbn; try done.
  - intros e He Hr. by destruct (H e He).
  - intros n Hn. by apply elem_of_nil in Hn.
Qed.

(** ** A requested triage is accounted for *)

(** The request is in flight, or the store has its verdict or its failure. *)
Definition accounted (s : hook_state) : Prop :=
  (∃ n, PPost n ∈ hs_pending s) ∨ has_verdict s ∨ en_triageStatus <$> entry s = Some TFailed.

Definition posts_settled (s : hook_state) : Prop := hs_posts s ≠ [] → is_Some (entry s) ∧ accounted s.

Lemma posts_settled_effect1 s : posts_settled s → posts_settled (effect1 s).
Proof.
  intros S. unfold effect1. destruct (hs_comp s); [|done]. case_match; [|done].
  intros Hp. destruct (S Hp) as [He [[n Hn]|H1]]; (split; [done|]); [|by right]. left. exists n. cbn. apply elem_of_app. by left.
Qed.

Lemma posts_settled_effect2 now s : posts_settled s → posts_settled (effect2 caseId true now s).
Proof.
  intros S. unfold effect2. destruct (hs_comp s) as [c|]; [|done]. case_decide; [done|].
  set (d := deps_of caseId s c). set (c1 := mkComp _ _ _ _ _ _). set (s1 := with_comp _ _).
  assert (S1 : posts_settled s1) by exact S.
  destruct (effect2_body_result caseId true now d c1 s1) as [|fired _ _|fired n Hc _ _ _ _ _]; [done|exact S1|].
  intros _. unfold d, deps_of in Hc. cbn in Hc. apply bool_decide_eq_true in Hc as [e He].
  destruct (startTriage_entry caseId now _ e He) as (e' & He' & _). split; [by exists e'|]. left. exists n. cbn.
  apply elem_of_app. right. by apply list_elem_of_singleton.
Qed.

Lemma posts_settled_frame s s' :
  posts_settled s → hs_posts s' = hs_posts s → (is_Some (entry s) → is_Some (entry s')) →
  (∀ n, PPost n ∈ hs_pending s → is_Some (entry s) → accounted s') → (has_verdict s → has_verdict s') →
  (en_triageStatus <$> entry s = Some TFailed → accounted s') → posts_settled s'.
Proof.
  intros S Ep He Hp Hv Hf. unfold posts_settled. rewrite Ep. intros Hps. destruct (S Hps) as [En [[n Hn]|[H|H]]]; split; auto.
  - by apply (Hp n).
  - right. left. by apply Hv.
Qed.

Lemma status_kept now a s :
  page_action a = true → en_triageStatus <$> entry s = Some TFailed →
  en_triageStatus <$> obj_get caseId (run_action now a (hs_store s)) = Some TFailed.
Proof.
  intros Pa. destruct (entry s) as [e|] eqn:He; [|done]. cbn. intros [= Hs].
  destruct (page_action_entry now a _ e Pa He) as (e' & -> & []). cbn. congruence.
Qed.

Lemma failed_stored now m s : is_Some (entry s) → en_triageStatus <$> obj_get caseId (failTriage now caseId m (hs_store s)) = Some TFailed.
Proof. intros [e He]. unfold failTriage, update_entry. unfold entry_of in He. by rewrite He, obj_get_set_eq. Qed.

Lemma posts_settled_get now i n x s :
  posts_settled s → hs_pending s !! i = Some (PGet n) → posts_settled (get_answered caseId now n x (with_pending (delete i (hs_pending s)) s)).
Proof.
  intros S Hi. set (s1 := with_pending _ s).
  assert (P : ∀ s' m, hs_pending s' = delete i (hs_pending s) → PPost m ∈ hs_pending s → accounted s').
  { intros s' m Ep Hm. left. exists m. rewrite Ep. by apply (elem_of_delete_other i _ _ (PGet n)). }
  assert (K : ∀ s', hs_pending s' = delete i (hs_pending s) → hs_store s' = hs_store s → hs_posts s' = hs_posts s → posts_settled s').
  { intros s' Ep Es Epo. apply (posts_settled_frame s); try done; unfold has_verdict, entry_of; rewrite ?Es; eauto.
    intros H. right. right. unfold entry_of. by rewrite Es. }
  unfold get_answered. case_match; [by apply K|]. destruct x as [v|m| |]; [|case_match|..]; try by apply K.
  - apply (posts_settled_frame s); try done; cbn; eauto using verdict_entry.
    + by apply updated_entry.
    + intros H'%verdict_entry. by apply verdict_stored.
    + intros H'. right. left. apply verdict_stored. unfold entry_of in H'. by destruct (obj_get caseId (hs_store s)).
  - apply (posts_settled_frame s); try done; cbn; eauto.
    + by apply updated_entry.
    + apply failed_verdict.
    + intros H'. right. right. cbn. apply failed_stored. by destruct (entry s).
Qed.

Lemma posts_settled_post now i n x s :
  posts_settled s → hs_pending s !! i = Some (PPost n) → posts_settled (post_answered caseId now n x (with_pending (delete i (hs_pending s)) s)).
Proof.
  intros S Hi. set (s1 := with_pending _ s). unfold post_answered. destruct x as [v|m].
  - assert (V : ∀ s', hs_store s' = setVerdict now caseId v (hs_store s) → is_Some (entry s) → accounted s').
    { intros s' Es He. right. left. unfold has_verdict, entry_of. rewrite Es. by apply verdict_stored. }
    apply (posts_settled_frame s); try done; eauto.
    + by apply updated_entry.
    + intros H%verdict_entry. by apply verdict_stored.
    + intros H. apply V; [done|]. by destruct (entry s).
  - assert (F : ∀ s', hs_store s' = failTriage now caseId m (hs_store s) → hs_posts s' = hs_posts s → posts_settled s').
    { intros s' Es Ep.
      assert (Fl : is_Some (entry s) → accounted s').
      { intros He. right. right. unfold entry_of at 1. rewrite Es. by apply failed_stored. }
      apply (posts_settled_frame s); try done; eauto; unfold has_verdict, entry_of; rewrite ?Es.
      - by apply updated_entry.
      - apply failed_verdict.
      - intros H. apply Fl. unfold entry_of. by destruct (obj_get caseId (hs_store s)). }
    case_match; by apply F.
Qed.

Lemma posts_settled_handle now e s s' : posts_settled s → page_event e s → handle caseId now e s = Some s' → posts_settled s'.
Proof.
  intros S Pe. destruct e as [| | |a|i x|i x]; cbn [handle].
  - destruct (hs_comp s); [done|]. by intros [= <-].
  - destruct (hs_comp s); [|done]. by intros [= <-].
  - by intros [= <-].
  - cbn in Pe. assert (Fa : foreign a = true) by (by destruct a). rewrite Fa. intros [= <-].
    assert (K : ∀ e, entry s = Some e → ∃ e', obj_get caseId (run_action now a (hs_store s)) = Some e' ∧ en_verdict e' = en_verdict e).
    { intros e He. destruct (page_action_entry now a _ e Pe He) as (e' & He' & []). by exists e'. }
    apply (posts_settled_frame s); try done.
    + intros [e He]. destruct (K e He) as (e' & He' & _). by exists e'.
    + intros n Hn _. left. by exists n.
    + unfold has_verdict. destruct (entry s) as [e|] eqn:He; [|by intros []]. destruct (K e eq_refl) as (e' & He' & Hv).
      unfold entry_of. cbn. rewrite He'. cbn. by rewrite Hv.
    + intros H. right. right. by apply status_kept.
  - destruct (hs_pending s !! i) as [[n|n]|] eqn:Hi; try done. intros [= <-]. by apply posts_settled_get.
  - destruct (hs_pending s !! i) as [[n|n]|] eqn:Hi; try done. intros [= <-]. by apply posts_settled_post.
Qed.

Lemma posts_settled_page_step s s' : posts_settled s → page_step s s' → posts_settled s'.
Proof.
  intros S (now & e & Pe & (Hn & s1 & E & ->)%fire_stamp). change (posts_settled (flush caseId true now s1)).
  by eapply posts_settled_effect2, posts_settled_effect2, posts_settled_effect1, posts_settled_handle.
Qed.

(** ** What the renders leave behind *)

Definition rendered (s : hook_state) : Prop :=
  ∀ c, hs_comp s = Some c → cp_effect2 c = Some (deps_of caseId s c) ∧ (hs_hydrated s = true → cp_effect1 c ≠ None).

Lemma effect2_effect1 now s : (∀ c, hs_comp s = Some c → hs_hydrated s = true → cp_effect1 c ≠ None) →
  ∀ c, hs_comp (effect2 caseId true now s) = Some c → hs_hydrated (effect2 caseId true now s) = true → cp_effect1 c ≠ None.
Proof.
  intros H. unfold effect2. destruct (hs_comp s) as [c|] eqn:Ec; [|by rewrite Ec]. case_decide; [by rewrite Ec|].
  set (d := deps_of caseId s c). set (c1 := mkComp _ _ _ _ _ _). set (s1 := with_comp _ _).
  destruct (effect2_body_result caseId true now d c1 s1); intros c' [= <-]; by apply (H c).
Qed.

Lemma effect1_asked s c : hs_comp (effect1 s) = Some c → hs_hydrated (effect1 s) = true → cp_effect1 c ≠ None.
Proof.
  unfold effect1. destruct (hs_comp s) as [c0|] eqn:Ec; [|by rewrite Ec].
  destruct (hs_hydrated s) eqn:Eh; cbn; [|by rewrite Eh]. case_bool_decide; cbn; [by intros [= <-]|]. rewrite Ec. by intros [= <-].
Qed.

Lemma rendered_step s s' : page_step s s' → rendered s'.
Proof.
  intros (now & e & _ & (Hn & s1 & E & ->)%fire_stamp) c Hc. split.
  - by apply (flush_settled caseId true now s1).
  - apply (effect2_effect1 now _ (effect2_effect1 now _ (effect1_asked s1)) c Hc).
Qed.

Lemma page_reached store t s :
  (∀ e, obj_get caseId store = Some e → en_triageStatus e ≠ TRunning) →
  star page_step (page_load store t) s → asking s ∧ posts_settled s ∧ rendered s.
Proof.
  intros H R. refine (star_invariant _ (λ s, asking s ∧ posts_settled s ∧ rendered s) _ _ _ _ R).
  - split; [by apply asking_page_load|]. by split.
  - intros a b (Ha & Hs & _) St. split; [by eapply asking_page_step|]. split; [by eapply posts_settled_page_step|by eapply rendered_step].
Qed.

(** Mounted and restored, with nothing shown and nothing asked or requested. *)
Lemma page_busy s c :
  asking s → posts_settled s → rendered s → hs_comp s = Some c → hs_hydrated s = true → loading caseId s c = true →
  (∃ n, cp_effect1 c = Some n ∧ alive s n = true ∧ PGet n ∈ hs_pending s) ∨
  (∃ n, PPost n ∈ hs_pending s) ∨ en_triageStatus <$> entry s = Some TFailed.
Proof.
  intros A S R Hc Hh Hl. destruct (R c Hc) as [Hd He]. unfold loading in Hl.
  apply andb_true_iff in Hl as [Hl Ht]. apply andb_true_iff in Hl as [Her%bool_decide_eq_true Hv%bool_decide_eq_true].
  assert (NV : ¬ has_verdict s) by (intros [v Ev]; unfold deps_of in Hv; cbn in Hv; congruence).
  destruct (cp_effect1 c) as [n|] eqn:En; [|by destruct (He Hh)].
  destruct (as_get _ A c n Hc En) as [[Hf Hp]|[Hch|[Hr|Hv']]]; [| |done|done].
  { left. exists n. split; [done|]. split; [|done]. unfold alive. by rewrite Hf. }
  right. assert (Hn : needs (deps_of caseId s c) = true).
  { unfold needs. rewrite Ht, Hv. destruct (as_entry _ A Hh) as [e Ee]; [by rewrite Hc|].
    unfold deps_of. cbn. by rewrite Hh, Hch, Ee. }
  destruct (S (as_ran _ A c _ Hc Hd Hn)) as [_ [H|[H|H]]]; [by left|done|by right].
Qed.

(** ** The component *)

Variable GATEWAY_URL : string.
Variables (ocsfEvent : Ocsf.OcsfEvent) (liveBaseline : Baseline).

(** [cl_tails]: the live traces of the mounts so far, the current one last;
    their sockets outlive a mount. [cl_received]: the steps the sockets
    delivered, in order. *)
Record client := mkClient {
  cl_hook : hook_state;
  cl_tails : list tail;
  cl_persist : persister;
  cl_opened : nat;
  cl_received : list (string * KafkaTraceStep)
}.

Definition cl_store (s : client) : Cases := hs_store (cl_hook s).

Definition with_hook (h : hook_state) (s : client) : client :=
  mkClient h (cl_tails s) (cl_persist s) (cl_opened s) (cl_received s).

Definition client_load (store : Cases) (t : Z) : client := mkClient (page_load store t) [] persister_init 0 [].

(** The effect that stores the event, when the store is restored. *)
Definition init_effect (now : Z) (h : hook_state) : option hook_state :=
  if hs_hydrated h then fire caseId true now (Store (AInit caseId ocsfEvent liveBaseline)) h else Some h.

(** The live trace over the store of the page. *)
Definition with_tl_store (st : Cases) (t : tail) : tail :=
  mkTail (tl_mounted t) (tl_case t) (tl_status t) (tl_retryMs t) (tl_tokens t) (tl_sockets t) (tl_urls t) (tl_wsRef t)
    (tl_timers t) (tl_retryTimer t) st (tl_received t).

(** The persistence effect of a mounted component. *)
Definition persisted (s : client) : client :=
  match hs_comp (cl_hook s) with
  | Some _ => mkClient (cl_hook s) (cl_tails s) (persist_effect (cl_persist s) (selectTraceSteps caseId (cl_store s))) (cl_opened s) (cl_received s)
  | None => s
  end.

Inductive client_event :=
| CeMount | CeHydrate | CeUnmount
| CeGet (i : nat) (x : get_answer) | CePost (i : nat) (x : post_answer)
| CeMessage (k i : nat) (m : ws_message)
| CeApprove | CeOverride (label : string).

Definition client_handle (now : Z) (e : client_event) (s : client) : option client :=
  match e with
  | CeMount =>
      match hs_comp (cl_hook s) with
      | Some _ => None
      | None =>
          h ← init_effect now (cl_hook s);
          h ← fire caseId true now Mount h;
          Some (mkClient h (cl_tails s ++ [tail_mount (Some caseId) (hs_store h)]) persister_init (S (cl_opened s)) (cl_received s))
      end
  | CeHydrate =>
      if hs_hydrated (cl_hook s) then None
      else
        h ← (match hs_comp (cl_hook s) with
             | Some _ => fire caseId true now (Store (AInit caseId ocsfEvent liveBaseline)) (cl_hook s)
             | None => Some (cl_hook s)
             end);
        (λ h, with_hook h s) <$> fire caseId true now Hydrate h
  | CeUnmount =>
      h ← fire caseId true now Unmount (cl_hook s);
      t ← last (cl_tails s);
      Some (mkClient h (<[(length (cl_tails s) - 1)%nat := tail_unmount t]> (cl_tails s)) (cl_persist s) (cl_opened s) (cl_received s))
  | CeGet i x => (λ h, with_hook h s) <$> fire caseId true now (GetAnswer i x) (cl_hook s)
  | CePost i x => (λ h, with_hook h s) <$> fire caseId true now (PostAnswer i x) (cl_hook s)
  | CeMessage k i m =>
      t ← cl_tails s !! k;
      '(c, _) ← tl_urls t !! i;
      if bool_decide (tl_sockets t !! i = Some SkOpen) then
        let t' := socket_message now c m (with_tl_store (cl_store s) t) in
        match message_step m with
        | Some step =>
            h ← fire caseId true now (Store (AAppend c step)) (cl_hook s);
            Some (mkClient h (<[k := t']> (cl_tails s)) (cl_persist s) (cl_opened s) (cl_received s ++ [(c, step)]))
        | None => Some (mkClient (cl_hook s) (<[k := t']> (cl_tails s)) (cl_persist s) (cl_opened s) (cl_received s))
        end
      else None
  | CeApprove =>
      if bool_decide (is_Some (hs_comp (cl_hook s)))
      then (λ h, with_hook h s) <$> fire caseId true now (Store (AApprove caseId)) (cl_hook s) else None
  | CeOverride label =>
      if bool_decide (is_Some (hs_comp (cl_hook s)))
      then (λ h, with_hook h s) <$> fire caseId true now (Store (AOverride caseId label)) (cl_hook s) else None
  end.

(** An event with the render after it; or a step of a connection, mounted or
    left behind, that delivers nothing. *)
Inductive client_step : client → client → Prop :=
| cs_event now e s s' : client_handle now e s = Some s' → client_step s (persisted s')
| cs_connection k t t' s : cl_tails s !! k = Some t → tail_step GATEWAY_URL t t' →
    tl_received t' = tl_received t → tl_mounted t' = tl_mounted t → tl_case t' = tl_case t →
    client_step s (mkClient (cl_hook s) (<[k := t']> (cl_tails s)) (cl_persist s) (cl_opened s) (cl_received s)).

(** *** What it shows *)

Definition ws_name (st : WsStatus) : string :=
  match st with WsConnecting => "connecting" | WsConnected => "connected" | WsDisconnected => "disconnected" end.

(** The title of the trace panel, the state of the socket and its colour. *)
Definition panel_header (ws : WsStatus) : string * (string * string) :=
  ("Attestation trace",
   ("WS " +:+ ws_name ws, match ws with WsConnected => "text-signal-good" | _ => "text-muted-foreground" end)).

(** The page and the panel below it, both over the live trace of the store.
    [clock] and [startedAt] are those of the running triage, [time] the time
    of the record, [http] the steps the page has loaded. *)
Definition CaseInvestigationClient (clock : option Z) (startedAt : Z) (opened : TimelineRow → bool) (time : string)
    (http : list HttpTraceStep) (v : case_view) (panel : Panel.panel) (s : client) :
    option (case_page * (string * (string * string)) * Panel.panel_view) :=
  c ← hs_comp (cl_hook s);
  t ← last (cl_tails s);
  let liveSteps := selectTraceSteps caseId (cl_store s) in
  let record := caseRecord time ocsfEvent liveBaseline (entry (cl_hook s) ≫= en_verdict) in
  Some (CaseWorkbench caseId clock startedAt opened record liveSteps http (loading caseId (cl_hook s) c) v,
        panel_header (tl_status t), Panel.view liveSteps panel).

(** While it loads the page shows the running triage and no confidence. *)
Lemma client_shows clock startedAt opened time http v panel s c page header trace :
  hs_comp (cl_hook s) = Some c → CaseInvestigationClient clock startedAt opened time http v panel s = Some (page, header, trace) →
  (loading caseId (cl_hook s) c = true ↔ cp_confidence page = None) ∧
  (loading caseId (cl_hook s) c = true ↔ ∃ w, cp_trace page = inl w).
Proof.
  unfold CaseInvestigationClient. intros -> E. cbn in E. apply bind_Some in E as (t & _ & [= <- <- <-]). unfold CaseWorkbench. cbn [cp_confidence cp_trace].
  destruct (loading caseId (cl_hook s) c); split; split; try done; [by eexists|by intros []].
Qed.

(** ** The component over the hook *)

Lemma flush_has_entry now s : is_Some (entry s) → is_Some (entry (flush caseId true now s)).
Proof.
  intros [e He]. unfold flush.
  assert (E : ∀ x, is_Some (entry x) → is_Some (entry (effect2 caseId true now x))).
  { intros x [y Hy]. unfold effect2. destruct (hs_comp x) as [c|]; [|by exists y]. case_decide; [by exists y|].
    set (c1 := mkComp _ _ _ _ _ _). set (x1 := with_comp _ _).
    destruct (effect2_body_result caseId true now (deps_of caseId x c) c1 x1); [by exists y..|].
    destruct (startTriage_entry caseId now _ y Hy) as (y' & Hy' & _). by exists y'. }
  apply E, E. unfold effect1. destruct (hs_comp s); [|by exists e]. case_match; by exists e.
Qed.

Lemma init_entry now h h' : fire caseId true now (Store (AInit caseId ocsfEvent liveBaseline)) h = Some h' → is_Some (entry h').
Proof.
  intros (_ & s1 & [= <-] & ->)%fire_stamp. change (is_Some (entry (flush caseId true now (with_store (initCase now caseId ocsfEvent liveBaseline (hs_store h)) h)))).
  apply flush_has_entry. unfold entry_of. cbn. unfold initCase. rewrite obj_get_set_eq. by eexists.
Qed.

(** The events of the hook an event of the component amounts to. *)
Definition event_of (e : client_event) (ev : event) : Prop :=
  match e with
  | CeMount => ev = Store (AInit caseId ocsfEvent liveBaseline) ∨ ev = Mount
  | CeHydrate => ev = Store (AInit caseId ocsfEvent liveBaseline) ∨ ev = Hydrate
  | CeUnmount => ev = Unmount
  | CeGet i x => ev = GetAnswer i x
  | CePost i x => ev = PostAnswer i x
  | CeMessage _ _ m => ∃ c t, message_step m = Some t ∧ ev = Store (AAppend c t)
  | CeApprove => ev = Store (AApprove caseId)
  | CeOverride l => ev = Store (AOverride caseId l)
  end.

Lemma does_one (Q : event → Prop) now ev h h' :
  Q ev → page_event ev h → fire caseId true now ev h = Some h' → star (page_at now Q) h h'.
Proof. intros H Pe E. eapply star_snoc; [constructor|]. by exists ev. Qed.

Lemma client_handle_at now e s s' :
  client_handle now e s = Some s' → star (page_at now (event_of e)) (cl_hook s) (cl_hook s').
Proof.
  set (init := Store (AInit caseId ocsfEvent liveBaseline)).
  assert (Pi : ∀ h, page_event init h) by (intros h; apply String.eqb_refl).
  destruct e as [| | |i x|i x|k i m| |l]; cbn [client_handle].
  - destruct (hs_comp (cl_hook s)) as [c|] eqn:Ec; [done|]. intros (h & Eh & (h' & Em & [= <-])%bind_Some)%bind_Some. cbn [cl_hook].
    unfold init_effect in Eh. destruct (hs_hydrated (cl_hook s)) eqn:Hh.
    + pose proof (init_entry _ _ _ Eh) as He. eapply star_trans; [by apply (does_one _ now init); [left| |]|].
      apply (does_one _ now Mount); [by right|intros _; exact He|done].
    + injection Eh as <-. apply (does_one _ now Mount); [by right| |done]. cbn. by rewrite Hh.
  - destruct (hs_hydrated (cl_hook s)) eqn:Hh; [done|]. intros (h & Eh & (h' & Em & ->)%fmap_Some)%bind_Some. cbn [cl_hook with_hook].
    destruct (hs_comp (cl_hook s)) as [c|] eqn:Ec.
    + pose proof (init_entry _ _ _ Eh) as He. eapply star_trans; [by apply (does_one _ now init); [left| |]|].
      apply (does_one _ now Hydrate); [by right|intros _; exact He|done].
    + injection Eh as <-. apply (does_one _ now Hydrate); [by right| |done]. cbn. by rewrite Ec.
  - intros (h & Eh & (t & _ & [= <-])%bind_Some)%bind_Some. by apply (does_one _ now Unmount).
  - intros (h & E & ->)%fmap_Some. by apply (does_one _ now (GetAnswer i x)).
  - intros (h & E & ->)%fmap_Some. by apply (does_one _ now (PostAnswer i x)).
  - intros (t & _ & ([c u] & _ & E)%bind_Some)%bind_Some. case_bool_decide; [|done].
    destruct (message_step m) as [t'|] eqn:Em; [|injection E as <-; constructor].
    apply bind_Some in E as (h & E & [= <-]). apply (does_one _ now (Store (AAppend c t'))); [by exists c, t'|done..].
  - case_bool_decide; [|done]. intros (h & E & ->)%fmap_Some. by apply (does_one _ now (Store (AApprove caseId))).
  - case_bool_decide; [|done]. intros (h & E & ->)%fmap_Some. by apply (does_one _ now (Store (AOverride caseId l))).
Qed.

Lemma client_handle_hook now e s s' :
  client_handle now e s = Some s' → star (page_does (event_of e)) (cl_hook s) (cl_hook s').
Proof. intros E. by eapply page_at_does, client_handle_at. Qed.

Lemma persisted_hook s : cl_hook (persisted s) = cl_hook s.
Proof. unfold persisted. by destruct (hs_comp (cl_hook s)). Qed.

(** What the component does to the hook is what its events let happen. *)
Lemma client_hook_run store t s : star client_step (client_load store t) s → star page_step (page_load store t) (cl_hook s).
Proof.
  intros R. refine (star_invariant client_step (λ s, star page_step (page_load store t) (cl_hook s)) _ _ _ _ R); [constructor|].
  intros a b Ha St. destruct St as [now e x y E|k u u1 x _ _ _ _ _]; [|exact Ha]. rewrite persisted_hook.
  eapply star_trans; [exact Ha|]. eapply page_does_step. by apply (client_handle_hook now e).
Qed.

(** ** The trace of the page *)

Notation trace_of h := (selectTraceSteps caseId (hs_store h)).

Lemma trace_entry st st' : (en_traceSteps <$> obj_get caseId st') = (en_traceSteps <$> obj_get caseId st) →
  selectTraceSteps caseId st' = selectTraceSteps caseId st.
Proof. unfold selectTraceSteps. by intros ->. Qed.

Definition appends (e : event) : option (string * KafkaTraceStep) := match e with Store (AAppend c t) => Some (c, t) | _ => None end.

Lemma update_keeps_trace c f st : (∀ x, en_traceSteps (f x) = en_traceSteps x) →
  selectTraceSteps caseId (update_entry c f st) = selectTraceSteps caseId st.
Proof.
  intros Hf. apply trace_entry. unfold update_entry. destruct (obj_get c st) as [x|] eqn:Ex; [|done].
  destruct (decide (caseId = c)) as [<-|Hne]; [|by rewrite obj_get_set_ne]. rewrite obj_get_set_eq, Ex. cbn. by rewrite Hf.
Qed.

(** Only a delivered step changes the trace. *)
Lemma fired_trace now e h h' :
  page_event e h → fire caseId true now e h = Some h' →
  trace_of h' = match appends e with Some (c, t) => selectTraceSteps caseId (appendTraceStep now c t (hs_store h)) | None => trace_of h end.
Proof.
  intros Pe (Hn & h1 & E & ->)%fire_stamp.
  transitivity (trace_of h1). { apply trace_entry. exact (proj2 (flush_keeps caseId true now h1 Hn)). }
  destruct e as [| | |a|i x|i x]; cbn [handle appends] in *.
  - destruct (hs_comp h); [done|]. by injection E as <-.
  - destruct (hs_comp h); [|done]. by injection E as <-.
  - by injection E as <-.
  - destruct (foreign a) eqn:Fa; [|done]. injection E as <-. destruct a as [c ev b|c|c v|c m|c t|c|c|c l|c]; try done; cbn in Pe |- *.
    + apply String.eqb_eq in Pe as ->. unfold initCase, selectTraceSteps. rewrite obj_get_set_eq. by destruct (obj_get caseId (hs_store h)).
    + by apply update_keeps_trace.
    + by apply update_keeps_trace.
  - destruct (hs_pending h !! i) as [[n|n]|]; try done. injection E as <-. unfold get_answered.
    case_match; [done|]. destruct x; try done; [by apply update_keeps_trace|]. case_match; [done|by apply update_keeps_trace].
  - destruct (hs_pending h !! i) as [[n|n]|]; try done. injection E as <-. unfold post_answered.
    destruct x; [by apply update_keeps_trace|]. case_match; by apply update_keeps_trace.
Qed.

Lemma kept_some h h' : page_step h h' → is_Some (entry h) → is_Some (entry h').
Proof.
  intros (now & e & Pe & (Hn & h1 & E & ->)%fire_stamp) He. change (is_Some (entry (flush caseId true now h1))). apply flush_has_entry.
  destruct e as [| | |a|i x|i x]; cbn [handle] in *.
  - destruct (hs_comp h); [done|]. by injection E as <-.
  - destruct (hs_comp h); [|done]. by injection E as <-.
  - by injection E as <-.
  - destruct (foreign a) eqn:Fa; [|done]. injection E as <-. destruct He as [x Hx].
    destruct (page_action_entry now a _ x Pe Hx) as (x' & Hx' & _). by exists x'.
  - destruct (hs_pending h !! i) as [[n|n]|]; try done. injection E as <-. unfold get_answered.
    case_match; [done|]. destruct x; try done; [by apply updated_entry|]. case_match; [done|by apply updated_entry].
  - destruct (hs_pending h !! i) as [[n|n]|]; try done. injection E as <-. unfold post_answered.
    destruct x; [by apply updated_entry|]. case_match; by apply updated_entry.
Qed.

(** The steps that arrived for the case. *)
Definition received (s : client) : list KafkaTraceStep :=
  omap (λ p, if decide (p.1 = caseId) then Some p.2 else None) (cl_received s).

Definition trace_is (st0 : Cases) (s : client) : Prop :=
  is_Some (entry (cl_hook s)) ∧
  trace_of (cl_hook s) =
    reverse (dedup_by step_key (list_to_set (step_key <$> selectTraceSteps caseId st0)) (received s)) ++ selectTraceSteps caseId st0.

Lemma does_trace Q h h' : (∀ ev, Q ev → appends ev = None) → star (page_does Q) h h' →
  trace_of h' = trace_of h ∧ (is_Some (entry h) → is_Some (entry h')).
Proof.
  intros HQ R. refine (star_invariant _ (λ x, trace_of x = trace_of h ∧ (is_Some (entry h) → is_Some (entry x))) _ _ _ _ R); [done|].
  intros a b [Ta Ea] (now & e & Hq & Pe & E). split.
  - rewrite (fired_trace now e a b Pe E), (HQ e Hq). exact Ta.
  - intros He. apply (kept_some a b); [by exists now, e|by apply Ea].
Qed.

Lemma trace_is_frame st0 s s' :
  trace_is st0 s → cl_received s' = cl_received s → trace_of (cl_hook s') = trace_of (cl_hook s) ∧ (is_Some (entry (cl_hook s)) → is_Some (entry (cl_hook s'))) →
  trace_is st0 s'.
Proof. intros [He Ht] Er [Et En]. split; [by apply En|]. unfold received. by rewrite Et, Er. Qed.

Lemma trace_is_event st0 now e s s' : trace_is st0 s → client_handle now e s = Some s' → trace_is st0 s'.
Proof.
  intros T E. pose proof (client_handle_hook now e s s' E) as R.
  assert (Quiet : (∀ ev, event_of e ev → appends ev = None) → cl_received s' = cl_received s → trace_is st0 s').
  { intros H Er. apply (trace_is_frame st0 s); [done|done|]. by apply (does_trace (event_of e)). }
  destruct e as [| | |i x|i x|k i m| |l]; cbn [client_handle] in E.
  - apply Quiet; [by intros ev [->| ->]|]. destruct (hs_comp (cl_hook s)); [done|].
    apply bind_Some in E as (h & _ & E). by apply bind_Some in E as (h' & _ & [= <-]).
  - apply Quiet; [by intros ev [->| ->]|]. destruct (hs_hydrated (cl_hook s)); [done|].
    apply bind_Some in E as (h & _ & E). by apply fmap_Some in E as (h' & _ & ->).
  - apply Quiet; [by intros ev ->|]. apply bind_Some in E as (h & _ & E). by apply bind_Some in E as (t & _ & [= <-]).
  - apply Quiet; [by intros ev ->|]. by apply fmap_Some in E as (h' & _ & ->).
  - apply Quiet; [by intros ev ->|]. by apply fmap_Some in E as (h' & _ & ->).
  - clear Quiet R. apply bind_Some in E as (t & _ & E). apply bind_Some in E as ([c u] & _ & E). case_bool_decide; [|done].
    destruct (message_step m) as [step|]; [|injection E as <-; exact T].
    apply bind_Some in E as (h & E & [= <-]). destruct T as [He Ht].
    assert (Pe : page_event (Store (AAppend c step)) (cl_hook s)) by done.
    split; cbn [cl_hook].
    { apply (kept_some (cl_hook s) h); [by exists now, (Store (AAppend c step))|done]. }
    rewrite (fired_trace now _ _ h Pe E). cbn [appends]. unfold received. cbn [cl_received]. rewrite omap_snoc. cbn [fst snd].
    case_decide as Hne; [subst c|rewrite app_nil_r, selectTraceSteps_other by congruence; exact Ht].
    by apply trace_snoc.
  - apply Quiet; [by intros ev ->|]. case_bool_decide; [|done]. by apply fmap_Some in E as (h' & _ & ->).
  - apply Quiet; [by intros ev ->|]. case_bool_decide; [|done]. by apply fmap_Some in E as (h' & _ & ->).
Qed.

(** ** A page that waits for nothing *)

(** The page inherited the mark of a triage that began at [t1]: the store has
    the mark and no verdict, this page sent no triage request, every request
    in flight is a status request, and the one that counts is the current
    mount's. *)
Record inherited (t1 : Z) (s : hook_state) : Prop := {
  ih_entry : ∃ e, entry s = Some e ∧ en_triageStatus e = TRunning ∧ en_triageStartedAt e = Some t1 ∧ en_verdict e = None;
  ih_posts : hs_posts s = [];
  ih_pending : ∀ p, p ∈ hs_pending s → ∃ n, p = PGet n ∧ (n < length (hs_flags s))%nat;
  ih_once : NoDup (hs_pending s);
  ih_alive : ∀ n, PGet n ∈ hs_pending s → alive s n = true → ∃ c, hs_comp s = Some c ∧ cp_effect1 c = Some n;
  ih_comp : ∀ c, hs_comp s = Some c → cp_error c = None ∧ cp_cleanup2 c = None;
  ih_asked : ∀ c n, hs_comp s = Some c → cp_effect1 c = Some n → hs_hydrated s = true ∧ (n < length (hs_flags s))%nat;
  ih_told : ∀ c, hs_comp s = Some c → cp_serverChecked c = true → ∃ n, cp_effect1 c = Some n ∧ PGet n ∉ hs_pending s
}.

Lemma inherited_since t1 s : inherited t1 s → running_since caseId t1 s.
Proof. intros I. destruct (ih_entry _ _ I) as (e & He & Hr & Hs & _). by exists e. Qed.

Lemma inherited_effect1 t1 s : inherited t1 s → inherited t1 (effect1 s).
Proof.
  intros I. pose proof I as [He Hp Hpd Ho Hal Hc Ha Ht]. unfold effect1. destruct (hs_comp s) as [c|] eqn:Ec; [|exact I].
  destruct (hs_hydrated s && bool_decide (cp_effect1 c = None)) eqn:E; [|exact I].
  apply andb_true_iff in E as [Eh En%bool_decide_eq_true]. destruct (Hc c eq_refl) as [Her Hcl].
  assert (New : ∀ n, PGet n ∈ hs_pending s → (n < length (hs_flags s))%nat).
  { intros n Hn. destruct (Hpd _ Hn) as (m & [= ->] & Hm). exact Hm. }
  split; cbn; try done.
  - intros q [Hq|Hq]%elem_of_app; rewrite length_app; [destruct (Hpd q Hq) as (n & -> & Hn); exists n; split; [done|lia]|].
    apply list_elem_of_singleton in Hq as ->. eexists. split; [done|]. cbn. lia.
  - apply NoDup_app. split; [done|]. split; [|apply NoDup_singleton]. intros q Hq ->%list_elem_of_singleton.
    apply New in Hq. lia.
  - intros n [Hn|Hn]%elem_of_app Hl.
    + pose proof (New n Hn) as Hlt. unfold alive in Hl. cbn in Hl. rewrite lookup_app_l in Hl by done.
      destruct (Hal n Hn Hl) as (c' & [= <-] & E'). congruence.
    + apply list_elem_of_singleton in Hn as [= ->]. by eexists.
  - by intros c' [= <-].
  - intros c' n [= <-]. cbn. intros [= <-]. rewrite length_app. cbn. split; [done|lia].
  - intros c' [= <-]. cbn. intros Hch. destruct (Ht c eq_refl Hch) as (n & E' & _). congruence.
Qed.

(** A fresh mark stops the second effect. *)
Lemma inherited_effect2 now t1 s :
  0 < t1 → now - t1 < RUNNING_TTL_MS → inherited t1 s → inherited t1 (effect2 caseId true now s).
Proof.
  intros H0 Hq I. pose proof I as [He Hp Hpd Ho Hal Hc Ha Ht]. unfold effect2. destruct (hs_comp s) as [c|] eqn:Ec; [|exact I].
  case_decide; [exact I|]. set (d := deps_of caseId s c). set (c1 := mkComp _ _ _ _ _ _). set (s1 := with_comp _ _).
  destruct (Hc c eq_refl) as [Her Hcl].
  assert (I1 : inherited t1 s1).
  { unfold s1, c1. rewrite Hcl. split; cbn; try done.
    - intros n Hn Hl. destruct (Hal n Hn Hl) as (c' & [= <-] & E'). by eexists.
    - by intros c' [= <-].
    - intros c' n [= <-]. by apply (Ha c).
    - intros c' [= <-]. by apply (Ht c). }
  unfold effect2_body. destruct (_ || _); [done|]. destruct (_ || _); [done|].
  unfold d. by rewrite (running_fresh caseId t1 now s c) by (done || by apply inherited_since).
Qed.

Lemma inherited_flush now t1 s :
  0 < t1 → now - t1 < RUNNING_TTL_MS → inherited t1 s → inherited t1 (stamp now (flush caseId true now s)).
Proof.
  intros H0 Hq I. assert (F : inherited t1 (flush caseId true now s)) by (by apply inherited_effect2, inherited_effect2, inherited_effect1).
  destruct F. by split.
Qed.

(** The answers a status request may get: neither a verdict nor a failure. *)
Definition tells_nothing (e : event) : Prop := match e with GetAnswer _ x => x = GotOther ∨ x = GetRejected | _ => True end.

Lemma inherited_get now t1 i n x s :
  x = GotOther ∨ x = GetRejected → inherited t1 s → hs_pending s !! i = Some (PGet n) →
  inherited t1 (get_answered caseId now n x (with_pending (delete i (hs_pending s)) s)).
Proof.
  intros Hx I Hi. pose proof I as [He Hp Hpd Ho Hal Hc Ha Ht].
  assert (D : ∀ q, q ∈ delete i (hs_pending s) → q ∈ hs_pending s) by (intros q; apply delete_subset).
  assert (Gone : PGet n ∉ delete i (hs_pending s)).
  { rewrite delete_take_drop. rewrite <- (take_drop_middle _ i _ Hi) in Ho. apply NoDup_app in Ho as (_ & H1 & H2).
    apply NoDup_cons in H2 as [H2 _]. rewrite elem_of_app. intros [H|H]; [|done]. apply (H1 _ H). by left. }
  set (s1 := with_pending _ s).
  assert (I1 : inherited t1 s1).
  { split; cbn; try done.
    - intros q Hq. by apply Hpd, D.
    - eapply sublist_NoDup; [exact Ho|apply sublist_delete].
    - intros m Hm. by apply Hal, D.
    - intros c Ec Hch. destruct (Ht c Ec Hch) as (m & E' & Hm). exists m. split; [done|]. intros H'. by apply Hm, D. }
  unfold get_answered. destruct (alive s1 n) eqn:Al; cbn [negb]; [|done].
  destruct (Hal n ltac:(by eapply list_elem_of_lookup_2) Al) as (c & Ec & En).
  assert (I2 : inherited t1 (set_comp set_checked s1)); [|by destruct Hx as [-> | ->]].
  destruct I1 as [J1 J2 J3 J4 J5 J6 J7 J8]. unfold set_comp. cbn in J5, J6, J7, J8. rewrite Ec in *. split; cbn; try done.
  - intros m Hm Hl. destruct (J5 m Hm Hl) as (c' & [= <-] & E'). rewrite Ec. by eexists.
  - rewrite Ec. intros c' [= <-]. by apply (J6 c).
  - rewrite Ec. intros c' m [= <-]. by apply (J7 c).
  - rewrite Ec. intros c' [= <-] _. by exists n.
Qed.

Lemma inherited_handle now t1 e s s' :
  inherited t1 s → page_event e s → tells_nothing e → handle caseId now e s = Some s' → inherited t1 s'.
Proof.
  intros I Pe Hn. pose proof I as [He Hp Hpd Ho Hal Hc Ha Ht]. destruct e as [| | |a|i x|i x]; cbn [handle].
  - destruct (hs_comp s) as [c|] eqn:Ec; [done|]. intros [= <-]. split; cbn; try done; try by intros c [= <-].
    + intros n Hn' Hl. by destruct (Hal n Hn' Hl) as (c & ? & _).
    + by intros c n [= <-].
  - destruct (hs_comp s) as [c|] eqn:Ec; [|done]. intros [= <-]. destruct (Hc c eq_refl) as [_ ->]. split; cbn; try done.
    + intros q Hq. rewrite kill_length. by apply Hpd.
    + intros n Hn'. unfold alive. cbn. destruct (cp_effect1 c) as [m|] eqn:Em; cbn.
      * destruct (decide (n = m)) as [->|Hne].
        -- rewrite list_lookup_insert_eq by (by apply (Ha c)). done.
        -- rewrite list_lookup_insert_ne by done. intros Hl. destruct (Hal n Hn' Hl) as (c' & [= <-] & E'). congruence.
      * intros Hl. destruct (Hal n Hn' Hl) as (c' & [= <-] & E'). congruence.
  - intros [= <-]. split; cbn; try done. intros c n Ec En. split; [done|]. by apply (Ha c).
  - cbn in Pe. assert (Fa : foreign a = true) by (by destruct a). rewrite Fa. intros [= <-].
    destruct He as (x & Hx & Hr & Hs & Hv). destruct (page_action_entry now a _ x Pe Hx) as (x' & Hx' & K).
    split; cbn; try done. exists x'. split; [done|]. by rewrite (ke_verdict _ _ K), (ke_status _ _ K), (ke_started _ _ K).
  - destruct (hs_pending s !! i) as [[n|n]|] eqn:Hi; try done. intros [= <-]. by apply inherited_get.
  - destruct (hs_pending s !! i) as [[n|n]|] eqn:Hi; try done. exfalso.
    destruct (Hpd (PPost n)) as (? & ? & _); [by eapply list_elem_of_lookup_2|done].
Qed.

Lemma inherited_load store t0 t1 e :
  obj_get caseId store = Some e → en_triageStatus e = TRunning → en_triageStartedAt e = Some t1 → en_verdict e = None →
  inherited t1 (page_load store t0).
Proof.
  intros He Hr Hs Hv. split; cbn; try done; try (by exists e); try apply NoDup_nil_2; intros ? H%elem_of_nil; done.
Qed.

(** Asked and told nothing, and the effect will not run again before the
    trace ends: only status requests of earlier mounts are in flight. *)
Record stranded (s : hook_state) : Prop := {
  sd_hydrated : hs_hydrated s = true; sd_posts : hs_posts s = [];
  sd_pending : ∀ p, p ∈ hs_pending s → ∃ n, p = PGet n ∧ alive s n = false;
  sd_entry : ∃ e, entry s = Some e ∧ en_verdict e = None;
  sd_comp : ∃ c, hs_comp s = Some c ∧ cp_error c = None ∧ cp_effect1 c ≠ None ∧
    (cp_effect2 c = Some (deps_of caseId s c) ∨ dp_hasTerminalTrace (deps_of caseId s c) = true)
}.

Lemma kill_keeps_dead f (l : list bool) n : default false (l !! n) = false → default false (kill f l !! n) = false.
Proof.
  destruct f as [m|]; [|done]. cbn. intros H. destruct (decide (n = m)) as [->|]; [|by rewrite list_lookup_insert_ne].
  destruct (decide (m < length l)%nat); [by rewrite list_lookup_insert_eq|]. by rewrite list_insert_ge by lia.
Qed.

Lemma stranded_effect2 now s : stranded s → stranded (effect2 caseId true now s).
Proof.
  intros S. pose proof S as [Hh Hps Hp He (c & Ec & Her & He1 & Hq)]. unfold effect2. rewrite Ec. case_decide as Hd; [done|].
  destruct Hq as [?|Ht]; [done|]. set (d := deps_of caseId s c) in *. set (c1 := mkComp _ _ _ _ _ _). set (s1 := with_comp _ _).
  assert (E : effect2_body caseId true now d c1 s1 = s1).
  { unfold effect2_body. destruct (_ || _); [done|]. by rewrite Ht, orb_true_r. }
  rewrite E. split; try done.
  - intros p Hin. destruct (Hp p Hin) as (n & -> & Hn). exists n. split; [done|]. by apply kill_keeps_dead.
  - exists c1. split; [done|]. split; [done|]. split; [done|]. by right.
Qed.

Lemma stranded_flush now s : stranded s → stranded (flush caseId true now s).
Proof.
  intros S. unfold flush. apply stranded_effect2, stranded_effect2. unfold effect1.
  pose proof S as [Hh Hps Hp He (c & Ec & Her & He1 & Hq)]. rewrite Ec, bool_decide_eq_false_2, andb_false_r by done. done.
Qed.

(** A write keeps what the effect depends on, or ends the trace. *)
Lemma kept_deps s s' c e e' :
  entry s = Some e → entry s' = Some e' → kept_entry e e' → hs_hydrated s' = hs_hydrated s →
  deps_of caseId s' c = deps_of caseId s c ∨ dp_hasTerminalTrace (deps_of caseId s' c) = true.
Proof.
  intros He He' [Kv Ks Kt Ksub] Hh. unfold deps_of. rewrite He, He', Hh. cbn. rewrite Kv, Ks, Kt.
  destruct (existsb terminal_step (en_traceSteps e')) eqn:T'; [by right|left]. f_equal. symmetry.
  apply not_true_iff_false. intros (x & Hx & Tx)%existsb_exists. apply not_true_iff_false in T'. apply T', existsb_exists.
  exists x. split; [|done]. by apply list_elem_of_In, Ksub, list_elem_of_In.
Qed.

Lemma terminal_kept s s' c e e' :
  entry s = Some e → entry s' = Some e' → kept_entry e e' →
  dp_hasTerminalTrace (deps_of caseId s c) = true → dp_hasTerminalTrace (deps_of caseId s' c) = true.
Proof.
  intros He He' K. unfold deps_of. rewrite He, He'. cbn. intros (x & Hx & Tx)%existsb_exists. apply existsb_exists.
  exists x. split; [|done]. by apply list_elem_of_In, (ke_steps _ _ K), list_elem_of_In.
Qed.

Lemma stranded_stays s s' : stranded s → page_does (λ e, e ≠ Unmount) s s' → stranded s'.
Proof.
  intros S (now & e & Hu & Pe & (_ & s1 & E & ->)%fire_stamp).
  assert (G : stranded (flush caseId true now s1) → stranded (stamp now (flush caseId true now s1))) by (intros []; by split).
  apply G, stranded_flush. clear G. pose proof S as [Hh Hps Hp (x & Hx & Hv) (c & Ec & Her & He1 & Hq)].
  destruct e as [| | |a|i y|i y]; cbn [handle] in E.
  - by rewrite Ec in E.
  - done.
  - injection E as <-. cbn in Pe. split; try done; [by exists x|]. exists c. split; [done|]. split; [done|]. split; [done|].
    destruct Hq as [Hq|Hq]; [left|by right]. rewrite Hq. unfold deps_of. cbn. by rewrite Hh.
  - cbn in Pe. destruct (foreign a); [|done]. injection E as <-. destruct (page_action_entry now a _ x Pe Hx) as (x' & Hx' & K).
    split; try done.
    + exists x'. split; [done|]. by rewrite (ke_verdict _ _ K).
    + exists c. split; [done|]. split; [done|]. split; [done|]. set (s1 := with_store _ s).
      destruct Hq as [Hq|Hq]; [|right; by eapply (terminal_kept s s1)].
      destruct (kept_deps s s1 c x x' Hx Hx' K eq_refl) as [Hd|Hd]; [left; by rewrite Hd|by right].
  - destruct (hs_pending s !! i) as [[n|n]|] eqn:Hi; try done. injection E as <-.
    destruct (Hp (PGet n)) as (m & [= <-] & Hn); [by eapply list_elem_of_lookup_2|]. unfold get_answered.
    change (alive (with_pending _ s) n) with (alive s n). rewrite Hn. cbn. split; try done; [|by exists x|by exists c].
    cbn. intros p Hin%delete_subset. by apply Hp.
  - destruct (hs_pending s !! i) as [[n|n]|] eqn:Hi; try done. exfalso.
    destruct (Hp (PPost n)) as (? & ? & _); [by eapply list_elem_of_lookup_2|done].
Qed.

(** ** Properties *)

(** An event while the component stays mounted, or a step of a connection. *)
Inductive client_stays : client → client → Prop :=
| cy_event now e s s' : e ≠ CeUnmount → client_handle now e s = Some s' → client_stays s (persisted s')
| cy_connection s s' : client_step s s' → cl_hook s' = cl_hook s → client_stays s s'.

Definition client_run (es : list (Z * client_event)) (s : client) : option client :=
  foldl (λ s e, s ≫= λ s, persisted <$> client_handle e.1 e.2 s) (Some s) es.

Lemma hook_stays s s' : client_stays s s' → stranded (cl_hook s) → stranded (cl_hook s').
Proof.
  intros [now e a b Hne E|a b _ ->]; [|done]. rewrite persisted_hook. intros S.
  assert (R : star (page_does (λ e, e ≠ Unmount)) (cl_hook a) (cl_hook b)).
  { eapply page_does_star; [|by apply (client_handle_hook now e)]. intros ev. destruct e; cbn; naive_solver. }
  refine (star_invariant _ stranded _ _ S _ R). intros x y Hx Hy. by apply (stranded_stays x).
Qed.

Lemma client_run_cons e es s s' :
  client_run (e :: es) s = Some s' → ∃ s1, client_handle e.1 e.2 s = Some s1 ∧ client_run es (persisted s1) = Some s'.
Proof.
  unfold client_run. cbn. destruct (client_handle e.1 e.2 s) as [s1|]; cbn; [by exists s1|].
  assert (N : foldl (λ s e, s ≫= λ s, persisted <$> client_handle e.1 e.2 s) None es = None) by (induction es; done).
  by rewrite N.
Qed.

(** What happens within the life of the mark, before or after the page was
    mounted; a status request is not answered with a verdict or a failure. *)
Inductive client_early (t1 : Z) : client → client → Prop :=
| ce_event now e s s' : now - t1 < RUNNING_TTL_MS → (∀ ev, event_of e ev → tells_nothing ev) →
    client_handle now e s = Some s' → client_early t1 s (persisted s')
| ce_connection s s' : client_step s s' → cl_hook s' = cl_hook s → client_early t1 s s'.

Lemma client_early_step t1 s s' : client_early t1 s s' → client_step s s'.
Proof. intros [now e a b _ _ E|a b H _]; [by apply (cs_event now e)|done]. Qed.

Lemma early_inherited t1 s s' :
  0 < t1 → client_early t1 s s' → inherited t1 (cl_hook s) ∧ rendered (cl_hook s) → inherited t1 (cl_hook s') ∧ rendered (cl_hook s').
Proof.
  intros H0 [now e a b Ht Hn E|a b _ ->]; [|done]. rewrite persisted_hook. intros I.
  refine (star_invariant _ (λ h, inherited t1 h ∧ rendered h) _ _ I _ (client_handle_at now e a b E)).
  intros x y [Ix _] (ev & Hev & Pe & F). split; [|apply (rendered_step x); by exists now, ev].
  apply fire_stamp in F as (_ & x1 & Hx & ->). apply inherited_flush; [done..|].
  eapply inherited_handle; [exact Ix|exact Pe|by apply Hn|exact Hx].
Qed.

Lemma told_stranded t1 s c :
  inherited t1 s → rendered s → hs_comp s = Some c → cp_serverChecked c = true → stranded s.
Proof.
  intros [He Hp Hpd Ho Hal Hc Ha Ht] R Ec Hch. destruct (Ht c Ec Hch) as (n & En & Hn). destruct (Hc c Ec) as [Her _]. split.
  - by apply (Ha c n).
  - done.
  - intros p Hin. destruct (Hpd p Hin) as (m & -> & _). exists m. split; [done|]. apply not_true_iff_false. intros Hl.
    destruct (Hal m Hin Hl) as (c' & Ec' & Em). rewrite Ec in Ec'. injection Ec' as <-. rewrite En in Em. by injection Em as <-.
  - destruct He as (e & He & _ & _ & Hv). by exists e.
  - exists c. split; [done|]. split; [done|]. split; [by rewrite En|]. left. by apply R.
Qed.

(** What was sent since the mount is what the ref remembers. *)
Definition posted (p : persister) : Prop :=
  (∀ k, k ∈ pt_keys p ↔ k ∈ step_key <$> concat (pt_posts p)) ∧ NoDup (step_key <$> concat (pt_posts p)).

Lemma posted_effect p l : posted p → posted (persist_effect p l) ∧ ∀ t, t ∈ l → step_key t ∈ pt_keys (persist_effect p l).
Proof.
  intros [Hk Hn]. split; [split|].
  - intros k. rewrite persist_effect_posts, fmap_app, elem_of_app, <- Hk, dedup_by_keys. cbn.
    rewrite dedup_seen_elem. destruct (decide (k ∈ pt_keys p)); tauto.
  - rewrite persist_effect_posts, fmap_app. apply NoDup_app. split; [done|]. split; [|apply dedup_by_NoDup].
    intros k. rewrite <- Hk, dedup_by_keys. tauto.
  - intros t Ht. cbn. rewrite dedup_seen_elem. right. by apply list_elem_of_fmap_2.
Qed.

Definition persisting (s : client) : Prop :=
  posted (cl_persist s) ∧ (is_Some (hs_comp (cl_hook s)) → ∀ t, t ∈ trace_of (cl_hook s) → step_key t ∈ pt_keys (cl_persist s)).

Lemma posted_init : posted persister_init.
Proof. split; [|constructor]. intros k. cbn. split; [by intros ?%elem_of_empty|by intros ?%elem_of_nil]. Qed.

Lemma handle_persist now e s s' : client_handle now e s = Some s' → cl_persist s' = cl_persist s ∨ cl_persist s' = persister_init.
Proof.
  intros E. destruct e as [| | |i x|i x|k i m| |l]; cbn [client_handle] in E.
  - right. destruct (hs_comp (cl_hook s)); [done|]. apply bind_Some in E as (h & _ & E). by apply bind_Some in E as (h' & _ & [= <-]).
  - left. destruct (hs_hydrated (cl_hook s)); [done|]. apply bind_Some in E as (h & _ & E). by apply fmap_Some in E as (h' & _ & ->).
  - left. apply bind_Some in E as (h & _ & E). by apply bind_Some in E as (t & _ & [= <-]).
  - left. by apply fmap_Some in E as (h' & _ & ->).
  - left. by apply fmap_Some in E as (h' & _ & ->).
  - left. apply bind_Some in E as (t & _ & E). apply bind_Some in E as ([c u] & _ & E). case_bool_decide; [|done].
    destruct (message_step m); [by apply bind_Some in E as (h & _ & [= <-])|by injection E as <-].
  - left. case_bool_decide; [|done]. by apply fmap_Some in E as (h' & _ & ->).
  - left. case_bool_decide; [|done]. by apply fmap_Some in E as (h' & _ & ->).
Qed.

Lemma persisting_step s s' : persisting s → client_step s s' → persisting s'.
Proof.
  intros [Hp Ht] St. destruct St as [now e a b E|k u u1 a _ _ _ _ _]; [|by split].
  assert (Pb : posted (cl_persist b)) by (destruct (handle_persist _ _ _ _ E) as [-> | ->]; [done|apply posted_init]).
  unfold persisted, persisting. destruct (hs_comp (cl_hook b)) eqn:Ec; [|split; [done|]; rewrite Ec; by intros []].
  cbn. destruct (posted_effect _ (selectTraceSteps caseId (cl_store b)) Pb) as [H1 H2]. split; [exact H1|]. intros _. exact H2.
Qed.

(** C11: a case page is never idle without a reason. Whatever the sockets
    deliver, however often the page's component is mounted and unmounted,
    whatever the analyst decides and whatever the routes answer, a mounted
    component whose store is restored either does not show that it is
    loading, or waits for the status of its case, or for the triage it
    requested; or the triage has failed, which only the store knows. (The
    page starts from a store in which the case is not being triaged.) *)
Theorem page_never_idle store t s c :
  (∀ e, obj_get caseId store = Some e → en_triageStatus e ≠ TRunning) →
  star client_step (client_load store t) s → hs_comp (cl_hook s) = Some c → hs_hydrated (cl_hook s) = true →
  loading caseId (cl_hook s) c = false ∨
  (∃ n, cp_effect1 c = Some n ∧ alive (cl_hook s) n = true ∧ PGet n ∈ hs_pending (cl_hook s)) ∨
  (∃ n, PPost n ∈ hs_pending (cl_hook s)) ∨ en_triageStatus <$> entry (cl_hook s) = Some TFailed.
Proof.
  intros H R Hc Hh. destruct (page_reached store t _ H (client_hook_run store t s R)) as (A & S & Re).
  destruct (loading caseId (cl_hook s) c) eqn:L; [right|by left]. by apply page_busy.
Qed.

(** C12: the first hypothesis of [page_never_idle] is needed. Load a page whose
    store marks the case as being triaged since [t1], without a verdict. Let
    anything happen in the next five minutes after [t1] (mounts, unmounts, live
    steps, the analyst), except that no status request is answered with a
    verdict or a failure; and let the status request of the component now
    mounted have been answered. From then on, as long as the component stays
    mounted, whatever the sockets deliver, the analyst does and old requests
    bring, at any time, the page waits for nothing: it has sent no triage request
    and never does, only status requests of earlier mounts, whose answers are
    ignored, are in flight, it gets no verdict and shows no error, and
    only the last step of a trace stops it from loading. *)
Theorem reload_strands store t0 t1 e s0 c0 s :
  obj_get caseId store = Some e → en_triageStatus e = TRunning → en_triageStartedAt e = Some t1 → en_verdict e = None → 0 < t1 →
  star (client_early t1) (client_load store t0) s0 → hs_comp (cl_hook s0) = Some c0 → cp_serverChecked c0 = true →
  star client_stays s0 s →
  hs_posts (cl_hook s) = [] ∧ (∀ p, p ∈ hs_pending (cl_hook s) → ∃ n, p = PGet n ∧ alive (cl_hook s) n = false) ∧
  ¬ has_verdict (cl_hook s) ∧
  ∃ c, hs_comp (cl_hook s) = Some c ∧ cp_error c = None ∧
    (loading caseId (cl_hook s) c = true ∨ ∃ step, step ∈ trace_of (cl_hook s) ∧ terminal_step step = true).
Proof.
  intros He Hr Hs Hv H1 R0 Hc Hch R.
  assert (I : inherited t1 (cl_hook s0) ∧ rendered (cl_hook s0)).
  { refine (star_invariant _ (λ s, inherited t1 (cl_hook s) ∧ rendered (cl_hook s)) _ _ _ _ R0).
    - split; [by eapply inherited_load|done].
    - intros a b Ia Sa. by apply (early_inherited t1 a). }
  assert (S : stranded (cl_hook s)).
  { refine (star_invariant _ (λ s, stranded (cl_hook s)) s0 s _ _ R); [by eapply (told_stranded t1 (cl_hook s0)); [apply I|apply I|..]|].
    intros a b Ha Hb. by apply (hook_stays a). }
  pose proof S as [Hh Hps Hp (y & Hy & Hyv) (c & Ec & Her & He1 & _)]. split; [done|]. split; [done|].
  split; [unfold has_verdict; rewrite Hy; cbn; rewrite Hyv; by intros []|]. exists c. split; [done|]. split; [done|].
  unfold loading, deps_of. rewrite Her, Hy. cbn. rewrite Hyv. cbn. unfold selectTraceSteps. unfold entry_of in Hy. rewrite Hy. cbn.
  destruct (existsb terminal_step (en_traceSteps y)) eqn:T; [right|by left]. apply existsb_exists in T as (st & Hst & T).
  exists st. split; [by apply list_elem_of_In|done].
Qed.

(** The trace of a case page under everything that happens to its store: it
    is what it was when the page was loaded, with the steps the sockets
    delivered for the case prepended, one per identity, newest first,
    whatever the triage, the analyst and other mounts write in between; and
    a mounted component has sent each step of it to the trace route, once. *)
Theorem page_trace_kept store t s :
  is_Some (obj_get caseId store) → star client_step (client_load store t) s →
  trace_of (cl_hook s) =
    reverse (dedup_by step_key (list_to_set (step_key <$> selectTraceSteps caseId store)) (received s)) ++ selectTraceSteps caseId store ∧
  let sent := concat (pt_posts (cl_persist s)) in
  NoDup (step_key <$> sent) ∧
  (is_Some (hs_comp (cl_hook s)) → ∀ step, step ∈ trace_of (cl_hook s) → step_key step ∈ step_key <$> sent).
Proof.
  intros He R. assert (I : trace_is store s ∧ persisting s).
  { refine (star_invariant _ (λ s, trace_is store s ∧ persisting s) _ _ _ _ R).
    { split; [by split|]. split; [apply posted_init|by intros []]. }
    intros a b [Ta Pa] St. split; [|by apply (persisting_step a)].
    destruct St as [now e x y E|k u u1 x _ _ _ _ _]; [|exact Ta].
    pose proof (trace_is_event store now e x y Ta E) as T. unfold persisted. by destruct (hs_comp (cl_hook y)). }
  destruct I as [[_ Ht] [[Hk Hn] Hp]]. split; [exact Ht|]. split; [exact Hn|]. intros Hc step Hst. by apply Hk, Hp.
Qed.
End Client.

(** ** Runs *)

Lemma client_run_star GATEWAY_URL caseId ev b es s s' :
  client_run caseId ev b es s = Some s' → star (client_step caseId GATEWAY_URL ev b) s s'.
Proof.
  revert s. induction es as [|e es IH]; intros s E; [injection E as <-; constructor|].
  apply client_run_cons in E as (s1 & E1 & E). eapply star_trans; [|by apply IH].
  eapply star_snoc; [constructor|]. by apply (cs_event _ _ _ _ e.1 e.2).
Qed.

Definition opened_page : client :=
  default (client_load [] 1) (client_run "c1" (sample_event "c1") None
    [(10, CeMount); (20, CeHydrate); (30, CeApprove); (40, CeGet 0 GotOther)] (client_load [] 1)).

Definition opened_comp : comp := default (mkComp false None false None None None) (hs_comp (cl_hook opened_page)).

(** Its triage is running; the page is loaded again. *)
Definition waiting_entry : CaseEntry :=
  default (mkCaseEntry (sample_event "c1") None None TIdle None None [] DispNone None 0) (obj_get "c1" (cl_store opened_page)).

(** The page is mounted twice; the first mount's status request is still
    unanswered. *)
Definition reopening : list (Z * client_event) :=
  [(1010, CeMount); (1020, CeHydrate); (1030, CeUnmount); (1040, CeMount); (1050, CeGet 1 GotOther)].

Definition reopened_page : client :=
  default (client_load [] 1) (client_run "c1" (sample_event "c1") None reopening (client_load (cl_store opened_page) 1000)).

Definition reopened_comp : comp := default (mkComp false None false None None None) (hs_comp (cl_hook reopened_page)).

Definition overridden_page : client :=
  default (client_load [] 1) (client_handle "c1" (sample_event "c1") None 1060 (CeOverride "benign") reopened_page).

Lemma opened_page_star : star (client_step "c1" "ws://gw/" (sample_event "c1") None) (client_load [] 1) opened_page.
Proof.
  apply (client_run_star _ _ _ _ [(10, CeMount); (20, CeHydrate); (30, CeApprove); (40, CeGet 0 GotOther)]). vm_compute. reflexivity.
Qed.

Lemma page_never_idle_witness :
  loading "c1" (cl_hook opened_page) opened_comp = true ∧ hs_pending (cl_hook opened_page) = [PPost 1] ∧
  (loading "c1" (cl_hook opened_page) opened_comp = false ∨
   (∃ n, cp_effect1 opened_comp = Some n ∧ alive (cl_hook opened_page) n = true ∧ PGet n ∈ hs_pending (cl_hook opened_page)) ∨
   (∃ n, PPost n ∈ hs_pending (cl_hook opened_page)) ∨ en_triageStatus <$> entry_of "c1" (cl_hook opened_page) = Some TFailed).
Proof.
  split; [vm_compute; reflexivity|]. split; [vm_compute; reflexivity|].
  assert (Ec : hs_comp (cl_hook opened_page) = Some opened_comp) by (vm_compute; reflexivity).
  assert (Eh : hs_hydrated (cl_hook opened_page) = true) by (vm_compute; reflexivity).
  assert (N : ∀ e, obj_get "c1" [] = Some e → en_triageStatus e ≠ TRunning) by done.
  exact (page_never_idle "c1" "ws://gw/" (sample_event "c1") None [] 1 opened_page opened_comp N opened_page_star Ec Eh).
Defined.

Lemma client_run_early GATEWAY_URL caseId ev b t1 es s s' :
  (∀ now e, (now, e) ∈ es → now - t1 < RUNNING_TTL_MS ∧ ∀ x, event_of caseId ev b e x → tells_nothing x) →
  client_run caseId ev b es s = Some s' → star (client_early caseId GATEWAY_URL ev b t1) s s'.
Proof.
  revert s. induction es as [|[now e] es IH]; intros s H E; [injection E as <-; constructor|].
  apply client_run_cons in E as (s1 & E1 & E). destruct (H now e) as [Ht Hn]; [left|].
  eapply star_trans; [|apply IH; [|exact E]; intros; apply H; by right].
  eapply star_snoc; [constructor|]. by apply (ce_event _ _ _ _ _ now e).
Qed.

Lemma reopened_star :
  star (client_early "c1" "ws://gw/" (sample_event "c1") None 40) (client_load (cl_store opened_page) 1000) reopened_page.
Proof.
  apply (client_run_early _ _ _ _ _ reopening); [|vm_compute; reflexivity].
  intros now e Hin. unfold reopening in Hin. rewrite !elem_of_cons, elem_of_nil in Hin.
  destruct_or! Hin; try done; injection Hin as -> ->; (split; [reflexivity|]); intros x; cbn; naive_solver.
Qed.

Lemma overridden_star : star (client_stays "c1" "ws://gw/" (sample_event "c1") None) reopened_page (persisted "c1" overridden_page).
Proof. eapply star_snoc; [constructor|]. apply (cy_event _ _ _ _ 1060 (CeOverride "benign")); [done|]. vm_compute. reflexivity. Qed.

Lemma waiting_facts :
  obj_get "c1" (cl_store opened_page) = Some waiting_entry ∧ en_triageStatus waiting_entry = TRunning ∧ en_triageStartedAt waiting_entry = Some 40 ∧
  en_verdict waiting_entry = None.
Proof. vm_compute. repeat split. Qed.

(** The page of an unfinished triage, loaded again a second later: the
    analyst overrides the verdict that never comes. *)
Lemma reload_strands_witness :
  hs_pending (cl_hook (persisted "c1" overridden_page)) = [PGet 0] ∧ hs_posts (cl_hook (persisted "c1" overridden_page)) = [] ∧
  ∀ p, p ∈ hs_pending (cl_hook (persisted "c1" overridden_page)) →
    ∃ n, p = PGet n ∧ alive (cl_hook (persisted "c1" overridden_page)) n = false.
Proof.
  destruct waiting_facts as (H1 & H2 & H3 & H4). split; [vm_compute; reflexivity|].
  assert (Ec : hs_comp (cl_hook reopened_page) = Some reopened_comp) by (vm_compute; reflexivity).
  assert (Eh : cp_serverChecked reopened_comp = true) by (vm_compute; reflexivity).
  destruct (reload_strands "c1" "ws://gw/" (sample_event "c1") None (cl_store opened_page) 1000 40 waiting_entry
    reopened_page reopened_comp (persisted "c1" overridden_page) H1 H2 H3 H4 eq_refl reopened_star Ec Eh overridden_star) as (P & Q & _).
  split; [exact P|exact Q].
Defined.
