(* ===== verification/PageViews.v ===== *)
(** * What the server pages of the workbench show

    - [app/workbench/queue/page.tsx] and [app/workbench/cases/page.tsx]: the
      header, the pipelines and the sections over the data of [QueuePage];
    - [app/workbench/detections/page.tsx], [agents/page.tsx], [admin/page.tsx]
      and [hunt/page.tsx]: the views over the data of [WorkbenchPages].

    A page that writes the name of a pipeline can fail while it renders. *)
From Stdlib Require Import Ascii.
From S2P Require Import Prelude JsObject JsNum JsString JsValue DataGrid Types AlertMappers Effects CaseRepository AlertsWs QueuePage AlertTable WorkbenchPages CaseClient CaseView.

Open Scope eff_scope.

Notation badge := (string * string)%type.

(** ** Shared parts *)

Definition status_tone (st : LiveStatus) : StatusTone :=
  match st with Live => ToneGood | Connected => ToneInfo | Offline => ToneMuted end.

Definition status_text (st : LiveStatus) : string :=
  match st with
  | Live => "Live — HELIQL detections connected"
  | Connected => "Connected — no detections yet"
  | Offline => "Offline — control-plane unreachable"
  end.

(** [n thing(s)] *)
Definition count_things (n : nat) (thing : string) : string :=
  string_of_Z (Z.of_nat n) +:+ " " +:+ thing +:+ (if (n =? 1)%nat then EmptyString else "s").

(** [formatPipelineName(p.name)] on the name Arroyo sent, whatever it is. *)
Definition format_name (name : jsval) : M string :=
  match name with
  | JStr raw => ret (formatPipelineName raw)
  | JUndef | JNull => throw (member_error "replace" name)
  | _ => throw (mkErr "TypeError" "raw.replace is not a function")
  end.

(** A pipeline: its title, its name as sent and its state. *)
Record pipeline_chip := mkChip { pc_title : string; pc_name : jsval; pc_state : string }.

Fixpoint pipeline_titles (pipelines : list (jsval * string)) : M (list pipeline_chip) :=
  match pipelines with
  | [] => ret []
  | (name, state) :: pipelines' =>
      let! title := format_name name in
      let! rest := pipeline_titles pipelines' in
      ret (mkChip title name state :: rest)
  end.

(** ** The queue *)
Module Queue.
Section Queue.
Variables CP_URL ARROYO_URL : string.
Variable getCases : list string → option (gmap string CaseRow).

Record queue_view := mkQueueView {
  qv_badges : list badge;
  qv_heading : string * string;
  qv_stats : list (string * string);
  qv_chips : list pipeline_chip;
  qv_queue : live_view
}.

Definition arroyo_badge (pipelines : list (jsval * string)) : list badge :=
  match pipelines with
  | [] => []
  | _ => [StatusBadge (Some ToneGood) ("Arroyo " +:+ count_things (length pipelines) "pipeline" +:+ " running")]
  end.

Definition queue_view_of (p : queue_page) : M queue_view :=
  let! cs := pipeline_titles (qp_pipelines p) in
  ret (mkQueueView
         (StatusBadge (Some ToneInfo) "Queue" ::
          StatusBadge (Some (status_tone (qp_status p))) (status_text (qp_status p)) ::
          arroyo_badge (qp_pipelines p))
         ("Alert Queue",
          "Real-time alerts fired by HELIQL detection rules. WebSocket pushes new matches as they arrive on the stream. Arroyo CEP alerts are routed via the alerts Kafka topic.")
         (qp_stats p) cs (live_mount (qp_alerts p))).

(** The whole page: [None] for detections that are not of the declared type. *)
Definition render_queue : M (option queue_view) :=
  let! page := QueuePage CP_URL ARROYO_URL getCases in
  match page with
  | Some p => let! v := queue_view_of p in ret (Some v)
  | None => ret None
  end.
End Queue.
End Queue.

(** ** The cases *)
Module CaseList.

(** The table of a section, over its items, or the message in its place. *)
Inductive section_body := SectionEmpty (message : string) | SectionTable (items : list Alert).

Record case_section := mkSection { cs_key : string; cs_label : string; cs_icon : string; cs_badge : badge; cs_body : section_body }.

Definition empty_message (status : LiveStatus) (label : string) : string :=
  match status with
  | Offline => "Control-plane is unreachable. Start the backend and reload."
  | _ => "No cases in this state. " +:+
         (if String.eqb label "Open" then "Run a load test or send events to generate detections."
          else "Cases auto-close once the calibrated confidence is below the auto-close threshold.")
  end.

Definition section (status : LiveStatus) (key label icon : string) (tone : StatusTone) (items : list Alert) : case_section :=
  mkSection key label icon (StatusBadge (Some tone) (string_of_Z (Z.of_nat (length items))))
    (match items with [] => SectionEmpty (empty_message status label) | _ => SectionTable items end).

Definition state_label (st : AlertState) : string := replace_first_char "-"%char " "%char (state_string st).

Record cases_view := mkCasesView {
  cv_badges : list badge;
  cv_heading : string * string;
  cv_counts : list (string * string);
  cv_sections : list case_section
}.

Definition cases_view_of (p : cases_page) : cases_view :=
  mkCasesView
    [StatusBadge (Some ToneInfo) "Cases"; StatusBadge (Some (status_tone (cp_status p))) (status_text (cp_status p))]
    ("All Cases",
     "Every alert that has been triaged or is currently under investigation. Use the search and column filters in each table to drill down.")
    ((λ c, (string_of_Z (Z.of_nat c.2), state_label c.1)) <$> cp_counts p)
    [section (cp_status p) "open" "Open" "ShieldAlert" ToneInfo (cp_open p);
     section (cp_status p) "closed" "Auto-Closed" "ShieldCheck" ToneMuted (cp_closed p)].

Definition section_items (s : case_section) : list Alert :=
  match cs_body s with SectionEmpty _ => [] | SectionTable items => items end.

Definition render_cases (CP_URL : string) (getCases : list string → option (gmap string CaseRow)) : M (option cases_view) :=
  let! p := CasesPage CP_URL getCases in ret (cases_view_of <$> p).
End CaseList.

(** ** Detection rules *)
Module RuleList.
Import Detections.

Definition severity_tone (s : Severity) : StatusTone :=
  match s with SevCritical => ToneCritical | SevHigh => ToneHigh | SevMedium => ToneMedium | SevLow => ToneLow end.

(** A row of the table: whether it is highlighted, and its cells; the icon of
    the last one is shown when the rule fired. *)
Record rule_row := mkRuleRow {
  rr_highlighted : bool;
  rr_title : string; rr_description : string; rr_id : string;
  rr_severity : badge;
  rr_mitre : list string;
  rr_applies_to : string;
  rr_fired : bool * string
}.

Record rules_view := mkRulesView {
  rv_badges : list badge;
  rv_heading : string * string;
  rv_counts : list (string * string);
  rv_rows : list rule_row
}.

(** [fired && ...]: an empty time counts as none. *)
Definition has_fired (fired : option string) : bool :=
  match fired with Some t => negb (String.eqb t EmptyString) | None => false end.

Section View.
Variable parse_date : string → option Z.
(** [Date.now()] when the cell of a rule is rendered. *)
Variable now : RuleMeta → Z.

Definition rule_row_of (row : RuleMeta * option string) : rule_row :=
  let '(rule, fired) := row in
  mkRuleRow (has_fired fired) (ru_title rule) (ru_description rule) (ru_id rule)
    (StatusBadge (Some (severity_tone (ru_severity rule))) (severity_string (ru_severity rule)))
    (ru_mitre rule) (ru_applies_to rule) (has_fired fired, fired_label parse_date (now rule) fired).

Definition rules_view_of (p : detections_page) : rules_view :=
  mkRulesView
    [StatusBadge (Some ToneInfo) "Detections";
     StatusBadge (Some (if (0 <? dp_firedCount p)%nat then ToneHigh else ToneMuted))
       (count_things (dp_firedCount p) "rule" +:+ " fired")]
    ("Detection Rules",
     string_of_Z (Z.of_nat (length (dp_rows p))) +:+ " bundled HELIQL rules compiled to RisingWave streaming SQL." +:+
     " Rules are checked against every event on the cloudtrail topic in real time.")
    ((λ c, (string_of_Z (Z.of_nat c.2), severity_string c.1)) <$> dp_by_severity p)
    (rule_row_of <$> dp_rows p).
End View.
End RuleList.

(** ** Agents *)
Module Roster.
Import Agents.

Definition status_badge (online : bool) (a : AgentDef) : badge :=
  let status := agent_status online a in
  StatusBadge (Some (if String.eqb status "online" then ToneGood
                     else if String.eqb status "offline" then ToneHigh else ToneMuted))
    (agent_badge online a).

(** The card of an agent: its labelled lines and, below them, its note. *)
Record agent_card := mkAgentCard {
  ac_name : string; ac_id : string; ac_badge : badge; ac_description : string;
  ac_lines : list (string * string); ac_note : option string
}.

Definition agent_card_of (p : agents_page) (a : AgentDef) : agent_card :=
  let isTriager := String.eqb (ad_id a) "triager-hybrid-v1" in
  mkAgentCard (ad_name a) (ad_id a) (status_badge (ap_online p) a) (ad_description a)
    ([("Model:", ad_model a); ("Execution:", ad_execPath a)] ++
     (if isTriager then
        ("Verdicts:", ap_total p) :: match ap_latency p with Some t => [("P50 / P95 / P99:", t)] | None => [] end
      else []))
    (if isTriager && ap_online p then Some "Attestation envelopes: Ed25519 signed" else None).

Record roster_view := mkRosterView { ro_badges : list badge; ro_heading : string * string; ro_counts : list (string * string); ro_cards : list agent_card }.

Definition roster_view_of (p : agents_page) : roster_view :=
  mkRosterView
    [StatusBadge (Some ToneInfo) "Agents";
     StatusBadge (Some (if ap_online p then ToneGood else ToneMuted))
       (if ap_online p then "Triager online" else "Orchestrator offline")]
    ("Agent Roster",
     "All registered agent definitions. Each agent has a signed definition with a verifiable artifact hash. Every verdict produces a cryptographic attestation envelope.")
    [(ap_total p, "Total verdicts"); (ap_p99 p, "Classifier P99"); (ap_coverage p, "Envelope coverage")]
    (agent_card_of p <$> AGENT_DEFS).

Definition render_agents (ORCHESTRATOR_URL : string) (toLocaleString : jsval → string) : M roster_view :=
  let! p := AgentsPage ORCHESTRATOR_URL toLocaleString in ret (roster_view_of p).
End Roster.

(** ** Administration *)
Module Health.
Import Admin.

Definition INFO_ROWS : list (string * string) := [
  ("Platform version", "0.1.0-alpha");
  ("Streaming engine", "RisingWave 2.x + Arroyo (Rust)");
  ("Warm tier", "MinIO · Parquet via Arroyo ETL");
  ("Query engine", "ClickHouse");
  ("Kafka", "Confluent KRaft (Railway) / Redpanda (local)");
  ("Attestation scheme", "Ed25519 · SHAP feature attribution");
  ("Classifier", "XGBoost + isotonic calibration");
  ("LLM escalation model", "Claude Sonnet / Qwen 3 32B (air-gapped)")].

(** A tone of the page's own map; another status would have none. *)
Definition tone_of_name (name : string) : option StatusTone :=
  if String.eqb name "good" then Some ToneGood else if String.eqb name "high" then Some ToneHigh
  else if String.eqb name "muted" then Some ToneMuted else if String.eqb name "info" then Some ToneInfo else None.

Definition service_tone (status : string) : option StatusTone := obj_get status tonemap ≫= tone_of_name.

(** The row of a service; it is a link, with an icon, when it has an address. *)
Record service_row := mkServiceRow {
  se_name : string; se_note : option string; se_port : string; se_badge : badge; se_link : option string
}.

Definition non_empty (s : string) : option string := if String.eqb s EmptyString then None else Some s.

Definition service_row_of (s : service) : service_row :=
  mkServiceRow (sv_name s) (non_empty (sv_note s)) (":" +:+ sv_port s)
    (StatusBadge (service_tone (sv_status s)) (sv_status s)) (sv_href s ≫= non_empty).

Definition pipeline_badge (c : pipeline_chip) : badge :=
  StatusBadge (Some (if String.eqb (pc_state c) "Running" then ToneGood else ToneMedium)) (pc_state c).

Record admin_view := mkAdminView {
  av_badge : badge;
  av_headings : list (string * string);
  av_services : list service_row;
  av_pipelines : list (pipeline_chip * badge) + string;
  av_info : list (string * string)
}.

Definition admin_view_of (data : list service * list (jsval * string) * option string) : M admin_view :=
  let '(svs, pipelines, message) := data in
  let! cs := pipeline_titles pipelines in
  ret (mkAdminView (StatusBadge (Some ToneInfo) "Admin")
         [("Platform Administration", "Service health, Arroyo pipeline state, and platform metadata.");
          ("Service Health", "live check"); ("Arroyo Pipelines", EmptyString); ("Platform Info", EmptyString)]
         (service_row_of <$> svs)
         (match message with Some m => inr m | None => inl ((λ c, (c, pipeline_badge c)) <$> cs) end)
         INFO_ROWS).

Definition render_admin (CP_URL ARROYO_URL ARROYO_UI_URL COLLECTOR_URL ORCHESTRATOR_URL MCP_GW_URL : string) : M admin_view :=
  let! data := AdminPage CP_URL ARROYO_URL ARROYO_UI_URL COLLECTOR_URL ORCHESTRATOR_URL MCP_GW_URL in
  admin_view_of data.
End Health.

(** ** Hunting *)
Module HuntForm.
Import Hunt.

(** [JSON.stringify(v, null, 2)] of a JSON value. *)
Definition json_escape (c : ascii) : string :=
  let n := N_of_ascii c in
  if (n =? 34)%N then "\" +:+ quote
  else if (n =? 92)%N then "\\"
  else if (n =? 8)%N then "\b" else if (n =? 12)%N then "\f" else if (n =? 10)%N then "\n"
  else if (n =? 13)%N then "\r" else if (n =? 9)%N then "\t"
  else if (n <? 32)%N then "\u00" +:+ to_lower (String (hex_digit (n / 16)) (String (hex_digit (n mod 16)) EmptyString))
  else String c EmptyString.

Fixpoint json_escapes (s : string) : string :=
  match s with EmptyString => EmptyString | String c s' => json_escape c +:+ json_escapes s' end.

Definition json_quote (s : string) : string := quote +:+ json_escapes s +:+ quote.

(** The items of an array or object, one per line. *)
Definition bracket (open_ close indent : string) (items : list string) : string :=
  match items with
  | [] => open_ +:+ close
  | _ => let inner := newline +:+ indent +:+ "  " in
         open_ +:+ inner +:+ join ("," +:+ inner) items +:+ newline +:+ indent +:+ close
  end.

Fixpoint json_pretty (indent : string) (v : jsval) : string :=
  match v with
  | JUndef | JNull => "null"
  | JBool b => if b then "true" else "false"
  | JNum n => num_to_string n
  | JStr s => json_quote s
  | JArr l =>
      bracket "[" "]" indent ((fix go l := match l with [] => [] | x :: l' => json_pretty (indent +:+ "  ") x :: go l' end) l)
  | JObj o =>
      bracket "{" "}" indent ((fix go o := match o with
                               | [] => []
                               | (k, x) :: o' => (json_quote k +:+ ": " +:+ json_pretty (indent +:+ "  ") x) :: go o'
                               end) o)
  end.

(** The page: the draft of a hypothesis, which nothing reads, and the form. *)
Record hunt_page := mkHuntPage { hp_queryText : string; hp_form : hunt }.
Definition hunt_page_mount : hunt_page := mkHuntPage EmptyString hunt_mount.

Inductive hunt_page_event := HpDraft (text : string) | HpForm (e : hunt_event).

Definition hunt_page_handle (e : hunt_page_event) (p : hunt_page) : option hunt_page :=
  match e with
  | HpDraft text => Some (mkHuntPage text (hp_form p))
  | HpForm e => mkHuntPage (hp_queryText p) <$> hunt_handle e (hp_form p)
  end.

Definition hunt_page_step (p p' : hunt_page) : Prop := ∃ e, hunt_page_handle e p = Some p'.

Definition HELIQL_PLACEHOLDER : string :=
  "detection: my_hunt_hypothesis" +:+ newline +:+ "where:" +:+ newline +:+
  "  - event.api_operation = " +:+ quote +:+ "CreateAccessKey" +:+ quote +:+ newline +:+
  "  - event.actor_user_name NOT IN baseline(identity.user, 30d)" +:+ newline +:+ "severity: high".

(** The two editors (value and placeholder), the buttons (label, whether
    disabled, tooltip), the spinner, the error and the result. *)
Record hunt_view := mkHuntView {
  hv_badges : list badge;
  hv_headings : list (string * string);
  hv_editors : list (string * string);
  hv_buttons : list (string * bool * string);
  hv_spinner : bool;
  hv_error : option string;
  hv_result : option string
}.

Definition hunt_view_of (p : hunt_page) : hunt_view :=
  let h := hp_form p in
  mkHuntView
    [StatusBadge (Some ToneInfo) "Hunt"; StatusBadge (Some ToneMuted) "Ad-hoc query"]
    [("Threat Hunting",
      "HELIQL editor below is for drafting hypotheses. Warm-tier execution uses read-only ClickHouse SELECT via POST /v1/warm/query.");
     ("HELIQL hypothesis (draft)", EmptyString); ("ClickHouse SQL — warm tier", EmptyString);
     ("Saved Hypotheses", "No saved hypotheses yet. Draft HELIQL above; execute warm-tier SQL in the middle panel.")]
    [(hp_queryText p, HELIQL_PLACEHOLDER); (hu_sql h, "SELECT 1")]
    [("Run against warm tier", hu_busy h, EmptyString);
     ("Run against live stream", true, "Stream path not wired yet");
     ("Save hypothesis", true, "Hypothesis persistence not wired yet")]
    (hu_busy h)
    (hu_error h ≫= Health.non_empty)
    (match hu_result h with JNull => None | v => Some (json_pretty EmptyString (json_normal v)) end).
End HuntForm.

(** ** The names of the pipelines *)

Definition is_text (v : jsval) : bool := match v with JStr _ => true | _ => false end.

Definition chip_of (p : jsval * string) : pipeline_chip :=
  mkChip (match p.1 with JStr s => formatPipelineName s | _ => EmptyString end) p.1 p.2.

Lemma format_name_outcome v w l :
  if is_text v then format_name v w l = (Ok (pc_title (chip_of (v, EmptyString))), l)
  else ∃ e, format_name v w l = (Throw e, l) ∧ err_name e = "TypeError".
Proof. destruct v; simpl; try (by eexists); done. Qed.

(** Every name a text: one chip per pipeline; otherwise the page throws. *)
Lemma chips_outcome ps w l :
  if forallb (λ p, is_text p.1) ps then pipeline_titles ps w l = (Ok (chip_of <$> ps), l)
  else ∃ e, pipeline_titles ps w l = (Throw e, l) ∧ err_name e = "TypeError".
Proof.
  induction ps as [|[v st] ps IH]; [done|]. cbn [pipeline_titles forallb fst].
  pose proof (format_name_outcome v w l) as F. unfold bind. destruct (is_text v) eqn:Ev; cbn [andb].
  - rewrite F. destruct (forallb _ ps).
    + rewrite IH. by destruct v.
    + destruct IH as (e & -> & He). by exists e.
  - destruct F as (e & -> & He). by exists e.
Qed.

Lemma pipeline_chips_named ps w l :
  Forall (λ p, is_nullish p = false) ps →
  pipeline_chips ps w l = (Ok ((λ p, (prop "name" p, "Running")) <$> ps), l).
Proof.
  induction 1 as [|p ps Hp _ IH]; [done|]. cbn [pipeline_chips]. unfold bind, member. rewrite Hp. unfold ret. by rewrite IH.
Qed.

(** The answer of Arroyo: a list of pipelines, none of them null. *)
Record arroyo_lists (answer : res fetched) (ps : list jsval) : Prop := {
  al_answer : ∃ x body, answer = Ok x ∧ ft_ok x = true ∧ ft_json x = Some body ∧ prop "data" body = JArr ps;
  al_present : Forall (λ p, is_nullish p = false) ps
}.

(** Arroyo is down, refuses, or does not answer with JSON. *)
Definition arroyo_silent (answer : res fetched) : Prop := ∀ x, answer = Ok x → ft_ok x = true → ft_json x = None.

Definition named (ps : list jsval) : bool := forallb (λ p, is_text (prop "name" p)) ps.
Definition running (ps : list jsval) : list (jsval * string) := (λ p, (prop "name" p, "Running")) <$> ps.

Lemma chips_running ps w l :
  if named ps then pipeline_titles (running ps) w l = (Ok (chip_of <$> running ps), l)
  else ∃ e, pipeline_titles (running ps) w l = (Throw e, l) ∧ err_name e = "TypeError".
Proof.
  assert (E : named ps = forallb (λ p, is_text p.1) (running ps)).
  { unfold named, running. induction ps as [|p ps IH]; [done|]. rewrite fmap_cons. cbn [forallb fst]. by f_equal. }
  rewrite E. apply chips_outcome.
Qed.

Lemma list_body body ps : prop "data" body = JArr ps → is_nullish body = false.
Proof. by destruct body. Qed.

Lemma arroyo_fetched arr w l ps :
  arroyo_lists (env_fetch w (length l) (pipelines_request arr)) ps →
  fetchArroyoPipelines arr w l = (Ok (running ps), l ++ [EFetch (pipelines_request arr)]).
Proof.
  intros [(x & body & E & Hok & Hj & Hd) Hp]. unfold fetchArroyoPipelines, try_catch, bind, fetch. rewrite E, Hok.
  cbn [negb]. unfold read_json. rewrite Hj. unfold ret, member. rewrite (list_body _ _ Hd), Hd.
  unfold ret. cbn [nullish is_nullish]. by rewrite pipeline_chips_named.
Qed.

Lemma arroyo_absent arr w l :
  arroyo_silent (env_fetch w (length l) (pipelines_request arr)) →
  fetchArroyoPipelines arr w l = (Ok [], l ++ [EFetch (pipelines_request arr)]).
Proof.
  intros S. unfold fetchArroyoPipelines, try_catch, bind, fetch.
  destruct (env_fetch w (length l) (pipelines_request arr)) as [x|e] eqn:E; [|done].
  destruct (ft_ok x) eqn:Eo; cbn [negb]; [|done]. unfold read_json. by rewrite (S x eq_refl Eo).
Qed.

(** ** The queue page, rendered *)
Section QueueRender.
Import Queue.

Lemma render_queue_run cp arr getCases w live ps l1 :
  fetchLiveAlerts cp getCases w [] = (Ok (Some live), l1) →
  (fetchArroyoPipelines arr w l1).1 = Ok ps →
  let out := (run (render_queue cp arr getCases) w).1 in
  (∀ cs, (pipeline_titles ps w (fetchArroyoPipelines arr w l1).2).1 = Ok cs →
     ∃ v, out = Ok (Some v) ∧ qv_chips v = cs ∧ qv_queue v = live_mount live.1 ∧ qv_stats v = queueStats live.1) ∧
  (∀ e, (pipeline_titles ps w (fetchArroyoPipelines arr w l1).2).1 = Throw e → out = Throw e).
Proof.
  intros E1 E2 out. subst out. unfold run, render_queue, QueuePage, bind, ret. rewrite E1.
  destruct (fetchArroyoPipelines arr w l1) as [r2 l2]. cbn [fst snd] in *. subst r2. destruct live as [alerts status].
  unfold queue_view_of, bind. cbn [qp_pipelines]. destruct (pipeline_titles ps w l2) as [[cs|e] l3]; cbn [fst snd]; split; try done.
  - intros ? [= <-]. eexists. split; [reflexivity|]. done.
  - by intros ? [= <-].
Qed.

Lemma mounted_ids alerts i : i ∈ al_id <$> qu_alerts (lv_queue (live_mount alerts)) ↔ i ∈ al_id <$> alerts.
Proof. cbn. unfold live_rows. rewrite dedup_by_keys. set_solver. Qed.

Lemma rows_ids lookup (ds : list Detection.FiredDetection) : al_id <$> (row_of lookup <$> ds) = Detection.fd_event_id <$> ds.
Proof. rewrite <- list_fmap_compose. apply list_fmap_ext. intros i f _. apply row_id. Qed.

(** C31: a pipeline without a name takes the alert queue down, an unreachable
    Arroyo does not. Whenever the control plane answers with the detections,
    the queue page shows them all, without pipelines, when Arroyo is down,
    refuses or does not answer with JSON; when Arroyo lists pipelines that all
    have a textual name it shows them too, one chip each, in order; and when
    one of the names is missing or no text the whole page fails with a
    TypeError, although the request itself is guarded. *)
Theorem queue_pipelines {Db} `{CaseTablesLaws Db} (d : Db) cp arr w r vs ds :
  env_fetch w 0 (fired_request cp) = Ok r → ft_ok r = true → ft_json r = Some (JArr vs) →
  mapM Detection.as_fired vs = Some ds →
  let out := (run (render_queue cp arr (λ ids, Some (getCases d ids))) w).1 in
  let answer := env_fetch w 1 (pipelines_request arr) in
  let shows v cs :=
    out = Ok (Some v) ∧ qv_chips v = cs ∧
    (∀ i, i ∈ al_id <$> qu_alerts (lv_queue (qv_queue v)) ↔ i ∈ Detection.fd_event_id <$> ds) ∧
    qv_stats v = queueStats (row_of (getCase d) <$> ds) in
  (arroyo_silent answer → ∃ v, shows v []) ∧
  (∀ ps, arroyo_lists answer ps →
     if named ps then ∃ v, shows v (chip_of <$> running ps)
     else ∃ e, out = Throw e ∧ err_name e = "TypeError").
Proof.
  intros Ef Hok Hj Hd out answer shows.
  pose proof (fetchLiveAlerts_live cp d w [] r vs ds Ef Hok Hj Hd) as E. cbn [app] in E.
  assert (S : ∀ v cs, out = Ok (Some v) → qv_chips v = cs → qv_queue v = live_mount (row_of (getCase d) <$> ds) →
                      qv_stats v = queueStats (row_of (getCase d) <$> ds) → shows v cs).
  { intros v cs Ho Hc Hq Hs. split; [done|]. split; [done|]. split; [|done]. intros i. rewrite Hq, mounted_ids.
    by rewrite rows_ids. }
  split.
  - intros Hs. pose proof (arroyo_absent arr w [EFetch (fired_request cp)] Hs) as E2.
    destruct (render_queue_run cp arr _ w _ [] _ E) as [Ho _]; [by rewrite E2|].
    destruct (Ho []) as (v & ? & ? & ? & ?); [done|]. exists v. by apply S.
  - intros ps Hl. pose proof (arroyo_fetched arr w [EFetch (fired_request cp)] ps Hl) as E2.
    destruct (render_queue_run cp arr _ w _ (running ps) _ E) as [Ho Ht]; [by rewrite E2|].
    rewrite E2 in Ho, Ht. cbn [snd] in Ho, Ht.
    pose proof (chips_running ps w ([EFetch (fired_request cp)] ++ [EFetch (pipelines_request arr)])) as C.
    destruct (named ps).
    + destruct (Ho (chip_of <$> running ps)) as (v & ? & ? & ? & ?); [by rewrite C|]. exists v. by apply S.
    + destruct C as (e & C & He). exists e. split; [|done]. apply Ht. by rewrite C.
Qed.
Definition nameless_pipelines : jsval := JObj [("data", JArr [JObj [("name", JStr "cloudtrail_to_parquet")]; JObj [("id", JStr "p2")]])].
Definition nameless_env : env :=
  mkEnv (λ i _, Ok (mkFetched 200 (Some (match i with O => JArr [QueuePage.fired_json] | _ => nameless_pipelines end)) EmptyString)) (λ _, 0).

Lemma queue_pipelines_witness :
  ∃ e, (run (render_queue "cp" "arr" (λ ids, Some (getCases sample_db ids))) nameless_env).1 = Throw e ∧ err_name e = "TypeError".
Proof.
  destruct (queue_pipelines sample_db "cp" "arr" nameless_env (mkFetched 200 (Some (JArr [QueuePage.fired_json])) EmptyString)
    [QueuePage.fired_json] [sample_fired] eq_refl eq_refl eq_refl eq_refl) as [_ H].
  apply (H [JObj [("name", JStr "cloudtrail_to_parquet")]; JObj [("id", JStr "p2")]]).
  split; [|by repeat constructor]. eexists _, nameless_pipelines. split; [reflexivity|]. by split.
Defined.

Example pipeline_title : pc_title (chip_of (JStr "cloudtrail_to_parquet", "Running")) = "Cloudtrail To Parquet".
Proof. reflexivity. Qed.
End QueueRender.

(** ** The case list, rendered *)
Section CaseListRender.
Import CaseList.

Lemma section_shows st key label icon tone items : section_items (section st key label icon tone items) = items.
Proof. by destruct items. Qed.

(** The two sections share the cases out. *)
Lemma sections_partition cases status counts :
  let v := cases_view_of (mkCasesPage status (not_closed cases) (in_state AutoClosed cases) counts) in
  concat (section_items <$> cv_sections v) ≡ₚ cases.
Proof.
  cbn. rewrite !section_shows, app_nil_r. unfold not_closed, in_state.
  induction cases as [|a cases IH]; [done|]. rewrite !filter_cons.
  destruct (decide (al_state a = AutoClosed)) as [E|E].
  - rewrite decide_False by (by intros ?). by rewrite <- Permutation_middle, IH.
  - rewrite decide_True by done. simpl. by rewrite IH.
Qed.

(** The case list over the database: whatever detections the control plane
    reports, each of them is in the section of the open cases, in order, and
    the section of the closed ones tells that there are none and how a case
    is closed; when the control plane cannot be reached both sections say
    so. *)
Theorem case_list_shows {Db} `{CaseTablesLaws Db} (d : Db) cp w :
  let out := (run (render_cases cp (λ ids, Some (getCases d ids))) w).1 in
  (∀ r vs ds, env_fetch w 0 (fired_request cp) = Ok r → ft_ok r = true → ft_json r = Some (JArr vs) →
     mapM Detection.as_fired vs = Some ds →
     ∃ v, out = Ok (Some v) ∧ section_items <$> cv_sections v = [row_of (getCase d) <$> ds; []] ∧
       (cs_body <$> cv_sections v) !! 1%nat =
         Some (SectionEmpty ("No cases in this state. " +:+
           "Cases auto-close once the calibrated confidence is below the auto-close threshold."))) ∧
  ((∀ r, env_fetch w 0 (fired_request cp) = Ok r → ft_ok r = false) →
     ∃ v, out = Ok (Some v) ∧
       cs_body <$> cv_sections v =
         replicate 2 (SectionEmpty "Control-plane is unreachable. Start the backend and reload.")).
Proof.
  intros out. subst out. unfold run, render_cases, CasesPage. split.
  - intros r vs ds Ef Hok Hj Hd. pose proof (fetchLiveAlerts_live cp d w [] r vs ds Ef Hok Hj Hd) as E.
    unfold bind. rewrite E. unfold ret. cbn [fst fmap option_fmap option_map]. eexists. split; [reflexivity|].
    rewrite not_closed_rows, in_state_rows.
    rewrite (filter_nil (λ f, _ = AutoClosed)) by (intros f; by destruct (running_case (getCase d) f)).
    cbn [cases_view_of cv_sections fmap list_fmap cp_status cp_open cp_closed]. rewrite !section_shows. split; [done|].
    by destruct ds.
  - intros Hf. unfold bind, fetchLiveAlerts, try_catch, bind, fetch. cbn [length].
    destruct (env_fetch w 0 (fired_request cp)) as [r|e] eqn:Ef; [rewrite (Hf r eq_refl)|]; by eexists.
Qed.

Lemma case_list_shows_witness :
  ∃ v, (run (render_cases "cp" (λ ids, Some (getCases sample_db ids))) control_plane).1 = Ok (Some v) ∧
    length (concat (section_items <$> cv_sections v)) = 1%nat.
Proof.
  destruct (case_list_shows sample_db "cp" control_plane) as [H _].
  destruct (H (mkFetched 200 (Some (JArr [QueuePage.fired_json])) EmptyString) [QueuePage.fired_json] [sample_fired]) as (v & E & Hs & _); [reflexivity..|].
  exists v. split; [exact E|]. rewrite Hs. reflexivity.
Defined.
End CaseListRender.

(** ** The administration page, rendered *)
Section AdminRender.
Import Health Admin.
Variables CP_URL ARROYO_URL ARROYO_UI_URL COLLECTOR_URL ORCHESTRATOR_URL MCP_GW_URL : string.

(** The same failure on the administration page: it is shown, with a row and
    a tone for each of its seven services, exactly when the names of the
    pipelines it read are all texts. *)
Theorem admin_pipelines w :
  ∃ data log, run (AdminPage CP_URL ARROYO_URL ARROYO_UI_URL COLLECTOR_URL ORCHESTRATOR_URL MCP_GW_URL) w = (Ok data, log) ∧
    let out := (run (render_admin CP_URL ARROYO_URL ARROYO_UI_URL COLLECTOR_URL ORCHESTRATOR_URL MCP_GW_URL) w).1 in
    if forallb (λ p, is_text p.1) data.1.2
    then ∃ v, out = Ok v ∧ length (av_services v) = 7%nat ∧
              av_pipelines v = match data.2 with
                               | Some m => inr m
                               | None => inl ((λ p, (chip_of p, pipeline_badge (chip_of p))) <$> data.1.2)
                               end
    else ∃ e, out = Throw e ∧ err_name e = "TypeError".
Proof.
  destruct (admin_run CP_URL ARROYO_URL ARROYO_UI_URL COLLECTOR_URL ORCHESTRATOR_URL MCP_GW_URL w) as [ps E].
  do 2 eexists. split; [exact E|]. cbn [fst snd]. unfold run, render_admin, bind. unfold run in E. rewrite E.
  unfold admin_view_of, bind. pose proof (chips_outcome ps w (EFetch <$> health_requests CP_URL ARROYO_URL COLLECTOR_URL)) as C.
  destruct (forallb _ ps).
  - rewrite C. unfold ret. cbn [fst]. eexists. split; [reflexivity|]. cbn [av_services av_pipelines]. split; [done|].
    case_match; [done|]. f_equal. by rewrite <- list_fmap_compose.
  - destruct C as (e & -> & He). by exists e.
Qed.
End AdminRender.

(** ** The other pages, rendered *)
Section OtherRenders.
Import RuleList Detections.

(** The header of the rules page never changes, whatever fired; every rule
    has its row, in the order of severity. *)
Lemma rules_header parse_date now m :
  let v := rules_view_of parse_date now (detections_page_of m) in
  rv_heading v = ("Detection Rules",
    "10 bundled HELIQL rules compiled to RisingWave streaming SQL." +:+
    " Rules are checked against every event on the cloudtrail topic in real time.") ∧
  rv_counts v = [("3", "critical"); ("6", "high"); ("1", "medium")] ∧
  rr_id <$> rv_rows v = ru_id <$> sorted_rules.
Proof.
  split; [|split].
  - unfold rules_view_of. cbn [rv_heading]. rewrite <- (length_fmap fst), rows_rules. by vm_compute.
  - by vm_compute.
  - unfold rules_view_of. cbn [rv_rows]. rewrite <- (rows_rules m), <- !list_fmap_compose.
    apply list_fmap_ext. by intros i [rule fired] _.
Qed.

(** A row says never exactly when it is not highlighted. *)
Lemma never_fired parse_date now row :
  let v := rule_row_of parse_date now row in
  rr_fired v = (rr_highlighted v, if rr_highlighted v then (rr_fired v).2 else "never").
Proof. destruct row as [rule [t|]]; [|done]. simpl. by destruct (String.eqb t EmptyString). Qed.

Example rule_never_counted :
  let m : jsobj string := [("aws_root_account_use", EmptyString)] in
  dp_firedCount (detections_page_of m) = 1%nat ∧
  existsb rr_highlighted (rv_rows (rules_view_of (λ _, None) (λ _, 0) (detections_page_of m))) = false.
Proof. by vm_compute. Qed.
End OtherRenders.

(** ** The hunt page, rendered *)
Section HuntRender.
Import HuntForm Hunt.

Lemma page_form p : star hunt_page_step hunt_page_mount p → star hunt_step hunt_mount (hp_form p).
Proof.
  intros R. refine (star_invariant _ (λ p, star hunt_step hunt_mount (hp_form p)) hunt_page_mount p _ _ R); [apply star_refl|].
  intros q q' Hq [[t|e] E]; simpl in E; simplify_eq; [done|].
  destruct (hunt_handle e (hp_form q)) as [h|] eqn:Eh; simplify_eq. eapply star_snoc; [exact Hq|].
  exists e. rewrite Eh. by simpl in E; simplify_eq.
Qed.

(** What is on the screen of the form. *)
Definition one_outcome (h : hunt) : Prop :=
  (hu_error h = None ∨ hu_result h = JNull) ∧ (hu_busy h = true → hu_error h = None ∧ hu_result h = JNull).

Lemma one_outcome_step h h' : hunt_inv h → one_outcome h → hunt_step h h' → one_outcome h'.
Proof.
  intros (_ & I2 & _ & _) [O1 O2] [[sql| |r] E]; simpl in E; [by simplify_eq| |].
  - destruct (hu_busy h); simplify_eq. unfold runWarmTier. case_match; split; simpl; solve [auto|done].
  - destruct (hu_pending h) as [|q k] eqn:Ep; [done|]. simplify_eq.
    destruct O2 as [Oe Or]; [by apply I2|]. unfold hunt_answered. rewrite Ep.
    destruct r as [x|e]; [case_match|]; split; simpl; solve [auto|done].
Qed.

Lemma one_outcome_reachable h : star hunt_step hunt_mount h → one_outcome h.
Proof.
  intros R. assert (I : hunt_inv h ∧ one_outcome h); [|tauto].
  refine (star_invariant _ (λ h, hunt_inv h ∧ one_outcome h) hunt_mount h _ _ R).
  - split; [|split; [by left|done]]. unfold hunt_inv. simpl. split_and!; try done; [lia|by intros ? ?%elem_of_nil].
  - intros a b [Ia Oa] Hs. split; [by eapply hunt_step_inv|by eapply one_outcome_step].
Qed.

(** The hunt page never shows an error beside a result, and shows neither
    while a query runs; its button is disabled exactly while one does; the
    draft of a hypothesis is kept and is in no request. *)
Theorem hunt_page_shows p :
  star hunt_page_step hunt_page_mount p →
  let v := hunt_view_of p in
  (hv_error v = None ∨ hv_result v = None) ∧
  (hv_spinner v = true → hv_error v = None ∧ hv_result v = None) ∧
  (("Run against warm tier", true, EmptyString) ∈ hv_buttons v ↔ hu_pending (hp_form p) ≠ []) ∧
  (∀ t, hunt_page_handle (HpDraft t) p = Some (mkHuntPage t (hp_form p))).
Proof.
  intros R%page_form v. pose proof (one_outcome_reachable _ R) as [O1 O2].
  assert (I : hunt_inv (hp_form p)).
  { refine (star_invariant _ hunt_inv hunt_mount (hp_form p) _ hunt_step_inv R).
    unfold hunt_inv. simpl. split_and!; try done; [lia|by intros ? ?%elem_of_nil]. }
  destruct I as (_ & I2 & _ & _). subst v. unfold hunt_view_of. cbn [hv_error hv_result hv_spinner hv_buttons].
  split; [destruct O1 as [-> | ->]; auto|]. split; [intros Hb; destruct (O2 Hb) as [-> ->]; done|].
  split; [|done]. rewrite <- I2, !elem_of_cons, elem_of_nil. split; [|intros ->; by left].
  intros [[= <-]|[?|[?|[]]]]; done.
Qed.

Definition asked : hunt_page := mkHuntPage "draft" (runWarmTier hunt_mount).

Lemma hunt_page_shows_witness : hv_spinner (hunt_view_of asked) = true ∧ hv_error (hunt_view_of asked) = None.
Proof.
  split; [reflexivity|].
  assert (R : star hunt_page_step hunt_page_mount asked).
  { eapply star_snoc; [eapply star_snoc; [apply star_refl|]|].
    - by exists (HpDraft "draft").
    - by exists (HpForm HuRun). }
  by apply (hunt_page_shows asked R).
Defined.

Example pretty_result :
  json_pretty EmptyString (JObj [("ok", JArr [JNum (of_Z 1); JObj []]); ("q", JStr quote)]) =
  "{" +:+ newline +:+ "  " +:+ quote +:+ "ok" +:+ quote +:+ ": [" +:+ newline +:+ "    1," +:+ newline +:+ "    {}" +:+ newline +:+
  "  ]," +:+ newline +:+ "  " +:+ quote +:+ "q" +:+ quote +:+ ": " +:+ quote +:+ "\" +:+ quote +:+ quote +:+ newline +:+ "}".
Proof. vm_compute. reflexivity. Qed.
End HuntRender.
