(* ===== verification/FormViews.v ===== *)
(** * The forms as they are filled in, and the frame of the workbench

    - [app/(auth)/waitlist/waitlist-form.tsx] and
      [app/(auth)/login/login-form.tsx]: the pages over the states of
      [PublicPages], with what the browser checks before a submission;
    - [app/workbench/settings/page.tsx], [components/workbench/app-shell.tsx],
      [components/workbench/command-palette.tsx],
      [components/workbench/attest-sidebar.tsx] and [components/nav-user.tsx]:
      what they show. *)
From Stdlib Require Import Ascii.
From S2P Require Import Prelude JsObject JsNum JsString JsValue Types Effects RateLimit ProxyRoutes Auth Waitlist DemoRun PublicPages SimulateView AppShell CaseClient CaseView PageViews.

(** A field of a form: label, value, whether it is required and the least
    length of what is typed. *)
Record field := mkField { fi_label : string; fi_value : string; fi_required : bool; fi_minLength : nat }.

(** The browser's check of a field the user typed in. *)
Definition field_ok (f : field) : bool :=
  if String.eqb (fi_value f) EmptyString then negb (fi_required f)
  else (fi_minLength f <=? String.length (fi_value f))%nat.

(** ** The waitlist page *)
Module WaitlistPage.
Import WaitlistForm.
Section Page.
(** The browser's check of an input of type [email]. *)
Variable email_ok : string → bool.

(** The form and the submissions whose answers are awaited. *)
Record waitlist_page := mkPage { wp_form : form; wp_sent : list form }.
Definition waitlist_page_mount : waitlist_page := mkPage form_mount [].

Definition fields (f : form) : list field := [
  mkField "Name" (wf_name f) true 2;
  mkField "Work email" (wf_email f) true 0;
  mkField "Company" (wf_company f) false 0;
  mkField "Role" (wf_role f) false 0;
  mkField "Why do you want to try Attest?" (wf_message f) true 10].

Definition browser_valid (f : form) : bool := forallb field_ok (fields f) && email_ok (wf_email f).

Inductive waitlist_input :=
| InName (v : string) | InEmail (v : string) | InCompany (v : string) | InRole (v : string)
| InMessage (v : string) | InWebsite (v : string).

Definition fill (i : waitlist_input) (f : form) : form :=
  match i with
  | InName v => mkForm v (wf_email f) (wf_company f) (wf_role f) (wf_message f) (wf_website f) (wf_status f) (wf_error f)
  | InEmail v => mkForm (wf_name f) v (wf_company f) (wf_role f) (wf_message f) (wf_website f) (wf_status f) (wf_error f)
  | InCompany v => mkForm (wf_name f) (wf_email f) v (wf_role f) (wf_message f) (wf_website f) (wf_status f) (wf_error f)
  | InRole v => mkForm (wf_name f) (wf_email f) (wf_company f) v (wf_message f) (wf_website f) (wf_status f) (wf_error f)
  | InMessage v => mkForm (wf_name f) (wf_email f) (wf_company f) (wf_role f) v (wf_website f) (wf_status f) (wf_error f)
  | InWebsite v => mkForm (wf_name f) (wf_email f) (wf_company f) (wf_role f) (wf_message f) v (wf_status f) (wf_error f)
  end.

(** The select only offers the roles. *)
Definition can_fill (i : waitlist_input) : bool :=
  match i with InRole v => bool_decide (v ∈ WAITLIST_ROLES) | _ => true end.

Inductive waitlist_event := PgFill (i : waitlist_input) | PgSubmit | PgAnswer (r : res fetched).

(** The form is gone once the person is on the list; a disabled button also
    stops the submission by the Enter key; the browser stops an invalid one. *)
Definition waitlist_handle (e : waitlist_event) (p : waitlist_page) : option waitlist_page :=
  let f := wp_form p in
  match e with
  | PgFill i => if bool_decide (wf_status f = StOk) || negb (can_fill i) then None else Some (mkPage (fill i f) (wp_sent p))
  | PgSubmit =>
      if bool_decide (wf_status f = StOk) || bool_decide (wf_status f = StBusy) || negb (browser_valid f) then None
      else Some (mkPage (submit f) (wp_sent p ++ [f]))
  | PgAnswer r => match wp_sent p with [] => None | _ :: sent => Some (mkPage (answered r f) sent) end
  end.

Definition waitlist_request (f : form) : request := post_json "/api/waitlist" (form_body f).

Definition waitlist_step (p p' : waitlist_page) : Prop := ∃ e, waitlist_handle e p = Some p'.

(** *** What it shows *)

Inductive waitlist_view :=
| WvThanks (heading text : string)
| WvForm (heading : string) (fs : list field) (options : list (string * string)) (error : option string) (busy : bool).

Definition role_options : list (string * string) := (λ r, (r, ROLE_LABELS r)) <$> WAITLIST_ROLES.

(** The error is a child of its line when it is truthy. *)
Definition shown_error (e : option jsval) : res (option string) :=
  match e with
  | Some v => if truthy v then let? t := child v in Ok (Some t) else Ok None
  | None => Ok None
  end.

Definition waitlist_view_of (p : waitlist_page) : res waitlist_view :=
  let f := wp_form p in
  match wf_status f with
  | StOk => Ok (WvThanks "You are on the list"
                  ("I will email you at " +:+ wf_email f +:+ " when there is a seat. The public demo on the homepage still runs without an account."))
  | st => let? error := shown_error (wf_error f) in
          Ok (WvForm "Request access" (fields f) role_options error (bool_decide (st = StBusy)))
  end.
End Page.
End WaitlistPage.

(** ** The login page *)
Module LoginView.
Import Login.
Section Page.
Variable email_ok : string → bool.
Variable callbackUrl : string.

Record login_state := mkLoginState { ls_login : login; ls_pending : nat }.
Definition login_state_mount : login_state := mkLoginState login_mount 0.

Definition login_fields (l : login) : list field :=
  [mkField "Email" (lo_email l) true 0; mkField "Password" (lo_password l) true 8].

Definition login_valid (l : login) : bool := forallb field_ok (login_fields l) && email_ok (lo_email l).

Inductive login_event := LgEmail (v : string) | LgPassword (v : string) | LgSubmit | LgAnswer (r : sign_in).

Definition login_handle (e : login_event) (s : login_state) : option login_state :=
  let l := ls_login s in
  match e with
  | LgEmail v => Some (mkLoginState (mkLogin v (lo_password l) (lo_error l) (lo_busy l) (lo_pushed l)) (ls_pending s))
  | LgPassword v => Some (mkLoginState (mkLogin (lo_email l) v (lo_error l) (lo_busy l) (lo_pushed l)) (ls_pending s))
  | LgSubmit => if lo_busy l || negb (login_valid l) then None else Some (mkLoginState (onSubmit l) (S (ls_pending s)))
  | LgAnswer r => match ls_pending s with
                  | O => None
                  | S n => Some (mkLoginState (signed_in callbackUrl r l) n)
                  end
  end.

Definition login_step (s s' : login_state) : Prop := ∃ e, login_handle e s = Some s'.

(** [showLocalHints]: the accounts of the seed. *)
Definition local_hints (allow_auth_seed : option string) : list string :=
  if decide (allow_auth_seed = Some "1")
  then ["Public demo: demo@attest.local / try-attest"; "Local analyst: analyst@attest.local / analyst-dev"] else [].

Record login_view := mkLoginView {
  lv_heading : string * string;
  lv_fields : list field;
  lv_error : option string;
  lv_busy : bool;
  lv_links : list (string * string);
  lv_hints : list string
}.

Definition login_view_of (allow_auth_seed : option string) (s : login_state) : login_view :=
  let l := ls_login s in
  mkLoginView ("Sign in", "Invite-only. Request access if you do not have an account yet.") (login_fields l)
    (lo_error l ≫= Health.non_empty) (lo_busy l)
    [("/waitlist", "Request access"); ("/#try", "Run a verdict without signing in")]
    (local_hints allow_auth_seed).
End Page.
End LoginView.

(** ** The frame *)
Module Frame.

(** The page [app/workbench/settings]: constant texts. *)
Record setting := mkSetting { se_label : string; se_status : string; se_detail : string }.

Definition settings : list (string * list setting) := [
  ("Integrations", [
     mkSetting "AWS CloudTrail" "connected" "Streaming via Kafka `cloudtrail` topic";
     mkSetting "Okta System Log" "not-configured" "Configure Okta API token to enable";
     mkSetting "Microsoft 365" "not-configured" "Configure M365 connector";
     mkSetting "Arroyo Pipelines" "connected" "cloudtrail_to_parquet + cep_sequence_detection running";
     mkSetting "MinIO Warm Tier" "connected" "attest-warm bucket · Parquet format";
     mkSetting "ClickHouse" "connected" "Columnar query engine for warm tier"]);
  ("Detection Rules", [
     mkSetting "HELIQL rule sync" "connected" "10 rules loaded from /rules/detections/";
     mkSetting "Rule hot-reload" "connected" "detection-runtime polls every 5s";
     mkSetting "Arroyo CEP rules" "connected" "cep_sequence_detection deployed";
     mkSetting "Custom rule upload" "not-configured" "Coming in Phase 5 — Detection Engineer agent"]);
  ("AI Agents", [
     mkSetting "Triager (XGBoost)" "connected" "Online · classifier path < 50ms P99";
     mkSetting "Triager (LLM escalation)" "connected" "Claude Sonnet · hybrid path";
     mkSetting "Investigator agent" "connected" "Claude Opus / Qwen 3 32B (air-gapped)";
     mkSetting "Hunter agent" "connected" "Claude Sonnet";
     mkSetting "Detection Eng. agent" "not-configured" "Phase 10 — not yet deployed"]);
  ("Notifications", [
     mkSetting "Slack webhook" "not-configured" "No webhook URL configured";
     mkSetting "PagerDuty" "not-configured" "No routing key configured";
     mkSetting "Email digest" "not-configured" "No SMTP configured"])].

Definition settings_tonemap : jsobj StatusTone := [("connected", ToneGood); ("not-configured", ToneMuted)].

(** Title and rows of a section: label, detail and badge. *)
Definition setting_row (s : setting) : string * string * badge :=
  (se_label s, se_detail s,
   StatusBadge (Some (default ToneMuted (obj_get (se_status s) settings_tonemap))) (replace_first_char "-"%char " "%char (se_status s))).

Definition SettingsPage : badge * (string * string) * list (string * list (string * string * badge)) :=
  (StatusBadge (Some ToneInfo) "Settings",
   ("Platform Settings", "Integration status, agent configuration, and notification routing."),
   (λ sec : string * list setting, (sec.1, setting_row <$> sec.2)) <$> settings).

(** The palette: value searched, label, description and shortcut of a page;
    the links. *)
Definition page_notes : list (string * option string) := [
  ("Real-time alert queue", Some "Q"); ("Open investigation cases", None); ("Ad-hoc threat hunting queries", None);
  ("Detection rules and coverage", Some "D"); ("ML triage sandbox", None); ("Stress test the pipeline", None);
  ("MITRE ATT&CK coverage map", None); ("AI agent status and attestations", None); ("Platform configuration", None);
  ("Service health and OpenAPI docs", None)].

Record palette_item := mkItem { pi_value : string; pi_label : string; pi_description : option string; pi_shortcut : option string; pi_href : string }.

Definition page_items : list palette_item :=
  zip_with (λ p n, mkItem (p.2 +:+ " " +:+ n.1) p.2 (Some n.1) ((λ k, "⌘" +:+ k) <$> n.2) p.1) Shell.pages page_notes.

Definition link_items : list palette_item := (λ l, mkItem l.2 l.2 None None l.1) <$> Shell.externalLinks.

(** Groups of the palette while it is open. *)
Definition CommandPalette (p : Shell.palette) : option (list (string * list palette_item)) :=
  if Shell.pl_open p then Some [("Pages", page_items); ("External Tools", link_items)] else None.

(** The sidebar: groups of links with the highlighted ones, the link at the
    bottom, and the user of the footer. *)
Definition nav_entry (pathname : string) (i : Navigation.nav_item) : string * string * bool :=
  (Navigation.nv_href i, Navigation.nv_label i, Navigation.isActive pathname (Navigation.nv_href i)).

Record side_nav := mkSideNav {
  sv_logo : string * string;
  sv_groups : list (string * list (string * string * bool));
  sv_help : string * string;
  sv_user : Navigation.nav_user
}.

Definition AttestSidebar (pathname : string) : side_nav :=
  mkSideNav ("/workbench", "Attest")
    [("Operations", nav_entry pathname <$> Navigation.navMain); ("Platform", nav_entry pathname <$> Navigation.navSecondary)]
    ("/workbench/settings", "Help & Docs") Navigation.user.

(** The menu of the footer: the entries and whether each is disabled. Only
    the last one does something, and its answer is not awaited by the menu. *)
Definition user_menu (signingOut : bool) : list (string * bool) :=
  [("Account", false); ("Billing", false); ("Notifications", false);
   (if signingOut then "Logging out…" else "Log out", signingOut)].

(** The header's badges, the text of the search button and the link of the
    bell. *)
Definition header_badges : list badge :=
  [StatusBadge (Some ToneGood) "Streaming live"; StatusBadge (Some ToneInfo) "HELIQL + Arroyo"].

Record shell_view := mkShellView {
  sh_sidebar : side_nav;
  sh_palette : option (list (string * list palette_item));
  sh_badges : list badge;
  sh_search : string;
  sh_bell : string
}.

Definition WorkbenchShell (pathname : string) (p : Shell.palette) : shell_view :=
  mkShellView (AttestSidebar pathname) (CommandPalette p) header_badges
    "Search cases, alerts, detections..." "/workbench/queue".

(** The search button. *)
Definition search_click (p : Shell.palette) : Shell.palette := Shell.setOpen true p.
End Frame.

(** ** What the waitlist page sends *)

Lemma trim_left_length s : (String.length (trim_left s) <= String.length s)%nat.
Proof. induction s as [|c s IH]; simpl; [lia|]. destruct (is_space c); simpl; lia. Qed.

Lemma trim_right_length s : (String.length (trim_right s) <= String.length s)%nat.
Proof. induction s as [|c s IH]; simpl; [lia|]. destruct (trim_right s); simpl in *; [|lia]. destruct (is_space c); simpl; lia. Qed.

Lemma trim_length s : (String.length (trim s) <= String.length s)%nat.
Proof. unfold trim. pose proof (trim_right_length (trim_left s)). pose proof (trim_left_length s). lia. Qed.

Lemma long_field label v required n : (0 < n <= String.length v)%nat → field_ok (mkField label v required n) = true.
Proof. intros H. unfold field_ok. cbn [fi_value fi_minLength]. destruct v; simpl in *; [lia|]. apply Nat.leb_le. simpl. lia. Qed.

Section WaitlistPageFacts.
Import WaitlistForm WaitlistPage.
Variables email_ok is_email : string → bool.

(** The submissions the route's schema accepts. *)
Definition acceptable (f : form) : Prop :=
  (2 <= String.length (trim (wf_name f)) <= 80)%nat ∧
  is_email (wf_email f) = true ∧ (String.length (wf_email f) <= 160)%nat ∧
  (String.length (trim (wf_company f)) <= 120)%nat ∧
  wf_role f ∈ WAITLIST_ROLES ∧
  (10 <= String.length (trim (wf_message f)) <= 2000)%nat ∧
  (String.length (wf_website f) <= 200)%nat.

Lemma len_between_dec lo hi s : len_between lo hi s = bool_decide (lo <= String.length s <= hi)%nat.
Proof. apply eq_bool_prop_intro. rewrite bool_decide_spec, Is_true_true. apply len_between_spec. Qed.

(** An optional text of which only the length is limited. *)
Lemma optional_text (g : string → string) n s :
  g EmptyString = EmptyString →
  optional_or_empty (λ v, match v with JStr s => if len_between 0 n (g s) then Some (g s) else None | _ => None end) (JStr s) =
  if bool_decide (String.length (g s) <= n)%nat then Some (Some (g s)) else None.
Proof.
  intros Hg. cbn [optional_or_empty is_str]. rewrite len_between_dec. repeat case_bool_decide; try lia; try done.
  destruct (String.eqb_spec EmptyString s) as [<-|]; [|done]. rewrite Hg in *. simpl in *. lia.
Qed.

Lemma optional_trimmed n s :
  optional_or_empty (trimmed_string 0 n) (JStr s) =
  if bool_decide (String.length (trim s) <= n)%nat then Some (Some (trim s)) else None.
Proof. exact (optional_text trim n s eq_refl). Qed.

Lemma trimmed_dec lo hi s :
  trimmed_string lo hi (JStr s) = if bool_decide (lo <= String.length (trim s) <= hi)%nat then Some (trim s) else None.
Proof. cbn [trimmed_string]. by rewrite len_between_dec. Qed.

(** What the route's schema asks of a form. *)
Lemma schema_form f : is_Some (waitlistSchema is_email (form_body f)) ↔ acceptable f.
Proof.
  unfold acceptable, form_body, waitlistSchema. cbn [prop obj_get String.eqb Ascii.eqb Bool.eqb default]. unfold id.
  rewrite !trimmed_dec, optional_trimmed, (optional_text (λ s, s) 200 (wf_website f) eq_refl), len_between_dec.
  destruct (is_email (wf_email f)); repeat case_bool_decide; cbn; (split; [intros [? ?]; naive_solver lia|intros ?; first [by eexists|exfalso; naive_solver lia]]).
Qed.
Record page_inv (p : waitlist_page) : Prop := {
  pi_one : (length (wp_sent p) <= 1)%nat;
  pi_busy : wf_status (wp_form p) = StBusy ↔ wp_sent p ≠ [];
  pi_role : wf_role (wp_form p) ∈ WAITLIST_ROLES;
  pi_sent : Forall (λ f, browser_valid email_ok f = true ∧ wf_role f ∈ WAITLIST_ROLES) (wp_sent p)
}.

Lemma fill_status i f : wf_status (fill i f) = wf_status f.
Proof. by destruct i. Qed.

Lemma fill_role i f : can_fill i = true → wf_role f ∈ WAITLIST_ROLES → wf_role (fill i f) ∈ WAITLIST_ROLES.
Proof. destruct i; simpl; try done. by intros ?%bool_decide_eq_true_1. Qed.

Lemma answered_settles r f : wf_status (answered r f) ≠ StBusy ∧ wf_role (answered r f) = wf_role f.
Proof. unfold answered. by repeat case_match. Qed.

Lemma waitlist_step_inv p p' : page_inv p → waitlist_step email_ok p p' → page_inv p'.
Proof.
  intros [I1 I2 I3 I4] [e E]. destruct e as [i| |r]; cbn [waitlist_handle] in E.
  - destruct (bool_decide _ || negb (can_fill i)) eqn:G; [done|]. injection E as <-.
    apply orb_false_iff in G as [_ G%negb_false_iff]. by split; cbn [wp_form wp_sent]; rewrite ?fill_status; auto using fill_role.
  - destruct (_ || _ || _) eqn:G; [done|]. injection E as <-.
    apply orb_false_iff in G as [[_ G1]%orb_false_iff G2%negb_false_iff]. apply bool_decide_eq_false_1 in G1.
    assert (En : wp_sent p = []) by (destruct (wp_sent p); [done|exfalso; by apply G1, I2]). rewrite En.
    split; cbn; [lia|by split|done|by apply Forall_singleton].
  - destruct (wp_sent p) as [|f sent] eqn:En; [done|]. injection E as <-. destruct sent; [|cbn in I1; lia].
    destruct (answered_settles r (wp_form p)) as [A1 A2]. split; cbn [wp_form wp_sent length]; [lia|by split|by rewrite A2|done].
Qed.

Lemma page_reachable p : star (waitlist_step email_ok) waitlist_page_mount p → page_inv p.
Proof.
  intros R. refine (star_invariant _ page_inv waitlist_page_mount p _ waitlist_step_inv R).
  split; cbn; [lia|by split|by left|constructor].
Qed.

(** A submission the route accepts is one the browser lets through. *)
Lemma accepted_valid f :
  (∀ s, is_email s = true → s ≠ EmptyString ∧ email_ok s = true) → acceptable f → browser_valid email_ok f = true.
Proof.
  intros He (Hn & Hm & _ & _ & _ & Hg & _). destruct (He _ Hm) as [Hne Hok].
  pose proof (trim_length (wf_name f)). pose proof (trim_length (wf_message f)).
  unfold browser_valid, fields. cbn [forallb].
  rewrite (long_field "Name"), (long_field "Why do you want to try Attest?") by lia. rewrite Hok. unfold field_ok. cbn.
  apply String.eqb_neq in Hne. rewrite Hne. cbn. by repeat case_match.
Qed.

(** The waitlist page and its route agree on what can be submitted.
    Whatever is typed, pressed and answered, at most one submission is under
    way, the button being disabled exactly meanwhile; every submission sent
    passed the browser's checks and has one of the six roles; the route's
    schema accepts it exactly when its trimmed texts and its address have the
    lengths the schema asks for; and the browser stops no submission that the
    schema would accept. *)
Theorem waitlist_page_agrees p :
  (∀ s, is_email s = true → s ≠ EmptyString ∧ email_ok s = true) →
  star (waitlist_step email_ok) waitlist_page_mount p →
  (length (wp_sent p) <= 1)%nat ∧
  (wf_status (wp_form p) = StBusy ↔ wp_sent p ≠ []) ∧
  (∀ f, f ∈ wp_sent p → browser_valid email_ok f = true ∧ wf_role f ∈ WAITLIST_ROLES ∧
     (is_Some (waitlistSchema is_email (form_body f)) ↔ acceptable f)) ∧
  (is_Some (waitlistSchema is_email (form_body (wp_form p))) → wf_status (wp_form p) ≠ StOk → wp_sent p = [] →
     waitlist_handle email_ok PgSubmit p = Some (mkPage (submit (wp_form p)) [wp_form p])).
Proof.
  intros He [I1 I2 _ I4]%page_reachable. split; [done|]. split; [done|]. rewrite Forall_forall in I4. split.
  - intros f Hf. destruct (I4 f Hf). split; [done|]. split; [done|]. apply schema_form.
  - intros Ha%schema_form%(accepted_valid _ He) Hs Hn. cbn [waitlist_handle]. rewrite Ha, Hn.
    rewrite !bool_decide_eq_false_2; [done| |done]. intros Hb%I2. by destruct (wp_sent p).
Qed.
End WaitlistPageFacts.

Section WaitlistPageExamples.
Import WaitlistForm WaitlistPage.

Definition at_sign (s : string) : bool := includes "@" s.

Definition ada_filled : list waitlist_event :=
  [PgFill (InName "Ada Lovelace"); PgFill (InEmail "ada@example.com"); PgFill (InMessage "I want to try the signed triage loop.")].

Fixpoint waitlist_run (es : list waitlist_event) (p : waitlist_page) : option waitlist_page :=
  match es with [] => Some p | e :: es' => waitlist_handle at_sign e p ≫= waitlist_run es' end.

Lemma waitlist_run_star es p p' : waitlist_run es p = Some p' → star (waitlist_step at_sign) p p'.
Proof.
  revert p. induction es as [|e es IH]; intros p; cbn; [intros [= ->]; constructor|].
  destruct (waitlist_handle at_sign e p) as [q|] eqn:E; [|done]. cbn. intros R.
  eapply star_trans; [|by apply IH]. eapply star_snoc; [constructor|]. by exists e.
Qed.

Definition ada_sent : waitlist_page := default waitlist_page_mount (waitlist_run (ada_filled ++ [PgSubmit]) waitlist_page_mount).

Lemma at_sign_email s : at_sign s = true → s ≠ EmptyString ∧ at_sign s = true.
Proof. intros H. split; [|done]. by intros ->. Qed.

Lemma waitlist_page_agrees_witness :
  wp_sent ada_sent ≠ [] ∧ (length (wp_sent ada_sent) <= 1)%nat ∧
  ∀ f, f ∈ wp_sent ada_sent → browser_valid at_sign f = true.
Proof.
  assert (R : star (waitlist_step at_sign) waitlist_page_mount ada_sent) by (apply (waitlist_run_star (ada_filled ++ [PgSubmit])); vm_compute; reflexivity).
  destruct (waitlist_page_agrees at_sign at_sign ada_sent at_sign_email R) as (H1 & _ & H2 & _).
  split; [by vm_compute|]. split; [exact H1|]. intros f Hf. apply (H2 f Hf).
Defined.

(** Spaces pass the browser's checks and are refused by the route. *)
Example spaces_refused :
  let f := mkForm "  " "ada@example.com" EmptyString "ciso" "          " EmptyString StIdle None in
  browser_valid at_sign f = true ∧ waitlistSchema at_sign (form_body f) = None.
Proof. by vm_compute. Qed.

(** The address changed while the submission is under way is the one the page
    promises to write to; the one that was sent is another. *)
Example other_address :
  let p := default waitlist_page_mount (waitlist_run
    (ada_filled ++ [PgSubmit; PgFill (InEmail "other@example.com"); PgAnswer (Ok ada_answer)]) waitlist_page_mount) in
  wf_email <$> wp_sent ada_sent = ["ada@example.com"] ∧
  waitlist_view_of p = Ok (WvThanks "You are on the list"
    "I will email you at other@example.com when there is a seat. The public demo on the homepage still runs without an account.").
Proof. by vm_compute. Qed.
End WaitlistPageExamples.

(** ** Signing in *)
Section LoginViewFacts.
Import Login LoginView.
Variable email_ok : string → bool.
Variable callbackUrl : string.

Definition login_inv (s : login_state) : Prop :=
  (ls_pending s <= 1)%nat ∧ (lo_busy (ls_login s) = true ↔ ls_pending s = 1%nat) ∧
  (lo_busy (ls_login s) = true → lo_error (ls_login s) = None) ∧
  Forall (λ url, url = next callbackUrl) (lo_pushed (ls_login s)).

Lemma login_step_inv s s' : login_inv s → login_step email_ok callbackUrl s s' → login_inv s'.
Proof.
  intros (I1 & I2 & I3 & I4) [e E]. destruct s as [l n]. unfold login_inv in *. cbn [ls_login ls_pending] in *.
  destruct e as [v|v| |r]; cbn [login_handle ls_login ls_pending] in E; [by simplify_eq..| |].
  - destruct (lo_busy l) eqn:Eb; [done|]. destruct (negb _); [done|]. injection E as <-. cbn.
    assert (n = 0%nat) as -> by (destruct n as [|[|n]]; [done|by destruct I2 as [_ ?]; exfalso; intuition congruence|lia]).
    split_and!; done.
  - destruct n as [|n]; [done|]. injection E as <-. assert (n = 0%nat) as -> by lia.
    destruct r; cbn; split_and!; try done; try lia. apply Forall_app. split; [done|by apply Forall_singleton].
Qed.

(** One sign-in at a time: the button is disabled exactly while an answer is
    awaited, no error is shown meanwhile, and the router is only ever sent to
    the page that was asked for. *)
Theorem login_page_once seed s :
  star (login_step email_ok callbackUrl) login_state_mount s →
  let v := login_view_of seed s in
  (ls_pending s <= 1)%nat ∧ (lv_busy v = true ↔ ls_pending s = 1%nat) ∧ (lv_busy v = true → lv_error v = None) ∧
  (∀ url, url ∈ lo_pushed (ls_login s) → url = next callbackUrl).
Proof.
  intros R v. assert (I : login_inv s).
  { refine (star_invariant _ login_inv login_state_mount s _ login_step_inv R). unfold login_inv. cbn. split_and!; try done; lia. }
  destruct I as (I1 & I2 & I3 & I4). split; [done|]. split; [done|]. split; [|by rewrite Forall_forall in I4].
  intros Hb. unfold v, login_view_of. cbn [lv_error]. by rewrite I3.
Qed.
End LoginViewFacts.

Definition signing_in : LoginView.login_state := LoginView.mkLoginState (Login.mkLogin "a@b.c" "password" None true []) 1.

Lemma login_page_once_witness :
  LoginView.lv_busy (LoginView.login_view_of None signing_in) = true ∧
  LoginView.lv_error (LoginView.login_view_of None signing_in) = None.
Proof.
  assert (R : star (LoginView.login_step at_sign "/workbench") LoginView.login_state_mount signing_in).
  { eapply star_snoc; [eapply star_snoc; [eapply star_snoc; [constructor|]|]|].
    - by exists (LoginView.LgEmail "a@b.c").
    - by exists (LoginView.LgPassword "password").
    - by exists LoginView.LgSubmit. }
  split; [reflexivity|]. by apply (login_page_once at_sign "/workbench" None signing_in R).
Defined.

(** In production the seed is refused, but the accounts it would make are
    still shown when its flag is set. *)
Example hints_in_production :
  seed_analyst (mkSeedEnv (Some "production") (Some "1") (Some "s")) "http://h" (Some "s") false =
    SeedAnswer (RJson 404 (error_body "not found")) ∧
  length (LoginView.local_hints (Some "1")) = 2%nat.
Proof. by vm_compute. Qed.

(** ** The frame of the workbench *)
Section FrameFacts.
Import Frame.

(** At most one link of the sidebar is highlighted. *)
Lemma sidebar_one_active pathname :
  (length (filter (λ e, e.2 = true) (concat (sv_groups (AttestSidebar pathname)).*2)) <= 1)%nat.
Proof.
  destruct (Navigation.nav_one_active pathname) as [H _]. unfold Navigation.active_items in H.
  cbn [AttestSidebar sv_groups fmap list_fmap snd concat]. rewrite app_nil_r, <- fmap_app.
  revert H. generalize (Navigation.navMain ++ Navigation.navSecondary). intros l H. etransitivity; [|exact H]. clear H.
  induction l as [|i l IH]; [done|]. rewrite fmap_cons, !filter_cons. cbn [nav_entry snd].
  case_decide; cbn [length]; lia.
Qed.

(** The keyboard hints of the palette: two pages show one, and the only key
    the palette handles opens it. *)
Lemma palette_hints :
  omap (λ i, (λ k, (pi_href i, k)) <$> pi_shortcut i) page_items = [("/workbench/queue", "⌘Q"); ("/workbench/detections", "⌘D")] ∧
  ∀ meta ctrl key p, key ≠ "k" → Shell.on_key meta ctrl key p = p.
Proof.
  split; [by vm_compute|]. intros meta ctrl key p Hk. unfold Shell.on_key. apply String.eqb_neq in Hk. rewrite Hk.
  by rewrite andb_false_r.
Qed.

(** Every item of the open palette leads to a page or to a link of its list,
    under its own label. *)
Lemma palette_items :
  (λ i, (pi_href i, pi_label i)) <$> page_items = Shell.pages ∧
  (λ i, (pi_href i, pi_label i)) <$> link_items = Shell.externalLinks.
Proof. by vm_compute. Qed.

(** The settings page calls eleven parts connected, whatever their health. *)
Example settings_connected :
  length (filter (λ r : string * string * badge, r.2.1 = "connected") (concat SettingsPage.2.*2)) = 11%nat.
Proof. by vm_compute. Qed.
End FrameFacts.
