(* ===== verification/EndToEnd.v ===== *)
(** * The browser tests ([tests/e2e/workbench.spec.ts], [auth.setup.ts])

    The fixture page [app/workbench/e2e-fixtures/hybrid/page.tsx] and what the
    repository's browser tests do with it and with the workbench's frame,
    followed on the model: one lemma per test, for all clocks, stores of other
    cases and answers the test leaves open. *)
From S2P Require Import Prelude JsObject JsNum JsString JsValue Types AlertMappers CaseStore Effects TracePanels TraceLoads.
From S2P Require Import Citations Stepper CaseClient PublicPages AppShell CaseView FormViews Auth.

(** ** The fixture *)
Module Fixture.

Definition fixture_impacts : list FeatureImpact := [
  mkFeatureImpact "severity score" "0.92" (dec 35 2);
  mkFeatureImpact "entity reputation" "0.41" (dec (-22) 2);
  mkFeatureImpact "baseline deviation" "2.15" (dec 18 2)].

Definition fixture_record : CaseRecord := {|
  cr_id := "phase8-e2e-fixture";
  cr_title := "Phase 8 hybrid triage — fixture";
  cr_severity := "high";
  cr_state := AwaitingReview;
  cr_entity := "fixture-user";
  cr_source := "e2e";
  cr_verdict := "suspicious";
  cr_confidence := dec 86 2;
  cr_executionPath := "hybrid";
  cr_timeline := [mkTimelineEntry "12:00:00" "Fixture" "Synthetic case for Playwright."];
  cr_evidence := [mkEvidenceItem "Fixture" "non-prod" EvAsset];
  cr_featureImpacts := fixture_impacts
|}.

Definition orchestratorCaseId : string := "00000000-0000-4000-8000-000000000001".

(** [now] is the time at which the module was loaded. *)
Definition fixture_step (now : Z) : KafkaTraceStep :=
  mkKafkaTraceStep orchestratorCaseId "default" "aaaaaaaa-aaaa-4aaa-8aaa-aaaaaaaaaaaa" "investigator-v1" "hybrid" "tool_call"
    "query_warm_tier [evidence:11111111-1111-4111-8111-111111111111]" (of_Z now).
Definition fixture_steps (now : Z) : list KafkaTraceStep := [fixture_step now].

(** The page: no triage is running, and the stored trace is that of [http]. *)
Definition Phase8E2eHybridFixturePage (loaded : Z) (clock : option Z) (startedAt : Z) (opened : TimelineRow → bool)
    (http : list HttpTraceStep) (v : case_view) : case_page :=
  CaseWorkbench orchestratorCaseId clock startedAt opened fixture_record (fixture_steps loaded) http false v.
End Fixture.

Import Fixture.

(** The rows of a timeline of a kind. *)
Definition rows_of_kind (kind : string) (l : list timeline_item) : list timeline_item :=
  List.filter (λ i, String.eqb (sb_badge (ti_body i)).1 kind) l.

Lemma dedup_single {A K} `{Countable K} (key : A → K) x : dedup_by key ∅ [x] = [x].
Proof. cbn. case_decide as E; [by apply not_elem_of_empty in E|done]. Qed.

Lemma fixture_merged caseId loaded : mergeTraceSteps caseId (fixture_steps loaded) [] = fixture_steps loaded.
Proof. apply dedup_single. Qed.

Lemma tool_call_row opened s :
  ks_step_kind s = "tool_call" →
  ∃ i, LLMReasoningTimeline opened [] [s] = inl [i] ∧ (sb_badge (ti_body i)).1 = "tool_call".
Proof.
  intros Hk. assert (E : timeline_rows [] [s] = [live_row s]).
  { unfold timeline_rows. rewrite filter_nil by (by intros ? ?%elem_of_nil).
    rewrite filter_cons_True by (cbn; intros E; by rewrite Hk in E).
    rewrite filter_nil by (by intros ? ?%elem_of_nil).
    apply dedup_single. }
  unfold LLMReasoningTimeline. rewrite E. cbn [imap]. eexists. split; [reflexivity|].
  unfold timeline_item_of. cbn [ti_body TraceStepBody sb_badge fst]. exact Hk.
Qed.

(** "hybrid fixture shows classifier + LLM trace and SHAP": both panels are
    there, with a bar for each feature, and one row for the tool call, when
    the trace route has no rows for the fixture's case. *)
Lemma hybrid_fixture loaded clock startedAt opened v :
  ∃ stepper panel rows,
    cp_trace (Phase8E2eHybridFixturePage loaded clock startedAt opened [] v) = inr (stepper, VwHybrid panel (inl rows)) ∧
    ep_empty panel = false ∧ eb_name <$> ep_bars panel = ["severity score"; "entity reputation"; "baseline deviation"] ∧
    length (rows_of_kind "tool_call" rows) = 1%nat.
Proof.
  unfold Phase8E2eHybridFixturePage, CaseWorkbench. cbn [cp_trace]. rewrite fixture_merged.
  destruct (tool_call_row opened (fixture_step loaded) eq_refl) as (i & Ei & Hi). fold (fixture_steps loaded) in Ei.
  do 3 eexists. split; [unfold ReasoningTraceViewer; cbn [cr_executionPath fixture_record String.eqb Ascii.eqb Bool.eqb]; rewrite Ei; reflexivity|].
  split; [reflexivity|]. split; [reflexivity|]. unfold rows_of_kind. cbn [List.filter]. by rewrite Hi.
Qed.

Lemma case_view_open oid store :
  oid ≠ EmptyString → selectDisposition oid store = DispNone →
  case_handle oid CvOpen (case_view_mount store) = Some (mkCaseView (open_dialog true (workbench_mount store)) (Some dialog_mount)).
Proof.
  intros Ho Hd. unfold case_handle, can_decide, overrideApplied, approvedUi. cbn [cv_page cv_dialog case_view_mount wb_store wb_local wb_approved workbench_mount].
  rewrite Hd. apply String.eqb_neq in Ho. by rewrite Ho.
Qed.

(** "override round-trip": the button opens the dialog, a reason is typed and
    the dialog submitted; the page then notes the override, before and after
    any answer of the route. *)
Lemma override_round_trip loaded clock startedAt opened http store now answer :
  selectDisposition orchestratorCaseId store = DispNone →
  ∃ v1 v2 v3 v4,
    case_handle orchestratorCaseId CvOpen (case_view_mount store) = Some v1 ∧
    case_handle orchestratorCaseId (CvReason "E2E override reason") v1 = Some v2 ∧
    case_handle orchestratorCaseId (CvSubmit now) v2 = Some v3 ∧
    case_handle orchestratorCaseId (CvAnswer answer) v3 = Some v4 ∧
    cp_decided (Phase8E2eHybridFixturePage loaded clock startedAt opened http v3) = Some "Override recorded" ∧
    cp_decided (Phase8E2eHybridFixturePage loaded clock startedAt opened http v4) = Some "Override recorded".
Proof.
  intros Hd. do 4 eexists. split; [by apply case_view_open|]. split; [reflexivity|]. split; [reflexivity|].
  split; [reflexivity|]. split; [reflexivity|]. destruct answer as [x|e]; [|reflexivity].
  unfold Phase8E2eHybridFixturePage, CaseWorkbench. cbn [cp_decided redialog cv_page override_answered].
  by destruct (ft_ok x).
Qed.

(** ** The palette *)

(** "⌘K opens palette and navigates to coverage": the page's entry is in the
    open palette under the text that is clicked, and choosing it leads to the
    page. *)
Lemma palette_to_coverage p :
  Shell.pl_open p = false →
  let p' := Shell.on_key true false "k" p in
  ∃ i, i ∈ Frame.page_items ∧ Frame.pi_label i = "Coverage" ∧ Frame.pi_description i = Some "MITRE ATT&CK coverage map" ∧
  Frame.CommandPalette p' = Some [("Pages", Frame.page_items); ("External Tools", Frame.link_items)] ∧
  Shell.pl_pushed (Shell.navigate (Frame.pi_href i) p') = Shell.pl_pushed p ++ ["/workbench/coverage"] ∧
  Shell.pl_windows (Shell.navigate (Frame.pi_href i) p') = Shell.pl_windows p.
Proof.
  intros _. eexists. split; [unfold Frame.page_items; cbn; do 6 right; left|]. repeat split.
Qed.

(** ** Signing in *)

(** [auth.setup.ts]: without a session and without a page that was asked for,
    the filled form leads to a page of the workbench when the session library
    accepts. *)
Lemma setup_signs_in :
  ∃ callbackUrl to,
    Login.LoginPage false None = Login.LpForm callbackUrl ∧
    Login.lo_pushed (Login.signed_in callbackUrl Login.SignedIn (Login.onSubmit (Login.mkLogin "analyst@attest.local" "analyst-dev" None false []))) = [to] ∧
    starts_with "/workbench/" to = true.
Proof. do 2 eexists. repeat split. Qed.
