(* ===== verification/Dashboard.v ===== *)
(** * The example dashboard ([app/dashboard])

    - [Chart]: [components/chart-area-interactive.tsx], which entries of the
      series a time range shows;
    - [Table]: the rows of [components/data-table.tsx] and their reordering
      by dragging. *)
From Stdlib Require Import Ascii.
From S2P Require Import Prelude JsObject JsNum JsString JsValue JsDate.

(** ** The chart *)
Module Chart.

Record visits := mkVisits { vi_date : string; vi_desktop : Z; vi_mobile : Z }.

Definition chartData : list visits := [
  mkVisits "2024-04-01" 222 150;
  mkVisits "2024-04-02" 97 180;
  mkVisits "2024-04-03" 167 120;
  mkVisits "2024-04-04" 242 260;
  mkVisits "2024-04-05" 373 290;
  mkVisits "2024-04-06" 301 340;
  mkVisits "2024-04-07" 245 180;
  mkVisits "2024-04-08" 409 320;
  mkVisits "2024-04-09" 59 110;
  mkVisits "2024-04-10" 261 190;
  mkVisits "2024-04-11" 327 350;
  mkVisits "2024-04-12" 292 210;
  mkVisits "2024-04-13" 342 380;
  mkVisits "2024-04-14" 137 220;
  mkVisits "2024-04-15" 120 170;
  mkVisits "2024-04-16" 138 190;
  mkVisits "2024-04-17" 446 360;
  mkVisits "2024-04-18" 364 410;
  mkVisits "2024-04-19" 243 180;
  mkVisits "2024-04-20" 89 150;
  mkVisits "2024-04-21" 137 200;
  mkVisits "2024-04-22" 224 170;
  mkVisits "2024-04-23" 138 230;
  mkVisits "2024-04-24" 387 290;
  mkVisits "2024-04-25" 215 250;
  mkVisits "2024-04-26" 75 130;
  mkVisits "2024-04-27" 383 420;
  mkVisits "2024-04-28" 122 180;
  mkVisits "2024-04-29" 315 240;
  mkVisits "2024-04-30" 454 380;
  mkVisits "2024-05-01" 165 220;
  mkVisits "2024-05-02" 293 310;
  mkVisits "2024-05-03" 247 190;
  mkVisits "2024-05-04" 385 420;
  mkVisits "2024-05-05" 481 390;
  mkVisits "2024-05-06" 498 520;
  mkVisits "2024-05-07" 388 300;
  mkVisits "2024-05-08" 149 210;
  mkVisits "2024-05-09" 227 180;
  mkVisits "2024-05-10" 293 330;
  mkVisits "2024-05-11" 335 270;
  mkVisits "2024-05-12" 197 240;
  mkVisits "2024-05-13" 197 160;
  mkVisits "2024-05-14" 448 490;
  mkVisits "2024-05-15" 473 380;
  mkVisits "2024-05-16" 338 400;
  mkVisits "2024-05-17" 499 420;
  mkVisits "2024-05-18" 315 350;
  mkVisits "2024-05-19" 235 180;
  mkVisits "2024-05-20" 177 230;
  mkVisits "2024-05-21" 82 140;
  mkVisits "2024-05-22" 81 120;
  mkVisits "2024-05-23" 252 290;
  mkVisits "2024-05-24" 294 220;
  mkVisits "2024-05-25" 201 250;
  mkVisits "2024-05-26" 213 170;
  mkVisits "2024-05-27" 420 460;
  mkVisits "2024-05-28" 233 190;
  mkVisits "2024-05-29" 78 130;
  mkVisits "2024-05-30" 340 280;
  mkVisits "2024-05-31" 178 230;
  mkVisits "2024-06-01" 178 200;
  mkVisits "2024-06-02" 470 410;
  mkVisits "2024-06-03" 103 160;
  mkVisits "2024-06-04" 439 380;
  mkVisits "2024-06-05" 88 140;
  mkVisits "2024-06-06" 294 250;
  mkVisits "2024-06-07" 323 370;
  mkVisits "2024-06-08" 385 320;
  mkVisits "2024-06-09" 438 480;
  mkVisits "2024-06-10" 155 200;
  mkVisits "2024-06-11" 92 150;
  mkVisits "2024-06-12" 492 420;
  mkVisits "2024-06-13" 81 130;
  mkVisits "2024-06-14" 426 380;
  mkVisits "2024-06-15" 307 350;
  mkVisits "2024-06-16" 371 310;
  mkVisits "2024-06-17" 475 520;
  mkVisits "2024-06-18" 107 170;
  mkVisits "2024-06-19" 341 290;
  mkVisits "2024-06-20" 408 450;
  mkVisits "2024-06-21" 169 210;
  mkVisits "2024-06-22" 317 270;
  mkVisits "2024-06-23" 480 530;
  mkVisits "2024-06-24" 132 180;
  mkVisits "2024-06-25" 141 190;
  mkVisits "2024-06-26" 434 380;
  mkVisits "2024-06-27" 448 490;
  mkVisits "2024-06-28" 149 200;
  mkVisits "2024-06-29" 103 160;
  mkVisits "2024-06-30" 446 400].

Definition digit_value (c : ascii) : option Z := if is_digit c then Some (Z.of_N (code c) - 48) else None.

Fixpoint digits_value (acc : Z) (s : string) : option Z :=
  match s with
  | EmptyString => Some acc
  | String c s' => match digit_value c with Some d => digits_value (acc * 10 + d) s' | None => None end
  end.

#[local] Instance civil_eq : EqDecision civil. Proof. solve_decision. Defined.

Definition day_ms : Z := 86400000.

(** [new Date("YYYY-MM-DD")]: midnight UTC of that day. (The month has no
    more than its days; no other format occurs.) *)
Definition parse_day (s : string) : option Z :=
  match digits_value 0 (slice 0 4 s), digits_value 0 (slice 5 7 s), digits_value 0 (slice_from 8 s) with
  | Some y, Some m, Some d =>
      if (String.length s =? 10)%nat && String.eqb (slice 4 5 s) "-" && String.eqb (slice 7 8 s) "-"
         && bool_decide (civil_of_days (days_of_civil (mkCivil y m d)) = mkCivil y m d)
      then Some (days_of_civil (mkCivil y m d) * day_ms) else None
  | _, _, _ => None
  end.

Section Zone.
(** The time zone of the browser: the offset of local time at a time value,
    and the time value of a local time. *)
Variable offset : Z → Z.
Variable utc : Z → Z.

(** [d.setDate(d.getDate() - n)] on a valid date: the same time of day [n]
    days before. *)
Definition minus_days (t n : Z) : Z := utc (t + offset t - n * day_ms).

Definition chartTimeRange (isMobile : bool) (timeRange : string) : string := if isMobile then "7d" else timeRange.

Definition daysToSubtract (range : string) : Z :=
  if String.eqb range "30d" then 30 else if String.eqb range "7d" then 7 else 90.

Definition referenceDate : option Z := parse_day "2024-06-30".

(** [date >= startDate], false for an invalid date. *)
Definition in_range_of (range : string) (item : visits) : bool :=
  match parse_day (vi_date item), referenceDate with
  | Some date, Some t => minus_days t (daysToSubtract range) <=? date
  | _, _ => false
  end.

Definition filteredData (isMobile : bool) (timeRange : string) : list visits :=
  List.filter (in_range_of (chartTimeRange isMobile timeRange)) chartData.

(** The day the axis and the tooltip name for a date of the series: the
    local day of its midnight UTC. *)
Definition tick_day (date : string) : option civil := (λ t, civil_of_days ((t + offset t) / day_ms)) <$> parse_day date.

(** *** Facts *)

Lemma parse_day_midnight s t : parse_day s = Some t → t = t / day_ms * day_ms.
Proof.
  unfold parse_day. repeat case_match; try done. intros [= <-]. unfold day_ms. by rewrite Z.div_mul.
Qed.

(** The label of an entry is its own day where the local time is that of UTC
    or later; west of it, it is the day before. *)
Lemma tick_day_local s t :
  parse_day s = Some t → - day_ms <= offset t < day_ms →
  tick_day s = Some (civil_of_days (if offset t <? 0 then t / day_ms - 1 else t / day_ms)).
Proof.
  intros E H. unfold tick_day. rewrite E. simpl. apply parse_day_midnight in E as Et. do 2 f_equal.
  set (k := t / day_ms) in *. assert (Hd : 0 < day_ms) by (unfold day_ms; lia).
  destruct (Z.ltb_spec (offset t) 0).
  - symmetry. apply (Z.div_unique _ _ _ (offset t + day_ms)); lia.
  - symmetry. apply (Z.div_unique _ _ _ (offset t)); lia.
Qed.

(** The series has one entry a day, for the 91 days that end with the
    reference date. *)
Definition first_day : Z := 19814 * day_ms.
Definition last_day : Z := 19904 * day_ms.

Lemma chart_days : map (λ v, parse_day (vi_date v)) chartData = map (λ i, Some (first_day + Z.of_nat i * day_ms)) (seq 0 91).
Proof. vm_compute. reflexivity. Qed.

Lemma reference_last : referenceDate = Some last_day.
Proof. vm_compute. reflexivity. Qed.

Lemma filter_days (P : option Z → bool) (l : list visits) (days : list (option Z)) :
  map (λ v, parse_day (vi_date v)) l = days →
  length (List.filter (λ v, P (parse_day (vi_date v))) l) = length (List.filter P days).
Proof. intros <-. induction l as [|v l IH]; [done|]. simpl. destruct (P _); simpl; by rewrite IH. Qed.

Lemma filter_seq (P : option Z → bool) (f : nat → option Z) k m n :
  (∀ i, (m <= i < m + n)%nat → P (f i) = (k <=? i)%nat) → (m <= k <= m + n)%nat →
  length (List.filter P (map f (seq m n))) = (m + n - k)%nat.
Proof.
  revert m. induction n as [|n IH]; intros m H Hk; [simpl; lia|]. cbn [seq map List.filter]. rewrite H by lia.
  destruct (Nat.leb_spec k m) as [L|L].
  - assert (k = m) as -> by lia. simpl. assert (E : ∀ n' m', (∀ i, (m' <= i < m' + n')%nat → P (f i) = true) →
      length (List.filter P (map f (seq m' n'))) = n').
    { clear. intros n'. induction n' as [|n' IH]; intros m' H; [done|]. simpl. rewrite H by lia. simpl. rewrite IH; [done|].
      intros i Hi. apply H. lia. }
    rewrite E; [lia|]. intros i Hi. rewrite H by lia. apply Nat.leb_le. lia.
  - rewrite IH; [lia| |lia]. intros i Hi. apply H. lia.
Qed.

(** How many days are shown. [n] days back from midnight of the last day,
    with the offset of the zone [delta] later than at the end: the start is
    [delta] before that midnight, so the first of the [n + 1] days is shown
    unless the clocks were set back since. *)
Theorem chart_shown isMobile timeRange :
  let n := daysToSubtract (chartTimeRange isMobile timeRange) in
  let delta := minus_days last_day n - (last_day - n * day_ms) in
  - day_ms < delta <= day_ms →
  length (filteredData isMobile timeRange) =
  if delta <=? 0 then Z.to_nat (Z.min 91 (n + 1)) else Z.to_nat n.
Proof.
  intros n delta Hd. unfold filteredData.
  assert (Hn : n = 30 ∨ n = 7 ∨ n = 90) by (subst n; unfold daysToSubtract; repeat case_match; auto).
  etransitivity.
  { exact (filter_days (λ d, match d, referenceDate with Some date, Some t => minus_days t n <=? date | _, _ => false end) _ _ chart_days). }
  rewrite reference_last.
  assert (Hms : minus_days last_day n = first_day + (90 - n) * day_ms + delta) by (subst delta; unfold last_day, first_day; lia).
  rewrite (filter_seq _ _ (if delta <=? 0 then Z.to_nat (90 - n) else Z.to_nat (91 - n))).
  - destruct (Z.leb_spec delta 0); lia.
  - intros i Hi. rewrite Hms. unfold first_day, day_ms in *.
    destruct (Z.leb_spec delta 0), (Nat.leb_spec (Z.to_nat (90 - n)) i), (Nat.leb_spec (Z.to_nat (91 - n)) i);
      (apply Z.leb_le || apply Z.leb_gt); lia.
  - destruct (Z.leb_spec delta 0); lia.
Qed.
End Zone.

(** Two hours east of UTC the labels are right; four hours west of it the
    first of June is labelled as the last of May. *)
Example tick_june :
  tick_day (λ _, 7200000) "2024-06-01" = Some (mkCivil 2024 6 1) ∧
  tick_day (λ _, -14400000) "2024-06-01" = Some (mkCivil 2024 5 31).
Proof. vm_compute. auto. Qed.

(** With a constant offset the range of 7 days shows 8 entries, that of 30
    days 31. On a phone every choice shows the 7 days. *)
Lemma chart_shown_witness :
  length (filteredData (λ _, 7200000) (λ l, l - 7200000) false "7d") = 8%nat ∧
  length (filteredData (λ _, 7200000) (λ l, l - 7200000) false "30d") = 31%nat ∧
  length (filteredData (λ _, 7200000) (λ l, l - 7200000) true "30d") = 8%nat.
Proof.
  split; [|split].
  - rewrite (chart_shown (λ _, 7200000) (λ l, l - 7200000) false "7d"); [reflexivity|vm_compute; split; [reflexivity|discriminate]].
  - rewrite (chart_shown (λ _, 7200000) (λ l, l - 7200000) false "30d"); [reflexivity|vm_compute; split; [reflexivity|discriminate]].
  - rewrite (chart_shown (λ _, 7200000) (λ l, l - 7200000) true "30d"); [reflexivity|vm_compute; split; [reflexivity|discriminate]].
Defined.
End Chart.

(** ** The table *)
Module Table.

Record section_row := mkSectionRow {
  sr_id : Z; sr_header : string; sr_type : string; sr_status : string; sr_target : string; sr_limit : string; sr_reviewer : string
}.

Section Drag.
(** [arrayMove] of the drag-and-drop library. *)
Variable arrayMove : list section_row → Z → Z → list section_row.

(** [xs.indexOf(x)] *)
Definition indexOf (x : Z) (xs : list Z) : Z :=
  match list_find (λ y, y = x) xs with Some (i, _) => Z.of_nat i | None => -1 end.

(** The state [data], and [dataIds] of the last render. *)
Record table := mkTable { tb_data : list section_row; tb_dataIds : list Z }.

Definition table_render (t : table) : table := mkTable (tb_data t) (sr_id <$> tb_data t).
Definition table_mount (initialData : list section_row) : table := table_render (mkTable initialData []).

(** [over] is missing when the row is dropped outside. *)
Definition handleDragEnd (active over : option Z) (t : table) : table :=
  match active, over with
  | Some a, Some o =>
      if a =? o then t
      else mkTable (arrayMove (tb_data t) (indexOf a (tb_dataIds t)) (indexOf o (tb_dataIds t))) (tb_dataIds t)
  | _, _ => t
  end.

(** The library's promise for two positions of the list: the element at the
    first goes to the second, the others keep their order. *)
Definition moves : Prop :=
  ∀ l i j x, l !! i = Some x → (j < length l)%nat →
    arrayMove l (Z.of_nat i) (Z.of_nat j) = take j (delete i l) ++ x :: drop j (delete i l).

Lemma indexOf_lookup i xs x : NoDup xs → xs !! i = Some x → indexOf x xs = Z.of_nat i.
Proof.
  intros N E. unfold indexOf. destruct (list_find_elem_of (λ y, y = x) xs x) as [[j y] F]; [by eapply list_elem_of_lookup_2|done|].
  rewrite F. apply list_find_Some in F as (Hj & -> & _). f_equal. by eapply NoDup_lookup.
Qed.

Lemma delete_at_middle {A} (l1 l2 : list A) x j : length l1 = j → delete j (l1 ++ x :: l2) = l1 ++ l2.
Proof. intros <-. by rewrite delete_middle. Qed.

(** Dropping a row on another moves it to the other's place: the rows are
    the same, with distinct ids as before, the others keep their order, and
    the place of the target now holds the dragged row. *)
Lemma drag_moves t a o i j x y :
  moves → tb_dataIds t = sr_id <$> tb_data t → NoDup (sr_id <$> tb_data t) →
  tb_data t !! i = Some x → tb_data t !! j = Some y → sr_id x = a → sr_id y = o → a ≠ o →
  let t' := table_render (handleDragEnd (Some a) (Some o) t) in
  tb_data t' ≡ₚ tb_data t ∧ tb_data t' !! j = Some x ∧ delete j (tb_data t') = delete i (tb_data t) ∧
  tb_dataIds t' = sr_id <$> tb_data t' ∧ NoDup (sr_id <$> tb_data t').
Proof.
  intros M Hids N Hi Hj <- <- Hne t'.
  assert (Hi' : (sr_id <$> tb_data t) !! i = Some (sr_id x)) by (by rewrite list_lookup_fmap, Hi).
  assert (Hj' : (sr_id <$> tb_data t) !! j = Some (sr_id y)) by (by rewrite list_lookup_fmap, Hj).
  assert (Hdata : tb_data t' = take j (delete i (tb_data t)) ++ x :: drop j (delete i (tb_data t))).
  { subst t'. unfold handleDragEnd, table_render. destruct (Z.eqb_spec (sr_id x) (sr_id y)) as [E|_]; [done|]. simpl.
    rewrite Hids, (indexOf_lookup i _ _ N Hi'), (indexOf_lookup j _ _ N Hj'). apply M; [done|by eapply lookup_lt_Some]. }
  assert (Hlen : length (take j (delete i (tb_data t))) = j).
  { rewrite length_take, length_delete by done. apply lookup_lt_Some in Hj. lia. }
  assert (P : tb_data t' ≡ₚ tb_data t).
  { rewrite Hdata, <- Permutation_middle, take_drop. symmetry. by apply delete_Permutation. }
  split; [done|]. split; [|split; [|split; [done|by rewrite P]]].
  - rewrite Hdata, lookup_app_r by lia. by rewrite Hlen, Nat.sub_diag.
  - rewrite Hdata. rewrite delete_at_middle by done. apply take_drop.
Qed.
End Drag.
End Table.
