(* ===== verification/ChartUi.v ===== *)
(** * The chart kit ([components/ui/chart.tsx])

    The colours a chart declares, and what its tooltip and legend show for
    the items of the chart library's payload, which are JavaScript values.
    Keys are taken to be no names of [Object.prototype]. *)
From Stdlib Require Import Ascii.
From S2P Require Import Prelude JsObject JsNum JsString JsValue.

(** An item of a [ChartConfig]; [theme] gives the colours of both themes. An
    icon is a component, by name. *)
Record chart_item := mkChartItem {
  ci_label : option string;
  ci_icon : option string;
  ci_color : option string;
  ci_theme : option (string * string)
}.
Notation ChartConfig := (jsobj chart_item).

Inductive theme := ThemeLight | ThemeDark.
Definition THEMES : list (theme * string) := [(ThemeLight, EmptyString); (ThemeDark, ".dark")].

(** [a || b] on possibly missing strings *)
Definition or_str (a b : option string) : option string :=
  match a with Some (String _ _) => a | _ => b end.
Definition text_truthy (a : option string) : bool := match a with Some (String _ _) => true | _ => false end.

(** ** [ChartStyle] *)

Definition themed (t : theme) (i : chart_item) : option string :=
  match ci_theme i with Some (light, dark) => Some (match t with ThemeLight => light | ThemeDark => dark end) | None => None end.

Definition item_color (t : theme) (i : chart_item) : option string := or_str (themed t i) (ci_color i).

Definition colorConfig (config : ChartConfig) : list (string * chart_item) :=
  List.filter (λ e, bool_decide (is_Some (ci_theme e.2)) || text_truthy (ci_color e.2)) (obj_entries config).

Definition color_line (t : theme) (e : string * chart_item) : string :=
  match item_color t e.2 with
  | Some (String _ _ as color) => "  --color-" +:+ e.1 +:+ ": " +:+ color +:+ ";"
  | _ => EmptyString
  end.

Definition theme_block (id : string) (config : ChartConfig) (t : theme * string) : string :=
  newline +:+ t.2 +:+ " [data-chart=" +:+ id +:+ "] {" +:+ newline +:+
  join newline (color_line t.1 <$> colorConfig config) +:+ newline +:+ "}" +:+ newline.

Definition ChartStyle (id : string) (config : ChartConfig) : option string :=
  match colorConfig config with
  | [] => None
  | _ => Some (join newline (theme_block id config <$> THEMES))
  end.

(** [ChartContainer]: the id of the chart; colons are removed from React's. *)
Fixpoint remove_colons (s : string) : string :=
  match s with EmptyString => EmptyString | String c s' => if Ascii.eqb c ":"%char then remove_colons s' else String c (remove_colons s') end.
Definition chartId (id : option string) (uniqueId : string) : string :=
  "chart-" +:+ default EmptyString (or_str id (Some (remove_colons uniqueId))).

(** ** Items of the payload *)

Definition is_object (v : jsval) : bool := match v with JArr _ | JObj _ => true | _ => false end.

Definition getPayloadConfigFromPayload (config : ChartConfig) (payload : jsval) (key : string) : option chart_item :=
  if negb (is_object payload) then None
  else
    let payloadPayload := if is_object (prop "payload" payload) then prop "payload" payload else JUndef in
    let configLabelKey :=
      match prop key payload, prop key payloadPayload with
      | JStr k, _ => k
      | _, JStr k => k
      | _, _ => key
      end in
    if obj_has configLabelKey config then obj_get configLabelKey config else obj_get key config.

(** The text of the first truthy value, [d] when there is none. *)
Fixpoint first_truthy (l : list jsval) (d : string) : string :=
  match l with [] => d | v :: l' => if truthy v then to_string v else first_truthy l' d end.

Definition opt_str (s : option string) : jsval := match s with Some t => JStr t | None => JUndef end.

Inductive indicator := IndLine | IndDot | IndDashed.

(** The properties of the tooltip; a formatter is given by its result for
    the arguments it gets. *)
Record tooltip_props := mkTooltip {
  tp_active : bool;
  tp_payload : list jsval;
  tp_indicator : indicator;
  tp_hideLabel : bool;
  tp_hideIndicator : bool;
  tp_label : jsval;
  tp_labelFormatter : option (option string → string);
  tp_formatter : option (jsval → jsval → string);
  tp_color : jsval;
  tp_nameKey : option string;
  tp_labelKey : option string
}.

Section Tooltip.
(** [value.toLocaleString()] of the host. *)
Variable toLocaleString : jsval → string.
Variable config : ChartConfig.

Definition item_label (i : option chart_item) : option string := i ≫= ci_label.

(** The value [tooltipLabel] is computed from. *)
Definition label_value (p : tooltip_props) (item : jsval) : option string :=
  let key := first_truthy [opt_str (tp_labelKey p); prop "dataKey" item; prop "name" item] "value" in
  match tp_label p, text_truthy (tp_labelKey p) with
  | JStr l, false => or_str (item_label (obj_get l config)) (Some l)
  | _, _ => item_label (getPayloadConfigFromPayload config item key)
  end.

Definition tooltipLabel (p : tooltip_props) : option string :=
  match tp_payload p with
  | item :: _ =>
      if tp_hideLabel p then None
      else
        let value := label_value p item in
        match tp_labelFormatter p with
        | Some f => Some (f value)
        | None => if text_truthy value then value else None
        end
  | [] => None
  end.

(** What marks an item: its icon, a swatch of a colour, or nothing. *)
Inductive marker := MarkIcon (icon : string) | MarkSwatch (color : jsval) | MarkNone.
(** A line of the tooltip. *)
Inductive tooltip_item := ItemFormatted (text : string) | ItemPlain (m : marker) (label : jsval) (value : option string).

(** [item.value && ...]: nothing for a missing value, the number itself for
    zero and NaN, the empty string for the empty string. *)
Definition shown_value (v : jsval) : option string :=
  if truthy v then Some (toLocaleString v) else match v with JNum n => Some (num_to_string n) | _ => None end.

Definition tooltip_item_of (p : tooltip_props) (item : jsval) : tooltip_item :=
  let key := first_truthy [opt_str (tp_nameKey p); prop "name" item; prop "dataKey" item] "value" in
  let itemConfig := getPayloadConfigFromPayload config item key in
  let indicatorColor := if truthy (tp_color p) then tp_color p
                        else if truthy (prop "fill" (prop "payload" item)) then prop "fill" (prop "payload" item)
                        else prop "color" item in
  let plain := ItemPlain
    (match itemConfig ≫= ci_icon with
     | Some i => MarkIcon i
     | None => if tp_hideIndicator p then MarkNone else MarkSwatch indicatorColor
     end)
    (match item_label itemConfig with Some (String _ _ as l) => JStr l | _ => prop "name" item end)
    (shown_value (prop "value" item)) in
  match tp_formatter p, prop "value" item with
  | None, _ | _, JUndef => plain
  | Some f, v => if truthy (prop "name" item) then ItemFormatted (f v (prop "name" item)) else plain
  end.

Definition drawn (item : jsval) : bool := negb (is_str "none" (prop "type" item)).

(** The tooltip: whether its label is nested in the item, the label and the
    lines. *)
Definition ChartTooltipContent (p : tooltip_props) : option (bool * option string * list tooltip_item) :=
  if negb (tp_active p) || bool_decide (tp_payload p = []) then None
  else
    let nestLabel := (length (tp_payload p) =? 1)%nat && match tp_indicator p with IndDot => false | _ => true end in
    Some (nestLabel, tooltipLabel p, tooltip_item_of p <$> List.filter drawn (tp_payload p)).

(** The legend: a marker and a label per item. *)
Definition ChartLegendContent (hideIcon : bool) (nameKey : option string) (payload : list jsval) : option (list (marker * option string)) :=
  match payload with
  | [] => None
  | _ =>
      Some ((λ item,
        let key := first_truthy [opt_str nameKey; prop "dataKey" item] "value" in
        let itemConfig := getPayloadConfigFromPayload config item key in
        (match itemConfig ≫= ci_icon with
         | Some i => if hideIcon then MarkSwatch (prop "color" item) else MarkIcon i
         | None => MarkSwatch (prop "color" item)
         end, item_label itemConfig)) <$> List.filter drawn payload)
  end.
End Tooltip.

(** ** Facts *)

Lemma join_includes sep l s : s ∈ l → includes s (join sep l) = true.
Proof.
  induction l as [|x l IH]; [by intros ?%elem_of_nil|]. intros [->|Hs]%elem_of_cons.
  - destruct l; simpl join; apply includes_spec; [exists EmptyString, EmptyString; by rewrite string_app_empty_r|by eexists EmptyString, _].
  - destruct l as [|y l]; [by apply elem_of_nil in Hs|]. change (join sep (x :: y :: l)) with (x +:+ sep +:+ join sep (y :: l)).
    apply includes_app_r, includes_app_r. by apply IH.
Qed.

(** Every coloured item of a configuration is declared in both themes: the
    style has, for each theme, a block of the chart that holds the line of
    the item's variable with the colour of that theme, or the item's only
    colour. *)
Theorem chart_colors_declared id config k i t sel color :
  obj_get k config = Some i → (t, sel) ∈ THEMES → item_color t i = Some color → color ≠ EmptyString →
  ∃ style block, ChartStyle id config = Some style ∧ includes block style = true ∧
    includes (sel +:+ " [data-chart=" +:+ id +:+ "] {") block = true ∧
    includes ("  --color-" +:+ k +:+ ": " +:+ color +:+ ";") block = true.
Proof.
  intros Hk Ht Hc Hne.
  assert (He : (k, i) ∈ obj_entries config).
  { rewrite obj_entries_perm. clear -Hk. induction config as [|[k' i'] c IH]; [done|]. simpl in Hk.
    destruct (String.eqb_spec k k') as [->|_]; [injection Hk as ->; left|right; by apply IH]. }
  assert (Hcol : (k, i) ∈ colorConfig config).
  { unfold colorConfig. apply list_elem_of_In, filter_In. split; [by apply list_elem_of_In|]. simpl.
    unfold item_color, themed in Hc. destruct (ci_theme i); [done|]. simpl in Hc. rewrite Hc. by destruct color. }
  unfold ChartStyle. destruct (colorConfig config) as [|e l] eqn:E; [by apply elem_of_nil in Hcol|]. rewrite <- E in Hcol.
  exists (join newline (theme_block id config <$> THEMES)), (theme_block id config (t, sel)). splits; [done|..].
  - apply join_includes. by apply list_elem_of_fmap_2.
  - unfold theme_block. apply includes_app_r. apply includes_spec. exists EmptyString. eexists.
    change (t, sel).2 with sel. cbn [String.append]. by rewrite !string_app_assoc.
  - unfold theme_block. do 6 apply includes_app_r. apply includes_spec.
    assert (J : includes ("  --color-" +:+ k +:+ ": " +:+ color +:+ ";") (join newline (color_line t <$> colorConfig config)) = true).
    { apply join_includes. replace ("  --color-" +:+ k +:+ ": " +:+ color +:+ ";") with (color_line t (k, i)); [by apply list_elem_of_fmap_2|].
      unfold color_line. simpl fst. simpl snd. rewrite Hc. by destruct color. }
    apply includes_spec in J as (a & b & J). change (t, sel).1 with t. rewrite J. exists a. eexists. by rewrite !string_app_assoc.
Qed.

(** The configuration of [components/chart-area-interactive.tsx]. *)
Definition area_config : ChartConfig := [
  ("visitors", mkChartItem (Some "Visitors") None None None);
  ("desktop", mkChartItem (Some "Desktop") None (Some "hsl(var(--chart-1))") None);
  ("mobile", mkChartItem (Some "Mobile") None (Some "hsl(var(--chart-2))") None)].

(** The variables its areas use are declared in the dark theme. *)
Lemma chart_colors_declared_witness :
  length (colorConfig area_config) = 2%nat ∧
  ∃ style block, ChartStyle "chart-r1" area_config = Some style ∧ includes block style = true ∧
    includes ".dark [data-chart=chart-r1] {" block = true ∧ includes "  --color-desktop: hsl(var(--chart-1));" block = true.
Proof.
  split; [vm_compute; reflexivity|].
  apply (chart_colors_declared "chart-r1" area_config "desktop" (mkChartItem (Some "Desktop") None (Some "hsl(var(--chart-1))") None)
    ThemeDark ".dark" "hsl(var(--chart-1))"); [reflexivity|right; left|reflexivity|discriminate].
Defined.

(** The point of June 1: the label of the tooltip is that of the key [date]
    when there is no formatter, and the lines are named by the configuration. *)
Definition point (series : string) (v : Z) : jsval := JObj [
  ("dataKey", JStr series); ("name", JStr series); ("value", JNum (of_Z v)); ("color", JStr ("var(--color-" +:+ series +:+ ")"));
  ("payload", JObj [("date", JStr "2024-06-01"); (series, JNum (of_Z v))])].

Example tooltip_june :
  ChartTooltipContent (λ v, to_string v) area_config
    (mkTooltip true [point "mobile" 200; point "desktop" 0] IndDot false false (JStr "2024-06-01") None None JUndef None None) =
  Some (false, Some "2024-06-01",
    [ItemPlain (MarkSwatch (JStr "var(--color-mobile)")) (JStr "Mobile") (Some "200");
     ItemPlain (MarkSwatch (JStr "var(--color-desktop)")) (JStr "Desktop") (Some "0")]).
Proof. vm_compute. reflexivity. Qed.
