(* ===== verification/DashboardTable.v ===== *)
(** * The table of the example dashboard ([components/data-table.tsx])

    The columns, the controls and the rows of [DataTable] over the table
    library's interface ([DataGrid]), with the reordering of
    [Dashboard.Table]; the sheet that shows one row; the rows of
    [app/dashboard/data.json]. *)
From Stdlib Require Import Ascii.
From S2P Require Import Prelude JsObject JsNum JsString JsValue Dashboard DataGrid.
Import Dashboard.Table.

(** ** Columns and cells *)

Inductive section_column := ScDrag | ScSelect | ScHeader | ScType | ScStatus | ScTarget | ScLimit | ScReviewer | ScActions.

Definition section_columns : list section_column :=
  [ScDrag; ScSelect; ScHeader; ScType; ScStatus; ScTarget; ScLimit; ScReviewer; ScActions].

Definition section_key (c : section_column) : string :=
  match c with
  | ScDrag => "drag" | ScSelect => "select" | ScHeader => "header" | ScType => "type" | ScStatus => "status"
  | ScTarget => "target" | ScLimit => "limit" | ScReviewer => "reviewer" | ScActions => "actions"
  end.

(** A column with an accessor, and one that may be hidden. *)
Definition has_accessor (c : section_column) : bool :=
  match c with ScDrag | ScSelect | ScActions => false | _ => true end.
Definition section_hiding (c : section_column) : bool := match c with ScSelect | ScHeader => false | _ => true end.
Definition section_sorting (c : section_column) : bool := match c with ScSelect => false | _ => true end.

(** The columns give no sizes: the library's default. *)
Definition section_column_def (c : section_column) : ColumnDef section_row :=
  mkColumn (section_key c) 150 (section_sorting c) (section_hiding c) None None.
Definition sectionColumns : list (ColumnDef section_row) := section_column_def <$> section_columns.

(** The menu of columns. *)
Definition section_menu : list section_column := List.filter (λ c, has_accessor c && section_hiding c) section_columns.

Inductive section_cell :=
| SectionText (text : string)
| SectionBadge (icon : option string) (text : string)
| SectionInput (id value : string)
| SectionSelect (id : string) (options : list string)
| SectionControl (label : string).

Definition row_id_text (r : section_row) : string := string_of_Z (sr_id r).

Definition reviewer_cell (r : section_row) : section_cell :=
  if negb (String.eqb (sr_reviewer r) "Assign reviewer") then SectionText (sr_reviewer r)
  else SectionSelect (row_id_text r +:+ "-reviewer") ["Eddie Lake"; "Jamik Tashpulatov"].

Definition status_cell (r : section_row) : section_cell :=
  SectionBadge (Some (if String.eqb (sr_status r) "Done" then "CheckCircle2Icon" else "LoaderIcon")) (sr_status r).

Definition section_cell_of (r : section_row) (c : section_column) : section_cell :=
  match c with
  | ScDrag => SectionControl "Drag to reorder"
  | ScSelect => SectionControl "Select row"
  | ScHeader => SectionText (sr_header r)
  | ScType => SectionBadge None (sr_type r)
  | ScStatus => status_cell r
  | ScTarget => SectionInput (row_id_text r +:+ "-target") (sr_target r)
  | ScLimit => SectionInput (row_id_text r +:+ "-limit") (sr_limit r)
  | ScReviewer => reviewer_cell r
  | ScActions => SectionControl "Open menu"
  end.

(** Submitting a target or a limit saves nothing: a message and a timer. *)
Definition target_submit (r : section_row) : string * Z * string := ("Saving " +:+ sr_header r, 1000, "Done").

(** ** The sheet of a row ([TableCellViewer]) *)

Definition type_options : list string :=
  ["Table of Contents"; "Executive Summary"; "Technical Approach"; "Design"; "Capabilities"; "Focus Documents"; "Narrative"; "Cover Page"].
Definition status_options : list string := ["Done"; "In Progress"; "Not Started"].
Definition reviewer_options : list string := ["Eddie Lake"; "Jamik Tashpulatov"; "Emily Whalen"].

(** The option a select starts with: the one with its default value, if any. *)
Definition select_option (options : list string) (value : string) : option string := List.find (String.eqb value) options.

Record sheet := mkSheet {
  st_title : string; st_chart : bool; st_header : string; st_type : option string; st_status : option string;
  st_target : string; st_limit : string; st_reviewer : option string
}.

Definition TableCellViewer (isMobile : bool) (r : section_row) : sheet := {|
  st_title := sr_header r;
  st_chart := negb isMobile;
  st_header := sr_header r;
  st_type := select_option type_options (sr_type r);
  st_status := select_option status_options (sr_status r);
  st_target := sr_target r;
  st_limit := sr_limit r;
  st_reviewer := select_option reviewer_options (sr_reviewer r)
|}.

Section Grid.
Context `{TableLib}.
(** [arrayMove] of the drag-and-drop library. *)
Variable arrayMove : list section_row → Z → Z → list section_row.

(** ** The table *)

Record grid := mkGrid { gr_rows : table; gr_state : TableState }.

Definition grid_mount (initialData : list section_row) : grid :=
  mkGrid (table_mount initialData) (DataGrid.mkTable [] [] [] EmptyString 0 10).

(** The code gives no filter to the library. *)
Definition no_filter (_ : string) (_ : section_row) : bool := true.

Definition grid_count (g : grid) : nat := length (matching sectionColumns no_filter (gr_state g) (tb_data (gr_rows g))).
Definition grid_rows (g : grid) : list (GridRow section_row) :=
  shown_rows sectionColumns no_filter (gr_state g) (tb_data (gr_rows g)).

Definition page_sizes : list Z := [10; 20; 30; 40; 50].

Inductive grid_event :=
| GridDrag (active over : option Z)
| GridColumn (c : section_column) (value : bool)
| GridPageSize (n : Z)
| GridFirst | GridPrevious | GridNext | GridLast.

Definition with_state (f : TableState → TableState) (g : grid) : grid := mkGrid (gr_rows g) (f (gr_state g)).

(** A drop on another row sets new data, after which the library goes back
    to the first page; the menu and the select offer what they list. *)
Definition grid_handle (e : grid_event) (g : grid) : grid :=
  match e with
  | GridDrag (Some a) (Some o) =>
      if a =? o then g
      else mkGrid (table_render (handleDragEnd arrayMove (Some a) (Some o) (gr_rows g))) (autoReset (gr_state g))
  | GridDrag _ _ => g
  | GridColumn c v => if has_accessor c && section_hiding c then with_state (toggleVisibility (section_key c) v) g else g
  | GridPageSize n => if bool_decide (n ∈ page_sizes) then with_state (setPageSize n) g else g
  | GridFirst => if getCanPreviousPage (gr_state g) then with_state (setPageIndex 0) g else g
  | GridPrevious => if getCanPreviousPage (gr_state g) then with_state (setPageIndex (pageIndex (gr_state g) - 1)) g else g
  | GridNext => if getCanNextPage (gr_state g) (grid_count g) then with_state (setPageIndex (pageIndex (gr_state g) + 1)) g else g
  | GridLast =>
      if getCanNextPage (gr_state g) (grid_count g)
      then with_state (setPageIndex (getPageCount (gr_state g) (grid_count g) - 1)) g else g
  end.

Definition grid_label (g : grid) : string :=
  "Page " +:+ string_of_Z (pageIndex (gr_state g) + 1) +:+ " of " +:+ string_of_Z (getPageCount (gr_state g) (grid_count g)).

Definition grid_step (g g' : grid) : Prop := ∃ e, g' = grid_handle e g.

(** ** Facts *)

Context `{!TableLaws}.
Hypothesis arrayMove_moves : moves arrayMove.

Record grid_inv (initialData : list section_row) (g : grid) : Prop := {
  gv_data : tb_data (gr_rows g) ≡ₚ initialData;
  gv_ids : tb_dataIds (gr_rows g) = sr_id <$> tb_data (gr_rows g);
  gv_filters : columnFilters (gr_state g) = [];
  gv_sorting : sorting (gr_state g) = [];
  gv_global : globalFilter (gr_state g) = EmptyString;
  gv_page : page_ok (gr_state g) (length initialData)
}.

Lemma grid_known g : columnFilters (gr_state g) = [] → filters_known sectionColumns (gr_state g).
Proof. intros E c _ _. unfold filter_text. by rewrite getFilterValue_spec, E. Qed.

Lemma grid_matching i g : grid_inv i g → matching sectionColumns no_filter (gr_state g) (tb_data (gr_rows g)) = core_rows (tb_data (gr_rows g)).
Proof.
  intros I. unfold matching. rewrite getFilteredRows_spec by (apply grid_known, I).
  assert (A : ∀ l, List.filter (λ r : GridRow section_row, passes sectionColumns no_filter (gr_state g) r.2) l = l).
  { intros l. induction l as [|r l IH]; [done|]. simpl. rewrite passes_all by apply I. by rewrite IH. }
  apply A.
Qed.

Lemma grid_count_all i g : grid_inv i g → grid_count g = length i.
Proof.
  intros I. unfold grid_count. rewrite (grid_matching i) by done. rewrite <- (length_fmap snd), core_rows_data.
  by rewrite (gv_data _ _ I).
Qed.

Lemma grid_mount_inv i : grid_inv i (grid_mount i).
Proof. split; try done. split; simpl; [lia|]. split; [lia|by left]. Qed.

Lemma with_page_inv i g p : grid_inv i g → 0 <= p → p = 0 ∨ p < getPageCount (gr_state g) (length i) → grid_inv i (with_state (set_pageIndex p) g).
Proof. intros [D I F S G (P1 & P2 & P3)] Hp H1. by split. Qed.

Lemma indexOf_in (x : Z) xs : x ∈ xs → ∃ i, indexOf x xs = Z.of_nat i ∧ xs !! i = Some x.
Proof.
  intros Hx. unfold indexOf. destruct (list_find_elem_of (λ y, y = x) xs x Hx eq_refl) as [[i y] F]. rewrite F.
  apply list_find_Some in F as (Hi & -> & _). by exists i.
Qed.

(** A drag between two rows of the table. *)
Definition drag_known (e : grid_event) (g : grid) : Prop :=
  match e with GridDrag (Some a) (Some o) => a ∈ tb_dataIds (gr_rows g) ∧ o ∈ tb_dataIds (gr_rows g) | _ => True end.

Lemma grid_handle_inv i e g : drag_known e g → grid_inv i g → grid_inv i (grid_handle e g).
Proof.
  intros K I. pose proof I as [D Ids F S G (P1 & P2 & P3)]. pose proof (grid_count_all i g I) as C.
  destruct e as [[a|] [o|]|c v|n| | | |]; simpl; try done.
  - destruct (Z.eqb_spec a o) as [|Hne]; [done|]. destruct K as [Ka Ko]. rewrite Ids in Ka, Ko.
    split; simpl; rewrite ?autoReset_spec; try done.
    + destruct (indexOf_in _ _ Ka) as (ia & Ea & La), (indexOf_in _ _ Ko) as (io & Eo & Lo).
      destruct (Z.eqb_spec a o) as [|_]; [done|]. simpl. rewrite Ids, Ea, Eo.
      rewrite list_lookup_fmap in La, Lo. apply fmap_Some in La as (x & Lx & _), Lo as (y & Ly & _).
      rewrite (arrayMove_moves _ ia io x Lx) by (by eapply lookup_lt_Some).
      rewrite <- Permutation_middle, take_drop, <- D. symmetry. by apply delete_Permutation.
    + split; simpl; [done|]. split; [lia|by left].
  - destruct (_ && _); [|done]. unfold with_state. rewrite toggleVisibility_spec. by split.
  - case_bool_decide as Hn; [|done]. assert (0 < n) by (unfold page_sizes in Hn; set_solver by lia).
    unfold with_state. rewrite setPageSize_spec by done. split; try done. apply page_ok_size; [|done]. by split.
  - case_match; [|done]. unfold with_state. rewrite setPageIndex_spec. apply with_page_inv; [done|lia|by left].
  - unfold getCanPreviousPage. destruct (Z.ltb_spec 0 (pageIndex (gr_state g))); [|done]. unfold with_state. rewrite setPageIndex_spec.
    apply with_page_inv; [done|lia|lia].
  - unfold getCanNextPage. rewrite C. destruct (Z.ltb_spec (pageIndex (gr_state g)) (getPageCount (gr_state g) (length i) - 1)); [|done].
    unfold with_state. rewrite setPageIndex_spec. apply with_page_inv; [done|lia|lia].
  - unfold getCanNextPage. rewrite C. destruct (Z.ltb_spec (pageIndex (gr_state g)) (getPageCount (gr_state g) (length i) - 1)); [|done].
    unfold with_state. rewrite setPageIndex_spec. apply with_page_inv; [done|lia|lia].
Qed.

(** The table never loses a row. After any controls and drags between its
    rows: the pages put together are the rows of the data in their order,
    these are the initial rows in some order, the page shown exists, and it
    has rows when there are any. *)
Theorem grid_keeps_rows initialData g :
  star (λ a b, ∃ e, drag_known e a ∧ b = grid_handle e a) (grid_mount initialData) g →
  tb_data (gr_rows g) ≡ₚ initialData ∧
  snd <$> concat ((λ k, grid_rows (with_state (set_pageIndex (Z.of_nat k)) g)) <$>
    seq 0 (Z.to_nat (getPageCount (gr_state g) (length initialData)))) = tb_data (gr_rows g) ∧
  (grid_rows g = [] ↔ initialData = []).
Proof.
  intros R. assert (I : grid_inv initialData g).
  { refine (star_invariant _ (grid_inv initialData) _ _ (grid_mount_inv _) _ R). intros a b Ia (e & K & ->). by apply grid_handle_inv. }
  pose proof (grid_count_all _ _ I) as C. unfold grid_count in C. split; [apply I|]. split.
  - pose proof (pages_matching sectionColumns no_filter (gr_state g) (tb_data (gr_rows g)) ltac:(apply I) ltac:(apply grid_known, I)) as P.
    cbv zeta in P. rewrite C in P. unfold grid_rows, with_state. simpl. rewrite P.
    rewrite getSortedRows_none by apply I. rewrite (grid_matching _ _ I). apply core_rows_data.
  - pose proof (shown_rows_length sectionColumns no_filter (gr_state g) (tb_data (gr_rows g))) as L. cbv zeta in L. rewrite C in L.
    destruct (L (gv_page _ _ I)) as [_ L2]. unfold grid_rows. rewrite L2. apply length_zero_iff_nil.
Qed.
End Grid.

(** ** The rows of the dashboard *)

Definition data : list section_row := [
  mkSectionRow 1 "Cover page" "Cover page" "In Process" "18" "5" "Eddie Lake";
  mkSectionRow 2 "Table of contents" "Table of contents" "Done" "29" "24" "Eddie Lake";
  mkSectionRow 3 "Executive summary" "Narrative" "Done" "10" "13" "Eddie Lake";
  mkSectionRow 4 "Technical approach" "Narrative" "Done" "27" "23" "Jamik Tashpulatov";
  mkSectionRow 5 "Design" "Narrative" "In Process" "2" "16" "Jamik Tashpulatov";
  mkSectionRow 6 "Capabilities" "Narrative" "In Process" "20" "8" "Jamik Tashpulatov";
  mkSectionRow 7 "Integration with existing systems" "Narrative" "In Process" "19" "21" "Jamik Tashpulatov";
  mkSectionRow 8 "Innovation and Advantages" "Narrative" "Done" "25" "26" "Assign reviewer";
  mkSectionRow 9 "Overview of EMR's Innovative Solutions" "Technical content" "Done" "7" "23" "Assign reviewer";
  mkSectionRow 10 "Advanced Algorithms and Machine Learning" "Narrative" "Done" "30" "28" "Assign reviewer";
  mkSectionRow 11 "Adaptive Communication Protocols" "Narrative" "Done" "9" "31" "Assign reviewer";
  mkSectionRow 12 "Advantages Over Current Technologies" "Narrative" "Done" "12" "0" "Assign reviewer";
  mkSectionRow 13 "Past Performance" "Narrative" "Done" "22" "33" "Assign reviewer";
  mkSectionRow 14 "Customer Feedback and Satisfaction Levels" "Narrative" "Done" "15" "34" "Assign reviewer";
  mkSectionRow 15 "Implementation Challenges and Solutions" "Narrative" "Done" "3" "35" "Assign reviewer";
  mkSectionRow 16 "Security Measures and Data Protection Policies" "Narrative" "In Process" "6" "36" "Assign reviewer";
  mkSectionRow 17 "Scalability and Future Proofing" "Narrative" "Done" "4" "37" "Assign reviewer";
  mkSectionRow 18 "Cost-Benefit Analysis" "Plain language" "Done" "14" "38" "Assign reviewer";
  mkSectionRow 19 "User Training and Onboarding Experience" "Narrative" "Done" "17" "39" "Assign reviewer";
  mkSectionRow 20 "Future Development Roadmap" "Narrative" "Done" "11" "40" "Assign reviewer";
  mkSectionRow 21 "System Architecture Overview" "Technical content" "In Process" "24" "18" "Maya Johnson";
  mkSectionRow 22 "Risk Management Plan" "Narrative" "Done" "15" "22" "Carlos Rodriguez";
  mkSectionRow 23 "Compliance Documentation" "Legal" "In Process" "31" "27" "Sarah Chen";
  mkSectionRow 24 "API Documentation" "Technical content" "Done" "8" "12" "Raj Patel";
  mkSectionRow 25 "User Interface Mockups" "Visual" "In Process" "19" "25" "Leila Ahmadi";
  mkSectionRow 26 "Database Schema" "Technical content" "Done" "22" "20" "Thomas Wilson";
  mkSectionRow 27 "Testing Methodology" "Technical content" "In Process" "17" "14" "Assign reviewer";
  mkSectionRow 28 "Deployment Strategy" "Narrative" "Done" "26" "30" "Eddie Lake";
  mkSectionRow 29 "Budget Breakdown" "Financial" "In Process" "13" "16" "Jamik Tashpulatov";
  mkSectionRow 30 "Market Analysis" "Research" "Done" "29" "32" "Sophia Martinez";
  mkSectionRow 31 "Competitor Comparison" "Research" "In Process" "21" "19" "Assign reviewer";
  mkSectionRow 32 "Maintenance Plan" "Technical content" "Done" "16" "23" "Alex Thompson";
  mkSectionRow 33 "User Personas" "Research" "In Process" "27" "24" "Nina Patel";
  mkSectionRow 34 "Accessibility Compliance" "Legal" "Done" "18" "21" "Assign reviewer";
  mkSectionRow 35 "Performance Metrics" "Technical content" "In Process" "23" "26" "David Kim";
  mkSectionRow 36 "Disaster Recovery Plan" "Technical content" "Done" "14" "17" "Jamik Tashpulatov";
  mkSectionRow 37 "Third-party Integrations" "Technical content" "In Process" "25" "28" "Eddie Lake";
  mkSectionRow 38 "User Feedback Summary" "Research" "Done" "20" "15" "Assign reviewer";
  mkSectionRow 39 "Localization Strategy" "Narrative" "In Process" "12" "19" "Maria Garcia";
  mkSectionRow 40 "Mobile Compatibility" "Technical content" "Done" "28" "31" "James Wilson";
  mkSectionRow 41 "Data Migration Plan" "Technical content" "In Process" "19" "22" "Assign reviewer";
  mkSectionRow 42 "Quality Assurance Protocols" "Technical content" "Done" "30" "33" "Priya Singh";
  mkSectionRow 43 "Stakeholder Analysis" "Research" "In Process" "11" "14" "Eddie Lake";
  mkSectionRow 44 "Environmental Impact Assessment" "Research" "Done" "24" "27" "Assign reviewer";
  mkSectionRow 45 "Intellectual Property Rights" "Legal" "In Process" "17" "20" "Sarah Johnson";
  mkSectionRow 46 "Customer Support Framework" "Narrative" "Done" "22" "25" "Jamik Tashpulatov";
  mkSectionRow 47 "Version Control Strategy" "Technical content" "In Process" "15" "18" "Assign reviewer";
  mkSectionRow 48 "Continuous Integration Pipeline" "Technical content" "Done" "26" "29" "Michael Chen";
  mkSectionRow 49 "Regulatory Compliance" "Legal" "In Process" "13" "16" "Assign reviewer";
  mkSectionRow 50 "User Authentication System" "Technical content" "Done" "28" "31" "Eddie Lake";
  mkSectionRow 51 "Data Analytics Framework" "Technical content" "In Process" "21" "24" "Jamik Tashpulatov";
  mkSectionRow 52 "Cloud Infrastructure" "Technical content" "Done" "16" "19" "Assign reviewer";
  mkSectionRow 53 "Network Security Measures" "Technical content" "In Process" "29" "32" "Lisa Wong";
  mkSectionRow 54 "Project Timeline" "Planning" "Done" "14" "17" "Eddie Lake";
  mkSectionRow 55 "Resource Allocation" "Planning" "In Process" "27" "30" "Assign reviewer";
  mkSectionRow 56 "Team Structure and Roles" "Planning" "Done" "20" "23" "Jamik Tashpulatov";
  mkSectionRow 57 "Communication Protocols" "Planning" "In Process" "15" "18" "Assign reviewer";
  mkSectionRow 58 "Success Metrics" "Planning" "Done" "30" "33" "Eddie Lake";
  mkSectionRow 59 "Internationalization Support" "Technical content" "In Process" "23" "26" "Jamik Tashpulatov";
  mkSectionRow 60 "Backup and Recovery Procedures" "Technical content" "Done" "18" "21" "Assign reviewer";
  mkSectionRow 61 "Monitoring and Alerting System" "Technical content" "In Process" "25" "28" "Daniel Park";
  mkSectionRow 62 "Code Review Guidelines" "Technical content" "Done" "12" "15" "Eddie Lake";
  mkSectionRow 63 "Documentation Standards" "Technical content" "In Process" "27" "30" "Jamik Tashpulatov";
  mkSectionRow 64 "Release Management Process" "Planning" "Done" "22" "25" "Assign reviewer";
  mkSectionRow 65 "Feature Prioritization Matrix" "Planning" "In Process" "19" "22" "Emma Davis";
  mkSectionRow 66 "Technical Debt Assessment" "Technical content" "Done" "24" "27" "Eddie Lake";
  mkSectionRow 67 "Capacity Planning" "Planning" "In Process" "21" "24" "Jamik Tashpulatov";
  mkSectionRow 68 "Service Level Agreements" "Legal" "Done" "26" "29" "Assign reviewer"
].

Lemma data_ids : NoDup (sr_id <$> data).
Proof. apply (bool_decide_unpack _). vm_compute. exact I. Qed.

(** The sheet of most rows starts with nothing selected: the values of the
    data are not among the options of the form (only the type [Narrative],
    the status [Done] and two of the three reviewers occur in both). *)
Lemma sheet_unselected :
  let missing f := length (List.filter (λ r, bool_decide (f (TableCellViewer false r) = None)) data) in
  (length data, missing st_type, missing st_status, missing st_reviewer) = (68%nat, 48%nat, 29%nat, 45%nat).
Proof. vm_compute. reflexivity. Qed.

(** The pages of the dashboard's table. *)
Definition move {A} (l : list A) (i j : Z) : list A :=
  match l !! Z.to_nat i with
  | Some x => take (Z.to_nat j) (delete (Z.to_nat i) l) ++ x :: drop (Z.to_nat j) (delete (Z.to_nat i) l)
  | None => l
  end.

Lemma move_moves : moves move.
Proof. intros l i j x Hi Hj. unfold move. by rewrite !Nat2Z.id, Hi. Qed.

Definition dragged_grid : grid := grid_handle move (GridDrag (Some 1) (Some 3)) (grid_handle move GridLast (grid_mount data)).

Lemma dragged_star : star (λ a b, ∃ e, drag_known e a ∧ b = grid_handle move e a) (grid_mount data) dragged_grid.
Proof.
  eapply star_snoc; [eapply star_snoc; [constructor|]|].
  - by exists GridLast.
  - exists (GridDrag (Some 1) (Some 3)). split; [|done].
    split; apply (bool_decide_unpack _); vm_compute; exact I.
Qed.

Lemma grid_keeps_rows_witness :
  take 3 (sr_id <$> tb_data (gr_rows dragged_grid)) = [2; 3; 1] ∧ tb_data (gr_rows dragged_grid) ≡ₚ data.
Proof.
  split; [vm_compute; reflexivity|]. exact (proj1 (grid_keeps_rows move move_moves data dragged_grid dragged_star)).
Defined.
