(* ===== verification/DashboardPage.v ===== *)
(** * The example dashboard's page ([app/dashboard/page.tsx])

    The frame of the page: its sidebar ([components/app-sidebar.tsx] with
    [nav-main.tsx], [nav-documents.tsx], [nav-secondary.tsx]), the menu of the
    signed-in user ([nav-user.tsx], which the workbench's sidebar shares), the
    header ([site-header.tsx]), the cards ([section-cards.tsx]), the card of
    the chart ([chart-area-interactive.tsx]) and the views around the table
    ([data-table.tsx]); the days of the chart and the rows of the table are
    those of [Dashboard] and [DashboardTable]. *)
From S2P Require Import Prelude JsObject JsNum JsString JsValue Effects Auth DataGrid PublicPages AppShell FormViews Dashboard DashboardTable Markup.
Import Navigation.

(** ** The user's menu *)
Module UserMenu.

(** Whether the menu is open, [signingOut], and the runs of [signOut]. *)
Record menu := mkMenu { mn_open : bool; mn_signingOut : bool; mn_runs : nat }.

Definition menu_mount : menu := mkMenu false false 0.

(** The trigger, a click elsewhere, an item that does nothing, and the last
    item, which keeps the menu open. *)
Inductive menu_event := MnToggle | MnDismiss | MnItem | MnLogOut.

Definition menu_handle (e : menu_event) (m : menu) : option menu :=
  match e with
  | MnToggle => Some (mkMenu (negb (mn_open m)) (mn_signingOut m) (mn_runs m))
  | MnDismiss => if mn_open m then Some (mkMenu false (mn_signingOut m) (mn_runs m)) else None
  | MnItem => if mn_open m then Some (mkMenu false (mn_signingOut m) (mn_runs m)) else None
  | MnLogOut => if mn_open m && negb (mn_signingOut m) then Some (mkMenu true true (S (mn_runs m))) else None
  end.

Definition menu_step (m m' : menu) : Prop := ∃ e, menu_handle e m = Some m'.

Definition user_lines (u : nav_user) : list node := [line "span" (nu_name u); line "span" (nu_email u)].

(** The avatar's fallback is fixed. The content of a closed menu is not in the
    document. *)
Definition NavUser (u : nav_user) (m : menu) : list node :=
  el "button" (line "span" "CN" :: user_lines u) ::
  (if mn_open m
   then [el "menu" (line "span" "CN" :: user_lines u ++
           ((λ i, with_disabled i.2 (line "menuitem" i.1)) <$> Frame.user_menu (mn_signingOut m)))]
   else []).

(** A mounted menu signs out at most once: nothing makes the last item
    available again, whatever becomes of the requests. *)
Lemma signs_out_once m : star menu_step menu_mount m → mn_runs m = (if mn_signingOut m then 1 else 0)%nat.
Proof.
  intros R. refine (star_invariant _ (λ m, mn_runs m = (if mn_signingOut m then 1 else 0)%nat) _ _ _ _ R); [done|].
  intros [o s n] b Ha [e E]. cbn in Ha. destruct e; cbn in E.
  - by injection E as <-.
  - destruct o; [|done]. by injection E as <-.
  - destruct o; [|done]. by injection E as <-.
  - destruct o, s; try done. injection E as <-. cbn. by rewrite Ha.
Qed.

Lemma menu_links u m : hrefs (NavUser u m) = [].
Proof. unfold NavUser. by destruct (mn_open m). Qed.
End UserMenu.

(** ** The sidebar *)

Record entry := mkEntry { ey_title : string; ey_url : string }.

Definition dashboard_user : nav_user := mkNavUser "shadcn" "m@example.com" "/avatars/shadcn.jpg".

Definition dashboardMain : list entry :=
  [mkEntry "Dashboard" "#"; mkEntry "Lifecycle" "#"; mkEntry "Analytics" "#"; mkEntry "Projects" "#"; mkEntry "Team" "#"].

(** Entries with sub-entries; no component is given them. *)
Definition navClouds : list (entry * list entry) :=
  (λ t, (mkEntry t "#", [mkEntry "Active Proposals" "#"; mkEntry "Archived" "#"])) <$> ["Capture"; "Proposal"; "Prompts"].

Definition dashboardSecondary : list entry := [mkEntry "Settings" "#"; mkEntry "Get Help" "#"; mkEntry "Search" "#"].

Definition documents : list entry := [mkEntry "Data Library" "#"; mkEntry "Reports" "#"; mkEntry "Word Assistant" "#"].

(** The entries are buttons without a handler; their addresses are not used. *)
Definition NavMain (items : list entry) : list node :=
  [line "button" "Quick Create"; line "button" "Inbox"] ++ ((λ i, line "button" (ey_title i)) <$> items).

(** The menu of each document is in the document while it is open. *)
Definition NavDocuments (open_menu : option string) (items : list entry) : list node :=
  line "p" "Documents" ::
  concat ((λ i, [link_to (ey_url i) [line "span" (ey_title i)]; line "button" "More"] ++
                (if bool_decide (open_menu = Some (ey_title i)) then [line "menuitem" "Open"; line "menuitem" "Share"] else [])) <$> items) ++
  [line "button" "More"].

Definition NavSecondary (items : list entry) : list node := (λ i, link_to (ey_url i) [line "span" (ey_title i)]) <$> items.

Definition AppSidebar (open_menu : option string) (m : UserMenu.menu) : list node :=
  [link_to "#" [line "span" "Acme Inc."]] ++ NavMain dashboardMain ++ NavDocuments open_menu documents ++
  NavSecondary dashboardSecondary ++ UserMenu.NavUser dashboard_user m.

(** ** Header and cards *)

Definition SiteHeader : list node := [el "header" [line "button" "Toggle Sidebar"; line "h1" "Documents"]].

(** Description, title, badge, and the two lines of the footer. *)
Definition section_card (c : string * string * string * string * string) : node :=
  let '(description, title, badge, trend, note) := c in
  el "card" [line "p" description; line "h3" title; line "badge" badge; line "p" trend; line "p" note].

Definition section_cards : list (string * string * string * string * string) := [
  ("Total Revenue", "$1,250.00", "+12.5%", "Trending up this month", "Visitors for the last 6 months");
  ("New Customers", "1,234", "-20%", "Down 20% this period", "Acquisition needs attention");
  ("Active Accounts", "45,678", "+12.5%", "Strong user retention", "Engagement exceed targets");
  ("Growth Rate", "4.5%", "+4.5%", "Steady performance", "Meets growth projections")].

Definition SectionCards : list node := section_card <$> section_cards.

(** ** The card of the chart ([chart-area-interactive.tsx]) *)
Module ChartCard.

Definition range_options : list (string * string) := [("90d", "Last 3 months"); ("30d", "Last 30 days"); ("7d", "Last 7 days")].

(** The option pressed in the group of buttons, or chosen from the list, of
    which one is on the screen; the group reports the empty text when the
    button that is on is pressed. *)
Inductive range_event := RgPress (value : string) | RgChoose (value : string).

Definition range_mount : string := "30d".

Definition setTimeRange (isMobile : bool) (e : range_event) (timeRange : string) : string :=
  match e with
  | RgPress v => if String.eqb v (Chart.chartTimeRange isMobile timeRange) then EmptyString else v
  | RgChoose v => v
  end.

Definition range_value (e : range_event) : string := match e with RgPress v | RgChoose v => v end.

Definition range_step (a b : string) : Prop :=
  ∃ isMobile e, range_value e ∈ range_options.*1 ∧ b = setTimeRange isMobile e a.

(** The title and the two descriptions, the buttons and whether each is on,
    the text of the list, the days and the stacked series. *)
Record chart_card := mkCard {
  cd_texts : list string; cd_buttons : list (string * bool); cd_select : string;
  cd_days : list Chart.visits; cd_series : list string
}.

Section Card.
Variables offset utc : Z → Z.

Definition ChartAreaInteractive (isMobile : bool) (timeRange : string) : chart_card :=
  let range := Chart.chartTimeRange isMobile timeRange in
  mkCard ["Total Visitors"; "Total for the last 3 months"; "Last 3 months"]
    ((λ o, (o.2, String.eqb o.1 range)) <$> range_options)
    (match List.find (λ o, String.eqb o.1 range) range_options with Some o => o.2 | None => "Last 3 months" end)
    (Chart.filteredData offset utc isMobile timeRange) ["mobile"; "desktop"].

(** Whatever is pressed, the list names the range whose days are shown; the
    buttons do so unless the one that was on has been pressed, and the
    description names three months all the time. *)
Lemma range_named isMobile timeRange :
  star range_step range_mount timeRange →
  let card := ChartAreaInteractive isMobile timeRange in
  (∃ v, (v, cd_select card) ∈ range_options ∧ cd_days card = List.filter (Chart.in_range_of offset utc v) Chart.chartData) ∧
  (∀ b, b ∈ cd_buttons card → b.2 = true → b.1 = cd_select card) ∧
  ((∀ b, b ∈ cd_buttons card → b.2 = false) ↔ isMobile = false ∧ timeRange = EmptyString).
Proof.
  intros R. assert (H : timeRange = EmptyString ∨ timeRange ∈ range_options.*1).
  { refine (star_invariant _ (λ r, r = EmptyString ∨ r ∈ range_options.*1) _ _ _ _ R); [right; set_solver|].
    intros a b _ (m & e & He & ->). destruct e as [v|v]; cbn; [destruct (String.eqb _ _); auto|auto]. }
  unfold ChartAreaInteractive. cbn [cd_select cd_days cd_buttons]. unfold Chart.filteredData.
  assert (C : Chart.chartTimeRange isMobile timeRange = "7d" ∧ (isMobile = true ∨ timeRange = "7d") ∨ isMobile = false ∧ timeRange = "30d" ∨
              isMobile = false ∧ timeRange = "90d" ∨ isMobile = false ∧ timeRange = EmptyString).
  { unfold Chart.chartTimeRange. destruct isMobile; [by left; split; [|left]|].
    destruct H as [H|H]; [by do 3 right|]. cbn in H. rewrite !elem_of_cons, elem_of_nil in H. naive_solver. }
  destruct C as [[-> C]|[[-> ->]|[[-> ->]|[-> ->]]]]; cbn [Chart.chartTimeRange]; (split; [|split]).
  all: try (eexists; split; [by repeat constructor|reflexivity]).
  all: try (intros b Hb; cbn in Hb; rewrite !elem_of_cons, elem_of_nil in Hb; naive_solver).
  all: split; [intros Hb|intros [Em Er]]; try done.
  - discriminate (Hb ("Last 7 days", true)). by repeat constructor.
  - destruct C; congruence.
  - discriminate (Hb ("Last 30 days", true)). by repeat constructor.
  - discriminate (Hb ("Last 3 months", true)). by repeat constructor.
  - intros b Hb. cbn in Hb. rewrite !elem_of_cons, elem_of_nil in Hb. naive_solver.
Qed.
End Card.
End ChartCard.

(** ** Around the table ([data-table.tsx]) *)
Module TableViews.

(** The views with their badges: tabs on a wide screen, a list on a narrow
    one. Only the first has content, the table. *)
Definition views : list (string * string * option string) := [
  ("outline", "Outline", None); ("past-performance", "Past Performance", Some "3");
  ("key-personnel", "Key Personnel", Some "2"); ("focus-documents", "Focus Documents", None)].

(** The tab that is on, and what the list shows; neither is given the other. *)
Record view_state := mkViews { vs_tab : string; vs_list : string }.
Inductive view_event := VwTab (value : string) | VwList (value : string).

Definition views_mount : view_state := mkViews "outline" "outline".

Definition view_handle (e : view_event) (s : view_state) : view_state :=
  match e with VwTab v => mkViews v (vs_list s) | VwList v => mkViews (vs_tab s) v end.

Definition table_visible (s : view_state) : bool := String.eqb (vs_tab s) "outline".

(** On a narrow screen, which has no tabs, choosing a view changes nothing. *)
Lemma narrow_views_inert s :
  star (λ a b, ∃ v, b = view_handle (VwList v) a) views_mount s → table_visible s = true.
Proof.
  intros R. refine (star_invariant _ (λ s, table_visible s = true) _ _ _ _ R); [done|]. intros a b Ha [v ->]. exact Ha.
Qed.

(** The menu of a row; its items have no handlers. *)
Definition row_menu : list string := ["Edit"; "Make a copy"; "Favorite"; "Delete"].

(** The chart of a row's sheet, the same for every row, with the labels of
    its axis, the series and the texts. *)
Definition sheet_data : list (string * Z * Z) := [
  ("January", 186, 80); ("February", 305, 200); ("March", 237, 120); ("April", 73, 190); ("May", 209, 130); ("June", 214, 140)].
Definition sheet_ticks : list string := (λ m, slice 0 3 m.1.1) <$> sheet_data.
Definition sheet_series : list (string * string) := [("mobile", "var(--primary)"); ("desktop", "var(--primary)")].
Definition sheet_texts : list string := [
  "Showing total visitors for the last 6 months"; "Trending up by 5.2% this month";
  "Showing total visitors for the last 6 months. This is just some random text to test the layout. It spans multiple lines and should wrap around."].

Example sheet_axis : sheet_ticks = ["Jan"; "Feb"; "Mar"; "Apr"; "May"; "Jun"].
Proof. reflexivity. Qed.
End TableViews.

(** ** The page *)
Section Page.
(** The browser's time zone, as in [Dashboard]. *)
Variables offset utc : Z → Z.

(** The frame, the card of the chart, and the table. *)
Record dashboard_page := mkDashboardPage { dh_frame : list node; dh_chart : ChartCard.chart_card; dh_views : TableViews.view_state; dh_table : grid }.

Definition DashboardPage (isMobile : bool) (timeRange : string) (views : TableViews.view_state) (g : grid) (open_menu : option string) (m : UserMenu.menu) : dashboard_page :=
  mkDashboardPage (AppSidebar open_menu m ++ SiteHeader ++ SectionCards) (ChartCard.ChartAreaInteractive offset utc isMobile timeRange) views g.

(** The page is an example that leads nowhere: in every state its only links
    are the seven that stay where they are, its user is a constant, and it
    asks for no session. *)
Lemma dashboard_is_example isMobile timeRange views g open_menu m getSessionCookie origin jar :
  hrefs (dh_frame (DashboardPage isMobile timeRange views g open_menu m)) = replicate 7 ("#", false) ∧
  proxy getSessionCookie origin "/dashboard" jar = RNext ∧
  "shadcn" ∈ texts (dh_frame (DashboardPage isMobile timeRange views g open_menu m)).
Proof.
  split; [|split; [done|]].
  - cbn [dh_frame DashboardPage]. unfold AppSidebar, hrefs. rewrite !collect_all_app.
    fold (hrefs (UserMenu.NavUser dashboard_user m)). rewrite UserMenu.menu_links.
    unfold NavDocuments. cbn [concat fmap list_fmap documents ey_title ey_url]. by repeat case_bool_decide.
  - cbn [dh_frame DashboardPage]. unfold AppSidebar, texts. rewrite !map_app, !concat_app, !elem_of_app. left. do 4 right.
    unfold UserMenu.NavUser. cbn. set_solver.
Qed.
End Page.
