(* ===== verification/TriageFeatures.v ===== *)
(** * Alert enrichment of the triage route

    The pure part of [app/api/cases/[caseId]/triage/route.ts]: the feature
    defaults by operation, the severity score, and the fields computed from
    the event before the alert is sent to the orchestrator. *)
From S2P Require Import Prelude JsObject JsNum JsString JsValue Effects.

(** [Record<string, unknown>] *)
Notation alert := (jsobj jsval).

Definition severityScore (s : string) : num :=
  let l := to_lower s in
  if String.eqb l "informational" then dec 1 1
  else if String.eqb l "low" then dec 3 1
  else if String.eqb l "medium" then dec 5 1
  else if String.eqb l "high" then dec 8 1
  else if String.eqb l "critical" || String.eqb l "fatal" then of_Z 1
  else dec 5 1.

(** [alert[key]] *)
Definition field (k : string) (a : alert) : jsval := default JUndef (obj_get k a).

Definition hasNumericFeature (a : alert) (key : string) : bool :=
  match field key a with JNum n => is_finite n | _ => false end.

(** [FeatureDefaults], in the order in which the properties are assigned. *)
Notation FeatureDefaults := (jsobj num).

Definition setFeatureDefault (a : alert) (key : string) (value : num) : alert :=
  if hasNumericFeature a key then a else obj_set key (JNum value) a.

Definition operation_of (a : alert) : string :=
  to_lower (to_string (nullish (nullish (field "api_operation" a) (field "eventName" a)) (JStr EmptyString))).
Definition service_of (a : alert) : string :=
  to_lower (to_string (nullish (nullish (field "api_service" a) (field "eventSource" a)) (JStr EmptyString))).
Definition actor_of (a : alert) : string :=
  to_lower (to_string (nullish (field "actor_user_name" a) (JStr EmptyString))).

Definition operation_defaults (operation service actor : string) : FeatureDefaults :=
  if includes "putbucketacl" operation || includes "putbucketpolicy" operation then
    [("severity_score", dec 85 2); ("baseline_deviation", dec 7 1); ("threat_intel_hit_count", of_Z 1);
     ("asset_criticality", dec 9 1); ("prior_disposition_ratio", dec 8 1)]
  else if includes "createaccesskey" operation || String.eqb actor "root" then
    [("severity_score", of_Z 1); ("baseline_deviation", dec 9 1);
     ("asset_criticality", of_Z 1); ("prior_disposition_ratio", dec 9 1)]
  else if includes "consolelogin" operation then
    [("asset_criticality", dec 5 1); ("prior_disposition_ratio", dec 35 2)]
  else if includes "okta" service || includes "session.start" operation then
    [("severity_score", dec 75 2); ("entity_reputation_score", dec 6 1); ("baseline_deviation", dec 6 1);
     ("threat_intel_hit_count", of_Z 1); ("asset_criticality", dec 5 1); ("prior_disposition_ratio", dec 7 1)]
  else [].

Definition applyOperationFeatureDefaults (a : alert) : alert :=
  foldl (λ a kv, setFeatureDefault a kv.1 kv.2) a
    (obj_entries (operation_defaults (operation_of a) (service_of a) (actor_of a))).

(** [x || d] on numbers *)
Definition num_or (x d : num) : num := if num_truthy x then x else d.

Definition add_severity_score (a : alert) : alert :=
  match field "severity" a with
  | JStr s =>
      let score := severityScore s in
      let current := if hasNumericFeature a "severity_score" then to_number (field "severity_score" a) else zero in
      obj_set "severity_score" (JNum (num_max current score)) a
  | _ => a
  end.

Definition add_source_class (a : alert) : alert :=
  if hasNumericFeature a "source_class_id" then a
  else match field "class_uid" a with
       | JStr s => obj_set "source_class_id" (JNum (num_or (parse_float s) (of_Z 6003))) a
       | _ => a
       end.

Definition add_hour_of_day (a : alert) : alert :=
  if hasNumericFeature a "hour_of_day" then a
  else match field "time" a with
       | JStr t => obj_set "hour_of_day" (JNum (num_or (parse_float (slice 11 13 t)) (of_Z 12))) a
       | _ => a
       end.

(** Everything before the baseline request. *)
Definition enrich_sync (a : alert) : alert :=
  add_hour_of_day (add_source_class (add_severity_score (applyOperationFeatureDefaults a))).

(** The user and region of the baseline request, when one is made. *)
Definition needs_baseline (a : alert) : option (string * string) :=
  if truthy (field "baseline_deviation" a) then None
  else match field "actor_user_name" a, field "cloud_region" a with
       | JStr u, JStr r => if String.eqb r "unknown" then None else Some (u, r)
       | _, _ => None
       end.

Definition baseline_request (cp_url username : string) : request :=
  get_req (cp_url +:+ "/v1/baselines/user/" +:+ encode_uri_component username).

(** [baselineDeviation]: from the answer of the control plane. *)
Definition baselineDeviation (region : string) (answer : res fetched) : num :=
  match answer with
  | Throw _ => zero
  | Ok r =>
      if negb (ft_ok r) then zero
      else match ft_json r with
           | None | Some JNull | Some JUndef => zero
           | Some baseline =>
               match nullish (prop "regions_seen_30d" baseline) (JArr []) with
               | JArr [] => dec 5 1
               | JArr seen => if existsb (is_str region) seen then zero else of_Z 1
               | JStr s => if String.eqb s EmptyString then dec 5 1
                           else if includes region s then zero else of_Z 1
               | _ => zero
               end
           end
  end.

Definition with_baseline (region : string) (answer : res fetched) (a : alert) : alert :=
  obj_set "baseline_deviation" (JNum (baselineDeviation region answer)) a.

(** The whole enrichment, with the control plane's answer to the baseline
    request, which is not looked at when none is made. *)
Definition enrich (answer : res fetched) (a : alert) : alert :=
  let a' := enrich_sync a in
  match needs_baseline a' with Some (_, region) => with_baseline region answer a' | None => a' end.

(** ** Facts *)

Lemma field_set_eq k v a : field k (obj_set k v a) = v.
Proof. unfold field. by rewrite obj_get_set_eq. Qed.

Lemma field_set_ne k k' v a : k ≠ k' → field k (obj_set k' v a) = field k a.
Proof. intros. unfold field. by rewrite obj_get_set_ne. Qed.

Lemma setFeatureDefault_ne a k v k' : k' ≠ k → field k' (setFeatureDefault a k v) = field k' a.
Proof. intros. unfold setFeatureDefault. case_match; [done|]. by apply field_set_ne. Qed.

Lemma setFeatureDefault_eq a k v :
  field k (setFeatureDefault a k v) = if hasNumericFeature a k then field k a else JNum v.
Proof. unfold setFeatureDefault. case_match; [done|]. apply field_set_eq. Qed.

Lemma setFeatureDefault_numeric a k v k' :
  hasNumericFeature a k' = true → field k' (setFeatureDefault a k v) = field k' a.
Proof.
  intros Hn. destruct (decide (k' = k)) as [->|]; [|by apply setFeatureDefault_ne].
  by rewrite setFeatureDefault_eq, Hn.
Qed.

Lemma defaults_fold ds a k :
  NoDup ds.*1 →
  field k (foldl (λ a kv, setFeatureDefault a kv.1 kv.2) a ds) =
  match obj_get k ds with
  | Some v => if hasNumericFeature a k then field k a else JNum v
  | None => field k a
  end.
Proof.
  revert a; induction ds as [|[k1 v1] ds IH]; intros a; [done|]. simpl.
  intros [Hk1 N]%NoDup_cons. rewrite IH by done.
  assert (Hnone : k = k1 → obj_get k ds = None).
  { intros ->. destruct (obj_get k1 ds) eqn:E; [|done]. exfalso. apply Hk1, obj_get_keys. eauto. }
  destruct (String.eqb_spec k k1) as [->|Hne].
  - rewrite Hnone by done. apply setFeatureDefault_eq.
  - unfold hasNumericFeature. by rewrite setFeatureDefault_ne.
Qed.

Lemma operation_defaults_nodup op sv ac : NoDup (obj_entries (operation_defaults op sv ac)).*1.
Proof.
  rewrite obj_entries_perm. unfold operation_defaults.
  repeat case_match; apply (bool_decide_unpack _); vm_compute; exact I.
Qed.

Lemma obj_get_entries {A} k (o : jsobj A) : obj_wf o → obj_get k (obj_entries o) = obj_get k o.
Proof.
  intros W. assert (W' : obj_wf (obj_entries o)) by (unfold obj_wf in *; by rewrite obj_entries_perm).
  destruct (obj_get k o) as [v|] eqn:E.
  - apply obj_elem_get; [done|]. rewrite obj_entries_perm. by apply obj_get_elem.
  - destruct (obj_get k (obj_entries o)) as [v|] eqn:E'; [|done]. exfalso.
    apply obj_get_elem in E'. rewrite obj_entries_perm in E'. apply obj_elem_get in E'; [|done]. congruence.
Qed.

Lemma defaults_field a k :
  field k (applyOperationFeatureDefaults a) =
  match obj_get k (operation_defaults (operation_of a) (service_of a) (actor_of a)) with
  | Some v => if hasNumericFeature a k then field k a else JNum v
  | None => field k a
  end.
Proof.
  unfold applyOperationFeatureDefaults. rewrite defaults_fold by apply operation_defaults_nodup.
  rewrite obj_get_entries; [done|]. unfold obj_wf.
  rewrite <- (obj_entries_perm (operation_defaults _ _ _)). apply operation_defaults_nodup.
Qed.

(** Values the enrichment computes are numbers between 0 and 1. *)
Definition unit_num (n : num) : bool := is_finite n && num_leb zero n && num_leb n (of_Z 1).

Lemma severityScore_unit s : unit_num (severityScore s) = true.
Proof. unfold severityScore. repeat case_match; vm_compute; reflexivity. Qed.

Lemma baselineDeviation_unit r a : unit_num (baselineDeviation r a) = true.
Proof. unfold baselineDeviation. repeat case_match; vm_compute; reflexivity. Qed.

(** ** Properties of the enrichment *)

Definition computed_features : list string :=
  ["severity_score"; "entity_reputation_score"; "baseline_deviation"; "threat_intel_hit_count";
   "asset_criticality"; "prior_disposition_ratio"; "source_class_id"; "hour_of_day"].

Lemma operation_defaults_keys op sv ac k v :
  obj_get k (operation_defaults op sv ac) = Some v → k ∈ computed_features.
Proof.
  intros E%obj_get_elem. revert E. unfold operation_defaults, computed_features.
  repeat case_match; rewrite ?elem_of_cons, ?elem_of_nil; naive_solver.
Qed.

Lemma add_severity_ne a k : k ≠ "severity_score" → field k (add_severity_score a) = field k a.
Proof. intros. unfold add_severity_score. case_match; try done. by apply field_set_ne. Qed.

Lemma add_source_class_keep a k :
  k ≠ "source_class_id" ∨ hasNumericFeature a k = true → field k (add_source_class a) = field k a.
Proof.
  unfold add_source_class. intros Hk. case_match eqn:E; [done|]. case_match; try done.
  apply field_set_ne. intros ->. destruct Hk; congruence.
Qed.

Lemma add_hour_keep a k :
  k ≠ "hour_of_day" ∨ hasNumericFeature a k = true → field k (add_hour_of_day a) = field k a.
Proof.
  unfold add_hour_of_day. intros Hk. case_match eqn:E; [done|]. case_match; try done.
  apply field_set_ne. intros ->. destruct Hk; congruence.
Qed.

Lemma numeric_field a b k : field k a = field k b → hasNumericFeature a k = hasNumericFeature b k.
Proof. unfold hasNumericFeature. by intros ->. Qed.

(** The fields before the baseline request. *)
Lemma enrich_sync_keeps a k :
  k ∉ computed_features ∨ (hasNumericFeature a k = true ∧ k ≠ "severity_score") →
  field k (enrich_sync a) = field k a.
Proof.
  intros Hk. unfold enrich_sync.
  assert (E1 : field k (applyOperationFeatureDefaults a) = field k a).
  { rewrite defaults_field. destruct (obj_get k _) as [v|] eqn:Ed; [|done].
    apply operation_defaults_keys in Ed. destruct Hk as [?|[-> _]]; done. }
  set (a1 := applyOperationFeatureDefaults a) in *.
  assert (E2 : field k (add_severity_score a1) = field k a).
  { rewrite <- E1. apply add_severity_ne. destruct Hk as [Hk|[_ ?]]; [|done].
    intros ->. apply Hk. unfold computed_features. left. }
  assert (Hfeat : ∀ b f, f ∈ computed_features → field k b = field k a → k ≠ f ∨ hasNumericFeature b k = true).
  { intros b f Hf Eb. rewrite (numeric_field b a k Eb).
    destruct Hk as [Hk|[-> _]]; [left|by right]. intros ->. done. }
  assert (E3 : field k (add_source_class (add_severity_score a1)) = field k a).
  { rewrite add_source_class_keep; [done|]. apply Hfeat; [|done]. unfold computed_features. set_solver. }
  rewrite add_hour_keep; [done|]. apply Hfeat; [|done]. unfold computed_features. set_solver.
Qed.


Lemma severity_after a k :
  "severity_score" = k → field k (enrich_sync a) = field k (add_severity_score (applyOperationFeatureDefaults a)).
Proof.
  intros <-. unfold enrich_sync. rewrite add_hour_keep by (by left).
  by rewrite add_source_class_keep by (by left).
Qed.

(** the severity score sent to the orchestrator is never below the score
    of the event's severity label, nor below the caller's own finite score;
    it is always a finite number. *)
Theorem enrich_severity a s :
  field "severity" a = JStr s →
  ∃ n, field "severity_score" (enrich_sync a) = JNum n ∧ is_finite n = true ∧
       num_leb (severityScore s) n = true ∧
       (∀ m, field "severity_score" a = JNum m → is_finite m = true → num_leb m n = true).
Proof.
  intros Hs. rewrite severity_after by done. set (a1 := applyOperationFeatureDefaults a).
  assert (Hs1 : field "severity" a1 = JStr s).
  { unfold a1. rewrite defaults_field. destruct (obj_get _ _) eqn:E; [|done].
    apply operation_defaults_keys in E. exfalso. revert E. unfold computed_features. set_solver. }
  unfold add_severity_score. rewrite Hs1, field_set_eq.
  set (cur := if hasNumericFeature a1 "severity_score" then to_number (field "severity_score" a1) else zero).
  assert (Fc : is_finite cur = true).
  { unfold cur, hasNumericFeature. destruct (field "severity_score" a1) eqn:E; try done.
    destruct (is_finite n) eqn:F; done. }
  assert (Fs : is_finite (severityScore s) = true).
  { pose proof (severityScore_unit s) as U. unfold unit_num in U. by bool_to_prop. }
  eexists. split; [done|]. destruct (num_max_ub cur (severityScore s) Fc Fs) as [U1 U2].
  split; [by apply num_max_finite|]. split; [done|].
  intros m Em Fm. assert (E1 : field "severity_score" a1 = JNum m).
  { unfold a1. rewrite defaults_field. unfold hasNumericFeature. rewrite Em, Fm. by case_match. }
  assert (cur = m) as <-; [|done].
  unfold cur, hasNumericFeature. by rewrite E1, Fm.
Qed.

Definition sample_features : alert :=
  [("eventName", JStr "PutBucketAcl"); ("asset_criticality", JNum (dec 2 1)); ("severity", JStr "LOW")].

Lemma enrich_severity_witness :
  field "severity" sample_features = JStr "LOW" ∧
  ∃ n, field "severity_score" (enrich_sync sample_features) = JNum n ∧ num_leb (dec 3 1) n = true.
Proof.
  split; [vm_compute; reflexivity|].
  destruct (enrich_severity sample_features "LOW" eq_refl) as (n & E & _ & L & _).
  exists n. split; [exact E|exact L].
Defined.

Lemma severity_no_label a :
  (∀ s, field "severity" a ≠ JStr s) → hasNumericFeature a "severity_score" = true →
  field "severity_score" (enrich_sync a) = field "severity_score" a.
Proof.
  intros Hs Hn. rewrite severity_after by done. unfold add_severity_score.
  assert (E : field "severity" (applyOperationFeatureDefaults a) = field "severity" a).
  { rewrite defaults_field. destruct (obj_get _ _) eqn:E; [|done].
    apply operation_defaults_keys in E. exfalso. revert E. unfold computed_features. set_solver. }
  rewrite E. transitivity (field "severity_score" (applyOperationFeatureDefaults a)).
  - destruct (field "severity" a) eqn:F; try done. by destruct (Hs s).
  - rewrite defaults_field, Hn. by case_match.
Qed.

Lemma enrich_ne answer a k : k ≠ "baseline_deviation" → field k (enrich answer a) = field k (enrich_sync a).
Proof.
  intros Hk. unfold enrich. destruct (needs_baseline _) as [[u r]|]; [|done]. unfold with_baseline. by apply field_set_ne.
Qed.


Definition sample_zero : alert :=
  [("baseline_deviation", JNum zero); ("asset_criticality", JNum (dec 2 1)); ("severity", JStr "LOW");
   ("severity_score", JNum (dec 9 1)); ("actor_user_name", JStr "bob"); ("cloud_region", JStr "eu-west-1")].
Definition region_unseen : res fetched :=
  Ok (mkFetched 200 (Some (JObj [("regions_seen_30d", JArr [JStr "us-east-1"])])) EmptyString).


(** The two characters of an hour in an ISO timestamp. *)
Definition hour_text (h : Z) : string := pad_digits 2 h.

Lemma hour_values :
  forallb (λ h, bool_decide (num_or (parse_float (hour_text h)) (of_Z 12) = of_Z (if h =? 0 then 12 else h)))
    (seqZ 0 24) = true.
Proof. vm_compute. reflexivity. Qed.

(** The hour of day taken from the event time is the hour written in the
    timestamp, except that midnight becomes noon: [parseFloat("00") || 12.0]
    is [12.0]. *)
Theorem hour_of_day_midnight a t h :
  hasNumericFeature a "hour_of_day" = false → field "time" a = JStr t →
  0 ≤ h < 24 → slice 11 13 t = hour_text h →
  field "hour_of_day" (add_hour_of_day a) = JNum (of_Z (if h =? 0 then 12 else h)).
Proof.
  intros Hn Ht Hh Hs. unfold add_hour_of_day. rewrite Hn, Ht, Hs, field_set_eq.
  pose proof hour_values as V. rewrite forallb_forall in V.
  specialize (V h). rewrite bool_decide_eq_true in V. rewrite V; [done|].
  apply list_elem_of_In, elem_of_seqZ. lia.
Qed.

Lemma hour_of_day_midnight_witness :
  slice 11 13 "2026-01-05T00:45:00Z" = hour_text 0 ∧
  field "hour_of_day" (add_hour_of_day [("time", JStr "2026-01-05T00:45:00Z")]) = JNum (of_Z 12).
Proof.
  split; [vm_compute; reflexivity|].
  exact (hour_of_day_midnight [("time", JStr "2026-01-05T00:45:00Z")] "2026-01-05T00:45:00Z" 0
           eq_refl eq_refl ltac:(lia) eq_refl).
Defined.

(** The region deviation always lies in the unit interval, and takes the
    value 1 only when the control plane answered with a history that does
    not contain the region: an unreachable or failing control plane, and a
    body that is not JSON, count as no deviation. *)
Theorem baseline_deviation_spec region ans :
  unit_num (baselineDeviation region ans) = true ∧
  (baselineDeviation region ans = of_Z 1 →
   ∃ r b, ans = Ok r ∧ ft_ok r = true ∧ ft_json r = Some b ∧
     ((∃ l, prop "regions_seen_30d" b = JArr l ∧ l ≠ [] ∧ JStr region ∉ l) ∨
      (∃ s, prop "regions_seen_30d" b = JStr s ∧ includes region s = false))).
Proof.
  split; [apply baselineDeviation_unit|]. unfold baselineDeviation.
  destruct ans as [r|e]; [|intros E; vm_compute in E; discriminate].
  destruct (ft_ok r) eqn:Hok; simpl; [|intros E; vm_compute in E; discriminate].
  intros Hd. exists r. destruct (ft_json r) as [b|] eqn:Hb; [|vm_compute in Hd; discriminate].
  exists b. split_and!; [done..|].
  assert (Hp : match nullish (prop "regions_seen_30d" b) (JArr []) with
    | JArr [] => dec 5 1
    | JArr seen => if existsb (is_str region) seen then zero else of_Z 1
    | JStr s => if String.eqb s EmptyString then dec 5 1 else if includes region s then zero else of_Z 1
    | _ => zero end = of_Z 1) by (by destruct b).
  clear Hd. destruct (prop "regions_seen_30d" b) as [| |?|?|s|[|x l]|?]; simpl in Hp;
    try (vm_compute in Hp; discriminate).
  - right. exists s. split; [done|]. destruct (String.eqb s EmptyString); [vm_compute in Hp; discriminate|].
    by destruct (includes region s); [vm_compute in Hp|].
  - left. exists (x :: l). split_and!; [done..|]. intros Hin.
    assert (Hx : existsb (is_str region) (x :: l) = true); [|simpl in Hx; rewrite Hx in Hp; vm_compute in Hp; discriminate].
    apply existsb_exists. exists (JStr region). split; [by apply list_elem_of_In|]. apply String.eqb_refl.
Qed.
