(* ===== verification/TriageRoute.v ===== *)
(** * The triage route ([app/api/cases/[caseId]/triage/route.ts])

    [POST] is an asynchronous handler over state shared by all requests of
    the process: the database, the result cache [TRIAGE_RESULT_CACHE] and the
    map [TRIAGE_IN_FLIGHT] of running jobs.  JavaScript runs the code between
    two [await]s atomically, so the handler is a state machine whose program
    counters are its await points; a pending operation and its settled result
    are different program counters, so that other requests can run between
    the moment a statement executes and the moment the handler resumes.  The
    asynchronous closure [run] is a second machine started by the handler.
    [handler_step] and [run_step] are the transitions; the environment's
    answer is an argument. *)
From S2P Require Import Prelude JsObject JsNum JsString JsValue JsDate Types Effects.
From S2P Require Import CaseRepository TriageFeatures.

(** What the outside world does with a pending operation. A database
    statement succeeds at time [now], or fails, having taken effect or not;
    a request is answered or fails. *)
Inductive answer :=
| AnsDone (now : Z)
| AnsFail (applied : bool) (now : Z) (e : err)
| AnsFetch (r : res fetched)
| AnsTick.

(** Await points of [POST]. *)
Inductive hpc :=
| HGet                                          (* await getCase *)
| HGot (r : res (option CaseRow))
| HBase (a : alert) (user region : string)      (* await baselineDeviation *)
| HBased (a : alert) (region : string) (r : res fetched)
| HUpsert (a : alert)                           (* await upsertCaseSnapshot *)
| HUpserted (a : alert) (r : res unit)
| HAwait (rid : nat)                            (* await run *)
| HComplete (rid : nat) (data : jsval)          (* await markTriageComplete *)
| HCompleted (rid : nat) (data : jsval) (r : res unit)
| HFail (rid : nat) (message : string)          (* await markTriageFailed *)
| HFailed (rid : nat) (message : string) (r : res unit)
| HWait (rid : nat)                             (* await inFlight *)
| HDone (r : response)
| HReject (e : err).

(** Await points of [run]. *)
Inductive rpc :=
| RMark                                         (* await markTriageRunning *)
| RMarked (r : res unit)
| RFetch                                        (* await fetch *)
| RFetched (r : res fetched)
| RSettled (r : res jsval).

Record handler := mkHandler { h_case : string; h_alert : alert; h_pc : hpc }.
Record job := mkJob { j_case : string; j_alert : alert; j_pc : rpc }.

(** The error response of the [catch] clauses. *)
Definition error_502 (message : string) : response := RJson 502 (JObj [("error", JStr message)]).

(** [err instanceof Error ? err.message : ...]: everything thrown here is an [Error]. *)
Definition message_of (e : err) : string := err_message e.

(** ** Before the first await *)

(** The body checks: an early response, or the alert to triage. [None] is a
    body that is not JSON; a body that is JSON [null] makes [body.alert] throw. *)
Definition post_body (body : option jsval) : res (response + alert) :=
  match body with
  | None => Ok (inl (RJson 400 (JObj [("error", JStr "Invalid JSON body")])))
  | Some JNull => Throw (mkErr "TypeError" "Cannot read properties of null (reading 'alert')")
  | Some b =>
      if truthy (prop "alert" b) then Ok (inr (spread (prop "alert" b)))
      else Ok (inl (RJson 400 (JObj [("error", JStr "Missing alert field")])))
  end.

Section Route.
Context {Db : Type} `{CaseTables Db}.
Variable orchestrator_url : string.

Record config := mkConfig {
  c_db : Db;
  c_cache : gmap string jsval;      (** [TRIAGE_RESULT_CACHE] *)
  c_inflight : gmap string nat;     (** [TRIAGE_IN_FLIGHT], by job number *)
  c_jobs : list job;
  c_handlers : list handler;
  c_calls : list (string * request);  (** requests sent to the orchestrator *)
  c_answers : list (string * request * res fetched)  (** and its answers *)
}.

Definition with_db (d : Db) (c : config) : config :=
  mkConfig d (c_cache c) (c_inflight c) (c_jobs c) (c_handlers c) (c_calls c) (c_answers c).
Definition with_cache (m : gmap string jsval) (c : config) : config :=
  mkConfig (c_db c) m (c_inflight c) (c_jobs c) (c_handlers c) (c_calls c) (c_answers c).
Definition with_inflight (m : gmap string nat) (c : config) : config :=
  mkConfig (c_db c) (c_cache c) m (c_jobs c) (c_handlers c) (c_calls c) (c_answers c).
Definition with_jobs (l : list job) (c : config) : config :=
  mkConfig (c_db c) (c_cache c) (c_inflight c) l (c_handlers c) (c_calls c) (c_answers c).
Definition with_handlers (l : list handler) (c : config) : config :=
  mkConfig (c_db c) (c_cache c) (c_inflight c) (c_jobs c) l (c_calls c) (c_answers c).
Definition with_calls (l : list (string * request)) (c : config) : config :=
  mkConfig (c_db c) (c_cache c) (c_inflight c) (c_jobs c) (c_handlers c) l (c_answers c).
Definition with_answers (l : list (string * request * res fetched)) (c : config) : config :=
  mkConfig (c_db c) (c_cache c) (c_inflight c) (c_jobs c) (c_handlers c) (c_calls c) l.

Definition init (d : Db) : config := mkConfig d ∅ ∅ [] [] [] [].

(** A write statement: its result and the database afterwards. *)
Definition exec_write (ans : answer) (w : Z → Db → Db) (d : Db) : option (res unit * Db) :=
  match ans with
  | AnsDone now => Some (Ok tt, w now d)
  | AnsFail applied now e => Some (Throw e, if applied then w now d else d)
  | _ => None
  end.

Definition triage_request (caseId : string) (a : alert) : request :=
  post_json (orchestrator_url +:+ "/triage")
    (JObj [("case_id", JStr caseId); ("tenant_id", JStr "default"); ("alert", JObj a)]).

(** ** The job [run] *)

(** [upstream.ok] and [upstream.json()]. *)
Definition job_result (r : res fetched) : res jsval :=
  match r with
  | Throw e => Throw e
  | Ok up =>
      if negb (ft_ok up) then Throw (Error ("Orchestrator returned " +:+ string_of_Z (ft_status up)))
      else match ft_json up with Some v => Ok v | None => Throw json_error end
  end.

Definition set_job (i : nat) (j : job) (pc : rpc) (c : config) : config :=
  with_jobs (<[i := mkJob (j_case j) (j_alert j) pc]> (c_jobs c)) c.

Definition run_step (ans : answer) (i : nat) (c : config) : option config :=
  j ← c_jobs c !! i;
  match j_pc j with
  | RMark =>
      rd ← exec_write ans (λ now, markTriageRunning now now (j_case j)) (c_db c);
      Some (set_job i j (RMarked rd.1) (with_db rd.2 c))
  | RMarked (Ok _) =>
      Some (set_job i j RFetch
              (with_calls (c_calls c ++ [(j_case j, triage_request (j_case j) (j_alert j))]) c))
  | RMarked (Throw e) => Some (set_job i j (RSettled (Throw e)) c)
  | RFetch =>
      match ans with
      | AnsFetch r =>
          Some (set_job i j (RFetched r)
                  (with_answers (c_answers c ++ [(j_case j, triage_request (j_case j) (j_alert j), r)]) c))
      | _ => None
      end
  | RFetched r => Some (set_job i j (RSettled (job_result r)) c)
  | RSettled _ => None
  end.

(** ** The handler [POST] *)

Definition set_handler (i : nat) (h : handler) (pc : hpc) (c : config) : config :=
  with_handlers (<[i := mkHandler (h_case h) (h_alert h) pc]> (c_handlers c)) c.

(** After [getCase]: the three ways to answer without a new job, or the
    enrichment of the alert. *)
Definition after_get (h : handler) (persisted : option CaseRow) (c : config) : hpc :=
  let done :=
    match persisted with
    | Some r => if decide (cw_triage_status r = TComplete) then
                  if truthy (cw_verdict r) then Some (cw_verdict r) else None
                else None
    | None => None
    end in
  match done with
  | Some v => HDone (json_ok v)
  | None =>
      let cached := match c_cache c !! h_case h with
                    | Some v => if truthy v then Some v else None
                    | None => None
                    end in
      match cached with
      | Some v => HDone (json_ok v)
      | None =>
          match c_inflight c !! h_case h with
          | Some rid => HWait rid
          | None =>
              let a := enrich_sync (h_alert h) in
              match needs_baseline a with
              | Some (u, r) => HBase a u r
              | None => HUpsert a
              end
          end
      end
  end.

(** The outcome of a job, once settled. *)
Definition settled (rid : nat) (c : config) : option (res jsval) :=
  j ← c_jobs c !! rid; match j_pc j with RSettled r => Some r | _ => None end.

Definition upsert_case (h : handler) (a : alert) (now : Z) : Db → Db :=
  upsertCaseSnapshot now now now (h_case h) None (JObj a) JNull JUndef.

Definition drop_inflight (h : handler) (c : config) : config :=
  with_inflight (delete (h_case h) (c_inflight c)) c.

Definition handler_step (ans : answer) (i : nat) (c : config) : option config :=
  h ← c_handlers c !! i;
  match h_pc h with
  | HGet =>
      match ans with
      | AnsDone _ => Some (set_handler i h (HGot (Ok (getCase (c_db c) (h_case h)))) c)
      | AnsFail _ _ e => Some (set_handler i h (HGot (Throw e)) c)
      | _ => None
      end
  | HGot (Throw e) => Some (set_handler i h (HReject e) c)
  | HGot (Ok persisted) => Some (set_handler i h (after_get h persisted c) c)
  | HBase a u r =>
      match ans with AnsFetch x => Some (set_handler i h (HBased a r x) c) | _ => None end
  | HBased a r x => Some (set_handler i h (HUpsert (with_baseline r x a)) c)
  | HUpsert a =>
      rd ← exec_write ans (upsert_case h a) (c_db c);
      Some (set_handler i h (HUpserted a rd.1) (with_db rd.2 c))
  | HUpserted a (Throw e) => Some (set_handler i h (HReject e) c)
  | HUpserted a (Ok _) =>
      let rid := length (c_jobs c) in
      Some (set_handler i h (HAwait rid)
              (with_inflight (<[h_case h := rid]> (c_inflight c))
                 (with_jobs (c_jobs c ++ [mkJob (h_case h) a RMark]) c)))
  | HAwait rid =>
      match settled rid c with
      | Some (Ok data) => Some (set_handler i h (HComplete rid data) c)
      | Some (Throw e) => Some (set_handler i h (HFail rid (message_of e)) c)
      | None => None
      end
  | HComplete rid data =>
      rd ← exec_write ans (λ now, markTriageComplete now now (h_case h) data) (c_db c);
      Some (set_handler i h (HCompleted rid data rd.1) (with_db rd.2 c))
  | HCompleted rid data (Ok _) =>
      Some (set_handler i h (HDone (json_ok data))
              (drop_inflight h (with_cache (<[h_case h := data]> (c_cache c)) c)))
  | HCompleted rid data (Throw e) => Some (set_handler i h (HFail rid (message_of e)) c)
  | HFail rid m =>
      rd ← exec_write ans (λ now, markTriageFailed now (h_case h) m) (c_db c);
      Some (set_handler i h (HFailed rid m rd.1) (with_db rd.2 c))
  | HFailed rid m (Ok _) => Some (set_handler i h (HDone (error_502 m)) (drop_inflight h c))
  | HFailed rid m (Throw e) => Some (set_handler i h (HReject e) (drop_inflight h c))
  | HWait rid =>
      match settled rid c with
      | Some (Ok v) => Some (set_handler i h (HDone (json_ok v)) c)
      | Some (Throw e) => Some (set_handler i h (HDone (error_502 (message_of e))) c)
      | None => None
      end
  | HDone _ | HReject _ => None
  end.

(** A request that passed the body checks arrives. *)
Definition arrive (caseId : string) (a : alert) (c : config) : config :=
  with_handlers (c_handlers c ++ [mkHandler caseId a HGet]) c.

(** ** The transition relation *)

Inductive event := EvArrive (caseId : string) (a : alert) | EvHandler (i : nat) (ans : answer)
                 | EvJob (i : nat) (ans : answer).

Definition exec (e : event) (c : config) : option config :=
  match e with
  | EvArrive k a => Some (arrive k a c)
  | EvHandler i ans => handler_step ans i c
  | EvJob i ans => run_step ans i c
  end.

(** Any interleaving of any number of requests. *)
Definition step (c c' : config) : Prop := ∃ e, exec e c = Some c'.

(** Steps of the requests already there. *)
Definition work (c c' : config) : Prop :=
  ∃ e, (match e with EvArrive _ _ => False | _ => True end) ∧ exec e c = Some c'.

Fixpoint exec_all (es : list event) (c : config) : option config :=
  match es with
  | [] => Some c
  | e :: es' => exec e c ≫= exec_all es'
  end.

(** ** [GET]: the durable status *)
Definition opt_date (t : option Z) : jsval :=
  match t with Some ms => JStr (to_iso_string ms) | None => JNull end.

Definition get_status (d : Db) (caseId : string) : response :=
  match getCase d caseId with
  | None => json_ok (JObj [("status", JStr "missing"); ("verdict", JNull)])
  | Some r => json_ok (JObj [
      ("status", JStr (triage_status_string (cw_triage_status r)));
      ("verdict", cw_verdict r);
      ("error", match cw_error r with Some e => JStr e | None => JNull end);
      ("triage_started_at", opt_date (cw_triage_started_at r));
      ("triage_completed_at", opt_date (cw_triage_completed_at r))])
  end.
End Route.

Arguments config Db : clear implicits.
