(* ===== verification/TriageProofs.v ===== *)
(** * Correctness of the triage route

    Invariants of every interleaving of requests ([inv_reachable]), by
    induction over the steps of [TriageRoute.step]. *)
From S2P Require Import Prelude JsObject JsNum JsString JsValue JsDate Types Effects.
From S2P Require Import CaseRepository TriageFeatures TriageRoute.

(** The job a handler has started and still has to account for. *)
Definition owned (pc : hpc) : option nat :=
  match pc with
  | HAwait rid | HComplete rid _ | HCompleted rid _ _ | HFail rid _ | HFailed rid _ _ => Some rid
  | _ => None
  end.

(** Between the in-flight check and the registration of the job. *)
Definition in_window (pc : hpc) : bool :=
  match pc with HBase _ _ _ | HBased _ _ _ | HUpsert _ | HUpserted _ _ => true | _ => false end.

Definition final (pc : hpc) : bool :=
  match pc with HDone _ | HReject _ => true | _ => false end.

Section Proofs.
Context {Db : Type} `{CaseTablesLaws Db}.
Variable orch : string.
Notation config := (config Db).
Notation step := (step (Db := Db) orch).
Implicit Types c : config.

(** ** Evolution of the jobs *)

Definition job_grows (j j' : job) : Prop :=
  j_case j' = j_case j ∧ j_alert j' = j_alert j ∧ (∀ r, j_pc j = RSettled r → j_pc j' = RSettled r).

Definition jobs_le (l l' : list job) : Prop :=
  ∀ rid j, l !! rid = Some j → ∃ j', l' !! rid = Some j' ∧ job_grows j j'.

Lemma jobs_le_refl l : jobs_le l l.
Proof. intros rid j E. exists j. by split_and!. Qed.

Lemma jobs_le_app l k : jobs_le l (l ++ k).
Proof. intros rid j E. exists j. split; [by apply lookup_app_l_Some|by split_and!]. Qed.

Lemma jobs_le_insert l i j pc :
  l !! i = Some j → (∀ r, j_pc j = RSettled r → pc = RSettled r) →
  jobs_le l (<[i := mkJob (j_case j) (j_alert j) pc]> l).
Proof.
  intros E Hpc rid j' E'. destruct (decide (rid = i)) as [->|].
  - simplify_eq. exists (mkJob (j_case j) (j_alert j) pc). split; [|by split_and!].
    apply list_lookup_insert_eq. by eapply lookup_lt_Some.
  - exists j'. rewrite list_lookup_insert_ne by done. by split_and!.
Qed.

(** ** Provenance of verdicts *)

(** A settled, successful job for case [k] with result [v]. *)
Definition result (l : list job) (k : string) (v : jsval) : Prop :=
  ∃ rid j, l !! rid = Some j ∧ j_case j = k ∧ j_pc j = RSettled (Ok v).

Variable d0 : Db.

(** The verdict of a complete case of the initial database. *)
Definition persisted0 (k : string) (v : jsval) : Prop :=
  ∃ r, db_case d0 k = Some r ∧ cw_triage_status r = TComplete ∧ cw_verdict r = v.

Definition verdict_ok (l : list job) (k : string) (v : jsval) : Prop := result l k v ∨ persisted0 k v.

Definition row_ok (l : list job) (k : string) (r : CaseRow) : Prop :=
  cw_triage_status r = TComplete → verdict_ok l k (cw_verdict r).

Lemma result_mono l l' k v : jobs_le l l' → result l k v → result l' k v.
Proof.
  intros Hle (rid & j & E & Hk & Hpc). destruct (Hle rid j E) as (j' & E' & G1 & _ & G3).
  exists rid, j'. split_and!; [done|congruence|by apply G3].
Qed.

Lemma verdict_ok_mono l l' k v : jobs_le l l' → verdict_ok l k v → verdict_ok l' k v.
Proof. intros Hle [?|?]; [left; by eapply result_mono|by right]. Qed.

Lemma row_ok_mono l l' k r : jobs_le l l' → row_ok l k r → row_ok l' k r.
Proof. intros Hle Hr Hc. eapply verdict_ok_mono; eauto. Qed.

(** ** The invariant *)

Definition job_exists (l : list job) (rid : nat) (k : string) : Prop :=
  ∃ j, l !! rid = Some j ∧ j_case j = k.

Definition settled_ok (l : list job) (rid : nat) (k : string) (v : jsval) : Prop :=
  ∃ j, l !! rid = Some j ∧ j_case j = k ∧ j_pc j = RSettled (Ok v).

Definition handler_ok (l : list job) (h : handler) : Prop :=
  match h_pc h with
  | HGot (Ok (Some r)) => row_ok l (h_case h) r
  | HAwait rid | HWait rid | HFail rid _ | HFailed rid _ _ => job_exists l rid (h_case h)
  | HComplete rid v | HCompleted rid v _ => settled_ok l rid (h_case h) v
  | HDone (RJson 200 v) => verdict_ok l (h_case h) v
  | _ => True
  end.

Definition job_ok (calls : list (string * request)) (answers : list (string * request * res fetched)) (j : job) : Prop :=
  let rq := triage_request orch (j_case j) (j_alert j) in
  match j_pc j with
  | RFetch => (j_case j, rq) ∈ calls
  | RFetched x => (j_case j, rq) ∈ calls ∧ (j_case j, rq, x) ∈ answers
  | RSettled (Ok v) =>
      (j_case j, rq) ∈ calls ∧
      ∃ up, (j_case j, rq, Ok up) ∈ answers ∧ ft_ok up = true ∧ ft_json up = Some v
  | _ => True
  end.

Record inv (c : config) : Prop := {
  inv_handlers : ∀ i h, c_handlers c !! i = Some h → handler_ok (c_jobs c) h;
  inv_jobs : ∀ rid j, c_jobs c !! rid = Some j → job_ok (c_calls c) (c_answers c) j;
  inv_rows : ∀ k r, db_case (c_db c) k = Some r → row_ok (c_jobs c) k r;
  inv_cache : ∀ k v, c_cache c !! k = Some v → result (c_jobs c) k v;
  inv_inflight : ∀ k rid, c_inflight c !! k = Some rid →
    job_exists (c_jobs c) rid k ∧
    ∃ i h, c_handlers c !! i = Some h ∧ h_case h = k ∧ owned (h_pc h) = Some rid
}.

Lemma job_exists_mono l l' rid k : jobs_le l l' → job_exists l rid k → job_exists l' rid k.
Proof.
  intros Hle (j & E & Hk). destruct (Hle rid j E) as (j' & E' & G & _). exists j'. split; congruence.
Qed.

Lemma settled_ok_mono l l' rid k v : jobs_le l l' → settled_ok l rid k v → settled_ok l' rid k v.
Proof.
  intros Hle (j & E & Hk & Hp). destruct (Hle rid j E) as (j' & E' & G & _ & G3).
  exists j'. split_and!; [done|congruence|by apply G3].
Qed.

Lemma handler_ok_mono l l' h : jobs_le l l' → handler_ok l h → handler_ok l' h.
Proof.
  intros Hle. unfold handler_ok.
  repeat case_match; eauto using row_ok_mono, job_exists_mono, settled_ok_mono, verdict_ok_mono.
Qed.

Lemma settled_result l rid k v : settled_ok l rid k v → result l k v.
Proof. intros (j & ?). by exists rid, j. Qed.

(** ** Database statements keep the rows acceptable *)

Lemma rows_upsert l (h : handler) a now d :
  (∀ k r, db_case d k = Some r → row_ok l k r) →
  ∀ k r, db_case (upsert_case h a now d) k = Some r → row_ok l k r.
Proof.
  intros Hd k r E. unfold upsert_case in E. destruct (decide (k = h_case h)) as [->|].
  - destruct (upsert_get now now now (h_case h) None (JObj a) JNull JUndef d) as (r' & E' & _ & Hr).
    rewrite E in E'. injection E' as <-. intros Hc. destruct (db_case d (h_case h)) as [r0|] eqn:E0.
    + destruct Hr as (Hs & Hv & _). rewrite Hv. apply (Hd _ _ E0). congruence.
    + destruct Hr as (Hs & _). congruence.
  - rewrite upsert_other in E by done. by apply Hd.
Qed.

Lemma rows_update l k0 f d :
  (∀ r, cw_case_id (f r) = cw_case_id r) →
  (∀ r, db_case d k0 = Some r → row_ok l k0 (f r)) →
  (∀ k r, db_case d k = Some r → row_ok l k r) →
  ∀ k r, db_case (db_update_case k0 f d) k = Some r → row_ok l k r.
Proof.
  intros Hid Hf Hd k r. destruct (decide (k = k0)) as [->|].
  - rewrite update_case_eq by done. intros (r0 & E & ->)%fmap_Some. by apply Hf.
  - rewrite update_case_ne by done. apply Hd.
Qed.
(** ** Preservation *)

Lemma inv_handler c c' i h pc :
  inv c → c_handlers c !! i = Some h →
  c_handlers c' = <[i := mkHandler (h_case h) (h_alert h) pc]> (c_handlers c) →
  jobs_le (c_jobs c) (c_jobs c') →
  (∀ rid j, c_jobs c' !! rid = Some j → job_ok (c_calls c') (c_answers c') j) →
  handler_ok (c_jobs c') (mkHandler (h_case h) (h_alert h) pc) →
  (∀ k r, db_case (c_db c') k = Some r → row_ok (c_jobs c') k r) →
  (∀ k v, c_cache c' !! k = Some v → result (c_jobs c') k v) →
  (∀ k rid, c_inflight c' !! k = Some rid →
     (c_inflight c !! k = Some rid ∧ (k = h_case h → owned (h_pc h) = Some rid → owned pc = Some rid))
     ∨ (k = h_case h ∧ owned pc = Some rid ∧ job_exists (c_jobs c') rid k)) →
  inv c'.
Proof.
  intros I Hi Hh Hle Hj Hok Hr Hc Hf.
  assert (Hnew : c_handlers c' !! i = Some (mkHandler (h_case h) (h_alert h) pc)).
  { rewrite Hh. apply list_lookup_insert_eq. by eapply lookup_lt_Some. }
  constructor; [|done..|].
  - intros i' h' E. destruct (decide (i' = i)) as [->|Hne]; [by simplify_eq|].
    rewrite Hh, list_lookup_insert_ne in E by done.
    eapply handler_ok_mono; [exact Hle|]. by eapply inv_handlers.
  - intros k rid [[E Ho]|(-> & Ho & Hx)]%Hf; [|split; [done|]; eauto].
    destruct (inv_inflight c I k rid E) as (Hx & i0 & h0 & E0 & Hk & Hown).
    split; [by eapply job_exists_mono|]. destruct (decide (i0 = i)) as [->|Hne].
    + assert (h0 = h) as -> by congruence. exists i, (mkHandler (h_case h) (h_alert h) pc).
      split_and!; [done..|]. by apply Ho.
    + exists i0, h0. by rewrite Hh, list_lookup_insert_ne.
Qed.

(** The common case: only the handler's program counter moves. *)
Lemma inv_move c i h pc :
  inv c → c_handlers c !! i = Some h → (∀ rid, owned (h_pc h) = Some rid → owned pc = Some rid) →
  handler_ok (c_jobs c) (mkHandler (h_case h) (h_alert h) pc) → inv (set_handler i h pc c).
Proof.
  intros I Hi Ho Hok. pose proof I as [I1 I2 I3 I4 I5].
  eapply inv_handler; eauto using jobs_le_refl.
Qed.

(** A statement on the case table, with the program counter. *)
Lemma inv_write c i h pc d' :
  inv c → c_handlers c !! i = Some h → (∀ rid, owned (h_pc h) = Some rid → owned pc = Some rid) →
  handler_ok (c_jobs c) (mkHandler (h_case h) (h_alert h) pc) →
  (∀ k r, db_case d' k = Some r → row_ok (c_jobs c) k r) →
  inv (set_handler i h pc (with_db d' c)).
Proof.
  intros I Hi Ho Hok Hd. pose proof I as [I1 I2 I3 I4 I5].
  eapply inv_handler; eauto using jobs_le_refl.
Qed.

Lemma inv_finish c c' i h pc :
  inv c → c_handlers c !! i = Some h → owned pc = None →
  c_handlers c' = <[i := mkHandler (h_case h) (h_alert h) pc]> (c_handlers c) →
  c_jobs c' = c_jobs c → c_calls c' = c_calls c → c_answers c' = c_answers c → c_db c' = c_db c →
  c_inflight c' = delete (h_case h) (c_inflight c) →
  handler_ok (c_jobs c) (mkHandler (h_case h) (h_alert h) pc) →
  (∀ k v, c_cache c' !! k = Some v → result (c_jobs c) k v) → inv c'.
Proof.
  intros I Hi Ho Hh Ej Ec Ea Ed Ef Hok Hc. pose proof I as [I1 I2 I3 I4 I5].
  eapply (inv_handler c c' i h pc); rewrite ?Ej, ?Ec, ?Ea, ?Ed; eauto using jobs_le_refl.
  intros k rid. rewrite Ef. intros [Hne E]%lookup_delete_Some. left. split; [done|]. congruence.
Qed.

Lemma exec_write_rows l ans w d rd :
  exec_write ans w d = Some rd →
  (∀ k r, db_case d k = Some r → row_ok l k r) →
  (∀ now k r, db_case (w now d) k = Some r → row_ok l k r) →
  ∀ k r, db_case rd.2 k = Some r → row_ok l k r.
Proof.
  intros E H1 H2. unfold exec_write in E. destruct ans as [now|[] now e| |]; simplify_eq; simpl; eauto.
Qed.

Lemma settled_spec rid c r :
  settled rid c = Some r → ∃ j, c_jobs c !! rid = Some j ∧ j_pc j = RSettled r.
Proof.
  unfold settled. intros (j & E & Hp)%bind_Some. exists j. split; [done|]. by case_match; simplify_eq.
Qed.

Lemma after_get_ok c h p :
  inv c → handler_ok (c_jobs c) (mkHandler (h_case h) (h_alert h) (HGot (Ok p))) →
  handler_ok (c_jobs c) (mkHandler (h_case h) (h_alert h) (after_get h p c))
  ∧ owned (after_get h p c) = None.
Proof.
  intros I Hg. unfold after_get.
  assert (Hrest : ∀ pc, pc = match c_inflight c !! h_case h with
      | Some rid => HWait rid
      | None => match needs_baseline (enrich_sync (h_alert h)) with
                | Some (u, r) => HBase (enrich_sync (h_alert h)) u r
                | None => HUpsert (enrich_sync (h_alert h)) end end →
    handler_ok (c_jobs c) (mkHandler (h_case h) (h_alert h) pc) ∧ owned pc = None).
  { intros pc ->. destruct (c_inflight c !! h_case h) as [rid|] eqn:E.
    - split; [|done]. by apply (inv_inflight c I).
    - by destruct (needs_baseline _) as [[? ?]|]. }
  assert (Hcache : ∀ v, c_cache c !! h_case h = Some v →
    handler_ok (c_jobs c) (mkHandler (h_case h) (h_alert h) (HDone (json_ok v)))).
  { intros v E. left. by apply (inv_cache c I). }
  assert (Hrow : ∀ r, p = Some r → cw_triage_status r = TComplete →
    handler_ok (c_jobs c) (mkHandler (h_case h) (h_alert h) (HDone (json_ok (cw_verdict r))))).
  { intros r -> Hc. exact (Hg Hc). }
  repeat case_match; simplify_eq; auto.
Qed.
Lemma rows_complete l h data now d :
  verdict_ok l (h_case h) data → (∀ k r, db_case d k = Some r → row_ok l k r) →
  ∀ k r, db_case (markTriageComplete now now (h_case h) data d) k = Some r → row_ok l k r.
Proof. intros Hv. apply rows_update; [done|]. by intros r _ _. Qed.

Lemma rows_failed l h m now d :
  (∀ k r, db_case d k = Some r → row_ok l k r) →
  ∀ k r, db_case (markTriageFailed now (h_case h) m d) k = Some r → row_ok l k r.
Proof. apply rows_update; done. Qed.

Lemma rows_running l k0 now d :
  (∀ k r, db_case d k = Some r → row_ok l k r) →
  ∀ k r, db_case (markTriageRunning now now k0 d) k = Some r → row_ok l k r.
Proof. apply rows_update; done. Qed.

Lemma inv_register c i h a :
  inv c → c_handlers c !! i = Some h → owned (h_pc h) = None →
  inv (set_handler i h (HAwait (length (c_jobs c)))
         (with_inflight (<[h_case h := length (c_jobs c)]> (c_inflight c))
            (with_jobs (c_jobs c ++ [mkJob (h_case h) a RMark]) c))).
Proof.
  intros I Hi Ho. pose proof I as [I1 I2 I3 I4 I5].
  assert (Hle : jobs_le (c_jobs c) (c_jobs c ++ [mkJob (h_case h) a RMark])) by apply jobs_le_app.
  assert (Hx : job_exists (c_jobs c ++ [mkJob (h_case h) a RMark]) (length (c_jobs c)) (h_case h)).
  { eexists. split; [by apply list_lookup_middle|done]. }
  eapply (inv_handler c _ i h (HAwait (length (c_jobs c)))); simpl; try done.
  - intros rid j [E|[_ E]]%lookup_app_Some; [by eapply I2|].
    apply list_lookup_singleton_Some in E as [_ <-]. done.
  - intros k r E. eapply row_ok_mono; eauto.
  - intros k v E. eapply result_mono; eauto.
  - intros k rid. destruct (decide (k = h_case h)) as [->|Hne].
    + rewrite lookup_insert_eq. intros [= <-]. by right.
    + rewrite lookup_insert_ne by done. left. split; [done|]. congruence.
Qed.

Ltac dest_write E :=
  let rd := fresh "rd" in let W := fresh "W" in
  apply bind_Some in E as (rd & W & E); injection E as <-.

Lemma handler_step_inv ans i c c' : inv c → handler_step ans i c = Some c' → inv c'.
Proof.
  intros I. pose proof I as [I1 I2 I3 I4 I5]. unfold handler_step.
  intros (h & Hi & E)%bind_Some. pose proof (I1 i h Hi) as Hok. unfold handler_ok in Hok.
  destruct (h_pc h) as [|[p|e]|a u r|a r x|a|a [[]|e]|rid|rid v|rid v [[]|e]|rid m|rid m [[]|e]|rid|r|e]
    eqn:Hpc; try discriminate.
  - destruct ans; simplify_eq; apply inv_move; rewrite ?Hpc; try done.
    unfold handler_ok; simpl. destruct (getCase (c_db c) (h_case h)) as [r|] eqn:Er; [|done].
    by apply (I3 _ _ Er).
  - injection E as <-. destruct (after_get_ok c h p I) as [Ha Ho]; [done|].
    apply inv_move; rewrite ?Hpc; done.
  - injection E as <-. apply inv_move; rewrite ?Hpc; done.
  - destruct ans; simplify_eq. apply inv_move; rewrite ?Hpc; done.
  - injection E as <-. apply inv_move; rewrite ?Hpc; done.
  - dest_write E. apply inv_write; rewrite ?Hpc; try done.
    eapply exec_write_rows; [exact W|done|]. intros now. by apply rows_upsert.
  - injection E as <-. apply inv_register; rewrite ?Hpc; done.
  - injection E as <-. apply inv_move; rewrite ?Hpc; done.
  - destruct (settled rid c) as [[data|e]|] eqn:Hs; simplify_eq; apply inv_move; rewrite ?Hpc; try done.
    apply settled_spec in Hs as (j & Ej & Hj). destruct Hok as (j' & Ej' & Hk). exists j. naive_solver.
  - dest_write E. apply inv_write; rewrite ?Hpc; try done.
    eapply exec_write_rows; [exact W|done|]. intros now. apply rows_complete; [|done].
    left. by eapply settled_result.
  - injection E as <-. eapply (inv_finish c _ i h (HDone (json_ok v))); try done.
    + left. by eapply settled_result.
    + simpl. intros k w. destruct (decide (k = h_case h)) as [->|Hne].
      * rewrite lookup_insert_eq. intros [= <-]. by eapply settled_result.
      * rewrite lookup_insert_ne by done. apply I4.
  - injection E as <-. apply inv_move; rewrite ?Hpc; try done.
    destruct Hok as (j & Ej & Hk & _). by exists j.
  - dest_write E. apply inv_write; rewrite ?Hpc; try done.
    eapply exec_write_rows; [exact W|done|]. intros now. by apply rows_failed.
  - injection E as <-. by eapply (inv_finish c _ i h (HDone (error_502 m))).
  - injection E as <-. by eapply (inv_finish c _ i h (HReject e)).
  - destruct (settled rid c) as [[data|e]|] eqn:Hs; simplify_eq; apply inv_move; rewrite ?Hpc; try done.
    apply settled_spec in Hs as (j & Ej & Hj). destruct Hok as (j' & Ej' & Hk).
    left. exists rid, j. naive_solver.
Qed.

Lemma job_ok_mono calls calls' answers answers' j :
  (∀ x, x ∈ calls → x ∈ calls') → (∀ x, x ∈ answers → x ∈ answers') →
  job_ok calls answers j → job_ok calls' answers' j.
Proof. unfold job_ok. intros Hc Ha. repeat case_match; naive_solver. Qed.

(** A job succeeds only on a 2xx answer whose body is JSON. *)
Lemma job_result_ok x v : job_result x = Ok v → ∃ up, x = Ok up ∧ ft_ok up = true ∧ ft_json up = Some v.
Proof.
  unfold job_result. destruct x as [up|e]; [|done]. destruct (ft_ok up) eqn:Hok; [|done]. simpl.
  destruct (ft_json up) as [w|] eqn:Hj; [|done]. intros [= ->]. by exists up.
Qed.

Lemma inv_job c i j pc d' calls' answers' :
  inv c → c_jobs c !! i = Some j → (∀ r, j_pc j = RSettled r → pc = RSettled r) →
  (∀ x, x ∈ c_calls c → x ∈ calls') → (∀ x, x ∈ c_answers c → x ∈ answers') →
  job_ok calls' answers' (mkJob (j_case j) (j_alert j) pc) →
  (∀ k r, db_case d' k = Some r → row_ok (c_jobs c) k r) →
  inv (set_job i j pc (mkConfig d' (c_cache c) (c_inflight c) (c_jobs c) (c_handlers c) calls' answers')).
Proof.
  intros [I1 I2 I3 I4 I5] Hi Hpc Hcalls Hans Hok Hd.
  assert (Hle : jobs_le (c_jobs c) (<[i := mkJob (j_case j) (j_alert j) pc]> (c_jobs c)))
    by (by apply jobs_le_insert).
  constructor; simpl.
  - intros i' h E. eapply handler_ok_mono; eauto.
  - intros rid j' E. destruct (decide (rid = i)) as [->|Hne].
    + rewrite list_lookup_insert_eq in E by (by eapply lookup_lt_Some). by injection E as <-.
    + rewrite list_lookup_insert_ne in E by done. eapply job_ok_mono; eauto.
  - intros k r E. eapply row_ok_mono; eauto.
  - intros k v E. eapply result_mono; eauto.
  - intros k rid E. destruct (I5 k rid E) as [Hx Ho]. split; [|done]. by eapply job_exists_mono.
Qed.

Lemma run_step_inv ans i c c' : inv c → run_step orch ans i c = Some c' → inv c'.
Proof.
  intros I. pose proof I as [I1 I2 I3 I4 I5]. unfold run_step.
  intros (j & Hi & E)%bind_Some. pose proof (I2 i j Hi) as Hok. unfold job_ok in Hok.
  destruct (j_pc j) as [|[[]|e]| |x|x] eqn:Hpc; try discriminate.
  - dest_write E. apply (inv_job c i j (RMarked rd.1) rd.2 (c_calls c) (c_answers c)); rewrite ?Hpc; try done.
    eapply exec_write_rows; [exact W|done|]. intros now. by apply rows_running.
  - injection E as <-. eapply (inv_job c i j RFetch (c_db c) _ (c_answers c)); rewrite ?Hpc; try done.
    + intros x Hx. apply elem_of_app. by left.
    + unfold job_ok. simpl. apply elem_of_app. right. by apply list_elem_of_singleton.
  - injection E as <-. apply (inv_job c i j (RSettled (Throw e)) (c_db c) (c_calls c) (c_answers c)); rewrite ?Hpc; done.
  - destruct ans; simplify_eq.
    eapply (inv_job c i j (RFetched r) (c_db c) (c_calls c)); rewrite ?Hpc; try done.
    + intros x Hx. apply elem_of_app. by left.
    + unfold job_ok. simpl. split; [done|]. apply elem_of_app. right. by apply list_elem_of_singleton.
  - injection E as <-.
    apply (inv_job c i j (RSettled (job_result x)) (c_db c) (c_calls c) (c_answers c)); rewrite ?Hpc; try done.
    destruct Hok as [Hc Ha]. unfold job_ok. simpl. destruct (job_result x) as [v|e] eqn:Er; [|done].
    apply job_result_ok in Er as (up & -> & Hup & Hv). split; [done|]. by exists up.
Qed.

Lemma arrive_inv k a c : inv c → inv (arrive k a c).
Proof.
  intros [I1 I2 I3 I4 I5]. constructor; simpl; try done.
  - intros i h [E|[_ E]]%lookup_app_Some; [by eapply I1|].
    apply list_lookup_singleton_Some in E as [_ <-]. done.
  - intros k' rid E. destruct (I5 k' rid E) as (Hx & i & h & Eh & ?). split; [done|].
    exists i, h. split; [by apply lookup_app_l_Some|done].
Qed.

Lemma step_inv c c' : inv c → step c c' → inv c'.
Proof.
  intros I [[k a|i ans|i ans] E]; simpl in E.
  - injection E as <-. by apply arrive_inv.
  - by eapply handler_step_inv.
  - by eapply run_step_inv.
Qed.

Lemma init_inv : inv (init d0).
Proof.
  constructor; simpl; intros *; rewrite ?lookup_nil, ?lookup_empty; try done.
  intros E Hc. right. by exists r.
Qed.

(** Every reachable configuration satisfies the invariant. *)
Lemma inv_reachable c : star step (init d0) c → inv c.
Proof. apply star_invariant; [apply init_inv|apply step_inv]. Qed.
End Proofs.
