(* ===== verification/TriageTheorems.v ===== *)
(** * The triage route: properties

    What clients of the route rely on: where verdicts come from, that every
    request is answered, that no in-flight entry is left behind, when the
    in-flight map does (and does not) prevent a second job for a case, and
    what the enrichment does to an alert. *)
From S2P Require Import Prelude JsObject JsNum JsString JsValue JsDate Types Effects.
From S2P Require Import CaseRepository TriageFeatures TriageRoute TriageProofs.

(** ** Termination measure *)

Definition hrank (pc : hpc) : nat :=
  match pc with
  | HGet => 20 | HGot _ => 19 | HBase _ _ _ => 18 | HBased _ _ _ => 17
  | HUpsert _ => 16 | HUpserted _ _ => 15 | HAwait _ => 6 | HComplete _ _ => 5
  | HCompleted _ _ _ => 4 | HFail _ _ => 3 | HFailed _ _ _ => 2 | HWait _ => 1
  | HDone _ | HReject _ => 0
  end.

Definition jrank (pc : rpc) : nat :=
  match pc with RMark => 4 | RMarked _ => 3 | RFetch => 2 | RFetched _ => 1 | RSettled _ => 0 end.

Lemma sum_insert {A} (f : A → nat) (l : list A) i x y :
  l !! i = Some x → (sum_list_with f (<[i := y]> l) + f x = sum_list_with f l + f y)%nat.
Proof.
  revert i; induction l as [|z l IH]; intros [|i] E; simpl in *; try done.
  - injection E as ->. lia.
  - specialize (IH i E). lia.
Qed.

Section Theorems.
Context {Db : Type} `{CaseTablesLaws Db}.
Variable orch : string.
Notation config := (config Db).
Notation step := (step (Db := Db) orch).
Notation work := (work (Db := Db) orch).
Implicit Types c : config.

Definition measure c : nat :=
  (sum_list_with (λ h, hrank (h_pc h)) (c_handlers c) + sum_list_with (λ j, jrank (j_pc j)) (c_jobs c))%nat.

Lemma after_get_rank h p c : (hrank (after_get h p c) < 19)%nat.
Proof. unfold after_get. repeat case_match; simpl; lia. Qed.

Lemma measure_handler c c' i h pc extra :
  c_handlers c !! i = Some h →
  c_handlers c' = <[i := mkHandler (h_case h) (h_alert h) pc]> (c_handlers c) →
  c_jobs c' = c_jobs c ++ extra →
  (hrank pc + sum_list_with (λ j, jrank (j_pc j)) extra < hrank (h_pc h))%nat →
  (measure c' < measure c)%nat.
Proof.
  intros Hi Hh Hj Hlt. unfold measure. rewrite Hh, Hj, sum_list_with_app.
  pose proof (sum_insert (λ h, hrank (h_pc h)) (c_handlers c) i h (mkHandler (h_case h) (h_alert h) pc) Hi).
  simpl in *. lia.
Qed.

Ltac rank_step Hi Hpc extra :=
  eapply (measure_handler _ _ _ _ _ extra Hi); [reflexivity|simpl; by rewrite ?app_nil_r|rewrite Hpc; simpl; lia].

Lemma handler_step_measure ans i c c' : handler_step ans i c = Some c' → (measure c' < measure c)%nat.
Proof.
  unfold handler_step. intros (h & Hi & E)%bind_Some.
  destruct (h_pc h) as [|[p|e]|a u r|a r x|a|a [[]|e]|rid|rid v|rid v [[]|e]|rid m|rid m [[]|e]|rid|r|e]
    eqn:Hpc; try discriminate.
  - destruct ans; simplify_eq; rank_step Hi Hpc (@nil job).
  - injection E as <-. eapply (measure_handler _ _ _ _ _ [] Hi); [reflexivity|by rewrite app_nil_r|].
    rewrite Hpc. simpl. pose proof (after_get_rank h p c). lia.
  - injection E as <-. rank_step Hi Hpc (@nil job).
  - destruct ans; simplify_eq; rank_step Hi Hpc (@nil job).
  - injection E as <-. rank_step Hi Hpc (@nil job).
  - apply bind_Some in E as (rd & W & E). injection E as <-. rank_step Hi Hpc (@nil job).
  - injection E as <-. rank_step Hi Hpc [mkJob (h_case h) a RMark].
  - injection E as <-. rank_step Hi Hpc (@nil job).
  - destruct (settled rid c) as [[data|e]|] eqn:Hs; simplify_eq; rank_step Hi Hpc (@nil job).
  - apply bind_Some in E as (rd & W & E). injection E as <-. rank_step Hi Hpc (@nil job).
  - injection E as <-. rank_step Hi Hpc (@nil job).
  - injection E as <-. rank_step Hi Hpc (@nil job).
  - apply bind_Some in E as (rd & W & E). injection E as <-. rank_step Hi Hpc (@nil job).
  - injection E as <-. rank_step Hi Hpc (@nil job).
  - injection E as <-. rank_step Hi Hpc (@nil job).
  - destruct (settled rid c) as [[data|e]|] eqn:Hs; simplify_eq; rank_step Hi Hpc (@nil job).
Qed.

Lemma measure_job c c' i j pc :
  c_jobs c !! i = Some j → c_handlers c' = c_handlers c →
  c_jobs c' = <[i := mkJob (j_case j) (j_alert j) pc]> (c_jobs c) →
  (jrank pc < jrank (j_pc j))%nat → (measure c' < measure c)%nat.
Proof.
  intros Hi Hh Hj Hlt. unfold measure. rewrite Hh, Hj.
  pose proof (sum_insert (λ j, jrank (j_pc j)) (c_jobs c) i j (mkJob (j_case j) (j_alert j) pc) Hi).
  simpl in *. lia.
Qed.

Lemma run_step_measure ans i c c' : run_step orch ans i c = Some c' → (measure c' < measure c)%nat.
Proof.
  unfold run_step. intros (j & Hi & E)%bind_Some.
  destruct (j_pc j) as [|[[]|e]| |x|x] eqn:Hpc; try discriminate.
  1: apply bind_Some in E as (rd & W & E).
  4: destruct ans; try discriminate.
  all: injection E as <-; eapply (measure_job _ _ _ _ _ Hi); [reflexivity..|rewrite Hpc; simpl; lia].
Qed.

Lemma work_measure c c' : work c c' → (measure c' < measure c)%nat.
Proof.
  intros ([k a|i ans|i ans] & Hw & E); [done| |].
  - by eapply handler_step_measure.
  - by eapply run_step_measure.
Qed.

Lemma work_step c c' : work c c' → step c c'.
Proof. intros (e & _ & E). by exists e. Qed.

(** ** Where a verdict can come from *)

(** The database already held [v] as the case's completed verdict. *)
Definition stored_complete (d : Db) (k : string) (v : jsval) : Prop :=
  ∃ r, db_case d k = Some r ∧ cw_triage_status r = TComplete ∧ cw_verdict r = v.

(** The orchestrator was sent a triage request for case [k] and answered it
    with a 2xx status and the JSON body [v]. *)
Definition answered_by c (k : string) (v : jsval) : Prop :=
  ∃ a up, (k, triage_request orch k a) ∈ c_calls c ∧ (k, triage_request orch k a, Ok up) ∈ c_answers c ∧
          ft_ok up = true ∧ ft_json up = Some v.

Lemma result_answered d0 c k v : inv orch d0 c → result (c_jobs c) k v → answered_by c k v.
Proof.
  intros I (rid & j & Ej & <- & Hj). pose proof (inv_jobs _ _ _ I rid j Ej) as Hc.
  unfold job_ok in Hc. rewrite Hj in Hc. destruct Hc as (Hcall & up & ?). by exists (j_alert j), up.
Qed.

(** ** No deadlock *)

Definition job_final (pc : rpc) : bool := match pc with RSettled _ => true | _ => false end.

Lemma job_enabled c i j :
  c_jobs c !! i = Some j → job_final (j_pc j) = false → ∃ c', work c c'.
Proof.
  intros Hi Hf.
  assert (Hgo : ∀ ans c', run_step orch ans i c = Some c' → ∃ c', work c c').
  { intros ans c' E. exists c', (EvJob i ans). done. }
  unfold run_step in Hgo. rewrite Hi in Hgo. simpl in Hgo.
  destruct (j_pc j) as [|[[]|e]| |x|x] eqn:Hpc; try discriminate;
    first [eapply (Hgo AnsTick); reflexivity | eapply (Hgo (AnsDone 0)); reflexivity
          | eapply (Hgo (AnsFetch (Throw json_error))); reflexivity].
Qed.

Lemma waiting_enabled c i h rid :
  c_handlers c !! i = Some h → (h_pc h = HAwait rid ∨ h_pc h = HWait rid) →
  job_exists (c_jobs c) rid (h_case h) → ∃ c', work c c'.
Proof.
  intros Hi Hpc (j & Ej & _). destruct (job_final (j_pc j)) eqn:Hf; [|by eapply job_enabled].
  destruct (j_pc j) as [| | | |r] eqn:Hj; try discriminate.
  assert (Hs : settled rid c = Some r) by (unfold settled; by rewrite Ej; simpl; rewrite Hj).
  assert (Hgo : ∀ c', handler_step AnsTick i c = Some c' → ∃ c', work c c').
  { intros c' E. exists c', (EvHandler i AnsTick). done. }
  unfold handler_step in Hgo. rewrite Hi in Hgo. simpl in Hgo.
  destruct r, Hpc as [Hp|Hp]; rewrite Hp, Hs in Hgo; eapply Hgo; reflexivity.
Qed.

Lemma handler_enabled (d0 : Db) c i h :
  inv orch d0 c → c_handlers c !! i = Some h → final (h_pc h) = false → ∃ c', work c c'.
Proof.
  intros I Hi Hf. pose proof (inv_handlers _ _ _ I i h Hi) as Hok. unfold handler_ok in Hok.
  assert (Hgo : ∀ ans c', handler_step ans i c = Some c' → ∃ c', work c c').
  { intros ans c' E. exists c', (EvHandler i ans). done. }
  unfold handler_step in Hgo. rewrite Hi in Hgo. simpl in Hgo.
  destruct (h_pc h) as [|[p|e]|a u r|a r x|a|a [[]|e]|rid|rid v|rid v [[]|e]|rid m|rid m [[]|e]|rid|r|e]
    eqn:Hpc; try discriminate;
    try (by eapply waiting_enabled; eauto);
    first [eapply (Hgo AnsTick); reflexivity | eapply (Hgo (AnsDone 0)); reflexivity
          | eapply (Hgo (AnsFetch (Throw json_error))); reflexivity].
Qed.

Definition all_final c : Prop := ∀ i h, c_handlers c !! i = Some h → final (h_pc h) = true.

Lemma final_dec c : all_final c ∨ ∃ i h, c_handlers c !! i = Some h ∧ final (h_pc h) = false.
Proof.
  destruct (decide (Forall (λ h, final (h_pc h) = true) (c_handlers c))) as [F|F].
  - left. intros i h E. rewrite Forall_lookup in F. by eapply F.
  - right. apply not_Forall_Exists in F; [|intros h; apply _].
    apply Exists_exists in F as (h & Hin & Hf). apply list_elem_of_lookup in Hin as [i Hi].
    exists i, h. split; [done|]. simpl in Hf. by destruct (final (h_pc h)).
Qed.

(** C2: every request is answered. From any reachable configuration, once
    no further request arrives, the system can only take finitely many
    steps (the measure bounds their number), and it only stops when every
    handler has returned a response or thrown: no request waits forever on
    a job that cannot settle. *)
Theorem triage_all_answered (d0 : Db) c :
  star step (init d0) c →
  (∀ c1 c2, work c1 c2 → (measure c2 < measure c1)%nat) ∧
  ((∀ c', ¬ work c c') → all_final c) ∧
  ∃ c', star work c c' ∧ all_final c'.
Proof.
  intros R. split; [exact work_measure|]. split.
  - intros Hstuck. destruct (final_dec c) as [|(i & h & Hi & Hf)]; [done|].
    destruct (handler_enabled d0 c i h (inv_reachable orch d0 c R) Hi Hf) as [c' Hw].
    by destruct (Hstuck c').
  - remember (measure c) as n eqn:En. revert c R En.
    induction (lt_wf n) as [n _ IH]; intros c R ->.
    destruct (final_dec c) as [|(i & h & Hi & Hf)]; [by exists c; split; [constructor|]|].
    destruct (handler_enabled d0 c i h (inv_reachable orch d0 c R) Hi Hf) as [c1 Hw].
    destruct (IH (measure c1) (work_measure c c1 Hw) c1) as (c2 & R2 & F2); [|done|].
    + eapply star_snoc; [exact R|]. by apply work_step.
    + exists c2. split; [|done]. eapply star_trans; [|exact R2].
      eapply star_snoc; [constructor|exact Hw].
Qed.

(** C1: verdicts are never crossed or made up. Whatever the interleaving,
    a 200 response to a request for case [k] carries either the verdict of
    a case that was already complete in the database under the same id, or
    the JSON body with which the orchestrator answered a request that was
    sent for that same case. *)
Theorem triage_verdict_provenance (d0 : Db) c i h v :
  star step (init d0) c →
  c_handlers c !! i = Some h → h_pc h = HDone (RJson 200 v) →
  stored_complete d0 (h_case h) v ∨ answered_by c (h_case h) v.
Proof.
  intros R Hi Hpc. pose proof (inv_reachable orch d0 c R) as I.
  pose proof (inv_handlers _ _ _ I i h Hi) as Hok. unfold handler_ok in Hok. rewrite Hpc in Hok.
  destruct Hok as [Hr|?]; [right; by eapply result_answered|by left].
Qed.

(** C5: the durable verdicts obey the same rule: a case that the database
    reports complete holds a verdict that was there initially or that the
    orchestrator returned for this case. *)
Theorem triage_db_provenance (d0 : Db) c k r :
  star step (init d0) c →
  db_case (c_db c) k = Some r → cw_triage_status r = TComplete →
  stored_complete d0 k (cw_verdict r) ∨ answered_by c k (cw_verdict r).
Proof.
  intros R E Hc. pose proof (inv_reachable orch d0 c R) as I.
  destruct (inv_rows _ _ _ I k r E Hc) as [|]; [right; by eapply result_answered|by left].
Qed.

(** C3: [TRIAGE_IN_FLIGHT] does not leak. Every entry points to a job for
    its own case, and belongs to a handler that has not finished; so when
    all requests have been answered, by whatever mix of successes, errors
    and database failures, the map is empty. *)
Theorem triage_inflight_no_leak (d0 : Db) c :
  star step (init d0) c →
  (∀ k rid, c_inflight c !! k = Some rid → job_exists (c_jobs c) rid k) ∧
  (all_final c → c_inflight c = ∅).
Proof.
  intros R. pose proof (inv_inflight _ _ _ (inv_reachable orch d0 c R)) as I. split.
  - intros k rid E. by apply I.
  - intros F. apply map_eq. intros k. rewrite lookup_empty.
    destruct (c_inflight c !! k) as [rid|] eqn:E; [|done]. exfalso.
    destruct (I k rid E) as (_ & i & h & Hi & _ & Ho). specialize (F i h Hi).
    destruct (h_pc h); discriminate.
Qed.

(** ** When a case has a single job *)

Definition active (pc : hpc) : bool := in_window pc || bool_decide (is_Some (owned pc)).

(** A step in which no request for case [k] goes through the in-flight check
    while another one is between its own check and the registration. *)
Definition serial_step (k : string) c c' : Prop :=
  ∃ e, exec orch e c = Some c' ∧
  ∀ i ans h r, e = EvHandler i ans → c_handlers c !! i = Some h → h_case h = k → h_pc h = HGot r →
    ∀ i' h', c_handlers c !! i' = Some h' → h_case h' = k → in_window (h_pc h') = false.

Record single (k : string) c : Prop := {
  sg_active : ∀ i h i' h', c_handlers c !! i = Some h → c_handlers c !! i' = Some h' →
    h_case h = k → h_case h' = k → active (h_pc h) = true → active (h_pc h') = true → i = i';
  sg_registered : ∀ i h rid, c_handlers c !! i = Some h → h_case h = k →
    owned (h_pc h) = Some rid → c_inflight c !! k = Some rid;
  sg_jobs : ∀ rid j, c_jobs c !! rid = Some j → j_case j = k → job_final (j_pc j) = false →
    ∃ i h, c_handlers c !! i = Some h ∧ h_case h = k ∧ h_pc h = HAwait rid
}.

(** What one handler step does, as far as [single] is concerned. *)
Inductive hmove (c : config) (i : nat) (h : handler) : config → Prop :=
| hm_move c' pc :
    (* the counter moves; jobs and in-flight map stay *)
    c_handlers c' = <[i := mkHandler (h_case h) (h_alert h) pc]> (c_handlers c) →
    c_jobs c' = c_jobs c → c_inflight c' = c_inflight c →
    (active pc = true → active (h_pc h) = true) →
    (∀ rid, owned pc = Some rid → owned (h_pc h) = Some rid) →
    (∀ rid, h_pc h = HAwait rid → ∃ j, c_jobs c !! rid = Some j ∧ job_final (j_pc j) = true) →
    hmove c i h c'
| hm_check c' pc r :
    h_pc h = HGot r → c_inflight c !! h_case h = None → in_window pc = true →
    c_handlers c' = <[i := mkHandler (h_case h) (h_alert h) pc]> (c_handlers c) →
    c_jobs c' = c_jobs c → c_inflight c' = c_inflight c → hmove c i h c'
| hm_register c' a :
    in_window (h_pc h) = true →
    c_handlers c' = <[i := mkHandler (h_case h) (h_alert h) (HAwait (length (c_jobs c)))]> (c_handlers c) →
    c_jobs c' = c_jobs c ++ [mkJob (h_case h) a RMark] →
    c_inflight c' = <[h_case h := length (c_jobs c)]> (c_inflight c) → hmove c i h c'
| hm_finish c' pc :
    is_Some (owned (h_pc h)) → (∀ rid, h_pc h ≠ HAwait rid) → final pc = true →
    c_handlers c' = <[i := mkHandler (h_case h) (h_alert h) pc]> (c_handlers c) →
    c_jobs c' = c_jobs c → c_inflight c' = delete (h_case h) (c_inflight c) → hmove c i h c'.

Lemma after_get_move c h p :
  final (after_get h p c) = true ∨ (∃ rid, after_get h p c = HWait rid) ∨
  (c_inflight c !! h_case h = None ∧ in_window (after_get h p c) = true).
Proof. unfold after_get. repeat case_match; simplify_eq; simpl; eauto. Qed.

Ltac move_step Hpc := eapply hm_move; [reflexivity..| | |]; rewrite ?Hpc; naive_solver.

Lemma handler_step_hmove ans i c c' :
  handler_step ans i c = Some c' → ∃ h, c_handlers c !! i = Some h ∧ hmove c i h c'.
Proof.
  unfold handler_step. intros (h & Hi & E)%bind_Some. exists h. split; [done|].
  destruct (h_pc h) as [|[p|e]|a u r|a r x|a|a [[]|e]|rid|rid v|rid v [[]|e]|rid m|rid m [[]|e]|rid|r|e]
    eqn:Hpc; try discriminate.
  - destruct ans; simplify_eq; move_step Hpc.
  - injection E as <-. destruct (after_get_move c h p) as [Hf|[[rid Hw]|[Hn Hw]]].
    + eapply hm_move; [reflexivity..| | |]; rewrite ?Hpc; destruct (after_get h p c); naive_solver.
    + rewrite Hw. move_step Hpc.
    + eapply hm_check; done.
  - injection E as <-. move_step Hpc.
  - destruct ans; simplify_eq; move_step Hpc.
  - injection E as <-. move_step Hpc.
  - apply bind_Some in E as (rd & W & E). injection E as <-. move_step Hpc.
  - injection E as <-. eapply hm_register; [by rewrite Hpc|reflexivity..].
  - injection E as <-. move_step Hpc.
  - destruct (settled rid c) as [[data|e]|] eqn:Hs; simplify_eq;
      apply settled_spec in Hs as (j & Ej & Hj);
      (eapply hm_move; [reflexivity..| | |]; rewrite ?Hpc; [done..|]);
      intros rid' [= <-]; exists j; by rewrite Hj.
  - apply bind_Some in E as (rd & W & E). injection E as <-. move_step Hpc.
  - injection E as <-. eapply (hm_finish _ _ _ _ (HDone (json_ok v))); rewrite ?Hpc; done.
  - injection E as <-. move_step Hpc.
  - apply bind_Some in E as (rd & W & E). injection E as <-. move_step Hpc.
  - injection E as <-. eapply (hm_finish _ _ _ _ (HDone (error_502 m))); rewrite ?Hpc; done.
  - injection E as <-. eapply (hm_finish _ _ _ _ (HReject e)); rewrite ?Hpc; done.
  - destruct (settled rid c) as [[data|e]|] eqn:Hs; simplify_eq; move_step Hpc.
Qed.

Lemma lookup_set c c' i h pc i' h' :
  c_handlers c !! i = Some h →
  c_handlers c' = <[i := mkHandler (h_case h) (h_alert h) pc]> (c_handlers c) →
  c_handlers c' !! i' = Some h' ↔
    (i' = i ∧ h' = mkHandler (h_case h) (h_alert h) pc) ∨ (i' ≠ i ∧ c_handlers c !! i' = Some h').
Proof.
  intros Hi ->. destruct (decide (i' = i)) as [->|Hne].
  - rewrite list_lookup_insert_eq by (by eapply lookup_lt_Some). naive_solver.
  - rewrite list_lookup_insert_ne by done. naive_solver.
Qed.

Lemma owned_active pc rid : owned pc = Some rid → active pc = true.
Proof. unfold active. intros ->. by destruct (in_window pc). Qed.

Lemma active_split pc : active pc = true → in_window pc = true ∨ ∃ rid, owned pc = Some rid.
Proof.
  unfold active. intros [?|Ho]%orb_true_iff; [by left|]. right.
  apply bool_decide_eq_true in Ho. destruct Ho as [x Hx]. eauto.
Qed.

Lemma single_move k c c' i h pc :
  single k c → c_handlers c !! i = Some h →
  c_handlers c' = <[i := mkHandler (h_case h) (h_alert h) pc]> (c_handlers c) →
  c_jobs c' = c_jobs c → c_inflight c' = c_inflight c →
  (h_case h = k → active pc = true → ∀ i' h', c_handlers c !! i' = Some h' → h_case h' = k →
     active (h_pc h') = true → i' = i) →
  (∀ rid, owned pc = Some rid → owned (h_pc h) = Some rid) →
  (∀ rid, h_pc h = HAwait rid → ∃ j, c_jobs c !! rid = Some j ∧ job_final (j_pc j) = true) →
  single k c'.
Proof.
  intros [A R J] Hi Hh Ej Ef Hact Hown Haw. constructor.
  - intros i1 h1 i2 h2. rewrite !(lookup_set c c' i h pc) by done.
    intros [[-> ->]|[Hn1 E1]] [[-> ->]|[Hn2 E2]]; simpl; intros; eauto.
  - intros i1 h1 rid. rewrite (lookup_set c c' i h pc), Ef by done.
    intros [[-> ->]|[Hn1 E1]]; simpl; intros; eauto.
  - intros rid j. rewrite Ej. intros E Hk Hf. destruct (J rid j E Hk Hf) as (i0 & h0 & E0 & Hk0 & Hp).
    exists i0, h0. split; [|done]. apply (lookup_set c c' i h pc); [done..|].
    right. split; [|done]. intros ->. assert (h0 = h) as -> by congruence.
    destruct (Haw rid Hp) as (j' & Ej' & Hf'). congruence.
Qed.

Lemma single_register k c c' i h a :
  single k c → c_handlers c !! i = Some h → in_window (h_pc h) = true →
  c_handlers c' = <[i := mkHandler (h_case h) (h_alert h) (HAwait (length (c_jobs c)))]> (c_handlers c) →
  c_jobs c' = c_jobs c ++ [mkJob (h_case h) a RMark] →
  c_inflight c' = <[h_case h := length (c_jobs c)]> (c_inflight c) →
  single k c'.
Proof.
  intros [A R J] Hi Hw Hh Ej Ef.
  assert (Hact : active (h_pc h) = true) by (unfold active; by rewrite Hw).
  constructor.
  - intros i1 h1 i2 h2. rewrite !(lookup_set c c' i h _ _ _ Hi Hh).
    intros [[-> ->]|[Hn1 E1]] [[-> ->]|[Hn2 E2]]; simpl; intros; eauto.
  - intros i1 h1 rid. rewrite (lookup_set c c' i h _ _ _ Hi Hh), Ef.
    intros [[-> ->]|[Hn1 E1]]; simpl.
    + intros <- [= <-]. apply lookup_insert_eq.
    + intros Hk Ho. rewrite lookup_insert_ne; [by eapply R|]. intros Hkk. apply Hn1.
      eapply (A i1 h1 i h); eauto using owned_active; congruence.
  - intros rid j. rewrite Ej. intros [E|[Hl E]]%lookup_app_Some Hk Hf.
    + destruct (J rid j E Hk Hf) as (i0 & h0 & E0 & Hk0 & Hp).
      exists i0, h0. split; [|done]. apply (lookup_set c c' i h _ _ _ Hi Hh).
      right. split; [|done]. intros ->. assert (h0 = h) as -> by congruence. by rewrite Hp in Hw.
    + apply list_lookup_singleton_Some in E as [E <-]. simpl in *.
      assert (rid = length (c_jobs c)) as -> by lia.
      exists i, (mkHandler (h_case h) (h_alert h) (HAwait (length (c_jobs c)))). split_and!; try done.
      apply (lookup_set c c' i h _ _ _ Hi Hh). by left.
Qed.

Lemma single_finish k c c' i h pc :
  single k c → c_handlers c !! i = Some h → is_Some (owned (h_pc h)) → (∀ rid, h_pc h ≠ HAwait rid) →
  final pc = true →
  c_handlers c' = <[i := mkHandler (h_case h) (h_alert h) pc]> (c_handlers c) →
  c_jobs c' = c_jobs c → c_inflight c' = delete (h_case h) (c_inflight c) → single k c'.
Proof.
  intros [A R J] Hi [ro Ho] Haw Hf Hh Ej Ef.
  assert (Hna : active pc = false) by (by destruct pc).
  assert (Hno : owned pc = None) by (by destruct pc).
  constructor.
  - intros i1 h1 i2 h2. rewrite !(lookup_set c c' i h _ _ _ Hi Hh).
    intros [[-> ->]|[Hn1 E1]] [[-> ->]|[Hn2 E2]]; simpl; intros; eauto; congruence.
  - intros i1 h1 rid. rewrite (lookup_set c c' i h _ _ _ Hi Hh), Ef.
    intros [[-> ->]|[Hn1 E1]]; simpl; [congruence|]. intros Hk Ho1.
    rewrite lookup_delete_ne; [by eapply R|]. intros Hkk. apply Hn1.
    eapply (A i1 h1 i h); eauto using owned_active; congruence.
  - intros rid j. rewrite Ej. intros E Hk Hjf. destruct (J rid j E Hk Hjf) as (i0 & h0 & E0 & Hk0 & Hp).
    exists i0, h0. split; [|done]. apply (lookup_set c c' i h _ _ _ Hi Hh).
    right. split; [|done]. intros ->. assert (h0 = h) as -> by congruence. by destruct (Haw rid).
Qed.

Lemma single_hmove k c c' i h :
  single k c → c_handlers c !! i = Some h → hmove c i h c' →
  (∀ r, h_case h = k → h_pc h = HGot r →
     ∀ i' h', c_handlers c !! i' = Some h' → h_case h' = k → in_window (h_pc h') = false) →
  single k c'.
Proof.
  intros S Hi M Hser. pose proof S as [A R J]. destruct M.
  - eapply single_move; eauto.
  - eapply single_move; eauto.
    + intros Hk _ i' h' E' Hk' [Hw|[rid Ho]]%active_split.
      * rewrite (Hser r Hk) with (i' := i') in Hw; done.
      * rewrite <- Hk in *. rewrite (R i' h' rid E' Hk' Ho) in *. discriminate.
    + intros rid Ho. by destruct pc.
    + intros rid Hp. congruence.
  - eapply single_register; eauto.
  - eapply single_finish; eauto.
Qed.

Lemma single_serial k c c' : single k c → serial_step k c c' → single k c'.
Proof.
  intros S ([k' a|i ans|i ans] & E & Hser); simpl in E.
  - injection E as <-. destruct S as [A R J].
    assert (Hl : ∀ i h, c_handlers (arrive k' a c) !! i = Some h →
      c_handlers c !! i = Some h ∨ h = mkHandler k' a HGet).
    { intros i h [E|[_ E]]%lookup_app_Some; [by left|].
      apply list_lookup_singleton_Some in E as [_ <-]. by right. }
    constructor.
    + intros i1 h1 i2 h2 [E1| ->]%Hl [E2| ->]%Hl; simpl; intros; eauto; done.
    + intros i1 h1 rid [E1| ->]%Hl; simpl; intros; eauto; done.
    + intros rid j E Hk Hf. destruct (J rid j E Hk Hf) as (i0 & h0 & E0 & ?).
      exists i0, h0. split; [by apply lookup_app_l_Some|done].
  - destruct (handler_step_hmove ans i c c' E) as (h & Hi & M).
    eapply single_hmove; eauto.
  - unfold run_step in E. apply bind_Some in E as (j & Hj & E). destruct S as [A R J].
    assert (Hc : c_handlers c' = c_handlers c ∧ c_inflight c' = c_inflight c ∧ job_final (j_pc j) = false ∧
      ∃ pc, c_jobs c' = <[i := mkJob (j_case j) (j_alert j) pc]> (c_jobs c)).
    { destruct (j_pc j) as [|[[]|e]| |x|x]; try discriminate.
      1: apply bind_Some in E as (rd & W & E).
      4: destruct ans; try discriminate.
      all: injection E as <-; split_and!; try done; eexists; reflexivity. }
    destruct Hc as (Hh & Hf & Hnf & pc & Ej). constructor.
    + intros *. rewrite Hh. apply A.
    + intros *. rewrite Hh, Hf. apply R.
    + intros rid j' E' Hk Hf'. rewrite Hh. destruct (decide (rid = i)) as [->|Hne].
      * rewrite Ej, list_lookup_insert_eq in E' by (by eapply lookup_lt_Some). injection E' as <-.
        by apply (J i j).
      * rewrite Ej, list_lookup_insert_ne in E' by done. by apply (J rid j').
Qed.

(** C4: what [TRIAGE_IN_FLIGHT] guarantees. If no two requests for a case
    pass the in-flight check before one of them has registered its job,
    then at every moment at most one job for that case is unsettled, so at
    most one investigation of the case is running at the orchestrator. *)
Theorem triage_single_flight (d0 : Db) k c rid1 rid2 j1 j2 :
  star (serial_step k) (init d0) c →
  c_jobs c !! rid1 = Some j1 → c_jobs c !! rid2 = Some j2 →
  j_case j1 = k → j_case j2 = k → job_final (j_pc j1) = false → job_final (j_pc j2) = false →
  rid1 = rid2.
Proof.
  intros R E1 E2 K1 K2 F1 F2.
  assert (single k c) as [A _ J].
  { eapply star_invariant; [|apply single_serial|exact R].
    constructor; simpl; intros *; rewrite ?lookup_nil; done. }
  destruct (J rid1 j1 E1 K1 F1) as (i1 & h1 & H1 & Hk1 & P1).
  destruct (J rid2 j2 E2 K2 F2) as (i2 & h2 & H2 & Hk2 & P2).
  assert (i1 = i2) as <- by (eapply (A i1 h1 i2 h2); rewrite ?P1, ?P2; done).
  congruence.
Qed.

(** ** What the orchestrator is sent *)

(** Between the in-flight check and the registration of the job the handler
    holds its request's alert, enriched. *)
Definition alert_enriched (h : handler) : Prop :=
  match h_pc h with
  | HBase b user region => b = enrich_sync (h_alert h) ∧ needs_baseline b = Some (user, region)
  | HBased b region _ => b = enrich_sync (h_alert h) ∧ ∃ user, needs_baseline b = Some (user, region)
  | HUpsert b | HUpserted b _ => ∃ baseline_answer, b = enrich baseline_answer (h_alert h)
  | _ => True
  end.

Definition from_request c (k : string) (b : alert) : Prop :=
  ∃ i h baseline_answer, c_handlers c !! i = Some h ∧ h_case h = k ∧ b = enrich baseline_answer (h_alert h).

Record enriched c : Prop := {
  en_handlers : ∀ i h, c_handlers c !! i = Some h → alert_enriched h;
  en_jobs : ∀ rid j, c_jobs c !! rid = Some j → from_request c (j_case j) (j_alert j)
}.

Lemma enriched_handler c c' i h pc :
  enriched c → c_handlers c !! i = Some h →
  c_handlers c' = <[i := mkHandler (h_case h) (h_alert h) pc]> (c_handlers c) →
  alert_enriched (mkHandler (h_case h) (h_alert h) pc) →
  (∀ rid j, c_jobs c' !! rid = Some j → c_jobs c !! rid = Some j ∨ from_request c (j_case j) (j_alert j)) →
  enriched c'.
Proof.
  intros [Eh Ej] Hi Hh Hp Hj. constructor.
  - intros i' h'. rewrite (lookup_set c c' i h pc i' h' Hi Hh). intros [[_ ->]|[_ E]]; [done|by eapply Eh].
  - intros rid j E. assert (from_request c (j_case j) (j_alert j)) as (i' & h' & x & F & K & B)
      by (destruct (Hj rid j E) as [F|F]; [by eapply Ej|done]).
    destruct (decide (i' = i)) as [->|Hne].
    + rewrite Hi in F. injection F as <-. exists i, (mkHandler (h_case h) (h_alert h) pc), x.
      split; [|done]. apply (lookup_set c c' i h pc _ _ Hi Hh). by left.
    + exists i', h', x. split; [|done]. apply (lookup_set c c' i h pc _ _ Hi Hh). by right.
Qed.

Lemma after_get_enriched h p c : alert_enriched (mkHandler (h_case h) (h_alert h) (after_get h p c)).
Proof.
  unfold after_get, alert_enriched. repeat case_match; simplify_eq/=; try done;
    exists (Throw (mkErr EmptyString EmptyString)); unfold enrich; by case_match.
Qed.

Ltac stays_enriched I Hi := eapply (enriched_handler _ _ _ _ _ I Hi); [reflexivity| |by left].

Lemma handler_step_enriched ans i c c' : enriched c → handler_step ans i c = Some c' → enriched c'.
Proof.
  intros I. unfold handler_step. intros (h & Hi & E)%bind_Some. pose proof (en_handlers _ I i h Hi) as A.
  destruct (h_pc h) as [|[p|e]|a u r|a r x|a|a [[]|e]|rid|rid v|rid v [[]|e]|rid m|rid m [[]|e]|rid|r|e]
    eqn:Hpc; try discriminate; unfold alert_enriched in A; rewrite Hpc in A.
  all: try (injection E as <-).
  all: try (apply bind_Some in E as (rd & W & E); injection E as <-; by stays_enriched I Hi).
  all: try by stays_enriched I Hi.
  - destruct ans; simplify_eq; by stays_enriched I Hi.
  - stays_enriched I Hi. apply after_get_enriched.
  - destruct ans; simplify_eq. stays_enriched I Hi. destruct A as [-> Eu]. split; [done|by exists u].
  - stays_enriched I Hi. destruct A as [-> [u Eu]]. exists x. cbn [h_alert]. unfold enrich. by rewrite Eu.
  - eapply (enriched_handler c _ i h _ I Hi); [reflexivity|done|]. intros rid j Ej.
    apply lookup_app_Some in Ej as [Ej|[_ Ej]]; [by left|right].
    apply list_lookup_singleton_Some in Ej as [_ <-]. destruct A as [y ->]. by exists i, h, y.
  - destruct (settled _ c) as [[?|?]|]; simplify_eq; by stays_enriched I Hi.
  - destruct (settled _ c) as [[?|?]|]; simplify_eq; by stays_enriched I Hi.
Qed.

Lemma run_step_frame ans i c c' :
  run_step orch ans i c = Some c' →
  c_handlers c' = c_handlers c ∧
  ∃ j pc, c_jobs c !! i = Some j ∧ c_jobs c' = <[i := mkJob (j_case j) (j_alert j) pc]> (c_jobs c).
Proof.
  unfold run_step. intros (j & Hi & E)%bind_Some. destruct (j_pc j) as [|[[]|e]| |x|x]; try discriminate;
    try (apply bind_Some in E as (rd & W & E)); try (destruct ans; try discriminate); injection E as <-;
    (split; [done|by exists j; eexists]).
Qed.

(** Every alert triaged, in every interleaving, is the enrichment of the alert
    of a request for the same case. *)
Theorem triage_alert_enriched (d0 : Db) c rid j :
  star step (init d0) c → c_jobs c !! rid = Some j → from_request c (j_case j) (j_alert j).
Proof.
  intros R. revert rid j. enough (I : enriched c) by apply I. refine (star_invariant _ enriched _ _ _ _ R).
  - constructor; simpl; intros *; by rewrite lookup_nil.
  - intros c1 c2 I [[k a|i ans|i ans] E]; simpl in E.
    + injection E as <-. destruct I as [Eh Ej]. constructor; simpl.
      * intros i h. rewrite lookup_app_Some, list_lookup_singleton_Some. intros [F|(_ & _ & <-)]; [by eapply Eh|done].
      * intros rid j F. destruct (Ej rid j F) as (i & h & x & Hi & K). exists i, h, x.
        split; [by apply lookup_app_l_Some|done].
    + by eapply handler_step_enriched.
    + apply run_step_frame in E as (Hh & j & pc & Hi & Hj). destruct I as [Eh Ej]. constructor; unfold from_request.
      * by rewrite Hh.
      * intros rid j'. rewrite Hj, list_lookup_insert_Some, Hh. intros [(<- & <- & _)|[_ F]]; [by apply (Ej i j)|by eapply Ej].
Qed.

Lemma exec_all_star es c c' : exec_all orch es c = Some c' → star step c c'.
Proof.
  revert c; induction es as [|e es IH]; intros c; simpl; [intros [= <-]; constructor|].
  intros (c1 & E & R)%bind_Some. eapply star_trans; [|by apply IH].
  eapply star_snoc; [constructor|]. by exists e.
Qed.
End Theorems.

(** ** Runs on the in-memory database *)

Definition sample_alert : alert := [("event_id", JStr "e1"); ("severity", JStr "High")].

Definition sample_verdict : jsval := JObj [("verdict", JStr "benign")].

Definition orch_ok : answer := AnsFetch (Ok (mkFetched 200 (Some sample_verdict) EmptyString)).

(** One request for case [k], handled alone by handler [h] with job [j]. *)
Definition solo (k : string) (h j : nat) (reply : answer) : list event :=
  [EvArrive k sample_alert; EvHandler h (AnsDone 1); EvHandler h AnsTick; EvHandler h (AnsDone 2);
   EvHandler h AnsTick; EvJob j (AnsDone 3); EvJob j AnsTick; EvJob j reply; EvJob j AnsTick;
   EvHandler h AnsTick; EvHandler h (AnsDone 4); EvHandler h AnsTick].

Definition run_events (es : list event) : config MemDb :=
  default (init sample_db) (exec_all "http://orch" es (init sample_db)).

Definition done_config : config MemDb := run_events (solo "c1" 0 0 orch_ok).

Lemma run_events_star es :
  is_Some (exec_all "http://orch" es (init sample_db)) →
  star (step "http://orch") (init sample_db) (run_events es).
Proof.
  intros [c E]. unfold run_events. rewrite E. simpl. by eapply exec_all_star.
Qed.

Lemma done_config_star : star (step "http://orch") (init sample_db) done_config.
Proof. apply run_events_star. vm_compute. eexists; reflexivity. Qed.

Lemma triage_all_answered_witness :
  star (step "http://orch") (init sample_db) done_config ∧
  ∃ c', star (work "http://orch") done_config c' ∧ all_final c'.
Proof.
  split; [apply done_config_star|].
  exact (proj2 (proj2 (triage_all_answered "http://orch" sample_db done_config done_config_star))).
Defined.

Definition done_handler : handler := mkHandler "c1" sample_alert (HDone (json_ok sample_verdict)).

Lemma done_config_handler : c_handlers done_config !! 0%nat = Some done_handler.
Proof. vm_compute. reflexivity. Qed.

Lemma triage_verdict_provenance_witness :
  c_handlers done_config !! 0%nat = Some done_handler ∧
  (stored_complete sample_db "c1" sample_verdict ∨
   answered_by "http://orch" done_config "c1" sample_verdict).
Proof.
  split; [exact done_config_handler|].
  exact (triage_verdict_provenance "http://orch" sample_db done_config 0 done_handler sample_verdict
           done_config_star done_config_handler eq_refl).
Defined.

Definition done_row : CaseRow := default (sample_row "c1" TIdle JNull) (db_case (c_db done_config) "c1").

Lemma triage_db_provenance_witness :
  db_case (c_db done_config) "c1" = Some done_row ∧
  (stored_complete sample_db "c1" (cw_verdict done_row) ∨
   answered_by "http://orch" done_config "c1" (cw_verdict done_row)).
Proof.
  assert (E : db_case (c_db done_config) "c1" = Some done_row) by (vm_compute; reflexivity).
  split; [exact E|].
  apply (triage_db_provenance "http://orch" sample_db done_config "c1" done_row done_config_star E).
  vm_compute. reflexivity.
Defined.

Lemma triage_inflight_no_leak_witness :
  star (step "http://orch") (init sample_db) done_config ∧ c_inflight done_config = ∅.
Proof.
  split; [apply done_config_star|].
  apply (triage_inflight_no_leak "http://orch" sample_db done_config done_config_star).
  intros i h E. destruct i as [|i]; [|destruct i; discriminate E].
  rewrite done_config_handler in E. injection E as <-. reflexivity.
Defined.

(** A first request alone up to its pending job, then a second one. *)
Definition waiting_schedule : list event :=
  [EvArrive "c1" sample_alert; EvHandler 0 (AnsDone 1); EvHandler 0 AnsTick; EvHandler 0 (AnsDone 2);
   EvHandler 0 AnsTick; EvArrive "c1" sample_alert; EvHandler 1 (AnsDone 1); EvHandler 1 AnsTick].

Definition serial_event (k : string) (c : config MemDb) (e : event) : bool :=
  match e with
  | EvHandler i _ =>
      match c_handlers c !! i with
      | Some (mkHandler k' _ (HGot _)) =>
          if String.eqb k' k then forallb (λ h, negb (String.eqb (h_case h) k && in_window (h_pc h))) (c_handlers c)
          else true
      | _ => true
      end
  | _ => true
  end.

Fixpoint serial_all (k : string) (es : list event) (c : config MemDb) : option (config MemDb) :=
  match es with
  | [] => Some c
  | e :: es' => if serial_event k c e then exec "http://orch" e c ≫= serial_all k es' else None
  end.

Lemma serial_all_star k es c c' :
  serial_all k es c = Some c' → star (serial_step "http://orch" k) c c'.
Proof.
  revert c; induction es as [|e es IH]; intros c; simpl; [intros [= <-]; constructor|].
  destruct (serial_event k c e) eqn:Hs; [|done].
  intros (c1 & E & R)%bind_Some. eapply star_trans; [|by apply IH].
  eapply star_snoc; [constructor|]. exists e. split; [done|].
  intros i ans h r -> Hi Hk Hpc i' h' Hi' Hk'. simpl in Hs. rewrite Hi in Hs.
  destruct h as [hk ha hp]; simpl in *. rewrite Hpc, Hk, String.eqb_refl in Hs.
  rewrite forallb_forall in Hs. specialize (Hs h').
  rewrite Hk', String.eqb_refl in Hs. apply negb_true_iff, Hs.
  apply list_elem_of_In, list_elem_of_lookup. eauto.
Qed.

Definition waiting_config : config MemDb :=
  default (init sample_db) (serial_all "c1" waiting_schedule (init sample_db)).

Lemma triage_single_flight_witness :
  star (serial_step "http://orch" "c1") (init sample_db) waiting_config ∧
  (h_pc <$> c_handlers waiting_config !! 1%nat) = Some (HWait 0) ∧
  ∀ rid j, c_jobs waiting_config !! rid = Some j → j_case j = "c1" → job_final (j_pc j) = false → rid = 0%nat.
Proof.
  assert (R : star (serial_step "http://orch" "c1") (init sample_db) waiting_config)
    by (apply (serial_all_star "c1" waiting_schedule); vm_compute; reflexivity).
  split; [exact R|]. split; [vm_compute; reflexivity|]. intros rid j E K F.
  assert (E0 : ∃ j0, c_jobs waiting_config !! 0%nat = Some j0 ∧ j_case j0 = "c1" ∧ job_final (j_pc j0) = false)
    by (eexists; vm_compute; split; [reflexivity|split; reflexivity]).
  destruct E0 as (j0 & E0 & K0 & F0).
  exact (triage_single_flight "http://orch" sample_db "c1" waiting_config rid 0 j j0 R E E0 K K0 F F0).
Defined.

(** Two requests that both look at the in-flight map before either job is
    registered: the check and the registration are separated by awaits. *)
Definition race_schedule : list event :=
  [EvArrive "c1" sample_alert; EvArrive "c1" sample_alert;
   EvHandler 0 (AnsDone 1); EvHandler 1 (AnsDone 1);      (* both read the case *)
   EvHandler 0 AnsTick; EvHandler 1 AnsTick;              (* both find no job *)
   EvHandler 0 (AnsDone 2); EvHandler 0 AnsTick;          (* first upsert, first job *)
   EvHandler 1 (AnsDone 2); EvHandler 1 AnsTick;          (* second upsert, second job *)
   EvJob 0 (AnsDone 3); EvJob 0 AnsTick; EvJob 1 (AnsDone 3); EvJob 1 AnsTick].

(** Without that discipline the guarantee fails. Two overlapping requests
    for one case can both pass the in-flight check, and then two jobs for
    the case run at the same time and the orchestrator receives two triage
    requests for it. *)
Theorem triage_double_investigation :
  ∃ c : config MemDb,
    exec_all "http://orch" race_schedule (init sample_db) = Some c ∧
    star (step "http://orch") (init sample_db) c ∧
    (j_case <$> c_jobs c) = ["c1"; "c1"] ∧ (j_pc <$> c_jobs c) = [RFetch; RFetch] ∧
    (fst <$> c_calls c) = ["c1"; "c1"].
Proof.
  exists (run_events race_schedule). split; [vm_compute; reflexivity|]. split; [|vm_compute; auto].
  apply run_events_star. vm_compute. eexists; reflexivity.
Qed.
