(* ===== verification/Outage.v ===== *)
(** * The server process around the database

    Every function of the repository first awaits the promise that makes its
    tables ([DbSchema.EnsureSchema]). This file puts that promise and the
    triage route into one process, shows that every run of the process is a
    run of the route, and follows what a failed creation of the tables does to
    each route and page that reads the repository. *)
From S2P Require Import Prelude JsObject JsNum JsString JsValue JsDate Types AlertMappers Effects.
From S2P Require Import CaseRepository DbSchema TraceRoutes QueuePage CasePage TriageFeatures TriageRoute TriageProofs.
Import EnsureSchema.

(** ** The process *)
Section Process.
Context {Db : Type} `{CaseTables Db}.
Variable orch : string.

Record server := mkServer { pr_schema : schema; pr_triage : config Db }.

Definition process_init (d : Db) : server := mkServer schema_init (init d).

(** What the promise leaves of a statement's answer: statements run once the
    tables are made; when the making failed the operation throws that error
    and runs nothing; before, it waits. *)
Definition allowed (s : schema) (ans : answer) : Prop :=
  match ans with
  | AnsDone _ => sm_ready s = Some (Settled (Ok tt))
  | AnsFail applied _ e =>
      sm_ready s = Some (Settled (Ok tt)) ∨ (sm_ready s = Some (Settled (Throw e)) ∧ applied = false)
  | AnsFetch _ | AnsTick => True
  end.

Definition event_allowed (s : schema) (e : event) : Prop :=
  match e with EvArrive _ _ => True | EvHandler _ ans | EvJob _ ans => allowed s ans end.

Inductive process_step : server → server → Prop :=
| ps_schema e s s' c : schema_handle e s = Some s' → process_step (mkServer s c) (mkServer s' c)
| ps_triage e s c c' : exec orch e c = Some c' → event_allowed s e → process_step (mkServer s c) (mkServer s c').

(** The process only restricts the route, so what holds of every run of the
    route holds of every run of the process. *)
Lemma process_projects d p : star process_step (process_init d) p → star (step orch) (init d) (pr_triage p).
Proof.
  intros R. refine (star_invariant _ (λ p, star (step orch) (init d) (pr_triage p)) (process_init d) p _ _ R); [apply star_refl|].
  intros a b Ra Hs. destruct Hs as [e s s' c E|e s c c' E Ha]; [done|]. eapply star_snoc; [exact Ra|]. by exists e.
Qed.

Lemma process_schema d p : star process_step (process_init d) p → star schema_step schema_init (pr_schema p).
Proof.
  intros R. refine (star_invariant _ (λ p, star schema_step schema_init (pr_schema p)) (process_init d) p _ _ R); [apply star_refl|].
  intros a b Ra Hs. destruct Hs as [e s s' c E|e s c c' E Ha]; [|done]. eapply star_snoc; [exact Ra|]. by exists e.
Qed.

(** ** Without the tables *)

(** Where a request can be while no statement has run. *)
Definition stuck (ready : option promise) (pc : hpc) : Prop :=
  pc = HGet ∨ ∃ e, ready = Some (Settled (Throw e)) ∧ (pc = HGot (Throw e) ∨ pc = HReject e).

Record untouched (d : Db) (p : server) : Prop := {
  ut_db : c_db (pr_triage p) = d;
  ut_calls : c_calls (pr_triage p) = [];
  ut_jobs : c_jobs (pr_triage p) = [];
  ut_inflight : c_inflight (pr_triage p) = ∅;
  ut_cache : c_cache (pr_triage p) = ∅;
  ut_handlers : Forall (λ h, stuck (sm_ready (pr_schema p)) (h_pc h)) (c_handlers (pr_triage p))
}.

Definition tables_made (s : schema) : Prop := sm_ready s = Some (Settled (Ok tt)).

Lemma made_dec s : tables_made s ∨ ¬ tables_made s.
Proof. unfold tables_made. destruct (sm_ready s) as [[n|[[]|e]]|]; [by right|by left|by right|by right]. Qed.

(** The promise is settled at most once. *)
Lemma stuck_mono e s s' pc : schema_handle e s = Some s' → stuck (sm_ready s) pc → stuck (sm_ready s') pc.
Proof.
  intros E [->|(x & Hx & Hpc)]; [by left|]. right. exists x. split; [|done].
  assert (s' = s) as ->; [|done]. apply (settled_stays s s' x Hx). eapply star_snoc; [apply star_refl|]. by exists e.
Qed.

Lemma made_stays e s s' : schema_handle e s = Some s' → tables_made s → tables_made s'.
Proof.
  unfold tables_made. destruct e as [|r]; cbn [schema_handle].
  - intros [= <-] Hm. unfold ensureCaseSchema. by rewrite Hm.
  - intros E Hm. unfold statement_answered in E. by rewrite Hm in E.
Qed.

Lemma handler_step_stuck s c i h ans c' :
  c_handlers c !! i = Some h → stuck (sm_ready s) (h_pc h) → allowed s ans → ¬ tables_made s →
  handler_step ans i c = Some c' →
  ∃ pc, c' = set_handler i h pc c ∧ stuck (sm_ready s) pc.
Proof.
  intros Hh Hs Ha Hm E. unfold handler_step in E. rewrite Hh in E. cbn in E. destruct Hs as [Hpc|(e & Hr & [Hpc|Hpc])]; rewrite Hpc in E.
  - destruct ans as [n|ap n e|r|]; try done. destruct Ha as [Ha|[Ha ->]]; [done|]. simplify_eq.
    exists (HGot (Throw e)). split; [done|]. right. eauto.
  - simplify_eq. exists (HReject e). split; [done|]. right. eauto.
  - done.
Qed.

Lemma untouched_step d p p' : untouched d p ∨ tables_made (pr_schema p) → process_step p p' → untouched d p' ∨ tables_made (pr_schema p').
Proof.
  intros I Hs. destruct Hs as [e s s' c E|e s c c' E Ha]; cbn [pr_schema] in *.
  - destruct I as [[I1 I2 I3 I4 I5 I6]|Hm]; [|right; by eapply made_stays]. left. split; try done. cbn in *.
    eapply Forall_impl; [exact I6|]. intros h. by apply (stuck_mono e).
  - destruct I as [[I1 I2 I3 I4 I5 I6]|Hm]; [|by right]. cbn in *.
    destruct (made_dec s) as [Hm|Hm]; [by right|]. left.
    destruct e as [k a|i ans|i ans]; cbn [exec] in E.
    + simplify_eq. split; try done. cbn. apply Forall_app. split; [done|]. apply Forall_singleton. by left.
    + destruct (c_handlers c !! i) as [h|] eqn:Hh; [|unfold handler_step in E; by rewrite Hh in E].
      rewrite Forall_forall in I6. assert (Hst : stuck (sm_ready s) (h_pc h)) by (apply I6; by eapply list_elem_of_lookup_2).
      destruct (handler_step_stuck s c i h ans c' Hh Hst Ha Hm E) as (pc & -> & Hpc). split; try done. cbn.
      apply Forall_insert; [by apply Forall_forall|done].
    + unfold run_step in E. by rewrite I3 in E.
Qed.
End Process.
Arguments server Db : clear implicits.

(** ** An outage at the first call *)

(** How the reads of the repository fail, and what the batched lookup of the
    queue answers. *)
Definition failure_of (s : schema) : option err :=
  match sm_ready s with Some (Settled (Throw e)) => Some e | _ => None end.

Definition batched {Db} `{CaseTables Db} (s : schema) (d : Db) (ids : list string) : option (gmap string CaseRow) :=
  match after_schema (Ok (getCases d ids)) s with Some (Ok m) => Some m | _ => None end.

Lemma failure_settled s e : failure_of s = Some e → sm_ready s = Some (Settled (Throw e)).
Proof. unfold failure_of. destruct (sm_ready s) as [[n|[[]|x]]|]; try done. by intros [= ->]. Qed.

Lemma enrich_unmerged alerts : Enrich.enrichAlertsWithPersisted (λ _, None) alerts = alerts.
Proof.
  destruct alerts as [|a alerts]; [done|]. unfold Enrich.enrichAlertsWithPersisted. cbn [default].
  rewrite <- (list_fmap_id (a :: alerts)) at 2. apply list_fmap_ext. intros i x _. by rewrite lookup_empty.
Qed.

Section OutageFacts.
Context {Db : Type} `{CaseTables Db}.
Variable orch : string.
Notation proc_step := (process_step (Db := Db) orch).

Lemma process_untouched d p : star proc_step (process_init d) p → untouched d p ∨ tables_made (pr_schema p).
Proof.
  intros R. refine (star_invariant _ (λ p, untouched d p ∨ tables_made (pr_schema p)) (process_init d) p _ _ R).
  - left. by split; try constructor.
  - intros a b. apply untouched_step.
Qed.

Lemma failing_untouched d p e :
  star proc_step (process_init d) p → failure_of (pr_schema p) = Some e → untouched d p.
Proof.
  intros R Hf%failure_settled. destruct (process_untouched d p R) as [U|Hm]; [done|]. unfold tables_made in Hm. congruence.
Qed.

(** Two more steps of a request, each open to the process, reject it. *)
Lemma request_rejected s c i h e :
  sm_ready s = Some (Settled (Throw e)) → c_handlers c !! i = Some h → stuck (sm_ready s) (h_pc h) →
  ∃ c', star proc_step (mkServer s c) (mkServer s c') ∧
        c_handlers c' !! i = Some (mkHandler (h_case h) (h_alert h) (HReject e)).
Proof.
  intros Hr Hh Hs. assert (Hlt : (i < length (c_handlers c))%nat) by (by eapply lookup_lt_Some).
  assert (Got : ∀ c1, c_handlers c1 !! i = Some (mkHandler (h_case h) (h_alert h) (HGot (Throw e))) →
    ∃ c', star proc_step (mkServer s c1) (mkServer s c') ∧
          c_handlers c' !! i = Some (mkHandler (h_case h) (h_alert h) (HReject e))).
  { intros c1 H1. eexists. split.
    - eapply star_snoc; [apply star_refl|]. apply (ps_triage orch (EvHandler i AnsTick)); [|done].
      cbn [exec]. unfold handler_step. rewrite H1. cbn. reflexivity.
    - cbn. apply list_lookup_insert_eq. by eapply lookup_lt_Some. }
  destruct h as [k a pc]. cbn [h_case h_alert h_pc] in *. destruct Hs as [->|(x & Hx & [-> | ->])].
  - destruct (Got (set_handler i (mkHandler k a HGet) (HGot (Throw e)) c)) as (c' & R & Hc').
    { cbn. by apply list_lookup_insert_eq. }
    exists c'. split; [|done]. eapply star_trans; [|exact R]. eapply star_snoc; [apply star_refl|].
    apply (ps_triage orch (EvHandler i (AnsFail false 0 e))); [|by right].
    cbn [exec]. unfold handler_step. rewrite Hh. reflexivity.
  - assert (x = e) as -> by congruence. by apply Got.
  - assert (x = e) as -> by congruence. exists c. split; [apply star_refl|done].
Qed.

Lemma queue_unmerged cp arr (s : schema) (d : Db) e w r vs ds :
  failure_of s = Some e →
  env_fetch w 0 (fired_request cp) = Ok r → ft_ok r = true → ft_json r = Some (JArr vs) →
  mapM Detection.as_fired vs = Some ds →
  ∃ pg log, run (QueuePage cp arr (batched s d)) w = (Ok (Some pg), log) ∧
            qp_alerts pg = Detection.firedDetectionToAlert <$> ds.
Proof.
  intros Hf%failure_settled Ef Hok Hj Hd.
  assert (E : fetchLiveAlerts cp (batched s d) w [] =
    (Ok (Some (Detection.firedDetectionToAlert <$> ds, match ds with [] => Connected | _ => Live end)),
     [EFetch (fired_request cp)])).
  { unfold fetchLiveAlerts, try_catch, bind, fetch. cbn [length app]. rewrite Ef, Hok. cbn [negb].
    unfold read_json. rewrite Hj. unfold ret, Detection.parseFiredDetections. rewrite Hd. cbn [fmap option_fmap option_map].
    destruct ds as [|f ds]; [done|]. cbn [fmap list_fmap]. do 4 f_equal.
    transitivity (Enrich.enrichAlertsWithPersisted (λ _, None) (Detection.firedDetectionToAlert <$> f :: ds)); [|apply enrich_unmerged].
    unfold Enrich.enrichAlertsWithPersisted, batched, after_schema. rewrite Hf. done. }
  destruct (queue_page_live cp arr _ w _ _ E) as (pipes & l2 & ->). do 2 eexists. split; [reflexivity|done].
Qed.

(** C19: an outage of the database when its tables are first needed. From the
    moment one of the statements that make them has failed, whatever
    requests arrive and whatever the database would answer by then: no alert
    reaches the orchestrator, the database is never written, every triage
    request that is or will be there can still be settled and only with that
    error, and so for the life of the process; the trace route answers 500
    with its message; and the queue page goes on showing every detection,
    without its stored case. *)
Theorem outage_contained (d : Db) p e :
  star proc_step (process_init d) p → failure_of (pr_schema p) = Some e →
  (∀ q, star proc_step p q →
     failure_of (pr_schema q) = Some e ∧ c_calls (pr_triage q) = [] ∧ c_db (pr_triage q) = d ∧
     ∀ i h, c_handlers (pr_triage q) !! i = Some h →
       (h_pc h = HGet ∨ h_pc h = HGot (Throw e) ∨ h_pc h = HReject e) ∧
       ∃ q' h', star proc_step q q' ∧ c_handlers (pr_triage q') !! i = Some h' ∧ h_case h' = h_case h ∧ h_pc h' = HReject e) ∧
  (∀ k fail2, trace_get (failure_of (pr_schema p)) fail2 d k = RJson 500 (JObj [("error", JStr (err_message e))])) ∧
  (∀ cp arr w r vs ds,
     env_fetch w 0 (fired_request cp) = Ok r → ft_ok r = true → ft_json r = Some (JArr vs) → mapM Detection.as_fired vs = Some ds →
     ∃ pg log, run (QueuePage cp arr (batched (pr_schema p) d)) w = (Ok (Some pg), log) ∧
               qp_alerts pg = Detection.firedDetectionToAlert <$> ds).
Proof.
  intros R Hf. split; [|split].
  - intros q Rq. assert (Hq : failure_of (pr_schema q) = Some e).
    { refine (star_invariant _ (λ q, failure_of (pr_schema q) = Some e) p q Hf _ Rq). intros a b Ha Hs.
      destruct Hs as [x s s' c E|x s c c' E Hx]; [|done]. cbn in *. assert (s' = s) as ->; [|done].
      apply (settled_stays s s' e (failure_settled _ _ Ha)). eapply star_snoc; [apply star_refl|]. by exists x. }
    pose proof (failing_untouched d q e (star_trans _ _ _ _ R Rq) Hq) as [U1 U2 _ _ _ U6].
    split; [done|]. split; [done|]. split; [done|]. intros i h Hh.
    assert (Hst : stuck (sm_ready (pr_schema q)) (h_pc h)) by (rewrite Forall_forall in U6; apply U6; by eapply list_elem_of_lookup_2).
    apply failure_settled in Hq. split.
    + destruct Hst as [->|(x & Hx & [-> | ->])]; [by left|right; left|right; right]; congruence.
    + destruct q as [s c]. cbn in *. destruct (request_rejected s c i h e Hq Hh Hst) as (c' & R' & Hc').
      by exists (mkServer s c'), (mkHandler (h_case h) (h_alert h) (HReject e)).
  - intros k fail2. rewrite Hf. reflexivity.
  - intros cp arr w r vs ds. by apply queue_unmerged with (e := e).
Qed.
End OutageFacts.

(** A process whose first statement failed, with a request in it. *)
Definition down_process : server MemDb := mkServer down (arrive "c1" [] (init sample_db)).

Lemma outage_contained_witness :
  failure_of (pr_schema down_process) = Some (Error "ECONNREFUSED") ∧ c_calls (pr_triage down_process) = [] ∧
  ∃ q h, star (process_step "http://orch") down_process q ∧ c_handlers (pr_triage q) !! 0%nat = Some h ∧
         h_pc h = HReject (Error "ECONNREFUSED").
Proof.
  assert (R : star (process_step "http://orch") (process_init sample_db) down_process).
  { eapply star_snoc; [eapply star_snoc; [eapply star_snoc; [apply star_refl|]|]|].
    - by apply (ps_schema "http://orch" CallEnsure).
    - by apply (ps_schema "http://orch" (Answered (Throw (Error "ECONNREFUSED")))).
    - by apply (ps_triage "http://orch" (EvArrive "c1" [])). }
  destruct (outage_contained "http://orch" sample_db down_process (Error "ECONNREFUSED") R eq_refl) as [H _].
  destruct (H down_process (star_refl _ _)) as (H1 & H2 & _ & H3). split; [exact H1|]. split; [exact H2|].
  destruct (H3 0%nat (mkHandler "c1" [] HGet) eq_refl) as (_ & q & h & Rq & Hh & _ & Hpc).
  exists q, h. split; [exact Rq|]. split; [exact Hh|exact Hpc].
Defined.
