(* ===== verification/Flows.v ===== *)
(** * Interactions

    Theorems about several components together: what a page shows, or what
    ends up stored, when its requests are answered by the modelled routes.

    - a verification poll of the simulation page answered by the
      verification route;
    - the public demo's card for an answer of the demo route;
    - the live trace of a case page, stored by the trace route, and the
      stored trace that the panels of a case page show;
    - an override of a case page, forwarded by the override route;
    - a statement of the hunt page, forwarded by the warm-query route.

    [Effects.arrives] relates a route's response to what the browser gets. *)
From Stdlib Require Import Ascii SpecFloat Sorted.
From S2P Require Import Prelude JsObject JsNum JsString JsValue JsDate Types Effects.
From S2P Require Import TracePanels TraceLoads.
From S2P Require Import CaseStore Scenarios RateLimit DemoRun ProxyRoutes SimulateRoute CaseRepository TraceRoutes CaseClient.
From S2P Require Import SimulatePage SimulateView WorkbenchPages PublicPages.
From S2P Require Import UseTriage AlertsWs TraceWs Auth TriageFeatures TriageRoute TriageProofs TriageTheorems.

(** ** Values across JSON *)

Lemma decode_component_char c rest :
  form_decode (encode_uri_component (String c rest)) = String c (form_decode (encode_uri_component rest)).
Proof. destruct c as [[] [] [] [] [] [] [] []]; reflexivity. Qed.

(** What [encodeURIComponent] writes into a query is read back. *)
Lemma decode_component s : form_decode (encode_uri_component s) = s.
Proof. induction s as [|c s IH]; [done|]. by rewrite decode_component_char, IH. Qed.

(** ** Verification of a simulation *)
Section Verified.
Variables (cp gw : string).

(** The value of a query parameter of [verify_url]. *)
Definition query_param (v : jsval) : option string := Some (form_decode (encode_uri_component (to_string v))).

(** The verification route's run for the poll [a]. *)
Definition verify_run (a : poll_args) (w : env) : res response * list effect :=
  run (verify cp gw (query_param (pa_eventId a)) (query_param (pa_username a)) (query_param (pa_actionId a))) w.

(** What the services said when stage [k] passed. *)
Definition observed (a : poll_args) (w : env) (l : list effect) (k : string) : Prop :=
  let id := to_string (pa_eventId a) in
  (k = "risingwave" → ∃ v, served w l (baseline_probe_request cp (to_string (pa_username a))) v ∧ truthy v = true) ∧
  (k = "detection" → ∃ all, served w l (fired_request cp) (JArr all) ∧ seen_event id all) ∧
  (k = "iceberg" → ∃ data, served w l (warm_request cp id) data ∧
                     num_ltb zero (to_number (length_or 0 (prop "rows" data))) = true) ∧
  (k = "mcp" → ∃ tools, served w l (tools_request gw) tools).

(** The route's answer: a refusal, or the four stages. *)
Lemma verify_response a w r l :
  verify_run a w = (Ok r, l) →
  (∃ b, r = RJson 400 (JObj [("error", JStr b)])) ∨
  ∃ s1 s2 s3 s4, r = json_ok (JObj [("risingwave", stage_json s1); ("detection", stage_json s2);
                                    ("iceberg", stage_json s3); ("mcp", stage_json s4)]).
Proof.
  unfold verify_run, run, verify. case_match; [intros [= <- _]; left; by eexists|].
  do 4 (intros E; apply bind_inv in E as (? & ? & _ & E); revert E). intros [= <- _]. right. by repeat eexists.
Qed.

(** A stage that reads as passed on the page was seen by the route. *)
Lemma stage_seen a w r l x v k :
  verify_run a w = (Ok r, l) → arrives r x → ft_json x = Some v → k ∈ MEMORY_STAGES →
  truthy (prop "ok" (prop k v)) = true → observed a w l k.
Proof.
  intros E A Hj Hk Ht. pose proof E as E'. destruct (verify_response a w r l E) as [[b ->]|(s1 & s2 & s3 & s4 & ->)].
  - destruct A as [_ A]. rewrite A in Hj. injection Hj as <-. cbn in Ht.
    unfold MEMORY_STAGES in Hk. set_solver.
  - destruct A as [_ A]. rewrite A in Hj. injection Hj as <-.
    unfold verify_run, query_param in E'. rewrite !decode_component in E'.
    pose proof (verify_stages_sound _ _ _ _ _ _ _ _ E') as (H1 & H2 & H3 & H4). cbv zeta in *. cbn [default] in *.
    unfold stage_ok in *. cbn in H1, H2, H3, H4, Ht.
    split_and!; intros ->; cbn in Ht; eauto.
    all: first [apply H1 | apply H2 | apply H3 | apply H4]; by rewrite Ht.
Qed.
Lemma and_then_true a b : and_then a b = Ok true → a = Ok true ∧ b = Ok true.
Proof. by destruct a as [[]|], b as [[]|]. Qed.

Lemma stage_flag_true k v : stage_flag k v = Ok true → truthy (prop "ok" (prop k v)) = true.
Proof. unfold stage_flag, get. destruct (is_nullish v); [done|]. simpl. destruct (is_nullish (prop k v)); [done|]. by intros [= ->]. Qed.

Lemma all_ok_stages v :
  allOk v = Ok true → ∀ k, k ∈ MEMORY_STAGES → truthy (prop "ok" (prop k v)) = true.
Proof.
  intros (H1 & (H2 & (H3 & H4)%and_then_true)%and_then_true)%and_then_true k Hk. unfold MEMORY_STAGES in Hk.
  apply stage_flag_true. by repeat (apply elem_of_cons in Hk as [->|Hk]; [done|]); apply elem_of_nil in Hk.
Qed.

Lemma verify_arrives a w r l x : verify_run a w = (Ok r, l) → arrives r x → is_Some (ft_json x).
Proof.
  intros E A. destruct (verify_response a w r l E) as [[b ->]|(?&?&?&?&->)]; destruct A as [_ ->]; by eexists.
Qed.

(** What a poll's answer leaves in the view. *)
Lemma poll_answered_view p x now s :
  pg_view (poll_answered p (Ok x) now s) = pg_view (poll_done (Ok x) now s).
Proof. unfold poll_answered. by destruct (pp_first p). Qed.

Lemma poll_done_view x now s :
  let v' := pg_view (poll_done (Ok x) now s) in
  vw_hot v' = vw_hot (pg_view s) ∧
  vw_memory v' = match ft_json x with Some v => v | None => vw_memory (pg_view s) end ∧
  (vw_pollState v' ≠ vw_pollState (pg_view s) → now - pg_start s ≤ POLL_TIMEOUT_MS →
     ∃ v, ft_json x = Some v ∧ allOk v = Ok true).
Proof.
  unfold poll_done. destruct (ft_json x) as [v|]; [|by split_and!].
  destruct (allOk v) as [ok|e] eqn:Ha; [|by split_and!].
  destruct (ok || _) eqn:Ho; [|by split_and!]. split; [done|]. split; [done|]. intros _ Ht. exists v. split; [done|].
  destruct ok; [done|]. apply Z.ltb_lt in Ho. lia.
Qed.

(** C17: a green stage of the simulation page was really seen. When a poll of
    the page is answered by the verification route, every memory stage the
    page then shows as passed was observed by the route in that run at the
    services: the user's baseline, a fired detection with the event id, rows
    of the warm tier for that id, the gateway's tools; and if the answer ends
    the polling within the time limit, all four were. *)
Theorem verified_stages_shown s i p w r l x now s' :
  pg_polls s !! i = Some p → verify_run (pp_args p) w = (Ok r, l) → arrives r x →
  page_handle (PgPollAnswer i (Ok x)) now s = Some s' →
  (∀ k, k ∈ MEMORY_STAGES → memoryState k (pg_view s') = ShOk → observed (pp_args p) w l k) ∧
  (vw_pollState (pg_view s') ≠ vw_pollState (pg_view s) → now - pg_start s ≤ POLL_TIMEOUT_MS →
     ∀ k, k ∈ MEMORY_STAGES → observed (pp_args p) w l k).
Proof.
  intros Hp E A H. destruct (verify_arrives _ _ _ _ _ E A) as [v Hj]. unfold page_handle in H. destruct (now <? pg_clock s); [done|].
  cbn [pg_polls set_clock] in H. rewrite Hp in H. injection H as <-. rewrite poll_answered_view.
  destruct (poll_done_view x now (drop_poll i (set_clock now s))) as (_ & Hm & Hd). rewrite Hj in Hm. split.
  - intros k Hk Hs. eapply stage_seen; try done. unfold memoryState in Hs. rewrite Hm in Hs.
    repeat (case_match; try done).
  - intros Hne Ht k Hk. destruct (Hd Hne Ht) as (v' & Hj' & Ha). eapply stage_seen; try done. by apply all_ok_stages.
Qed.
End Verified.

(** A transport that loses nothing. *)
Definition transport (r : response) : fetched :=
  match r with
  | RJson st b => mkFetched st (Some (json_normal b)) EmptyString
  | RText st t => mkFetched st None t
  | RRedirect _ | RNext => mkFetched 0 None EmptyString
  end.

Lemma transport_arrives st b : arrives (RJson st b) (transport (RJson st b)).
Proof. by split. Qed.

Definition poll_page : page :=
  send_poll (mkPollArgs (JStr "evt-1") (JStr "bob") (JStr "a1")) false
    (set_view (mkView "geo_anomaly" JNull RDone (JObj []) JNull PPolling None) (page_mount (geo_anomaly (λ _, 3)) [] 0)).

Definition poll_run := verify_run "http://cp" "http://gw" (mkPollArgs (JStr "evt-1") (JStr "bob") (JStr "a1")) verify_env.

Definition poll_response : response := match poll_run.1 with Ok r => r | Throw _ => RNext end.

Lemma poll_run_ok : poll_run.1 = Ok poll_response ∧ arrives poll_response (transport poll_response).
Proof. vm_compute. repeat split. Qed.

Definition polled : option page := page_handle (PgPollAnswer 0 (Ok (transport poll_response))) 5000 poll_page.

Lemma polled_green : memoryState "detection" (default (pg_view poll_page) (pg_view <$> polled)) = ShOk.
Proof. vm_compute. reflexivity. Qed.

Lemma verified_stages_shown_witness :
  ∃ l, poll_run = (Ok poll_response, l) ∧ ∃ s', polled = Some s' ∧ memoryState "detection" (pg_view s') = ShOk ∧
    ∃ all, served verify_env l (fired_request "http://cp") (JArr all) ∧ seen_event "evt-1" all.
Proof.
  destruct poll_run_ok as [E A]. unfold poll_run in *.
  destruct (verify_run "http://cp" "http://gw" (mkPollArgs (JStr "evt-1") (JStr "bob") (JStr "a1")) verify_env) as [r l] eqn:R.
  cbn [fst] in E. subst r. exists l. split; [reflexivity|].
  pose proof polled_green as G. destruct polled as [s'|] eqn:P; [|exfalso; vm_compute in P; discriminate P].
  cbn [fmap option_fmap option_map default] in G. exists s'. split; [reflexivity|]. split; [exact G|].
  destruct (verified_stages_shown "http://cp" "http://gw" poll_page 0
    (mkPending (mkPollArgs (JStr "evt-1") (JStr "bob") (JStr "a1")) false) verify_env poll_response l
    (transport poll_response) 5000 s' eq_refl R A P) as [H _].
  assert (Hk : "detection" ∈ MEMORY_STAGES) by (right; left).
  destruct (H "detection" Hk G) as (_ & Hd & _). exact (Hd eq_refl).
Defined.

(** ** The simulation page over its routes *)

(** The last verification is missing, or the four stages of the route. *)
Definition memory_from_route (cp gw : string) (m : jsval) : Prop :=
  m = JNull ∨ ∃ a w r l x, verify_run cp gw a w = (Ok r, l) ∧ arrives r x ∧ ft_ok x = true ∧ ft_json x = Some m.

Lemma memory_staged cp gw m : memory_from_route cp gw m → staged MEMORY_STAGES m ∨ m = JNull.
Proof.
  intros [->|(a & w & r & l & x & E & A & Hok & Hj)]; [by right|left].
  destruct (verify_response cp gw a w r l E) as [[b ->]|(s1 & s2 & s3 & s4 & ->)]; destruct A as [Hst A].
  - unfold ft_ok in Hok. rewrite Hst in Hok. done.
  - rewrite A in Hj. injection Hj as <-. intros k Hk. apply list_elem_of_In in Hk.
    destruct Hk as [<-|[<-|[<-|[<-|[]]]]]; eexists; reflexivity.
Qed.

(** C18: the simulation page over its routes. Suppose the page holds a 200
    answer of the simulation route whose verdict, path and action id are values
    React can show (not objects) and whose classifier evidence is made of
    numbers, all of which the orchestrator chooses; and that of the
    verification route it holds nothing yet or a 2xx answer. Then the page
    renders without an exception in every state of its run, its polling and
    its history, and it shows the verdict card exactly when it shows the run
    and the orchestrator stage passed. *)
Theorem simulation_renders cp gw getHours cu ou body w resp l scenarios v :
  run (simulate getHours cu ou body) w = (Ok (RJson 200 resp), l) → vw_hot v = json_normal resp →
  memory_from_route cp gw (vw_memory v) →
  (∀ k, k ∈ ["verdict"; "execution_path"; "action_id"] → showable (prop k (vw_hot v))) → numeric_evidence (vw_hot v) →
  ∃ sv, SimulateView scenarios v = Ok sv ∧
    (is_Some (sv_run sv ≫= rp_card) ↔ run_visible v = true ∧ stage_ok "orchestrator" resp).
Proof.
  intros E Hh Hm Hs He. rewrite Hh in Hs, He. pose proof (simulate_hot_shape _ _ _ _ _ _ _ E Hs He) as Hsh. rewrite <- Hh in Hsh.
  destruct (view_ok scenarios v (or_introl Hsh) (memory_staged cp gw _ Hm)) as [sv Esv]. exists sv. split; [done|].
  pose proof (view_section scenarios v sv Esv) as Sec.
  destruct (run_visible v) eqn:Vis; [|rewrite Sec; split; [by intros []|by intros []]].
  destruct Sec as (f & p & Ep & ->). simpl. apply run_section_card in Ep.
  destruct (hs_staged _ Hsh "orchestrator" ltac:(right; left)) as [so Eo]. destruct (stage_arrived so) as (o & Eq & Hok & _).
  assert (Eresp : stage_ok "orchestrator" resp ↔ st_ok so = true).
  { unfold stage_ok. assert (R : ∃ o', resp = JObj o').
    { clear -E. unfold run, simulate in E.
      apply bind_inv in E as (? & ? & _ & E). apply bind_inv in E as (? & ? & _ & E).
      apply bind_inv in E as (sid & ? & _ & E). apply bind_inv in E as (params & ? & _ & E).
      destruct (getScenario getHours sid); [|done]. apply bind_inv in E as (? & ? & _ & E). apply bind_inv in E as (? & ? & _ & E).
      apply bind_inv in E as (? & ? & _ & E). apply bind_inv in E as (? & ? & _ & E). injection E as <- _. by eexists. }
    rewrite Hh, prop_arrived in Eo by done. destruct R as [o' ->].
    pose proof (f_equal (prop "ok") Eo) as Ep'. rewrite Eq, Hok in Ep'.
    destruct (prop "orchestrator" (JObj o')) as [| | |nn| | |oo]; try done; [simpl in Ep'; by destruct (is_finite nn), nn|].
    rewrite prop_json in Ep'. destruct (prop "ok" (JObj oo)) as [| |bb|n| | |]; try done;
      [simpl in Ep'; injection Ep' as ->; by split; [intros [= ->]|intros ->]|].
    simpl in Ep'. by destruct (is_finite n), n. }
  rewrite Eresp. unfold verdict_shown in Ep. rewrite (hs_object _ Hsh) in Ep.
  assert (Sh : stage_flag "orchestrator" (vw_hot v) = Ok (st_ok so)).
  { unfold stage_flag, get. pose proof (hs_object _ Hsh) as T. assert (is_nullish (vw_hot v) = false) as -> by (by destruct (vw_hot v)).
    cbn [res_bind]. rewrite Eo, Eq. cbn [is_nullish res_bind]. by rewrite Hok. }
  unfold run_visible in Vis. rewrite Sh in Ep.
  assert (Ebd : bool_decide (is_Some (rp_card p)) = st_ok so).
  { destruct (vw_runState v); [done|..]; simpl in Ep; by injection Ep. }
  rewrite <- Ebd. rewrite bool_decide_eq_true. tauto.
Qed.

(** The page of a finished simulation whose memory was verified. *)
Definition sim_result : jsval :=
  match run (simulate (λ _, 3) "http://c" "http://o" (Some sim_body)) sim_env with (Ok (RJson 200 resp), _) => resp | _ => JNull end.
Definition finished_view : view :=
  mkView "geo_anomaly" JNull RDone (json_normal sim_result) JNull PPolling None.

Lemma sim_result_run : ∃ l, run (simulate (λ _, 3) "http://c" "http://o" (Some sim_body)) sim_env = (Ok (RJson 200 sim_result), l).
Proof. eexists. vm_compute. reflexivity. Qed.

Lemma sim_result_texts k : k ∈ ["verdict"; "execution_path"; "action_id"] → showable (prop k (vw_hot finished_view)).
Proof. intros Hk. apply list_elem_of_In in Hk. destruct Hk as [<-|[<-|[<-|[]]]]; eexists; vm_compute; reflexivity. Qed.

Lemma sim_result_ok : run_visible finished_view = true ∧ stage_ok "orchestrator" sim_result.
Proof. split; vm_compute; reflexivity. Qed.

Lemma sim_result_numbers : numeric_evidence (vw_hot finished_view).
Proof. split; (left; vm_compute; reflexivity). Qed.

Lemma finished_hot : vw_hot finished_view = json_normal sim_result.
Proof. reflexivity. Qed.

Lemma finished_memory cp gw : memory_from_route cp gw (vw_memory finished_view).
Proof. by left. Qed.

Lemma simulation_renders_witness :
  ∃ sv, SimulateView [] finished_view = Ok sv ∧ is_Some (sv_run sv ≫= rp_card).
Proof.
  destruct sim_result_run as [l E].
  pose proof (simulation_renders "http://cp" "http://gw" (λ _, 3) "http://c" "http://o" (Some sim_body) sim_env sim_result l [] finished_view
    E finished_hot (finished_memory _ _) sim_result_texts sim_result_numbers) as S.
  pose proof sim_result_ok as K. revert S K.
  generalize (SimulateView [] finished_view). intros r (sv & Esv & H) K. exists sv. split; [exact Esv|exact (proj2 H K)].
Defined.

(** ** The public demo's card *)
Section DemoCard.
Import TryDemo.
Variable getHours : Z → Z.
Variables (COLLECTOR_URL ORCHESTRATOR_URL : string).

Notation demo_call ip body hits := (run (demo_post getHours COLLECTOR_URL ORCHESTRATOR_URL ip body hits)).

(** The log was verified in the run. *)
Definition log_verified (w : env) (l : list effect) : Prop :=
  ∃ rv report, answered w l (verify_request ORCHESTRATOR_URL) (Ok rv) ∧ ft_ok rv = true ∧ ft_json rv = Some report ∧
    truthy (prop "ok" report) = true.

(** Every answer is an object whose envelope and report were served. *)
Lemma demo_answer ip body hits w r h l :
  demo_call ip body hits w = (Ok (r, h), l) →
  ∃ st o, r = RJson st (JObj o) ∧ out_sound ORCHESTRATOR_URL w l o.
Proof.
  intros E. destruct (demo_post_run getHours COLLECTOR_URL ORCHESTRATOR_URL ip body hits w) as (r' & l' & E' & Hr).
  rewrite E in E'. destruct (rateLimited _ _ _ _ _ _) as [[] h1]; simpl in *; injection E' as <- _ <-.
  - destruct Hr as [-> _]. do 2 eexists. split; [done|]. by apply out_sound_blank.
  - destruct Hr as (st & o & [= ->] & _ & Hs & _). by exists st, o.
Qed.

Lemma result_shown st o x d :
  arrives (RJson st (JObj o)) x → td_result (run_answered (Ok x) d) = Some (json_normal (JObj o)).
Proof. intros [_ Hj]. unfold run_answered. by rewrite Hj. Qed.

(** A value as the card shortens it. *)
Definition shortened (v : jsval) (label : string) : Prop := ∀ w l, short v w l = (Ok label, l).

Lemma short_value v w l label l' : short v w l = (Ok label, l') → l' = l ∧ shortened v label.
Proof.
  assert (P : ∀ (m : M string), (∃ x, m = ret x) ∨ (∃ e, m = throw e) → m w l = (Ok label, l') →
    l' = l ∧ ∀ w l, m w l = (Ok label, l)).
  { intros m [[x ->]|[e ->]]; unfold ret, throw; [|done]. intros E. by injection E as -> ->. }
  apply P. unfold short. destruct (negb (truthy v)); [left; by eexists|]. destruct v; eauto.
Qed.

Lemma envelope_rows_spec v w l rows l' :
  envelope_rows v w l = (Ok rows, l') →
  ∃ action prev sig, shortened (prop "agent_action_id" v) action ∧ shortened (prop "prev_hash" v) prev ∧
    shortened (prop "signature" v) sig ∧
    rows = [("tenant_id", to_string (prop "tenant_id" v)); ("verdict", to_string (prop "verdict" v));
            ("action_id", action); ("prev_hash", prev); ("signature", sig)].
Proof.
  unfold envelope_rows. intros E. apply bind_inv in E as (a & l1 & Ea & E). apply bind_inv in E as (b & l2 & Eb & E).
  apply bind_inv in E as (sig & l3 & Es & E). injection E as <- _.
  apply short_value in Ea as [-> Sa]. apply short_value in Eb as [-> Sb]. apply short_value in Es as [-> Ss].
  by exists a, b, sig.
Qed.

(** What the card reads from a result made of the fields [o]. *)
Lemma card_parts o w l shown title notes l' :
  DemoResultCard (json_normal (JObj o)) w l = (Ok (shown, (title, notes)), l') →
  ((∃ rows, shown = inl rows) ↔ truthy (json_normal (prop "envelope" (JObj o))) = true) ∧
  (∀ rows, shown = inl rows → ∃ l1, envelope_rows (json_normal (prop "envelope" (JObj o))) w l = (Ok rows, l1)) ∧
  (truthy (json_normal (prop "verify" (JObj o))) = true →
     ∃ l1 l2, verify_lines (json_normal (prop "verify" (JObj o))) w l1 = (Ok (title, notes), l2)).
Proof.
  unfold DemoResultCard. rewrite !prop_json. intros E. apply bind_inv in E as (sh & l1 & E1 & E).
  apply bind_inv in E as (ck & l2 & E2 & E). injection E as <- <- <-. split; [|split].
  - destruct (truthy (json_normal (prop "envelope" (JObj o)))) eqn:Ht.
    + apply bind_inv in E1 as (rows' & l3 & E1 & E3). injection E3 as <- <-. split; [done|by eexists].
    + apply bind_inv in E1 as (e & l3 & _ & E1). injection E1 as <- _. split; [by intros []|done].
  - intros rows ->. destruct (truthy (json_normal (prop "envelope" (JObj o)))) eqn:Ht.
    + apply bind_inv in E1 as (rows' & l3 & E1 & E3). injection E3 as <- <-. by exists l3.
    + apply bind_inv in E1 as (e & l3 & _ & E1). done.
  - intros Ht. rewrite Ht in E2. by exists l1, l2.
Qed.

(** The heading of a report. *)
Definition report_title (report : jsval) : string :=
  (if truthy (json_normal (prop "ok" report)) then "PASS" else "FAIL") +:+ " · verified " +:+
  to_string (json_normal (prop "passed" report)) +:+ "/" +:+ to_string (json_normal (prop "total" report)) +:+
  (if truthy (json_normal (prop "durable" report)) then " · object store" else " · local log").

Lemma verify_heading v w l title notes l' :
  verify_lines v w l = (Ok (title, notes), l') →
  title = (if truthy (prop "ok" v) then "PASS" else "FAIL") +:+ " · verified " +:+
    to_string (prop "passed" v) +:+ "/" +:+ to_string (prop "total" v) +:+
    (if truthy (prop "durable" v) then " · object store" else " · local log").
Proof.
  unfold verify_lines. intros E. apply bind_inv in E as (last3 & l1 & _ & E). destruct last3 as [| | | | |rows|]; try done.
  apply bind_inv in E as (lines & l2 & _ & E). by injection E as <- _ _.
Qed.

Lemma verify_title fields report w l title notes l' :
  verify_lines (json_normal (JObj fields)) w l = (Ok (title, notes), l') →
  (∀ k, k ≠ "results" → prop k (JObj fields) = prop k report) → title = report_title report.
Proof. intros ->%verify_heading K. rewrite !prop_json. by rewrite !K by done. Qed.

(** C27: the demo's card shows only what was signed and checked. When the
    browser receives the demo route's answer, whatever it is, the button is
    free again and the answer is the card's. The card, when it can be shown,
    shows an envelope exactly when the answer has one, and then each of its
    five rows (tenant, verdict, action, previous hash and signature) is the
    field of the envelope that the orchestrator served for the answer's action
    in that very call, shortened where the card shortens; where that envelope
    has no value the row shows the answer's own action id or verdict, the demo
    tenant or nothing. The heading over a report is made of the report the
    orchestrator served in that call: one that starts with PASS means that the
    orchestrator verified the log. *)
Theorem demo_card_honest ip body hits w r h l x d w' shown title notes :
  demo_call ip body hits w = (Ok (r, h), l) → arrives r x →
  let d' := run_answered (Ok x) d in
  td_busy d' = false ∧
  ∃ st o, r = RJson st (JObj o) ∧ td_result d' = Some (json_normal (JObj o)) ∧
    ((run (DemoResultCard (json_normal (JObj o))) w').1 = Ok (shown, (title, notes)) →
      ((∃ rows, shown = inl rows) ↔ truthy (out_get "envelope" o) = true) ∧
      (∀ rows, shown = inl rows →
         ∃ re env action prev sig,
           answered w l (envelope_request ORCHESTRATOR_URL (to_string (out_get "action_id" o))) (Ok re) ∧
           ft_ok re = true ∧ ft_json re = Some env ∧
           let field k default := json_normal (nullish (prop k env) default) in
           rows = [("tenant_id", to_string (field "tenant_id" (JStr "demo")));
                   ("verdict", to_string (field "verdict" (out_get "verdict" o)));
                   ("action_id", action); ("prev_hash", prev); ("signature", sig)] ∧
           shortened (field "agent_action_id" (out_get "action_id" o)) action ∧
           shortened (field "prev_hash" (JStr EmptyString)) prev ∧
           shortened (field "signature" (JStr EmptyString)) sig) ∧
      (truthy (out_get "verify" o) = true →
         (∃ rv report, answered w l (verify_request ORCHESTRATOR_URL) (Ok rv) ∧ ft_ok rv = true ∧
            ft_json rv = Some report ∧ title = report_title report) ∧
         (starts_with "PASS" title = true → log_verified w l))).
Proof.
  intros E A d'. destruct (demo_answer _ _ _ _ _ _ _ E) as (st & o & -> & He & Hv). split; [done|].
  exists st, o. split; [done|]. split; [by eapply result_shown|]. unfold run. destruct (DemoResultCard _ w' []) as [c lc] eqn:Ec.
  cbn [fst]. intros ->. destruct (card_parts _ _ _ _ _ _ _ Ec) as (Hiff & Hrows & Hver). split; [|split].
  - rewrite Hiff. split; [apply truthy_json|]. intros Ht. destruct (He Ht) as (_ & _ & _ & _ & _ & (fields & Ef) & _).
    unfold out_get in Ef. by rewrite Ef.
  - intros rows Hs. destruct (Hrows rows Hs) as (l1 & Er).
    assert (Ht : truthy (out_get "envelope" o) = true) by (apply truthy_json, Hiff; by eexists).
    destruct (He Ht) as (re & env & Ha & Hok & Hj & (fields & Ef) & Henv). rewrite Ef in Henv. unfold out_get in Ef. rewrite Ef in Er.
    apply envelope_rows_spec in Er as (action & prev & sig & S1 & S2 & S3 & ->). rewrite !prop_json in *.
    rewrite !Henv in * by (unfold envelope_keys; set_solver). by exists re, env, action, prev, sig.
  - intros Ht. destruct (Hv Ht) as (rv & report & ? & ? & ? & (fields & Ef) & Hk). rewrite Ef in Hk. unfold out_get in Ef. rewrite Ef in Hver.
    destruct (Hver eq_refl) as (l1 & l2 & Ev). pose proof (verify_title _ report _ _ _ _ _ Ev Hk) as ->.
    split; [by exists rv, report|]. intros Hp. exists rv, report. split_and!; [done..|]. apply truthy_json.
    revert Hp. unfold report_title. by destruct (truthy (json_normal (prop "ok" report))).
Qed.
End DemoCard.

Definition card_response : response := match sample_run.1 with Ok (r, _) => r | Throw _ => RNext end.
Definition card_hits : gmap string (list Z) := match sample_run.1 with Ok (_, h) => h | Throw _ => ∅ end.
Definition card_result : jsval :=
  default JUndef (TryDemo.td_result (TryDemo.run_answered (Ok (transport card_response)) TryDemo.demo_mount)).
Definition card := (run (TryDemo.DemoResultCard card_result) sample_env).1.

Lemma card_run_ok : sample_run.1 = Ok (card_response, card_hits) ∧ arrives card_response (transport card_response).
Proof. vm_compute. repeat split. Qed.

Lemma card_shown : ∃ rows title notes,
  card = Ok (inl rows, (title, notes)) ∧ truthy (prop "verify" card_result) = true ∧ starts_with "PASS" title = true.
Proof. vm_compute. repeat eexists. Qed.

Lemma card_result_some :
  TryDemo.td_result (TryDemo.run_answered (Ok (transport card_response)) TryDemo.demo_mount) = Some card_result.
Proof. vm_compute. reflexivity. Qed.

Lemma demo_card_honest_witness :
  ∃ l o, sample_run = (Ok (card_response, card_hits), l) ∧ log_verified "http://o" sample_env l ∧
    ∃ re, answered sample_env l (envelope_request "http://o" (to_string (out_get "action_id" o))) (Ok re).
Proof.
  destruct card_run_ok as [E A]. unfold sample_run in *.
  destruct (run _ sample_env) as [r l] eqn:R in E |- *. cbn [fst] in E. subst r.
  destruct card_shown as (rows & title & notes & Ec & Hv & Hp).
  destruct (demo_card_honest (λ _, 12) "http://c" "http://o" (Some "10.0.0.1, proxy") None ∅ sample_env card_response
    card_hits l (transport card_response) TryDemo.demo_mount sample_env (inl rows) title notes R A)
    as (_ & st & o & _ & Er & H).
  rewrite card_result_some in Er. apply (inj Some) in Er. rewrite <- Er in H. destruct (H Ec) as (_ & H1 & H2).
  exists l, o. split; [reflexivity|]. rewrite Er, prop_json in Hv. split.
  - apply (H2 (truthy_json _ Hv)). exact Hp.
  - destruct (H1 rows eq_refl) as (re & env & action & prev & sig & Ha & _). exists re. exact Ha.
Defined.

(** ** The stored trace of a case page *)
Section StoredTrace.
Context {Db : Type} `{CaseTablesLaws Db}.
Variable date_parse : string → option Z.
Variable caseId : string.

(** A step as the trace route reads it from the request's JSON. *)
Definition posted (t : KafkaTraceStep) : PostStep :=
  mkPostStep (Some (ks_agent_action_id t)) (Some (ks_agent_id t)) (Some (ks_execution_path t)) (Some (ks_step_kind t))
    (Some (ks_summary t)) (if is_finite (ks_ts t) then Some (TsNumber (ks_ts t)) else None).

(** The route's part of one request: [None] when it got lost, else the time
    of its arrival. *)
Definition serve_post (d : Db) (p : option Z * list KafkaTraceStep) : Db :=
  match p.1 with
  | Some now => match trace_post date_parse now caseId (Some (posted <$> p.2)) d with Ok (_, d') => d' | Throw _ => d end
  | None => d
  end.

Definition serve_posts (fates : list (option Z)) (posts : list (list KafkaTraceStep)) (d : Db) : Db :=
  foldl serve_post d (zip fates posts).

(** A step with an identity and a time. *)
Definition complete_step (t : KafkaTraceStep) : Prop :=
  ks_agent_action_id t ≠ EmptyString ∧ ks_step_kind t ≠ EmptyString ∧ is_finite (ks_ts t) = true ∧ num_truthy (ks_ts t) = true.

(** The time of a step as the database stores it. *)
Definition step_time (t : KafkaTraceStep) : option Z := normalizeTraceTimestamp date_parse (TsNumber (ks_ts t)).

Definition step_row (now : Z) (t : KafkaTraceStep) (ms : Z) : TraceRow :=
  mkTraceRow (trace_id caseId (ks_agent_action_id t) (ks_step_kind t) ms) caseId (ks_agent_action_id t)
    (ks_agent_id t) (ks_execution_path t) (ks_step_kind t) (ks_summary t) ms now.

(** The row of a step is listed. *)
Definition listed_step (d : Db) (t : KafkaTraceStep) : Prop :=
  ∃ ms row, step_time t = Some ms ∧ row ∈ listTraceSteps d caseId ∧
    tw_id row = trace_id caseId (ks_agent_action_id t) (ks_step_kind t) ms.

Lemma accepted_posted batch s :
  s ∈ accepted_steps caseId (posted <$> batch) ↔ ∃ t, t ∈ batch ∧ complete_step t ∧ s = input_of caseId (posted t).
Proof.
  unfold accepted_steps. rewrite list_elem_of_fmap. setoid_rewrite list_elem_of_filter. setoid_rewrite list_elem_of_fmap.
  assert (C : ∀ t, step_accepted (posted t) = true ↔ complete_step t).
  { intros t. unfold step_accepted, complete_step, posted, str_given, ts_given. simpl.
    rewrite !andb_true_iff, !negb_true_iff, !String.eqb_neq. destruct (is_finite (ks_ts t)); naive_solver. }
  split.
  - intros (p & -> & Hp & t & -> & Ht). exists t. by rewrite <- C.
  - intros (t & Ht & Hc & ->). exists (posted t). split; [done|]. split; [by apply C|]. by exists t.
Qed.

(** One request. *)
Lemma serve_post_spec d p :
  trace_wf d → plain_cases d → no_colon caseId → is_Some (db_case d caseId) →
  let d' := serve_post d p in
  trace_wf d' ∧ plain_cases d' ∧ is_Some (db_case d' caseId) ∧
  (∀ row, row ∈ listTraceSteps d caseId → row ∈ listTraceSteps d' caseId) ∧
  (∀ now t, p.1 = Some now → t ∈ p.2 → complete_step t → (∀ u, u ∈ p.2 → complete_step u → is_Some (step_time u)) →
     listed_step d' t) ∧
  (∀ row, row ∈ listTraceSteps d' caseId → row ∈ listTraceSteps d caseId ∨
     ∃ now t ms, p.1 = Some now ∧ t ∈ p.2 ∧ complete_step t ∧ step_time t = Some ms ∧ row = step_row now t ms).
Proof.
  intros W Hp Hn Hc d'. destruct p as [[now|] batch]; subst d'; unfold serve_post; cbn [fst snd].
  2: { split_and!; try done. by left. }
  pose proof (trace_post_rows date_parse now caseId (posted <$> batch) d W Hp Hn Hc) as T.
  assert (Hin : ∀ t, complete_step t → ti_ts (input_of caseId (posted t)) = TsNumber (ks_ts t)).
  { intros t (_ & _ & Hf & _). unfold posted. by rewrite Hf. }
  destruct (trace_post _ _ _ _ _) as [[r d']|e].
  - destruct T as (_ & W' & Hp' & Hcs & Hkeep & Hread & Hnew). split_and!; [done|done|by rewrite Hcs|done|..].
    + intros _ t _ Ht Hct _. destruct (Hread (input_of caseId (posted t))) as (ms & row & Hms & Hrow & Hid).
      { apply accepted_posted. by exists t. }
      rewrite Hin in Hms by done. by exists ms, row.
    + intros row Hrow. destruct (Hnew row Hrow) as [?|(s & ms & Hs & Hms & ->)]; [by left|right].
      apply accepted_posted in Hs as (t & Ht & Hct & ->). rewrite Hin in Hms by done. by exists now, t, ms.
  - destruct T as [_ T]. split_and!; try done; [|by left]. intros _ t _ Ht Hct Hall. exfalso.
    apply list.Exists_exists in T as (s & Hs & Hns). apply accepted_posted in Hs as (u & Hu & Hcu & ->).
    rewrite Hin in Hns by done. destruct (Hall u Hu Hcu) as [ms Hms]. unfold step_time in Hms. congruence.
Qed.

(** All requests of a page. *)
Lemma serve_posts_spec fates posts d :
  trace_wf d → plain_cases d → no_colon caseId → is_Some (db_case d caseId) →
  let d' := serve_posts fates posts d in
  trace_wf d' ∧ plain_cases d' ∧ is_Some (db_case d' caseId) ∧
  (∀ row, row ∈ listTraceSteps d caseId → row ∈ listTraceSteps d' caseId) ∧
  (∀ k now batch t, fates !! k = Some (Some now) → posts !! k = Some batch → t ∈ batch → complete_step t →
     (∀ u, u ∈ batch → complete_step u → is_Some (step_time u)) → listed_step d' t) ∧
  (∀ row, row ∈ listTraceSteps d' caseId → row ∈ listTraceSteps d caseId ∨
     ∃ now t ms, t ∈ concat posts ∧ complete_step t ∧ step_time t = Some ms ∧ row = step_row now t ms).
Proof.
  unfold serve_posts. revert posts d. induction fates as [|f fates IH]; intros [|b posts] d W Hp Hn Hc; cbn [zip zip_with foldl].
  1-3: split_and!; try done; by left.
  destruct (serve_post_spec d (f, b) W Hp Hn Hc) as (W1 & Hp1 & Hc1 & K1 & R1 & N1).
  destruct (IH posts _ W1 Hp1 Hn Hc1) as (W2 & Hp2 & Hc2 & K2 & R2 & N2). split_and!; [done|done|done|by auto|..].
  - intros [|k] now batch t; cbn [lookup list_lookup]; [|by eauto].
    intros [= ->] [= ->] Ht Hct Hall. destruct (R1 now t eq_refl Ht Hct Hall) as (ms & row & ? & ? & ?).
    exists ms, row. by split_and!; [|apply K2|].
  - intros row Hrow. destruct (N2 row Hrow) as [Hold|(now & t & ms & Ht & ?)].
    + destruct (N1 row Hold) as [?|(now & t & ms & _ & Ht & ?)]; [by left|right].
      exists now, t, ms. split; [|done]. cbn [concat]. apply elem_of_app. by left.
    + right. exists now, t, ms. split; [|done]. cbn [concat]. apply elem_of_app. by right.
Qed.

(** C24: what a case page sees live can be read back later. Suppose the case
    has a row, its id and the case ids of the stored steps have no colon, and
    the stored trace is well formed (ids made of the rows' own fields, cases
    that exist). Whatever the page received and however its requests
    fared, after they reached the trace route: (1) the identity (action, kind and time)
    of every live step was sent, in exactly one step of one batch, and nothing else
    was; (2) every step that has an action, a kind and a time, and whose batch
    arrived, has its row in the case's list, provided the times of all such
    steps of that batch are dates (else the route answers 500 and stores
    nothing of the batch); (3) what was stored before is still listed and every
    other row is a step the page received; (4) a read lists the rows in order
    of time. *)
Theorem live_steps_stored renders fates d :
  trace_wf d → plain_cases d → no_colon caseId → is_Some (db_case d caseId) →
  let posts := pt_posts (persist_all renders) in
  let d' := serve_posts fates posts d in
  (∀ t, t ∈ concat renders → ∃ k batch u, posts !! k = Some batch ∧ u ∈ batch ∧ step_key u = step_key t) ∧
  NoDup (step_key <$> concat posts) ∧ (∀ t, t ∈ concat posts → t ∈ concat renders) ∧
  (∀ k now batch t, fates !! k = Some (Some now) → posts !! k = Some batch → t ∈ batch → complete_step t →
     (∀ u, u ∈ batch → complete_step u → is_Some (step_time u)) → listed_step d' t) ∧
  (∀ row, row ∈ listTraceSteps d caseId → row ∈ listTraceSteps d' caseId) ∧
  (∀ row, row ∈ listTraceSteps d' caseId → row ∈ listTraceSteps d caseId ∨
     ∃ now t ms, t ∈ concat renders ∧ complete_step t ∧ step_time t = Some ms ∧ row = step_row now t ms) ∧
  (listTraceSteps d' caseId ≠ [] → trace_get None None d' caseId =
     json_ok (JObj [("case_id", JStr caseId); ("steps", JArr (step_of_row <$> listTraceSteps d' caseId))])) ∧
  StronglySorted (λ a b, tw_ts a ≤ tw_ts b) (listTraceSteps d' caseId).
Proof.
  intros W Hp Hn Hc posts d'. destruct (persist_all_spec renders) as (_ & E & _). fold posts in E.
  destruct (serve_posts_spec fates posts d W Hp Hn Hc) as (_ & _ & _ & K & R & N). split_and!; [| | |done|done|..].
  - intros t Ht. assert (Hk : step_key t ∈ step_key <$> concat posts).
    { rewrite E, dedup_by_keys. split; [by apply list_elem_of_fmap_2|set_solver]. }
    apply list_elem_of_fmap in Hk as (u & Hu & Hin). apply list_elem_of_In, in_concat in Hin as (batch & Hb & Hub).
    apply list_elem_of_In, list_elem_of_lookup in Hb as [k Hk]. apply list_elem_of_In in Hub. by exists k, batch, u.
  - rewrite E. apply dedup_by_NoDup.
  - rewrite E. apply dedup_by_subset.
  - intros row Hrow. destruct (N row Hrow) as [?|(now & t & ms & Ht & ?)]; [by left|right]. exists now, t, ms. split; [|done].
    rewrite E in Ht. by eapply dedup_by_subset.
  - apply trace_get_rows.
  - apply traces_sorted.
Qed.
End StoredTrace.

Definition live_step (kind : string) (ts : Z) : KafkaTraceStep :=
  mkKafkaTraceStep "c1" "default" "a1" "triager" "llm" kind "s" (of_Z ts).

Definition live_renders : list (list KafkaTraceStep) :=
  [[live_step "tool_call" 1700000000]; [live_step "tool_call" 1700000000; live_step "final_verdict" 1700000001]].

(** The first batch arrives, the second is lost. *)
Definition after_posts : MemDb :=
  serve_posts (λ _, None) "c1" [Some 9; None] (pt_posts (persist_all live_renders)) sample_db.

Lemma sample_db_plain : plain_cases sample_db.
Proof. intros i r. unfold sample_db; simpl. unfold mem_trace; simpl. by rewrite lookup_empty. Qed.

Lemma first_batch : pt_posts (persist_all live_renders) !! 0%nat = Some [live_step "tool_call" 1700000000].
Proof. vm_compute. reflexivity. Qed.

Lemma tool_call_complete : complete_step (live_step "tool_call" 1700000000).
Proof. vm_compute. repeat split; discriminate. Qed.

Lemma tool_call_time : is_Some (step_time (λ _, None) (live_step "tool_call" 1700000000)).
Proof. vm_compute. eexists. reflexivity. Qed.

Lemma live_steps_stored_witness :
  listed_step (λ _, None) "c1" after_posts (live_step "tool_call" 1700000000) ∧
  StronglySorted (λ a b, tw_ts a ≤ tw_ts b) (listTraceSteps after_posts "c1").
Proof.
  assert (Hc : is_Some (db_case sample_db "c1")) by (eexists; vm_compute; reflexivity).
  assert (Hn : no_colon "c1") by (apply no_colon_dec; reflexivity).
  pose proof (live_steps_stored (λ _, None) "c1" live_renders [Some 9; None] sample_db sample_db_wf sample_db_plain Hn Hc)
    as (_ & _ & _ & H & _ & _ & _ & Hs).
  split; [|exact Hs]. apply (H 0%nat 9 [live_step "tool_call" 1700000000] _ eq_refl first_batch).
  - left.
  - exact tool_call_complete.
  - intros u Hu _. apply list_elem_of_singleton in Hu. rewrite Hu. exact tool_call_time.
Defined.

(** ** The stored trace that is shown *)

(** A stored row as the panels receive it. *)
Definition shown_step (row : TraceRow) : HttpTraceStep :=
  mkHttpStep (tw_step_kind row) (tw_agent_action_id row) (tw_agent_id row) (tw_execution_path row) (tw_summary row)
    (if String.eqb (tw_step_kind row) "tool_call" then of_Z 1 else zero)
    (if String.eqb (tw_step_kind row) "intermediate_belief" then of_Z 1 else zero).

Section StoredShown.
Context {Db : Type} `{CaseTables Db}.

Lemma as_step_row row : as_step (json_normal (step_of_row row)) = Some (shown_step row).
Proof.
  unfold step_of_row, step_json, shown_step.
  destruct (String.eqb (tw_step_kind row) "tool_call"), (String.eqb (tw_step_kind row) "intermediate_belief"); reflexivity.
Qed.

Lemma as_steps_rows rows c :
  as_steps (json_normal (JObj [("case_id", JStr c); ("steps", JArr (step_of_row <$> rows))])) = Some (Some (shown_step <$> rows)).
Proof.
  assert (E : mapM as_step (json_item <$> (step_of_row <$> rows)) = Some (shown_step <$> rows)).
  { induction rows as [|row rows IH]; [done|]. rewrite !fmap_cons. change (json_item (step_of_row row)) with (json_normal (step_of_row row)).
    cbn [mapM mbind]. rewrite as_step_row. cbn [mbind option_bind]. by rewrite IH. }
  unfold as_steps. rewrite prop_json. change (prop "steps" _) with (JArr (step_of_row <$> rows)). rewrite json_normal_arr, E. done.
Qed.

(** The key the panel deduplicates by: action and kind, joined. *)
Definition stored_key (row : TraceRow) : string := tw_agent_action_id row +:+ "-" +:+ tw_step_kind row.
Definition row_key (r : PanelRow) : string := pr_agent_action_id r +:+ "-" +:+ pr_kind r.

Lemma panel_rows_keys http live : row_key <$> panel_rows http live = panel_key <$> panel_merged http live.
Proof.
  unfold panel_rows. generalize (panel_merged http live). intros l. apply list_eq. intros i.
  rewrite !list_lookup_fmap, list_lookup_imap. by destruct (l !! i).
Qed.

End StoredShown.

Definition stored_answer : fetched :=
  mkFetched 200 (Some (json_normal (JObj [("case_id", JStr "c1"); ("steps", JArr (step_of_row <$> listTraceSteps after_posts "c1"))]))) EmptyString.

Lemma stored_answer_arrives : arrives (trace_get None None after_posts "c1") stored_answer.
Proof. vm_compute. split; reflexivity. Qed.

Definition answered_panel : Panel.panel :=
  Panel.mkPanel "c1" false [] (mkLoader (Some (Panel.mkTraceResponse (Some (shown_step <$> listTraceSteps after_posts "c1")) None))
    [] ["c1"] (Some 0%nat)).

Lemma after_posts_stored : length (listTraceSteps after_posts "c1") = 1%nat.
Proof. vm_compute. reflexivity. Qed.


(** ** The socket of a live trace *)
Section TraceSocket.
Variable gateway : string.
Variable sign : ws_claims → string → string.

(** A live trace is only opened with a token for the signed-in user and
    the case. When a token request of the hook is answered by the token
    route, a socket is opened exactly for a signed-in user, a case id that is
    not blank and a token that is not empty; its address names the case and
    carries the token signed for that user, the trimmed case id and one
    minute. A refusal opens nothing and arms one retry. *)
Theorem trace_socket_authorised configured session (s : tail) i c r x :
  tl_tokens s !! i = Some c →
  ws_token sign configured session (Some (JObj [("case_id", JStr c)])) = Ok r → arrives r x →
  let s0 := TraceWs.with_tokens (delete i (tl_tokens s)) s in
  let s' := token_answered gateway c (read_token (Ok x)) s0 in
  let token user := sign (mkClaims (su_id user) (default EmptyString (su_email user)) "default" (trim c) 60) (getWsSecret configured) in
  tail_step gateway s s' ∧
  match session with
  | Some user =>
      if decide (trim c = EmptyString) then s' = schedule s0
      else if decide (token user = EmptyString) then s' = TraceWs.with_status WsDisconnected s0
      else tl_urls s' = tl_urls s ++ [(c, trace_url gateway c (token user))] ∧ tl_sockets s' = tl_sockets s ++ [SkConnecting] ∧
           tl_timers s' = tl_timers s
  | None => s' = schedule s0
  end.
Proof.
  intros Hi E A s0 s' token. split; [by apply ts_token|]. subst s'.
  assert (Refused : ∀ m st, r = RJson st (error_body m) → (st = 400 ∨ st = 401) → read_token (Ok x) = TokFailed).
  { intros m st -> Hst. destruct A as [Hs _]. unfold read_token, ft_ok. rewrite Hs. by destruct Hst as [-> | ->]. }
  unfold ws_token in E. destruct session as [user|]; [|injection E as <-; erewrite Refused by eauto; done].
  simpl in E. destruct (String.eqb (trim c) EmptyString) eqn:Et.
  - apply String.eqb_eq in Et. rewrite decide_True by done. injection E as <-. by erewrite Refused by eauto.
  - apply String.eqb_neq in Et. rewrite decide_False by done. injection E as <-. destruct A as [Hs Hj].
    unfold read_token, ft_ok. rewrite Hs, Hj. simpl. change (sign _ _) with (token user).
    destruct (String.eqb_spec (token user) EmptyString) as [Ht|Ht]; simpl.
    + by rewrite decide_True.
    + rewrite decide_False by done. by apply String.eqb_neq in Ht as ->.
Qed.
End TraceSocket.

(** ** The verdict a case page shows *)
Section ShownVerdict.
Context {Db : Type} `{CaseTablesLaws Db}.
Variable orch : string.

Lemma selectVerdict_set now k v (st : Cases) : is_Some (obj_get k st) → selectVerdict k (setVerdict now k v st) = Some v.
Proof. intros [e He]. unfold selectVerdict, setVerdict, update_entry. by rewrite He, obj_get_set_eq. Qed.

(** What the hook makes of the stored status of a case. *)
Lemma status_read (d : Db) k x :
  arrives (get_status d k) x →
  read_get (Ok x) =
  match getCase d k with
  | None => Some GotOther
  | Some r =>
      if truthy (json_normal (cw_verdict r)) then GotVerdict <$> as_verdict (json_normal (cw_verdict r))
      else match cw_triage_status r, cw_error r with
           | TFailed, Some e => Some (if String.eqb e EmptyString then GotOther else GotFailed e)
           | _, _ => Some GotOther
           end
  end.
Proof.
  unfold get_status, read_get. destruct (getCase d k) as [r|]; intros [_ ->]; [|done].
  set (o := [("status", _); _; _; _; _]). assert (Hn : is_nullish (json_normal (JObj o)) = false) by done.
  rewrite Hn, !prop_json.
  change (prop "verdict" (JObj o)) with (cw_verdict r).
  change (prop "status" (JObj o)) with (JStr (triage_status_string (cw_triage_status r))).
  change (prop "error" (JObj o)) with (match cw_error r with Some e => JStr e | None => JNull end).
  destruct (truthy (json_normal (cw_verdict r))); [done|].
  destruct (cw_triage_status r), (cw_error r) as [e|]; simpl; try done. by destruct (String.eqb e EmptyString).
Qed.

(** The answers of the triage route. *)
Definition answer_shape (pc : hpc) : Prop :=
  match pc with HDone r => (∃ v, r = RJson 200 v) ∨ (∃ m, r = error_502 m) | _ => True end.

Lemma after_get_shape h p (c : config Db) : answer_shape (after_get h p c).
Proof. unfold after_get. repeat case_match; simpl; eauto. Qed.

Lemma handler_step_shape ans i (c c' : config Db) :
  handler_step ans i c = Some c' → ∃ h pc, c_handlers c !! i = Some h ∧ answer_shape pc ∧
    c_handlers c' = <[i := mkHandler (h_case h) (h_alert h) pc]> (c_handlers c).
Proof.
  unfold handler_step. intros (h & Hi & E)%bind_Some. exists h.
  assert (S : ∀ r, answer_shape (HGot r)) by done.
  destruct (h_pc h) as [|[p|e]|a u r|a r x|a|a [[]|e]|rid|rid v|rid v [[]|e]|rid m|rid m [[]|e]|rid|r|e]; try discriminate.
  all: try (apply bind_Some in E as (rd & W & E)); repeat (case_match; try discriminate); injection E as <-;
    eexists; (split; [done|]); (split; [|reflexivity]); simpl; eauto using after_get_shape.
Qed.

Lemma answers_shaped (d0 : Db) c :
  star (step orch) (init d0) c → ∀ i h, c_handlers c !! i = Some h → answer_shape (h_pc h).
Proof.
  intros R. refine (star_invariant _ (λ c, ∀ i h, c_handlers c !! i = Some h → answer_shape (h_pc h)) (init d0) c _ _ R);
    [intros i h E; destruct i; discriminate E|].
  clear c R. intros c c' I [e E] i h Hi. destruct e as [k a|j ans|j ans]; simpl in E.
  - injection E as <-. simpl in Hi. apply lookup_app_Some in Hi as [Hi|[_ Hi]]; [by eapply I|].
    apply list_lookup_singleton_Some in Hi as [_ <-]. done.
  - apply handler_step_shape in E as (h0 & pc & _ & Hs & E). rewrite E in Hi.
    apply list_lookup_insert_Some in Hi as [(_ & <- & _)|[_ Hi]]; [done|by eapply I].
  - assert (Hc : c_handlers c' = c_handlers c); [|rewrite Hc in Hi; by eapply I].
    unfold run_step in E. apply bind_Some in E as (jb & _ & E). repeat (case_match; try discriminate);
    try (apply bind_Some in E as (? & _ & E)); by injection E as <-.
Qed.

(** C15: the verdict a case page shows was given for that case. When a triage
    request of the page is answered by the triage route, under any
    interleaving of requests, and the page takes it for a verdict, the page
    then stores and shows exactly that verdict, which was stored complete for
    the same case or returned by the orchestrator for it; any other answer
    is recorded as a failure and no verdict of the case changes. *)
Theorem shown_verdict_provenance (d0 : Db) c i h r x now flag p (s : hook_state) date event baseline :
  star (step (Db := Db) orch) (init d0) c → c_handlers c !! i = Some h → h_pc h = HDone r → arrives r x →
  read_post (Ok x) = Some p → is_Some (obj_get (h_case h) (hs_store s)) →
  let shown := selectVerdict (h_case h) (hs_store (post_answered (h_case h) now flag p s)) in
  match p with
  | PostVerdict tv =>
      shown = Some tv ∧ cr_verdict (caseRecord date event baseline shown) = to_lower (tv_verdict tv) ∧
      ∃ v, as_verdict (json_normal v) = Some tv ∧ (stored_complete d0 (h_case h) v ∨ answered_by orch c (h_case h) v)
  | PostRejected m => shown = selectVerdict (h_case h) (hs_store s)
  end.
Proof.
  intros R Hi Hpc A Hr Hs shown. subst shown. destruct p as [tv|m]; cbn [post_answered hs_store with_store].
  - rewrite selectVerdict_set by done. split; [done|]. split; [done|].
    pose proof (inv_handlers _ _ _ (inv_reachable orch d0 c R) i h Hi) as Hok. unfold handler_ok in Hok. rewrite Hpc in Hok.
    unfold read_post in Hr. destruct (ft_ok x) eqn:Hx; simpl in Hr; [|done].
    pose proof (answers_shaped d0 c R i h Hi) as Hsh. rewrite Hpc in Hsh. destruct Hsh as [[v ->]|[m ->]].
    + destruct A as [_ Hj]. rewrite Hj in Hr. exists v. split.
      * destruct (as_verdict (json_normal v)); [|done]. by injection Hr as <-.
      * destruct Hok as [Hok|?]; [right; by eapply (result_answered _ _ _ _ _ (inv_reachable orch d0 c R))|by left].
    + destruct A as [Hst _]. unfold ft_ok in Hx. by rewrite Hst in Hx.
  - unfold selectVerdict. destruct (alive s flag); cbn [set_comp with_comp hs_store with_store]; unfold failTriage, update_entry.
    all: destruct Hs as [e He]; by rewrite He, obj_get_set_eq.
Qed.
End ShownVerdict.

Definition plain_sign (c : ws_claims) (secret : string) : string := wc_sub c +:+ "." +:+ wc_case_id c.

Definition waiting_tail : tail := tail_mount (Some "c1") [].

Lemma trace_socket_authorised_witness :
  ∃ r, ws_token plain_sign None (Some (mkUser "u1" None)) (Some (JObj [("case_id", JStr "c1")])) = Ok r ∧
    tl_urls (token_answered "ws://gw" "c1" (read_token (Ok (transport r)))
               (TraceWs.with_tokens (delete 0%nat (tl_tokens waiting_tail)) waiting_tail))
    = [("c1", trace_url "ws://gw" "c1" "u1.c1")].
Proof.
  eexists. split; [reflexivity|].
  destruct (trace_socket_authorised "ws://gw" plain_sign None (Some (mkUser "u1" None)) waiting_tail 0 "c1" _
    (transport (json_ok (JObj [("token", JStr "u1.c1"); ("expires_in", JNum (of_Z 60))]))) eq_refl eq_refl
    (conj eq_refl eq_refl)) as [_ H].
  exact (proj1 H).
Defined.

Definition full_verdict : jsval := JObj [
  ("action_id", JStr "a1"); ("case_id", JStr "c1"); ("verdict", JStr "Benign"); ("execution_path", JStr "classifier");
  ("calibrated_confidence", JNum (of_Z 1)); ("novelty_score", JNum zero); ("escalated", JBool false);
  ("latency_ms", JNum (of_Z 12))].

Definition verdict_config : config MemDb :=
  run_events (solo "c1" 0 0 (AnsFetch (Ok (mkFetched 200 (Some full_verdict) EmptyString)))).

Definition verdict_handler : handler := mkHandler "c1" sample_alert (HDone (json_ok full_verdict)).

Lemma verdict_config_star : star (step "http://orch") (init sample_db) verdict_config.
Proof. apply run_events_star. vm_compute. eexists; reflexivity. Qed.

Lemma verdict_config_handler : c_handlers verdict_config !! 0%nat = Some verdict_handler.
Proof. vm_compute. reflexivity. Qed.

Definition verdict_read : option post_answer := read_post (Ok (transport (json_ok full_verdict))).

Lemma verdict_read_ok : ∃ tv, verdict_read = Some (PostVerdict tv) ∧ tv_verdict tv = "Benign".
Proof. vm_compute. eexists. by split. Qed.

Lemma shown_verdict_provenance_witness :
  ∃ tv, verdict_read = Some (PostVerdict tv) ∧ tv_verdict tv = "Benign" ∧
    selectVerdict "c1" (hs_store (post_answered "c1" 5 0 (PostVerdict tv) (page_load sample_store 1))) = Some tv ∧
    ∃ v, as_verdict (json_normal v) = Some tv ∧
      (stored_complete sample_db "c1" v ∨ answered_by "http://orch" verdict_config "c1" v).
Proof.
  destruct verdict_read_ok as (tv & E & Et). exists tv. split; [exact E|]. split; [exact Et|].
  assert (Hs : is_Some (obj_get (h_case verdict_handler) (hs_store (page_load sample_store 1))))
    by (eexists; vm_compute; reflexivity).
  destruct (shown_verdict_provenance "http://orch" sample_db verdict_config 0 verdict_handler (json_ok full_verdict)
    (transport (json_ok full_verdict)) 5 0 (PostVerdict tv) (page_load sample_store 1) "10:00" (CaseStore.sample_event "c1") None
    verdict_config_star verdict_config_handler eq_refl (transport_arrives _ _) E Hs) as (H1 & _ & H2).
  split; [exact H1|exact H2].
Defined.

(** ** A statement of the hunt page *)
Section HuntQuery.
Import Hunt.
Variable cp : string.

Definition upstream_query (sql : string) : request := post_json (cp +:+ "/v1/warm/query") (JObj [("sql", JStr sql)]).

Definition UNAVAILABLE : string := "control-plane unavailable".

(** What the hunt page shows is the control plane's answer to what was
    asked. When the page's query is answered by the warm-query route, the
    control plane was sent exactly one statement, the one on its way, which
    begins with select; the page is free again and shows the answered rows,
    or the refusal's message, or that the control plane is unavailable when
    it failed or its answer was not JSON; never both a result and an error. *)
Theorem hunt_query_answered h rq w r l x :
  star hunt_step hunt_mount h → hu_pending h = [rq] →
  run (warm_query cp (rq_body rq)) w = (Ok r, l) → arrives r x →
  ∃ sql h', starts_with "select" (to_lower sql) = true ∧ rq = hunt_request sql ∧ fetches l = [upstream_query sql] ∧
    hunt_handle (HuAnswer (Ok x)) h = Some h' ∧ hu_busy h' = false ∧
    match forward (env_fetch w 0 (upstream_query sql)) None (λ _, RJson 503 (error_body UNAVAILABLE)) with
    | RJson st v =>
        if (200 <=? st) && (st <=? 299) then hu_result h' = json_normal v ∧ hu_error h' = None
        else hu_result h' = JNull ∧
             hu_error h' = Some (if has_error (json_normal v) then to_string (prop "error" (json_normal v))
                                 else "HTTP " +:+ string_of_Z st)
    | _ => False
    end.
Proof.
  intros R Hp E A. assert (I : hunt_inv h).
  { refine (star_invariant _ hunt_inv hunt_mount h _ _ R); [|intros ? ?; apply hunt_step_inv].
    unfold hunt_inv. simpl. split_and!; try done; [lia|by intros ? ?%elem_of_nil]. }
  destruct I as (_ & I2 & I3 & I4). assert (Hb : hu_busy h = true) by (apply I2; by rewrite Hp).
  destruct (I4 Hb) as [Hr He]. destruct (I3 rq) as (sql & -> & Hs); [rewrite Hp; left|].
  destruct (proxies_pass_through cp EmptyString EmptyString) as (_ & _ & _ & _ & _ & _ & P).
  destruct (P (JObj [("sql", JStr (trim sql))]) w []) as [Ha Hf]. unfold run in E.
  change (rq_body (hunt_request (trim sql))) with (Some (JObj [("sql", JStr (trim sql))])) in E.
  rewrite E in Ha, Hf. cbn [fst snd] in Ha, Hf.
  exists (trim sql), (hunt_answered (Ok x) h). split; [done|]. split; [done|]. split; [exact Hf|].
  split; [simpl; by rewrite Hp|]. split; [unfold hunt_answered; by case_match|].
  injection Ha as ->. fold UNAVAILABLE in A. unfold upstream_query. cbn [length] in A.
  destruct (forward (env_fetch w 0 _) None _) as [st v| | |] eqn:F.
  2-4: unfold forward in F; repeat case_match; done.
  - destruct A as [Hst Hj]. unfold hunt_answered, ft_ok. rewrite Hst, Hj. destruct (_ && _); simpl; [by rewrite He|by rewrite Hr].
Qed.
End HuntQuery.

Definition asked_hunt : Hunt.hunt := Hunt.runWarmTier Hunt.hunt_mount.
Definition rows_env : env := mkEnv (λ _ _, Ok (mkFetched 200 (Some (JObj [("rows", JArr [])])) EmptyString)) (λ _, 0).

Lemma asked_hunt_star : star Hunt.hunt_step Hunt.hunt_mount asked_hunt.
Proof. apply (star_snoc _ _ Hunt.hunt_mount); [constructor|by exists Hunt.HuRun]. Qed.

Lemma hunt_query_answered_witness :
  ∃ h', Hunt.hunt_handle (Hunt.HuAnswer (Ok (transport (json_ok (JObj [("rows", JArr [])]))))) asked_hunt = Some h' ∧
    Hunt.hu_result h' = JObj [("rows", JArr [])].
Proof.
  destruct (hunt_query_answered "http://cp" asked_hunt (Hunt.hunt_request "SELECT 1 AS ok") rows_env
    (json_ok (JObj [("rows", JArr [])])) [EFetch (upstream_query "http://cp" "SELECT 1 AS ok")]
    (transport (json_ok (JObj [("rows", JArr [])]))) asked_hunt_star eq_refl eq_refl (transport_arrives _ _))
    as (sql & h' & _ & _ & _ & Hh & _ & Hm).
  exists h'. split; [exact Hh|exact (proj1 Hm)].
Defined.

(** ** An override *)
Section OverrideFlow.
Variable orch : string.

Definition override_body (label reason : string) : jsval := JObj [("label", JStr label); ("reason", JStr reason)].

(** The route's request and answer for a signed-in user. *)
Lemma override_passes user k b :
  passes_through (override_post orch (Ok (Some user)) k (Some b)) (override_request orch user k b)
    (Some (error_body "invalid JSON from orchestrator")) (λ _, RJson 503 (error_body "orchestrator unavailable")).
Proof.
  change (override_post orch (Ok (Some user)) k (Some b)) with
    (try_catch (let! res := fetch (override_request orch user k b) in
                let! data := or_else (read_json res) (error_body "invalid JSON from orchestrator") in
                respond_json (ft_status res) data)
       (λ _, ret (RJson 503 (error_body "orchestrator unavailable"))))%eff.
  apply passes_through_shape; [intros x; unfold read_json; by destruct (ft_json x)|exact (quiet_handler _)].
Qed.

Lemma answered_local a s : wb_local (override_answered a s) = wb_local s.
Proof. unfold override_answered, toast. by repeat case_match. Qed.

(** The toast for a refused override. *)
Definition refusal_toast (v : jsval) : string :=
  if is_string (prop "error" v) then to_string (prop "error" v) else "Override failed".

(** C25: an override of a case page reaches the orchestrator as it was
    entered, on behalf of the signed-in user, and its outcome is told. A
    submission with a reason sends one request; without a session the route
    sends nothing and the page says so; with one, the orchestrator receives
    exactly the label and the reason for this case with the user as actor,
    and the page reloads the trace exactly when the orchestrator accepted
    and else shows its refusal. In every case the page goes on showing the
    override. *)
Theorem override_delivered session k s now label reason w r l x record :
  k ≠ EmptyString → trim reason ≠ EmptyString →
  let s1 := dialog_submit k now label reason s in
  run (override_post orch (Ok session) k (Some (override_body label reason))) w = (Ok r, l) → arrives r x →
  let s2 := override_answered (Ok x) s1 in
  wb_requests s1 = wb_requests s ++ [override_body label reason] ∧
  statusLabel k record s2 = "Override: " +:+ replace_char "_"%char " "%char label ∧
  match session with
  | None => fetches l = [] ∧ wb_toasts s2 = wb_toasts s1 ++ ["unauthorized"]
  | Some user =>
      let rq := override_request orch user k (override_body label reason) in
      fetches l = [rq] ∧ rq_body rq = Some (override_body label reason) ∧ ("X-Actor-Id", su_id user) ∈ rq_headers rq ∧
      match forward (env_fetch w 0 rq) (Some (error_body "invalid JSON from orchestrator"))
              (λ _, RJson 503 (error_body "orchestrator unavailable")) with
      | RJson st v =>
          if (200 <=? st) && (st <=? 299)
          then wb_traceLoads s2 = S (wb_traceLoads s) ∧ wb_toasts s2 = wb_toasts s1
          else wb_traceLoads s2 = wb_traceLoads s ∧ wb_toasts s2 = wb_toasts s1 ++ [refusal_toast (json_normal v)]
      | _ => False
      end
  end.
Proof.
  intros Hk Hreason s1 E A s2. apply String.eqb_neq in Hk. apply String.eqb_neq in Hreason.
  assert (E1 : s1 = handleOverrideSubmit k now label reason s) by (unfold s1, dialog_submit; by rewrite Hreason).
  unfold handleOverrideSubmit in E1. rewrite Hk in E1. rewrite E1 in *. split; [done|]. split.
  { assert (Hl : wb_local s2 = Some label) by (unfold s2; rewrite answered_local; by rewrite ?E1).
    unfold statusLabel, overrideApplied, overrideLabel. rewrite Hl. by rewrite (bool_decide_eq_true_2 (is_Some (Some label))) by (by eexists). }
  unfold s2, override_answered. destruct session as [user|].
  - destruct (override_passes user k (override_body label reason) w []) as [Ha Hf]. unfold run in E.
    rewrite E in Ha, Hf. injection Ha as ->. split; [exact Hf|]. split; [done|]. split; [right; left|]. cbn [length] in A.
    destruct (forward _ _ _) as [st v| | |] eqn:F.
    2-4: unfold forward in F; repeat case_match; done.
    destruct A as [Hst Hj]. unfold ft_ok. rewrite Hst, Hj. rewrite E1. destruct (_ && _); by split.
  - injection E as <- <-. destruct A as [Hst Hj]. unfold ft_ok. rewrite Hst, Hj, E1. by split.
Qed.
End OverrideFlow.

Definition accepting_env : env := mkEnv (λ _ _, Ok (mkFetched 200 (Some (JObj [("ok", JBool true)])) EmptyString)) (λ _, 0).

Lemma override_delivered_witness :
  let s2 := override_answered (Ok (transport (json_ok (JObj [("ok", JBool true)]))))
              (dialog_submit "c1" 7 "benign" "known admin job" (workbench_mount sample_store)) in
  wb_traceLoads s2 = 1%nat ∧ wb_toasts s2 = ["Override submitted"].
Proof.
  assert (Hne : "c1" ≠ EmptyString) by discriminate.
  destruct (override_delivered "http://orch" (Some (mkUser "u1" None)) "c1" (workbench_mount sample_store) 7 "benign" "known admin job"
    accepting_env (json_ok (JObj [("ok", JBool true)]))
    [EFetch (override_request "http://orch" (mkUser "u1" None) "c1" (override_body "benign" "known admin job"))]
    (transport (json_ok (JObj [("ok", JBool true)]))) (caseRecord "10:00" (CaseStore.sample_event "c1") None None)
    Hne) as (_ & _ & _ & _ & _ & H).
  - vm_compute. intros E. discriminate E.
  - reflexivity.
  - apply transport_arrives.
  - exact H.
Defined.
