(* ===== verification/TriageDurable.v ===== *)
(** * A verdict survives a reload

    The page asks the triage route twice over: [POST] answers the request that
    starts a triage, [GET] the one a later load of the page sends first. This
    file follows the verdict of a case from the first answer to the second,
    through any interleaving of requests, and shows the one kind of answer
    that is not kept: that of a request that joined another request's job. *)
From S2P Require Import Prelude JsObject JsNum JsString JsValue JsDate Types Effects.
From S2P Require Import CaseStore CaseRepository UseTriage TriageFeatures TriageRoute TriageProofs TriageTheorems Flows.

(** A value the page takes for a verdict. *)
Definition readable (v : jsval) : Prop := is_Some (as_verdict (json_normal v)).

Lemma readable_object v : readable v → ∃ o, v = JObj o.
Proof.
  intros [tv E]. destruct v as [| |b|n|s|l|o]; try discriminate E; [|by eexists].
  simpl in E. destruct (is_finite n); [destruct n|]; discriminate E.
Qed.

Lemma readable_truthy v : readable v → truthy v = true.
Proof. by intros [o ->]%readable_object. Qed.

Lemma readable_normal v : readable v → truthy (json_normal v) = true.
Proof. by intros [o ->]%readable_object. Qed.

Section Durable.
Context {Db : Type} `{CaseTablesLaws Db}.
Variable orch : string.
Variable d0 : Db.
Variable k : string.
Notation config := (config Db).
Notation step := (step (Db := Db) orch).
Implicit Types c : config.

(** ** What one step does to a row *)

Lemma run_step_jobs ans i c c' : run_step orch ans i c = Some c' → jobs_le (c_jobs c) (c_jobs c').
Proof.
  unfold run_step. intros (j & Hi & E)%bind_Some.
  destruct (j_pc j) as [|[[]|e]| |x|x] eqn:Hpc; try discriminate; try (apply bind_Some in E as (rd & W & E));
    repeat (case_match; try discriminate); injection E as <-; cbn; apply jobs_le_insert; try done; by rewrite Hpc.
Qed.

Lemma handler_step_jobs ans i c c' : handler_step ans i c = Some c' → jobs_le (c_jobs c) (c_jobs c').
Proof.
  unfold handler_step. intros (h & Hi & E)%bind_Some.
  destruct (h_pc h) as [|[p|e]|a u r|a r x|a|a [[]|e]|rid|rid v|rid v [[]|e]|rid m|rid m [[]|e]|rid|r|e]; try discriminate;
    try (apply bind_Some in E as (rd & W & E)); repeat (case_match; try discriminate); injection E as <-; cbn;
    auto using jobs_le_refl, jobs_le_app.
Qed.

Lemma step_jobs c c' : step c c' → jobs_le (c_jobs c) (c_jobs c').
Proof.
  intros [[x a|i ans|i ans] E]; simpl in E; [injection E as <-; apply jobs_le_refl|by eapply handler_step_jobs|by eapply run_step_jobs].
Qed.

(** The row of [k] stays, with its verdict or with a job's result. *)
Definition row_moves (l : list job) (d d' : Db) : Prop :=
  ∀ r, db_case d k = Some r → ∃ r', db_case d' k = Some r' ∧ (cw_verdict r' = cw_verdict r ∨ result l k (cw_verdict r')).

Lemma row_moves_refl l d : row_moves l d d.
Proof. intros r E. eauto. Qed.

Lemma row_moves_update l k0 f d :
  (∀ r, cw_case_id (f r) = cw_case_id r) → (k0 = k → ∀ r, cw_verdict (f r) = cw_verdict r ∨ result l k (cw_verdict (f r))) →
  row_moves l d (db_update_case k0 f d).
Proof.
  intros Hid Hf r E. destruct (decide (k = k0)) as [<-|Hne].
  - rewrite update_case_eq, E by done. eexists. split; [done|]. by apply Hf.
  - rewrite update_case_ne by done. eauto.
Qed.

Lemma row_moves_upsert l h a now d : row_moves l d (upsert_case h a now d).
Proof.
  intros r E. unfold upsert_case. destruct (decide (k = h_case h)) as [->|Hne].
  - destruct (upsert_get now now now (h_case h) None (JObj a) JNull JUndef d) as (r' & E' & _ & Hr).
    rewrite E in Hr. exists r'. split; [done|]. left. apply Hr.
  - rewrite upsert_other by done. eauto.
Qed.

Lemma row_moves_write l ans w d rd :
  exec_write ans w d = Some rd → (∀ now, row_moves l d (w now d)) → row_moves l d rd.2.
Proof.
  intros E Hw. destruct ans as [now|[] now e| |]; simpl in E; simplify_eq; simpl; auto using row_moves_refl.
Qed.

Lemma step_row c c' : inv orch d0 c → step c c' → row_moves (c_jobs c) (c_db c) (c_db c').
Proof.
  intros I [[x a|i ans|i ans] E]; simpl in E.
  - injection E as <-. apply row_moves_refl.
  - unfold handler_step in E. apply bind_Some in E as (h & Hi & E). pose proof (inv_handlers _ _ _ I i h Hi) as Hok. unfold handler_ok in Hok.
    destruct (h_pc h) as [|[p|e]|a u r|a r x|a|a [[]|e]|rid|rid v|rid v [[]|e]|rid m|rid m [[]|e]|rid|r|e]; try discriminate;
      try (apply bind_Some in E as (rd & W & E)); repeat (case_match; try discriminate); injection E as <-; cbn;
      try apply row_moves_refl; (eapply row_moves_write; [exact W|]); intros now.
    + apply row_moves_upsert.
    + apply row_moves_update; [done|]. intros <- r. right. by eapply settled_result.
    + apply row_moves_update; [done|]. intros _ r. by left.
  - unfold run_step in E. apply bind_Some in E as (j & Hi & E).
    destruct (j_pc j) as [|[[]|e]| |x|x]; try discriminate; try (apply bind_Some in E as (rd & W & E));
      repeat (case_match; try discriminate); injection E as <-; cbn; try apply row_moves_refl.
    eapply row_moves_write; [exact W|]. intros now. apply row_moves_update; [done|]. intros _ r. by left.
Qed.

(** ** The stored verdict *)

(** The case has a verdict the page can read, given for it. *)
Definition kept c : Prop :=
  ∃ r, db_case (c_db c) k = Some r ∧ readable (cw_verdict r) ∧ verdict_ok d0 (c_jobs c) k (cw_verdict r).

(** The jobs of the case only have such results. *)
Definition sound c : Prop := ∀ v, result (c_jobs c) k v → readable v.

Lemma sound_before c c' : step c c' → sound c' → sound c.
Proof. intros Hs S v Hv. apply S. eapply result_mono; [by apply step_jobs|done]. Qed.

Lemma kept_step c c' : inv orch d0 c → step c c' → sound c' → kept c → kept c'.
Proof.
  intros I Hs S (r & E & Hr & Hv). pose proof (step_jobs c c' Hs) as Hle.
  destruct (step_row c c' I Hs r E) as (r' & E' & [Hv'|Hv']); exists r'; (split; [done|]).
  - rewrite Hv'. split; [done|]. by eapply verdict_ok_mono.
  - pose proof (result_mono _ _ _ _ Hle Hv'). split; [by apply S|by left].
Qed.

Definition stored_row c : Prop := is_Some (db_case (c_db c) k).

Lemma stored_row_step c c' : inv orch d0 c → step c c' → stored_row c → stored_row c'.
Proof. intros I Hs [r E]. destruct (step_row c c' I Hs r E) as (r' & E' & _). by exists r'. Qed.

(** ** Where a request of the case relies on the row *)
Definition relies c (pc : hpc) : Prop :=
  match pc with
  | HGot (Ok (Some r)) => cw_triage_status r = TComplete → readable (cw_verdict r) → kept c
  | HUpserted _ (Ok _) | HAwait _ | HComplete _ _ => stored_row c
  | HCompleted _ _ (Ok _) => kept c
  | _ => True
  end.

Record durable c : Prop := {
  du_handlers : ∀ i h, c_handlers c !! i = Some h → h_case h = k → relies c (h_pc h);
  du_cache : ∀ v, c_cache c !! k = Some v → kept c
}.

Lemma relies_step c c' pc : inv orch d0 c → step c c' → sound c' → relies c pc → relies c' pc.
Proof.
  intros I Hs S. unfold relies. repeat case_match; try done; eauto using kept_step, stored_row_step.
Qed.

Lemma after_get_relies c c' h p : relies c' (after_get h p c).
Proof. unfold after_get. repeat case_match; done. Qed.

(** The row a request writes for itself. *)
Lemma handler_step_relies ans i c c' h pc :
  inv orch d0 c → durable c → sound c' → handler_step ans i c = Some c' → c_handlers c !! i = Some h → h_case h = k →
  c_handlers c' = <[i := mkHandler (h_case h) (h_alert h) pc]> (c_handlers c) → relies c' pc ∧ (∀ v, c_cache c' !! k = Some v → kept c').
Proof.
  intros I [D1 D2] S E Hi Hk Hc'. assert (Hs : step c c') by (by exists (EvHandler i ans)).
  assert (D2' : ∀ v, c_cache c !! k = Some v → kept c') by (intros v Hv; eapply kept_step; eauto).
  specialize (D1 i h Hi Hk). pose proof (inv_handlers _ _ _ I i h Hi) as Hok. unfold handler_ok in Hok.
  assert (Hpc : c_handlers c' !! i = Some (mkHandler (h_case h) (h_alert h) pc)).
  { rewrite Hc'. apply list_lookup_insert_eq. by eapply lookup_lt_Some. }
  unfold handler_step in E. rewrite Hi in E. cbn [mbind option_bind] in E.
  assert (Hlt : (i < length (c_handlers c))%nat) by (by eapply lookup_lt_Some).
  destruct (h_pc h) as [|[p|e]|a u r|a r x|a|a [[]|e]|rid|rid v|rid v [[]|e]|rid m|rid m [[]|e]|rid|r|e] eqn:Hp; try discriminate;
    try (apply bind_Some in E as (rd & W & E));
    repeat match type of E with match ?x with _ => _ end = _ => destruct x; try discriminate end; injection E as <-; cbn in Hpc;
    rewrite list_lookup_insert_eq in Hpc by done; injection Hpc as <-; cbn [relies];
    try (split; [done|exact D2']).
  - split; [|exact D2']. unfold getCase. destruct (db_case (c_db c) (h_case h)) as [r|] eqn:Er; [|done].
    intros Hc Hr. rewrite Hk in Er. exists r. split; [done|]. split; [done|]. by apply (inv_rows _ _ _ I k r Er).
  - split; [apply after_get_relies|exact D2'].
  - split; [|exact D2']. destruct ans as [now|b now e| |]; simpl in W; simplify_eq; cbn; [|done].
    unfold stored_row, upsert_case. cbn. destruct (upsert_get now now now (h_case h) None (JObj a) JNull JUndef (c_db c)) as (r' & E' & _).
    rewrite <- Hk. by exists r'.
  - split; [|exact D2']. destruct ans as [now|b now e| |]; simpl in W; simplify_eq; cbn; [|done].
    destruct D1 as [r Hr]. apply settled_result in Hok. rewrite Hk in Hok |- *. eexists.
    split; [cbn; unfold markTriageComplete; rewrite update_case_eq, Hr by done; reflexivity|]. split; [by apply S|by left].
  - split; [done|]. intros w _. by eapply kept_step.
Qed.

Lemma handler_step_cache ans i c c' h :
  handler_step ans i c = Some c' → c_handlers c !! i = Some h → h_case h ≠ k → c_cache c' !! k = c_cache c !! k.
Proof.
  unfold handler_step. intros E Hi Hk. rewrite Hi in E. cbn in E.
  destruct (h_pc h) as [|[p|e]|a u r|a r x|a|a [[]|e]|rid|rid v|rid v [[]|e]|rid m|rid m [[]|e]|rid|r|e]; try discriminate;
    try (apply bind_Some in E as (rd & W & E)); repeat (case_match; try discriminate); injection E as <-; try done.
  cbn. by rewrite lookup_insert_ne.
Qed.

Lemma run_step_rest ans i c c' :
  run_step orch ans i c = Some c' → c_handlers c' = c_handlers c ∧ c_cache c' = c_cache c.
Proof.
  unfold run_step. intros (j & Hi & E)%bind_Some. repeat (case_match; try discriminate);
    try (apply bind_Some in E as (? & _ & E)); by injection E as <-.
Qed.

Lemma durable_step c c' : inv orch d0 c → step c c' → (sound c → durable c) → sound c' → durable c'.
Proof.
  intros I Hs D S. specialize (D (sound_before c c' Hs S)). pose proof D as [D1 D2]. pose proof Hs as [[x a|i ans|i ans] E]; simpl in E.
  - injection E as <-. split; [|exact D2]. intros i h [Hi|[_ Hi]]%lookup_app_Some; [by eapply D1|].
    apply list_lookup_singleton_Some in Hi as [_ <-]. done.
  - destruct (handler_step_shape ans i c c' E) as (h & pc & Hi & _ & Hc').
    assert (Others : ∀ j h', j ≠ i → c_handlers c !! j = Some h' → h_case h' = k → relies c' (h_pc h')).
    { intros j h' _ Hj Hk. eapply relies_step; eauto. }
    destruct (decide (h_case h = k)) as [Hk|Hk].
    + destruct (handler_step_relies ans i c c' h pc I D S E Hi Hk Hc') as [Hr Hcache]. split; [|exact Hcache].
      intros j h' Hj Hk'. rewrite Hc' in Hj. apply list_lookup_insert_Some in Hj as [(_ & <- & _)|[Hne Hj]]; [done|eauto].
    + split.
      * intros j h' Hj Hk'. rewrite Hc' in Hj. apply list_lookup_insert_Some in Hj as [(_ & <- & _)|[Hne Hj]]; [done|eauto].
      * intros v Hv. apply (kept_step c c' I Hs S), (D2 v).
        rewrite <- Hv. symmetry. by eapply handler_step_cache.
  - destruct (run_step_rest ans i c c' E) as [Hh Hc]. split; [rewrite Hh|rewrite Hc].
    + intros j h' Hj Hk. eapply relies_step; eauto.
    + intros v Hv. eapply kept_step; eauto.
Qed.

Lemma init_durable : durable (init d0).
Proof. split; simpl; intros *; rewrite ?lookup_nil, ?lookup_empty; done. Qed.

Lemma durable_reachable c : star step (init d0) c → sound c → durable c.
Proof.
  intros R. refine (proj2 (star_invariant _ (λ c, inv orch d0 c ∧ (sound c → durable c)) (init d0) c _ _ R)).
  - split; [apply init_inv|]. intros _. apply init_durable.
  - intros a b [I D] Hs. split; [by eapply step_inv|]. by eapply durable_step.
Qed.

Lemma sound_star c c' : star step c c' → sound c' → sound c.
Proof. induction 1 as [|a b e R IH Hs]; [done|]. intros S. apply IH. by eapply sound_before. Qed.

Lemma kept_star c c' : star step (init d0) c → star step c c' → sound c' → kept c → kept c'.
Proof.
  intros R0 R. induction R as [|a b e R IH Hs]; [done|]. intros S K.
  eapply kept_step; [eapply inv_reachable, star_trans; [exact R0|exact R]|exact Hs|exact S|].
  apply IH; [done| |done]. by eapply sound_before.
Qed.

Lemma after_get_done h p c v :
  after_get h p c = HDone (json_ok v) →
  (∃ r, p = Some r ∧ cw_triage_status r = TComplete ∧ cw_verdict r = v) ∨ c_cache c !! h_case h = Some v.
Proof.
  unfold after_get. intros E.
  assert (Rest : ∀ pc, pc = HDone (json_ok v) → pc = match c_inflight c !! h_case h with
      | Some rid => HWait rid
      | None => match needs_baseline (enrich_sync (h_alert h)) with
                | Some (u, r) => HBase (enrich_sync (h_alert h)) u r
                | None => HUpsert (enrich_sync (h_alert h)) end end → False).
  { intros pc ->. repeat case_match; discriminate. }
  assert (Cache : match match c_cache c !! h_case h with Some v0 => if truthy v0 then Some v0 else None | None => None end with
    | Some v0 => HDone (json_ok v0)
    | None => match c_inflight c !! h_case h with
      | Some rid => HWait rid
      | None => match needs_baseline (enrich_sync (h_alert h)) with
                | Some (u, r) => HBase (enrich_sync (h_alert h)) u r
                | None => HUpsert (enrich_sync (h_alert h)) end end end = HDone (json_ok v) → c_cache c !! h_case h = Some v).
  { destruct (c_cache c !! h_case h) as [w|]; [destruct (truthy w)|]; intros Ew; [by injection Ew as ->|exfalso; by eapply Rest..]. }
  destruct p as [r|]; [|by auto]. destruct (decide (cw_triage_status r = TComplete)); [|by auto].
  destruct (truthy (cw_verdict r)); [|by auto]. injection E as <-. eauto.
Qed.

(** A verdict answered to a request that did not wait for another one's job
    is stored. *)
Lemma answered_kept ans i c c' h v :
  inv orch d0 c → durable c → sound c' → handler_step ans i c = Some c' → c_handlers c !! i = Some h → h_case h = k →
  (∀ rid, h_pc h ≠ HWait rid) → h_pc <$> c_handlers c' !! i = Some (HDone (json_ok v)) → readable v → kept c'.
Proof.
  intros I D S E Hi Hk Hw Hv Hr. assert (Hs : step c c') by (by exists (EvHandler i ans)).
  apply (kept_step c c' I Hs S). destruct D as [D1 D2]. specialize (D1 i h Hi Hk).
  assert (Hlt : (i < length (c_handlers c))%nat) by (by eapply lookup_lt_Some).
  unfold handler_step in E. rewrite Hi in E. cbn [mbind option_bind] in E.
  destruct (h_pc h) as [|[p|e]|a u r|a r x|a|a [[]|e]|rid|rid w|rid w [[]|e]|rid m|rid m [[]|e]|rid|r|e] eqn:Hp; try discriminate;
    try (apply bind_Some in E as (rd & W & E));
    repeat match type of E with match ?x with _ => _ end = _ => destruct x; try discriminate end; injection E as <-; cbn in Hv;
    rewrite list_lookup_insert_eq in Hv by done; cbn in Hv; try discriminate Hv; try done.
  - injection Hv as Hv. destruct (after_get_done h p c v Hv) as [(r & -> & Hc & Hx)|Hc].
    + apply D1; [done|]. by rewrite Hx.
    + rewrite Hk in Hc. by eapply D2.
  - by destruct (Hw rid).
Qed.

Lemma kept_reads c x :
  inv orch d0 c → kept c → arrives (get_status (c_db c) k) x →
  ∃ u tv, (stored_complete d0 k u ∨ answered_by orch c k u) ∧ as_verdict (json_normal u) = Some tv ∧
          read_get (Ok x) = Some (GotVerdict tv).
Proof.
  intros I (r & Er & Hr & Hv) A. pose proof Hr as [tv Etv]. exists (cw_verdict r), tv. split_and!; [|done|].
  - destruct Hv as [Hv|Hv]; [right; by eapply result_answered|by left].
  - rewrite (status_read _ _ _ A). unfold getCase. rewrite Er, readable_normal, Etv by done. done.
Qed.
End Durable.

Lemma post_verdict_body r y tv :
  arrives r y → read_post (Ok y) = Some (PostVerdict tv) → answer_shape (HDone r) →
  ∃ v, r = json_ok v ∧ as_verdict (json_normal v) = Some tv.
Proof.
  intros A E [[v ->]|[m ->]]; destruct A as [Hs Hj]; unfold read_post, ft_ok in E; rewrite Hs, Hj in E; cbn in E.
  - exists v. split; [done|]. destruct (as_verdict (json_normal v)); [|discriminate E]. by injection E as <-.
  - discriminate E.
Qed.

(** ** Across a reload *)
Section Reload.
Context {Db : Type} `{CaseTablesLaws Db}.
Variable orch : string.
Notation step := (step (Db := Db) orch).

(** C6: a verdict the page was given is still there after a reload. Once a
    triage request that did not wait for another request's job is answered
    with a verdict, then, whatever requests follow and however they
    interleave, as long as the orchestrator answers the case with verdicts:
    the status route answers every later load of the page with a verdict of
    this case, the page stores and shows exactly that one, and it is the
    verdict first given when no other was ever given for the case. *)
Theorem verdict_survives_reload (d0 : Db) c ans i h c1 r y tv c2 x :
  star step (init d0) c → c_handlers c !! i = Some h → (∀ rid, h_pc h ≠ HWait rid) →
  handler_step ans i c = Some c1 → h_pc <$> c_handlers c1 !! i = Some (HDone r) → arrives r y →
  read_post (Ok y) = Some (PostVerdict tv) →
  star step c1 c2 → (∀ u, answered_by orch c2 (h_case h) u → readable u) →
  arrives (get_status (c_db c2) (h_case h)) x →
  ∃ u tv', (stored_complete d0 (h_case h) u ∨ answered_by orch c2 (h_case h) u) ∧ as_verdict (json_normal u) = Some tv' ∧
    read_get (Ok x) = Some (GotVerdict tv') ∧
    (∀ now flag s, alive s flag = true → is_Some (obj_get (h_case h) (hs_store s)) →
       selectVerdict (h_case h) (hs_store (get_answered (h_case h) now flag (GotVerdict tv') s)) = Some tv') ∧
    ((∀ w, stored_complete d0 (h_case h) w ∨ answered_by orch c2 (h_case h) w → as_verdict (json_normal w) = Some tv) → tv' = tv).
Proof.
  intros R Hi Hw E Hr A Hy R2 Hsound Ax. assert (Hs : step c c1) by (by exists (EvHandler i ans)).
  assert (R1 : star step (init d0) c1) by (by eapply star_snoc).
  pose proof (inv_reachable orch d0 c R) as I. assert (I2 : inv orch d0 c2) by (eapply inv_reachable, star_trans; eauto).
  assert (S2 : sound (h_case h) c2) by (intros v Hv; apply Hsound; by eapply result_answered).
  assert (S1 : sound (h_case h) c1) by (by eapply sound_star).
  assert (D : durable d0 (h_case h) c) by (eapply durable_reachable; [exact R|]; by eapply sound_before).
  destruct (handler_step_shape ans i c c1 E) as (h0 & pc & Hi0 & Hsh & Hc1). simplify_eq.
  rewrite Hc1, list_lookup_insert_eq in Hr by (by eapply lookup_lt_Some). cbn in Hr. injection Hr as ->.
  destruct (post_verdict_body r y tv A Hy Hsh) as (v & -> & Hv).
  assert (K1 : kept d0 (h_case h) c1).
  { eapply (answered_kept orch d0 (h_case h) ans i c c1 h v); try done; [|by eexists].
    rewrite Hc1, list_lookup_insert_eq by (by eapply lookup_lt_Some). done. }
  destruct (kept_reads orch d0 (h_case h) c2 x I2) as (u & tv' & Hu & Eu & Hg); [by eapply kept_star|done|].
  exists u, tv'. split_and!; [done..| |].
  - intros now flag s Hal Hst. unfold get_answered. rewrite Hal. cbn. by apply selectVerdict_set.
  - intros Hall. specialize (Hall u Hu). congruence.
Qed.
End Reload.

(** ** Runs *)

Definition verdict_reply : answer := AnsFetch (Ok (mkFetched 200 (Some full_verdict) EmptyString)).

(** One request up to its stored verdict, its answer, and a second request of
    the same case, which is answered from the database. *)
Definition stored_run : config MemDb := run_events (take 11 (solo "c1" 0 0 verdict_reply)).
Definition answered_run : config MemDb := run_events (solo "c1" 0 0 verdict_reply).
Definition again_run : config MemDb :=
  default answered_run (exec_all "http://orch" [EvArrive "c1" sample_alert; EvHandler 1 (AnsDone 5); EvHandler 1 AnsTick] answered_run).

Lemma stored_run_star : star (step "http://orch") (init sample_db) stored_run.
Proof. apply run_events_star. vm_compute. eexists; reflexivity. Qed.

Lemma again_run_star : star (step "http://orch") answered_run again_run.
Proof.
  assert (E : exec_all "http://orch" [EvArrive "c1" sample_alert; EvHandler 1 (AnsDone 5); EvHandler 1 AnsTick] answered_run = Some again_run)
    by (vm_compute; reflexivity).
  exact (exec_all_star _ _ _ _ E).
Qed.

Definition stored_handler : handler := mkHandler "c1" sample_alert (HCompleted 0 full_verdict (Ok tt)).

Lemma stored_run_handler : c_handlers stored_run !! 0%nat = Some stored_handler.
Proof. vm_compute. reflexivity. Qed.

Lemma stored_run_next :
  handler_step AnsTick 0 stored_run = Some answered_run ∧ h_pc <$> c_handlers answered_run !! 0%nat = Some (HDone (json_ok full_verdict)).
Proof. vm_compute. done. Qed.

Lemma again_run_answers x : x ∈ c_answers again_run → x.2 = Ok (mkFetched 200 (Some full_verdict) EmptyString).
Proof. vm_compute c_answers. intros ->%list_elem_of_singleton. done. Qed.

Lemma again_run_readable u : answered_by "http://orch" again_run "c1" u → readable u.
Proof.
  intros (a & up & _ & Ha%again_run_answers & _ & Hj). cbn in Ha. injection Ha as ->. injection Hj as <-.
  unfold readable. vm_compute. by eexists.
Qed.

Lemma verdict_survives_reload_witness :
  ∃ x tv', arrives (get_status (c_db again_run) "c1") x ∧ read_get (Ok x) = Some (GotVerdict tv').
Proof.
  destruct verdict_read_ok as (tv & Hy & _).
  destruct (verdict_survives_reload "http://orch" sample_db stored_run AnsTick 0 stored_handler answered_run (json_ok full_verdict)
    (transport (json_ok full_verdict)) tv again_run (transport (get_status (c_db again_run) "c1"))
    stored_run_star stored_run_handler (λ rid E, match E in _ = pc return match pc with HWait _ => False | _ => True end with eq_refl => I end)
    (proj1 stored_run_next) (proj2 stored_run_next) (transport_arrives _ _) Hy again_run_star again_run_readable)
    as (u & tv' & _ & _ & Hg & _).
  - unfold get_status. destruct (getCase _ _); apply transport_arrives.
  - exists (transport (get_status (c_db again_run) "c1")), tv'. split; [|exact Hg].
    unfold get_status. destruct (getCase _ _); apply transport_arrives.
Defined.

(** The restriction is needed. A request that waits for another one's job is
    answered as soon as that job settles, before the verdict is stored; when
    storing it fails, its page has shown a verdict that a reload no longer
    finds: the status says that the triage failed. *)
Definition joined_schedule : list event :=
  waiting_schedule ++
  [EvJob 0 (AnsDone 3); EvJob 0 AnsTick; EvJob 0 verdict_reply; EvJob 0 AnsTick; EvHandler 1 AnsTick;
   EvHandler 0 AnsTick; EvHandler 0 (AnsFail false 4 (Error "connection lost")); EvHandler 0 AnsTick;
   EvHandler 0 (AnsDone 5); EvHandler 0 AnsTick].

Definition joined_run : config MemDb := run_events joined_schedule.

Lemma joined_verdict_lost :
  star (step "http://orch") (init sample_db) joined_run ∧
  h_pc <$> c_handlers joined_run !! 1%nat = Some (HDone (json_ok full_verdict)) ∧
  read_get (Ok (transport (get_status (c_db joined_run) "c1"))) = Some (GotFailed "connection lost").
Proof.
  split; [apply run_events_star; vm_compute; eexists; reflexivity|]. split; vm_compute; reflexivity.
Qed.
